(* ===== verification/_CoqProject ===== *)
-Q . S2P
Prelude.v
Dll.v
Bitmap.v
LinkedList.v
Buddy.v
BuddySpec.v
StringLib.v
MathLib.v
Vector.v
MemLayout.v
Heap.v
HeapSpec.v
HeapOps.v
HeapFree.v
PageDir.v
PageDirSpec.v
PageClone.v
PageEnv.v
HeapPages.v
DirClone.v
DirFree.v
Memory.v
UserPtr.v
RbTree.v
RbTreeSpec.v
RbSet.v
RbErase.v
Proc.v
Sched.v
ProcCalls.v
ProcSpec.v
WaitSpec.v
CloneSpec.v
ProcEnv.v
Locks.v
Fs.v
FsCalls.v
FsSpec.v
Console.v
Keyboard.v
Printf.v
Support.v
Desc.v
Pci.v
Ahci.v
AhciSpec.v
AhciDisk.v
AddrSpace.v
Startup.v
Kmain.v
Elf.v
ElfSpec.v
ElfEnv.v
Syscall.v
