(* ===== verification/Prelude.v ===== *)
(** * sysint: a model of the kernel and its correctness

    sysint is a small x86 kernel written in C++.  It sets up the processor
    (descriptor tables, interrupt controllers, timer), manages physical frames,
    page directories and a kernel heap, runs processes under a fair scheduler
    with condition variables, semaphores and mutexes, loads ELF programs, offers
    a tree of files with a terminal device, enumerates the PCI buses and drives
    AHCI disks.  This library
    translates that code to executable definitions and proves what the
    components promise.  Paths below are relative to the root of the sources.

    ** How the code is represented

    - An unsigned integer of [w] bits is a [Z] in [0, 2^w); every operation that
      can leave the range is followed by [wrap].  Signed readings are
      [to_signed].
    - Code that changes state is a function in the monad [M S]: it returns a
      result and a new state, or stops.  [Stop Panic] is a halt of the machine
      ([PANIC] or a failed [ASSERTH] of kernel/lib/klib.cpp), [Stop Fault] an
      access the language gives no meaning to (null or unmapped memory, an index
      out of range), [Stop Fuel] a loop that outlived its bound.  A failed
      [ASSERT] only prints in the sources and is not a stop.
    - Objects reached by pointers are kept by address in finite maps; the null
      pointer is 0.  The address that [new] or [kmalloc] returns is an argument
      of the operation or comes from an allocator interface.
    - A loop has a fuel argument where its recursion is not structural.  The
      fuel is computed from the state where the code is a whole operation, and
      the theorems say that the operation returns: no result is stated only
      for runs that end.

    ** Files, in the order of dependence

    Containers and libraries.
    - Prelude.v: machine integers, outcomes, the monad and its laws, tactics,
      hints and shared lemmas.
    - Dll.v: the pointer operations of the circular doubly linked lists that the
      sources write three times, on a store of links.
    - Bitmap.v (include/lib/bitmap.h), LinkedList.v (include/lib/linked_list.h),
      Vector.v (include/lib/vector.h): pointer- and word-level models, each
      shown to implement a function on positions or a sequence.
    - RbTree.v, RbTreeSpec.v, RbSet.v, RbErase.v (include/lib/rbtree.h): the
      tree on a node store; represented trees and zippers; the refinement to an
      ordered set against the class [KeyOrder] of what the two comparison
      operators owe the tree; deletion under the red-black conditions.
    - StringLib.v (kernel/lib/string.cpp) on byte memory with the direction
      flag, MathLib.v (kernel/lib/math.cpp).

    Memory.
    - Buddy.v, BuddySpec.v (kernel/mem/paging.cpp, kernel/include/paging.h): the
      frame allocator and its initialisation; its invariant and the theorems.
    - MemLayout.v: address arithmetic (kernel/include/memory.h, heap.h).
    - Heap.v, HeapSpec.v, HeapOps.v, HeapFree.v (kernel/mem/heap.cpp,
      kernel/include/heap.h): the heap on boundary tags; the block sequence it
      stands for; allocation; release and sequences of operations.
    - PageDir.v, PageDirSpec.v, PageClone.v, PageEnv.v (kernel/mem/paging.cpp):
      directories, tables and physical memory.  They call the frame allocator
      and the kernel allocator through the classes [FrameAlloc] and
      [TableAlloc]; PageEnv.v shows that the buddy allocator is an instance.
    - HeapPages.v: the heap's page calls carried out on the kernel's directory.
      DirClone.v: [page_dir::clone].  DirFree.v: the release of an address
      space, and its round trip with the clone.
    - Memory.v (kernel/mem/memory.cpp): [kmalloc], [kfree], [remap], [brk].
    - Startup.v (kernel/kmain.cpp, [memory::init], [paging::init]): start-up of
      memory, from the boot loader's figure to the running heap.  Kmain.v: the
      self-test of [kmain], as a client of the heap and the frames.
    - UserPtr.v (kernel/include/lib/userptr.h): checks of user pointers, copies.

    Processes.
    - Proc.v, Sched.v, ProcCalls.v (kernel/proc/proc.cpp,
      kernel/include/proc.h): the data and the queues; scheduling, sleeping,
      waking and exit; the system calls and the first processes.
    - ProcSpec.v: the scheduler and condition variables, through RbSet.v.
      WaitSpec.v: families and [waitpid].  CloneSpec.v: [clone], through
      DirClone.v and the lemmas of the queues.  ProcEnv.v: a small machine on
      which the results apply and the calls are evaluated.
    - Locks.v (kernel/include/lib/spinlock.h, mutex.h, semaphore.h): the locks
      and the step relation of the processes that use them.

    Files and devices.
    - Fs.v (kernel/fs/vfs.cpp, devfs.cpp, kernel/include/fs.h): nodes,
      superblocks, bind points, path walks, start-up.  FsCalls.v
      (kernel/fs/syscall.cpp): descriptors and the system calls.  FsSpec.v: the
      descriptor table as an append-only sequence, and terminal input and
      output.
    - Console.v, Keyboard.v, Printf.v (kernel/devices/console.cpp, keyboard.cpp,
      consoleprintf.cpp): the screen, the key queue, formatted output.
    - Support.v (kernel/lib/klib.cpp, langsupport.cpp, include/lib/lock.h):
      panics and assertions on the screen, the compiler's hooks for static
      locals, [new] and [delete], and the scope [lock_guard] over Locks.v.
    - Desc.v (kernel/gdt.cpp, idt.cpp, isr.cpp, devices/pit.cpp): descriptor
      tables, interrupt dispatch, timer.
    - Pci.v (kernel/devices/pci.cpp): configuration space and enumeration.
    - Ahci.v, AhciSpec.v, AhciDisk.v (kernel/devices/ahci.cpp): ports, command
      slots, transfers and start-up over a controller behind the class [Hba];
      what any controller is told; what one that keeps the promises of the class
      [DiskHba] makes of it.

    Programs.
    - AddrSpace.v: bytes at virtual addresses through the current page directory.
    - Elf.v, ElfSpec.v, ElfEnv.v (kernel/proc/elf.cpp, elf.h): the checks of the
      headers, the two passes over the segments; the theorems; a program that is
      loaded, made a process and scheduled.
    - Syscall.v (include/sys/syscall.h, kernel/syscall/syscall.cpp, entry.s): the
      user's stubs, the entry code and the table.

    ** What the theorems show

    - Frames: [alloc_frames] and [free_frames] on every state of the invariant,
      the initialisation, and any sequence of the two from boot: blocks handed
      out stay disjoint, and nothing halts or faults.  The one case in which
      frames are lost is stated exactly.
    - Heap: allocation and release as changes of the block sequence, and any
      sequence of them from boot; while frames last, all of its pages are mapped
      to frames of their own.
    - Paging: mapping, allocation and cloning of address spaces as changes of
      the function from pages to entries and of physical memory; a space that
      is cloned and destroyed leaves memory as it was; growing a process's
      break; the check of user regions.
    - Start-up: the parts above put together, from an empty directory.
    - Containers: refinement of sequences, sets of positions and ordered sets.
      The tree's deletion is correct on trees that satisfy the red-black
      conditions, for any sequence of deletions; insertion does not keep the
      conditions, and a run of both loses keys.
    - Processes: the scheduler charges the running process and takes the least
      virtual run time; waking empties a condition variable; [clone] adds one
      process, a copy of its caller, and [waitpid] takes one away.
    - Locks: invariants of the semaphore and the mutex over all interleavings,
      and two ways in which a lock is left unusable.
    - Files: a walk is the meaning of its path and ends; start-up builds a
      well-formed tree; descriptors; line input and output on the terminal.
    - Devices: the screen is a window on an unbounded printout, the keyboard a
      bounded queue; numbers are laid out and read back; the tables read back as
      written; time grows uniformly; the bus scan is complete and ends.
    - Disks: whatever the controller answers, the commands it is given cover
      consecutive parts of the sectors and of the buffer that the caller named;
      with a controller that works, a read or a write moves exactly those
      sectors.
    - Programs: a well-formed image is loaded so that the new address space
      shows its segments, with zeros after the file's part and read-only pages
      protected; images that fail a check are refused before anything changes.
      Every stub reaches the function of its name with its arguments.

    ** Bounds and fuel

    - Buddy: the loops over orders run with a fuel above [BUDDY_MAX_ORDER] = 10,
      the loop that makes the first blocks with the number of frames.
    - Heap and linked lists: the number of links plus one ([list_fuel]), since a
      walk visits a node once.  Trees: the number of nodes plus one
      ([tree_fuel]), since every loop follows a path.  Process lists and shared
      directories likewise ([proc_fuel], [sdir_fuel]).
    - Strings: one more than the length.  Digits of a 32-bit number: 32 or more
      steps, as the base is at least 2.  Square root: 16 digit pairs.
    - Path walks: the length of the path plus one; [node::get] through bind
      points: the number of superblocks plus one ([get_fuel]), which suffices
      when bind points do not form a cycle ([walk_total]).
    - [check_region]: the number of pages of the region, at most 2^20.
    - [_vprintf]: the length of the format plus one, since each round consumes a
      character.  PCI: 257 nested buses ([scan_fuel]), one more than the bus
      numbers there are, since a bus is listed before it is scanned.
    - AHCI: the code polls some registers without a limit; those loops have the
      fuel [spin], an argument, and the theorem on a working controller asks for
      more than the controller's latency.  Waiting while the port is busy is
      limited by the code (2^20 polls, [MAX_CYCLES]).  A transfer takes one
      round per command, at most 8 regions each ([transfer_fuel]).
    - ELF: 2^16 rounds over program headers ([ph_fuel]), as their number is a
      16-bit field.

    ** Parameters

    Numbers that come from the C library's headers are arguments, with the
    distinctness the code relies on as a hypothesis: signal numbers
    ([signums]), file types ([statnums]), flags of [open] ([filenums]), the
    width of [off_t] and the size of a [shared_ptr].  What hardware and memory
    hold is an argument too: the bytes a new heap header finds in its memory,
    the current page directory as seen by a check ([page_entry]), the characters
    typed, the configuration space, the disk controller ([Hba], a state machine
    of registers, of which AhciDisk.v has a concrete one).  The registers saved by the assembly are
    arguments of the calls that read them.

    ** Not modelled

    - Assembly other than the check and the pushes of kernel/syscall/entry.s
      (boot.s, irq.s, gdtflush.s, kernel/proc/*.s, klibasm.s): entry stubs,
      context and stack switches.  A switch is a result of the scheduler.
    - kernel/include/multiboot.h and what kernel/proc/elf.h holds beyond the
      structures and constants the loader uses: third-party headers;
      kernel/fs/ext2.h: an on-disk layout that no code reads.
    - Of kernel/include/lib/klib.h, the inline assembly for ports and control
      registers: its effects appear in the components that use it.  Of
      kernel/lib/langsupport.cpp, the hooks with empty bodies.  Of
      kernel/kmain.cpp, the order of the other initialisations, the part of the
      test that uses [shared_ptr], and the code that is compiled out.
    - user/: test programs.
    - Functions that only print (dumps of PCI devices and of page tables). *)

From Stdlib Require Import ZArith Lia.
From stdpp Require Import base option gmap list.

#[global] Open Scope Z_scope.

(** ** Machine integers

    A [w]-bit unsigned C++ integer is a [Z] in [0, 2^w); arithmetic that can
    leave the range is followed by an explicit wrap. *)

Definition wrap (w x : Z) : Z := x mod 2 ^ w.
Definition u8 (x : Z) : Z := wrap 8 x.
Definition u16 (x : Z) : Z := wrap 16 x.
Definition u32 (x : Z) : Z := wrap 32 x.
Definition u64 (x : Z) : Z := wrap 64 x.

(** Two's complement reading of a [w]-bit pattern (C's conversion to a signed
    type). *)
Definition to_signed (w x : Z) : Z :=
  let y := wrap w x in if y <? 2 ^ (w - 1) then y else y - 2 ^ w.
Definition i32 (x : Z) : Z := to_signed 32 x.
Definition i8 (x : Z) : Z := to_signed 8 x.

Definition is_u32 (x : Z) : Prop := 0 <= x < 2 ^ 32.

(** ** Outcomes and the state monad

    Kernel code either returns, or halts the machine ([PANIC] and a failed
    [ASSERTH] end in [khalt], klib.cpp), or performs an access the language
    gives no meaning to ([Fault]), or exhausts the fuel of a loop ([Fuel]). *)

Inductive stop : Type := Panic | Fault | Fuel.

Inductive outcome (A : Type) : Type :=
| Ok (a : A)
| Stop (s : stop).
Arguments Ok {A} a.
Arguments Stop {A} s.

Definition M (S A : Type) : Type := S -> outcome (A * S).

Definition ret {S A} (a : A) : M S A := fun s => Ok (a, s).
Definition bind {S A B} (c : M S A) (k : A -> M S B) : M S B :=
  fun s => match c s with Ok (a, s') => k a s' | Stop e => Stop e end.
Definition get {S} : M S S := fun s => Ok (s, s).
Definition put {S} (s : S) : M S unit := fun _ => Ok (tt, s).
Definition modify {S} (f : S -> S) : M S unit := fun s => Ok (tt, f s).
Definition halt {S A} (e : stop) : M S A := fun _ => Stop e.
(** [ASSERTH(b)] *)
Definition asserth {S} (b : bool) : M S unit := if b then ret tt else halt Panic.
(** Dereference: reading through a pointer that designates no object faults. *)
Definition deref {S A} (o : option A) : M S A :=
  match o with Some a => ret a | None => halt Fault end.

Declare Scope m_scope.
Delimit Scope m_scope with m.
Notation "x <-- c ;; k" := (bind c (fun x => k))
  (at level 90, c at next level, right associativity) : m_scope.
Notation "c ;;; k" := (bind c (fun _ => k))
  (at level 90, right associativity) : m_scope.
#[global] Open Scope m_scope.

Lemma bind_ok {S A B} (c : M S A) (k : A -> M S B) s a s' :
  c s = Ok (a, s') -> bind c k s = k a s'.
Proof. intros H. unfold bind. by rewrite H. Qed.

Lemma bind_stop {S A B} (c : M S A) (k : A -> M S B) s e :
  c s = Stop e -> bind c k s = Stop e.
Proof. intros H. unfold bind. by rewrite H. Qed.

Lemma bind_inv {S A B} (c : M S A) (k : A -> M S B) s r :
  bind c k s = Ok r -> exists a s', c s = Ok (a, s') /\ k a s' = Ok r.
Proof.
  unfold bind. destruct (c s) as [[a s']|e]; [|discriminate].
  intros H. by exists a, s'.
Qed.

Lemma bind_assoc {S A B C} (c : M S A) (f : A -> M S B) (k : B -> M S C) s :
  bind (bind c f) k s = bind c (fun a => bind (f a) k) s.
Proof. unfold bind. by destruct (c s) as [[a s']|e]. Qed.

Lemma asserth_true {S} (b : bool) (s : S) : b = true -> asserth b s = Ok (tt, s).
Proof. by intros ->. Qed.

Lemma deref_some {S A} (o : option A) a (s : S) : o = Some a -> deref o s = Ok (a, s).
Proof. by intros ->. Qed.

(** [mrun H] runs the first command of a computation whose result [H] gives. *)
Ltac mrun H := rewrite (bind_ok _ _ _ _ _ H).
(** [mgo] runs [get], [modify], [put], [ret] at the head of a computation. *)
Ltac mgo :=
  repeat first
    [ rewrite bind_assoc
    | rewrite (bind_ok get _ _ _ _ eq_refl)
    | rewrite (bind_ok (modify _) _ _ _ _ eq_refl)
    | rewrite (bind_ok (put _) _ _ _ _ eq_refl)
    | rewrite (bind_ok (ret _) _ _ _ _ eq_refl) ].

(** Existentials and conjunctions in the context. *)
Ltac deex :=
  repeat match goal with
  | H : exists x, _ |- _ => let x' := fresh x in destruct H as [x' H]
  | H : _ /\ _ |- _ => destruct H
  end.

(** [zcases] splits on every integer comparison of the goal. *)
Ltac zcases :=
  repeat match goal with
  | |- context [?x <=? ?y] => destruct (Z.leb_spec x y)
  | |- context [?x <? ?y] => destruct (Z.ltb_spec x y)
  | |- context [?x =? ?y] => destruct (Z.eqb_spec x y)
  end; cbn [andb orb negb].

(** ** Arithmetic shared by the components *)

Create HintDb sysint.

Lemma wrap_small w x : 0 <= x < 2 ^ w -> wrap w x = x.
Proof. apply Z.mod_small. Qed.

Lemma wrap_range w x : 0 <= w -> 0 <= wrap w x < 2 ^ w.
Proof. intros. apply Z.mod_pos_bound, Z.pow_pos_nonneg; lia. Qed.

Lemma u32_small x : 0 <= x < 2 ^ 32 -> u32 x = x.
Proof. apply wrap_small. Qed.

Lemma u32_range x : 0 <= u32 x < 2 ^ 32.
Proof. by apply wrap_range. Qed.

#[export] Hint Resolve u32_range : sysint.

Lemma u32_add_l x y : u32 (u32 x + y) = u32 (x + y).
Proof. unfold u32, wrap. by rewrite Zplus_mod_idemp_l. Qed.

Lemma pow2_pos x : 0 <= x -> 0 < 2 ^ x.
Proof. intros. apply Z.pow_pos_nonneg; lia. Qed.
#[export] Hint Resolve pow2_pos : sysint.

Lemma shiftr_div x n : 0 <= n -> Z.shiftr x n = x / 2 ^ n.
Proof. apply Z.shiftr_div_pow2. Qed.

Lemma shiftl_mul x n : 0 <= n -> Z.shiftl x n = x * 2 ^ n.
Proof. apply Z.shiftl_mul_pow2. Qed.

(** Multiples of [2^x]: the index of a buddy block, the start of a page. *)
Definition aligned (x i : Z) : Prop := (2 ^ x | i).

Lemma aligned_le x y i : 0 <= x <= y -> aligned y i -> aligned x i.
Proof.
  intros ? [k ->]. unfold aligned. exists (k * 2 ^ (y - x)).
  replace y with ((y - x) + x) at 1 by lia. rewrite Z.pow_add_r by lia. ring.
Qed.

Lemma aligned_div x i : 0 <= x -> aligned x i -> Z.shiftr i x * 2 ^ x = i.
Proof.
  intros Hx [k ->]. rewrite shiftr_div by lia.
  rewrite Z.div_mul; [done|]. pose proof (pow2_pos x Hx); lia.
Qed.

Lemma aligned_shiftr_inj x i j :
  0 <= x -> aligned x i -> aligned x j -> Z.shiftr i x = Z.shiftr j x -> i = j.
Proof.
  intros Hx Hi Hj E. rewrite <- (aligned_div x i), <- (aligned_div x j) by done.
  by rewrite E.
Qed.

(** Distinct aligned blocks of one size are disjoint. *)
Lemma aligned_disjoint x i j :
  0 <= x -> aligned x i -> aligned x j -> i <> j -> i + 2 ^ x <= j \/ j + 2 ^ x <= i.
Proof.
  intros Hx [a ->] [b ->] Hne. pose proof (pow2_pos x Hx).
  destruct (Z.lt_total a b) as [?|[->|?]]; [left|done|right]; nia.
Qed.

(** ** Lists *)

Lemma NoDup_mid {A} (l1 l2 : list A) x : NoDup (l1 ++ x :: l2) -> x ∉ l1 ++ l2 /\ NoDup (l1 ++ l2).
Proof.
  intros Hnd. rewrite <- NoDup_cons. by rewrite Permutation_middle.
Qed.
