(* ===== verification/Dll.v ===== *)
(** * Circular doubly linked lists

    The kernel has one intrusive list discipline, written three times with
    the same statements: [linked_list<T>::node] (include/lib/linked_list.h),
    [paging::page_list_entry] (kernel/include/paging.h) and
    [heap::boundary_header] (kernel/include/heap.h).  A list is a ring of
    nodes through a sentinel.  This file models the two pointer operations,
    [insert] and [remove], on a store of links, and proves that on a
    well-formed ring they are insertion into and deletion from a sequence and
    leave every node outside the ring alone. *)

From S2P Require Import Prelude.
From stdpp Require Import gmap list.

Record link (K : Type) : Type := Link { prev : K; next : K }.
Arguments Link {K} _ _.
Arguments prev {K} _.
Arguments next {K} _.

Section dll.
  Context {K : Type} `{Countable K}.
  Implicit Types (m : gmap K (link K)) (a b t x y : K) (l : list K).

Definition set_prev (k v : K) (m : gmap K (link K)) : option (gmap K (link K)) :=
    match m !! k with
    | Some c => Some (<[k := Link v (next c)]> m)
    | None => None
    end.

Definition set_next (k v : K) (m : gmap K (link K)) : option (gmap K (link K)) :=
    match m !! k with
    | Some c => Some (<[k := Link (prev c) v]> m)
    | None => None
    end.

(** [this->insert(x)]: next->prev = x; x->prev = this; x->next = next; next = x. *)
Definition dll_insert (this x : K) (m : gmap K (link K)) : option (gmap K (link K)) :=
    match m !! this with
    | None => None
    | Some c0 =>
      match set_prev (next c0) x m with
      | None => None
      | Some m1 =>
        match set_prev x this m1 with
        | None => None
        | Some m2 =>
          match m2 !! this with
          | None => None
          | Some c1 =>
            match set_next x (next c1) m2 with
            | None => None
            | Some m3 => set_next this x m3
            end
          end
        end
      end
    end.

(** [this->remove()]: prev->next = next; next->prev = prev. *)
Definition dll_remove (this : K) (m : gmap K (link K)) : option (gmap K (link K)) :=
    match m !! this with
    | None => None
    | Some c0 =>
      match set_next (prev c0) (next c0) m with
      | None => None
      | Some m1 =>
        match m1 !! this with
        | None => None
        | Some c1 => set_prev (next c1) (prev c1) m1
        end
      end
    end.

  (** ** Rings *)

Definition nextof m k : option K := next <$> m !! k.
Definition prevof m k : option K := prev <$> m !! k.

  (** From [a], following [next] through [l], to [b]; [prev] inverts it. *)
Fixpoint seg m a l b : Prop :=
    match l with
    | [] => nextof m a = Some b /\ prevof m b = Some a
    | x :: l' => nextof m a = Some x /\ prevof m x = Some a /\ seg m x l' b
    end.

  (** The ring through [t] whose other nodes, in order, are [l]. *)
Definition ring m t l : Prop := seg m t l t /\ NoDup (t :: l).

Lemma seg_app m a l1 x l2 b :
    seg m a (l1 ++ x :: l2) b <-> seg m a l1 x /\ seg m x l2 b.
Proof. revert a. induction l1; intros; simpl; naive_solver. Qed.

Lemma seg_ext m m' a l b :
    (forall k, k ∈ a :: l -> nextof m' k = nextof m k) ->
    (forall k, k ∈ l ++ [b] -> prevof m' k = prevof m k) ->
    seg m a l b -> seg m' a l b.
Proof.
    revert a. induction l as [|x l IH]; intros a Hn Hp; simpl.
    - intros []. rewrite Hn, Hp by set_solver. done.
    - intros (? & ? & ?). rewrite Hn, (Hp x) by set_solver.
      split_and!; [done..|]. apply IH; set_solver.
Qed.

Lemma seg_dom m a l b k : seg m a l b -> k ∈ a :: l -> is_Some (m !! k).
Proof.
    revert a. induction l as [|x l IH]; intros a Hs Hk; simpl in Hs.
    - assert (k = a) as -> by set_solver. destruct Hs as [Hn _].
      unfold nextof in Hn. destruct (m !! a); simpl in Hn; [eauto|done].
    - destruct Hs as (Hn & _ & Hs). apply elem_of_cons in Hk as [->|Hk]; [|by eapply IH].
      unfold nextof in Hn. destruct (m !! a); simpl in Hn; [eauto|done].
Qed.

Lemma seg_first m a l b : seg m a l b -> nextof m a = head (l ++ [b]).
Proof. destruct l; simpl; naive_solver. Qed.

Lemma seg_last m a l b : seg m a l b -> prevof m b = last (a :: l).
Proof.
    revert a. induction l as [|x l IH]; intros a; simpl; [naive_solver|].
    intros (_ & _ & Hs). rewrite (IH x Hs). by destruct l.
Qed.

Lemma ring_rotate m t l1 x l2 :
    ring m t (l1 ++ x :: l2) <-> ring m x (l2 ++ t :: l1).
Proof.
    unfold ring. rewrite !seg_app.
    assert (t :: l1 ++ x :: l2 ≡ₚ x :: l2 ++ t :: l1) as ->.
    { change (t :: l1 ++ x :: l2) with ((t :: l1) ++ (x :: l2)).
      rewrite (Permutation_app_comm (t :: l1)). done. }
    naive_solver.
Qed.

Lemma ring_dom m t l k : ring m t l -> k ∈ t :: l -> is_Some (m !! k).
Proof. intros [Hs _]. by apply seg_dom with t. Qed.

Lemma ring_ext m m' t l :
    (forall k, k ∈ t :: l -> m' !! k = m !! k) -> ring m t l -> ring m' t l.
Proof.
    intros E [Hs Hd]. split; [|done].
    apply seg_ext with m; [| |done]; intros k Hk; unfold nextof, prevof; rewrite E; set_solver.
Qed.

Lemma ring_head m t l : ring m t l -> nextof m t = head (l ++ [t]).
Proof. intros [Hs _]. by apply seg_first. Qed.

Lemma ring_last m t l : ring m t l -> prevof m t = last (t :: l).
Proof. intros [Hs _]. by apply (seg_last _ _ _ _ Hs). Qed.

  (** Insertion right after the node the ring is read from. *)
Lemma ring_insert m t l x :
    ring m t l -> x ∉ t :: l -> is_Some (m !! x) ->
    exists m', dll_insert t x m = Some m' /\ ring m' t (x :: l) /\
      forall k, k ∉ x :: t :: l -> m' !! k = m !! k.
Proof.
    intros [Hs Hd] Hx [cx Hcx].
    destruct (seg_dom m t l t t Hs ltac:(set_solver)) as [ct Hct].
    assert (x <> t) as Hxt by set_solver.
    unfold dll_insert. rewrite Hct. destruct l as [|y l].
    - simpl in Hs. unfold nextof, prevof in Hs. rewrite Hct in Hs. simpl in Hs.
      destruct ct as [pt nt]. simpl in Hs. destruct Hs as [[= ->] [= ->]]. simpl.
      unfold set_prev. rewrite Hct, lookup_insert_ne, Hcx, lookup_insert_ne by done.
      rewrite lookup_insert_eq. simpl. unfold set_next.
      rewrite lookup_insert_eq, !lookup_insert_ne, lookup_insert_eq by done.
      eexists; split_and!; [done| |].
      + split; [|by repeat constructor; set_solver].
        simpl. unfold nextof, prevof. simplify_map_eq. done.
      + intros k Hk. rewrite !lookup_insert_ne by set_solver. done.
    - destruct Hs as (Hn & Hp & Hs). unfold nextof, prevof in Hn, Hp. rewrite Hct in Hn.
      destruct ct as [pt nt]. simpl in Hn. injection Hn as ->. simpl.
      destruct (m !! y) as [[py ny]|] eqn:Hcy; [|done].
      simpl in Hp. injection Hp as ->. assert (y <> t) by (inversion Hd; set_solver).
      assert (y <> x) by set_solver.
      unfold set_prev. rewrite Hcy, lookup_insert_ne, Hcx, !lookup_insert_ne, Hct by done.
      unfold set_next. rewrite lookup_insert_eq, !lookup_insert_ne, Hct by done.
      eexists; split_and!; [done| |].
      + split; cycle 1. { clear -Hd Hx. rewrite !NoDup_cons in Hd. rewrite !NoDup_cons.
          rewrite !not_elem_of_cons in *. naive_solver. }
        simpl. unfold nextof, prevof. simplify_map_eq. split_and!; try done.
        apply seg_ext with m; [| |done]; intros k Hk; unfold nextof, prevof.
        * destruct (decide (k = y)) as [->|]; [by simplify_map_eq|].
          by rewrite !lookup_insert_ne by (inversion Hd; set_solver).
        * assert (k <> y /\ k <> x) as [].
          { inversion Hd as [|? ? ? Hd']; inversion Hd'; set_solver. }
          destruct (decide (k = t)) as [->|]; simplify_map_eq; done.
      + intros k Hk. rewrite !lookup_insert_ne by set_solver. done.
Qed.

  (** Removal of the node the ring is read from; the ring continues from its
      successor. *)
Lemma ring_remove m x y l :
    ring m x (y :: l) ->
    exists m', dll_remove x m = Some m' /\ ring m' y l /\
      m' !! x = m !! x /\ forall k, k ∉ y :: l -> m' !! k = m !! k.
Proof.
    intros [Hs Hd].
    destruct (seg_dom m x (y :: l) x x Hs ltac:(set_solver)) as [cx Hcx].
    pose proof (seg_last _ _ _ _ Hs) as Hl. unfold prevof in Hl. rewrite Hcx in Hl.
    destruct Hs as (Hn & Hp & Hs). unfold nextof, prevof in Hn, Hp. rewrite Hcx in Hn.
    destruct cx as [px nx]. simpl in Hn, Hl. injection Hn as ->.
    assert (x <> y /\ x ∉ l /\ y ∉ l /\ NoDup l) as (Hxy & Hxl & Hyl & Hdl).
    { inversion Hd as [|? ? ? Hd']; inversion Hd'; set_solver. }
    unfold dll_remove. rewrite Hcx. simpl.
    destruct (m !! y) as [[py ny]|] eqn:Hcy; [|done]. simpl in Hp. injection Hp as ->.
    destruct (decide (l = [])) as [->|Hne].
    - injection Hl as ->. unfold set_next. rewrite Hcy.
      rewrite lookup_insert_ne, Hcx by done. unfold set_prev. simpl.
      rewrite lookup_insert_eq. eexists; split_and!; [done| | |].
      + split; [|by repeat constructor; set_solver].
        simpl. unfold nextof, prevof. simplify_map_eq. done.
      + simplify_map_eq. done.
      + intros k Hk. rewrite !lookup_insert_ne by set_solver. done.
    - destruct (exists_last Hne) as (l' & z & ->). clear Hne.
      rewrite app_comm_cons, last_snoc in Hl. injection Hl as ->.
      assert (z <> y /\ z <> x) as [Hzy Hzx] by set_solver.
      destruct (seg_dom m y (l' ++ [z]) x z Hs ltac:(set_solver)) as [cz Hcz].
      apply seg_app in Hs as [Hs1 [Hs2 Hs3]].
      unfold set_next. rewrite Hcz, lookup_insert_ne, Hcx by done. unfold set_prev. simpl.
      rewrite lookup_insert_ne, Hcy by done.
      eexists; split_and!; [done| | |].
      + split; [|by constructor]. apply seg_app. split.
        * apply seg_ext with m; [| |done]; intros k Hk; unfold nextof, prevof.
          -- assert (k <> z). { apply NoDup_app in Hdl; set_solver. }
             destruct (decide (k = y)) as [->|]; simplify_map_eq; done.
          -- assert (k <> y) by set_solver.
             destruct (decide (k = z)) as [->|]; simplify_map_eq; done.
        * simpl. unfold nextof, prevof. simplify_map_eq. done.
      + simplify_map_eq. done.
      + intros k Hk. rewrite !lookup_insert_ne by set_solver. done.
Qed.

  (** *** Through the sentinel *)

  (** Inserting after the sentinel puts the node at the front. *)
Lemma dll_insert_front m h l x :
    ring m h l -> x ∉ h :: l -> is_Some (m !! x) ->
    exists m', dll_insert h x m = Some m' /\ ring m' h (x :: l) /\
      forall k, k ∉ x :: h :: l -> m' !! k = m !! k.
Proof. apply ring_insert. Qed.

  (** Inserting after an element [a] puts the node right behind it. *)
Lemma dll_insert_after m h l1 a l2 x :
    ring m h (l1 ++ a :: l2) -> x ∉ h :: l1 ++ a :: l2 -> is_Some (m !! x) ->
    exists m', dll_insert a x m = Some m' /\ ring m' h (l1 ++ a :: x :: l2) /\
      forall k, k ∉ x :: h :: l1 ++ a :: l2 -> m' !! k = m !! k.
Proof.
    intros Hr Hx Hd. rewrite ring_rotate in Hr.
    destruct (ring_insert m a _ x Hr) as (m' & E & Hr' & Hf); [set_solver|done|].
    exists m'. split_and!; [done| |].
    - rewrite ring_rotate. done.
    - intros k Hk. apply Hf. set_solver.
Qed.

Lemma dll_remove_mid m h l1 x l2 :
    ring m h (l1 ++ x :: l2) ->
    exists m', dll_remove x m = Some m' /\ ring m' h (l1 ++ l2) /\
      m' !! x = m !! x /\ forall k, k ∉ h :: l1 ++ l2 -> m' !! k = m !! k.
Proof.
    intros Hr. assert (Hr' := Hr). rewrite ring_rotate in Hr.
    destruct l2 as [|y l2].
    - destruct (ring_remove m x h l1 Hr) as (m' & E & Hr1 & Hx & Hf).
      exists m'. rewrite app_nil_r. done.
    - destruct (ring_remove m x y (l2 ++ h :: l1) Hr) as (m' & E & Hr1 & Hx & Hf).
      exists m'. split_and!; [done| |done|].
      + by rewrite ring_rotate.
      + intros k Hk. apply Hf. set_solver.
Qed.

  (** The neighbours of a position of the ring. *)
Lemma ring_next m t l1 x l2 :
    ring m t (l1 ++ x :: l2) -> nextof m x = head (l2 ++ [t]).
Proof. rewrite ring_rotate. intros Hr. rewrite (ring_head _ _ _ Hr). by destruct l2. Qed.

Lemma ring_prev m t l1 l2 y :
    ring m t (l1 ++ l2) -> head (l2 ++ [t]) = Some y -> prevof m y = last (t :: l1).
Proof.
    destruct l2 as [|z l2]; simpl; intros Hr [= <-].
    - rewrite app_nil_r in Hr. by apply ring_last.
    - rewrite ring_rotate in Hr. rewrite (ring_last _ _ _ Hr).
      change (z :: l2 ++ t :: l1) with ((z :: l2) ++ t :: l1). by rewrite last_app_cons.
Qed.

  (** Insertion between two parts of the ring. *)
Lemma ring_insert_at m t l1 l2 x p :
    ring m t (l1 ++ l2) -> x ∉ t :: l1 ++ l2 -> is_Some (m !! x) -> last (t :: l1) = Some p ->
    exists m', dll_insert p x m = Some m' /\ ring m' t (l1 ++ x :: l2) /\
      forall k, k ∉ x :: t :: l1 ++ l2 -> m' !! k = m !! k.
Proof.
    intros Hr Hx Hs Hp. destruct (exists_last (l := t :: l1)) as (l0 & q & E); [done|].
    rewrite E, last_snoc in Hp. injection Hp as ->. destruct l0 as [|t' l0]; simplify_eq/=.
    - by apply dll_insert_front.
    - rewrite <- !app_assoc in Hr, Hx. rewrite <- app_assoc. setoid_rewrite <- (app_assoc l0). simpl in *. by apply dll_insert_after.
Qed.

Lemma ring_length m t l : ring m t l -> (length l < size m)%nat.
Proof.
    intros Hr. assert (Hd := proj2 Hr).
    assert (Hsub : (list_to_set (t :: l) : gset K) ⊆ dom m).
    { intros k Hk. apply elem_of_list_to_set in Hk. apply elem_of_dom. by eapply ring_dom. }
    apply subseteq_size in Hsub. rewrite size_list_to_set, size_dom in Hsub by done.
    simpl in Hsub. lia.
Qed.
End dll.

Arguments seg : simpl never.
Arguments ring : simpl never.
