(* ===== verification/Bitmap.v ===== *)
(** * The bitmap class (include/lib/bitmap.h)

    [bitmap] packs [n] bits into 32-bit words.  The buddy allocator keeps one
    bitmap per block order and every process keeps its pending signals in
    one.  The operations below work on the words; the theorems relate them to
    the function from positions to bits they represent. *)

From S2P Require Import Prelude.
From stdpp Require Import list.
#[local] Open Scope Z_scope.

Record bitmap : Type := Bitmap {
  bm_xs : list Z;      (** the words [xs[0..sz)] *)
  bm_n  : Z;           (** number of bits *)
  bm_sz : Z            (** number of words *)
}.

(** [bitmap(count, addr)]: [addr] is the caller's buffer, if any. *)
Definition bitmap_new (count : Z) (addr : option (list Z)) : bitmap :=
  let sz := Z.shiftr (u32 (count + 31)) 5 in
  if sz =? 0 then Bitmap (default [] addr) count sz
  else match addr with
       | None => Bitmap (replicate (Z.to_nat sz) 0) count sz
       | Some xs => Bitmap xs count sz
       end.

(** [memsetd(xs+start, val, cnt)] on the words; outside them it faults. *)
Definition memsetd_words (xs : list Z) (start val cnt : Z) : option (list Z) :=
  if (start + cnt <=? Z.of_nat (length xs)) && (0 <=? start) && (0 <=? cnt) then
    Some (take (Z.to_nat start) xs ++ replicate (Z.to_nat cnt) (u32 val)
          ++ drop (Z.to_nat (start + cnt)) xs)
  else None.

Definition bm_reset (b : bitmap) (val start n : Z) : option bitmap :=
  let room := u32 (bm_sz b - start) in
  let cnt := if room <? n then room else n in
  xs ← memsetd_words (bm_xs b) start val cnt;
  Some (Bitmap xs (bm_n b) (bm_sz b)).

(** [operator[]].  [ASSERT(pos < n)] only prints, so an out-of-range position
    still reads the word it selects; beyond the words the access faults. *)
Definition bm_get (b : bitmap) (pos : Z) : option bool :=
  w ← bm_xs b !! Z.to_nat (Z.shiftr pos 5);
  Some (negb (Z.land w (u32 (Z.shiftl 1 (Z.land pos 31))) =? 0)).

Definition bm_set (b : bitmap) (pos : Z) (x : bool) : option bitmap :=
  let i := Z.to_nat (Z.shiftr pos 5) in
  let bit := u32 (Z.shiftl 1 (Z.land pos 31)) in
  w ← bm_xs b !! i;
  let w' := if x then Z.lor w bit else Z.land w (u32 (Z.lnot bit)) in
  Some (Bitmap (<[i := w']> (bm_xs b)) (bm_n b) (bm_sz b)).

Definition bm_clear (b : bitmap) (pos : Z) : option bitmap := bm_set b pos false.

(** The [bsf] instruction: index of the lowest set bit of a 32-bit operand
    ([None] where the destination is undefined). *)
Fixpoint bsf_from (fuel : nat) (i x : Z) : option Z :=
  match fuel with
  | O => None
  | S k => if Z.testbit x i then Some i else bsf_from k (i + 1) x
  end.
Definition bsf (x : Z) : option Z := bsf_from 32 0 x.

(** [(size_t) -1], the searches' "not found". *)
Definition NPOS : Z := 4294967295.

(** The two searches: [for (i = start; i < sz; i++)]. *)
Fixpoint first_loop (flip : Z -> Z) (b : bitmap) (ws : list Z) (i : Z) : option Z :=
  match ws with
  | [] => Some NPOS
  | w :: ws' =>
    if flip w =? 0 then first_loop flip b ws' (i + 1)
    else j0 ← bsf (flip w);
         let j := u32 (j0 + u32 (Z.shiftl i 5)) in
         if j <? bm_n b then Some j else first_loop flip b ws' (i + 1)
  end.

(** [xs[i] != 0xFFFFFFFF] iff [~xs[i] != 0]. *)
Definition bm_first_zero (b : bitmap) (start : Z) : option Z :=
  first_loop (fun w => u32 (Z.lnot w)) b
    (drop (Z.to_nat start) (take (Z.to_nat (bm_sz b)) (bm_xs b))) start.

Definition bm_first_one (b : bitmap) (start : Z) : option Z :=
  first_loop (fun w => w) b
    (drop (Z.to_nat start) (take (Z.to_nat (bm_sz b)) (bm_xs b))) start.

(** ** The represented function *)

Definition bm_test (b : bitmap) (p : Z) : bool :=
  match bm_xs b !! Z.to_nat (Z.shiftr p 5) with
  | Some w => Z.testbit w (p mod 32)
  | None => false
  end.

(** Well-formedness: the words hold all [n] bits, each is a 32-bit value. *)
Definition bm_wf (b : bitmap) : Prop :=
  0 <= bm_n b < 2 ^ 32 - 31 /\
  bm_sz b = (bm_n b + 31) / 32 /\
  Z.of_nat (length (bm_xs b)) = bm_sz b /\
  Forall (fun w => 0 <= w < 2 ^ 32) (bm_xs b).

Lemma land31 p : Z.land p 31 = p mod 32.
Proof. change 31 with (Z.ones 5). by rewrite Z.land_ones. Qed.

Lemma bit_u32 k : 0 <= k < 32 -> u32 (Z.shiftl 1 k) = 2 ^ k.
Proof.
  intros. rewrite Z.shiftl_1_l. apply u32_small. split; [lia|].
  apply Z.pow_lt_mono_r; lia.
Qed.

Lemma land_pow2 w k : 0 <= k -> negb (Z.land w (2 ^ k) =? 0) = Z.testbit w k.
Proof.
  intros Hk. assert (Z.land w (2 ^ k) = if Z.testbit w k then 2 ^ k else 0) as ->.
  { apply Z.bits_inj'. intros j Hj. rewrite Z.land_spec, Z.pow2_bits_eqb by lia.
    destruct (Z.eqb_spec k j) as [->|].
    - destruct (Z.testbit w j); rewrite ?Z.bits_0, ?Z.pow2_bits_true by lia; done.
    - rewrite andb_false_r. destruct (Z.testbit w k); rewrite ?Z.bits_0; [|done].
      by rewrite Z.pow2_bits_false. }
  destruct (Z.testbit w k); [|done]. pose proof (pow2_pos k Hk).
  destruct (Z.eqb_spec (2 ^ k) 0); [lia|done].
Qed.

Lemma testbit_lor_pow2 w k j :
  0 <= k -> 0 <= j -> Z.testbit (Z.lor w (2 ^ k)) j = (j =? k) || Z.testbit w j.
Proof.
  intros. rewrite Z.lor_spec, Z.pow2_bits_eqb by lia.
  rewrite orb_comm, (Z.eqb_sym k j). done.
Qed.

Lemma testbit_clear w k j :
  0 <= k < 32 -> 0 <= j < 32 ->
  Z.testbit (Z.land w (u32 (Z.lnot (2 ^ k)))) j = negb (j =? k) && Z.testbit w j.
Proof.
  intros. unfold u32, wrap. rewrite Z.land_spec, Z.mod_pow2_bits_low by lia.
  rewrite Z.lnot_spec, Z.pow2_bits_eqb, (Z.eqb_sym k j) by lia. apply andb_comm.
Qed.

Lemma lor_range w v : 0 <= w < 2 ^ 32 -> 0 <= v < 2 ^ 32 -> 0 <= Z.lor w v < 2 ^ 32.
Proof.
  intros [Hw1 Hw2] [Hv1 Hv2]. assert (Hn : 0 <= Z.lor w v) by (apply Z.lor_nonneg; lia).
  split; [done|]. destruct (Z.eq_dec (Z.lor w v) 0) as [->|]; [lia|].
  apply Z.log2_lt_pow2; [lia|]. rewrite Z.log2_lor by lia.
  apply Z.max_lub_lt.
  - destruct (Z.eq_dec w 0) as [->|]; [done|]. apply Z.log2_lt_pow2; lia.
  - destruct (Z.eq_dec v 0) as [->|]; [done|]. apply Z.log2_lt_pow2; lia.
Qed.

Lemma land_range w v : 0 <= w < 2 ^ 32 -> 0 <= Z.land w v < 2 ^ 32.
Proof.
  intros [Hw1 Hw2]. split; [apply Z.land_nonneg; lia|].
  destruct (Z.eq_dec (Z.land w v) 0) as [->|Hne]; [lia|].
  assert (0 <= Z.land w v) by (apply Z.land_nonneg; lia).
  destruct (Z.lt_ge_cases (Z.land w v) (2 ^ 32)) as [|Hge]; [done|exfalso].
  set (k := Z.log2 (Z.land w v)). assert (32 <= k) by (apply Z.log2_le_pow2; lia).
  assert (Z.testbit (Z.land w v) k = true) as Hb by (apply Z.bit_log2; lia).
  rewrite Z.land_spec in Hb. apply andb_true_iff in Hb as [Hb _].
  rewrite <- (Z.mod_small w (2 ^ 32)), Z.mod_pow2_bits_high in Hb by lia. done.
Qed.

Section wf.
Context (b : bitmap) (Hwf : bm_wf b).

Lemma bm_word p :
  0 <= p < 32 * bm_sz b ->
  exists w, bm_xs b !! Z.to_nat (Z.shiftr p 5) = Some w /\ 0 <= w < 2 ^ 32.
Proof.
  intros Hp. destruct Hwf as (_ & _ & Hlen & Hall).
  destruct (lookup_lt_is_Some_2 (bm_xs b) (Z.to_nat (Z.shiftr p 5))) as [w Hw].
  { rewrite shiftr_div by lia. change (2 ^ 5) with 32. apply Nat2Z.inj_lt.
    rewrite Hlen, Z2Nat.id by (apply Z.div_pos; lia).
    apply Z.div_lt_upper_bound; lia. }
  exists w. split; [done|]. eapply Forall_lookup_1 in Hall; eauto.
Qed.

Lemma bm_n_sz : bm_n b <= 32 * bm_sz b.
Proof. destruct Hwf as (? & -> & _). pose proof (Z.mul_div_le (bm_n b + 31) 32).
  pose proof (Z.mod_pos_bound (bm_n b + 31) 32). pose proof (Z.div_mod (bm_n b + 31) 32). lia. Qed.

Lemma bm_get_test p : 0 <= p < bm_n b -> bm_get b p = Some (bm_test b p).
Proof.
  intros Hp. pose proof bm_n_sz. destruct (bm_word p) as (w & Hw & _); [lia|].
  unfold bm_get, bm_test. rewrite Hw. simpl. f_equal.
  pose proof (Z.mod_pos_bound p 32 ltac:(lia)).
  rewrite land31, bit_u32 by lia. apply land_pow2. lia.
Qed.

(** [set] writes one position. *)
Lemma bm_set_spec p x :
  0 <= p < bm_n b ->
  exists b', bm_set b p x = Some b' /\ bm_wf b' /\ bm_n b' = bm_n b /\
    forall q, 0 <= q -> bm_test b' q = if q =? p then x else bm_test b q.
Proof.
  intros Hp. pose proof bm_n_sz. destruct (bm_word p) as (w & Hw & Hwr); [lia|].
  pose proof (Z.mod_pos_bound p 32 ltac:(lia)) as Hm.
  unfold bm_set. rewrite Hw. simpl. rewrite land31, bit_u32 by lia.
  set (w' := if x then _ else _). eexists; split; [done|].
  assert (0 <= w' < 2 ^ 32) as Hw'.
  { subst w'. destruct x; [apply lor_range; [done|]|by apply land_range].
    pose proof (pow2_pos (p mod 32)). split; [lia|]. apply Z.pow_lt_mono_r; lia. }
  split_and!; [|done|].
  - destruct Hwf as (? & ? & ? & ?). split_and!; simpl; [lia..|done| |].
    + by rewrite length_insert.
    + by apply Forall_insert.
  - intros q Hq. unfold bm_test. simpl.
    assert (Hpq : p = 32 * (p / 32) + p mod 32) by (apply Z.div_mod; lia).
    assert (Hqq : q = 32 * (q / 32) + q mod 32) by (apply Z.div_mod; lia).
    pose proof (Z.mod_pos_bound q 32 ltac:(lia)).
    pose proof (Z.div_pos p 32 ltac:(lia) ltac:(lia)).
    pose proof (Z.div_pos q 32 ltac:(lia) ltac:(lia)).
    rewrite shiftr_div in Hw by lia. rewrite !shiftr_div by lia.
    change (2 ^ 5) with 32 in *.
    destruct (decide (p / 32 = q / 32)) as [E|E].
    + rewrite <- E. rewrite list_lookup_insert_eq by (by apply lookup_lt_Some in Hw).
      rewrite Hw. subst w'. destruct (Z.eqb_spec q p) as [->|Hne].
      * destruct x; rewrite ?testbit_lor_pow2, ?testbit_clear, Z.eqb_refl by lia; done.
      * assert (q mod 32 =? p mod 32 = false) as Hf by (apply Z.eqb_neq; lia).
        destruct x; rewrite ?testbit_lor_pow2, ?testbit_clear, Hf by lia; done.
    + rewrite list_lookup_insert_ne by lia.
      destruct (Z.eqb_spec q p); [congruence|done].
Qed.
End wf.

Lemma bitmap_new_wf count :
  0 <= count < 2 ^ 32 - 31 ->
  bm_wf (bitmap_new count None) /\ bm_n (bitmap_new count None) = count /\
  forall p, bm_test (bitmap_new count None) p = false.
Proof.
  intros Hc. unfold bitmap_new. rewrite u32_small, shiftr_div by lia.
  change (2 ^ 5) with 32. pose proof (Z.div_pos (count + 31) 32 ltac:(lia) ltac:(lia)).
  destruct (Z.eqb_spec ((count + 31) / 32) 0) as [E|E].
  - split_and!; [|done|done]. unfold bm_wf. simpl. split_and!; auto; lia.
  - split_and!; [|done|].
    + unfold bm_wf. simpl. rewrite length_replicate, Z2Nat.id by lia.
      split_and!; [lia..|]. apply Forall_replicate. lia.
    + intros p. unfold bm_test. simpl.
      destruct (replicate _ _ !! _) as [w|] eqn:Hl; [|done].
      apply lookup_replicate in Hl as [-> _]. apply Z.bits_0.
Qed.

(** ** The searches *)

Lemma bsf_from_spec fuel i x :
  0 <= i -> (exists k, i <= k < i + Z.of_nat fuel /\ Z.testbit x k = true) ->
  exists j, bsf_from fuel i x = Some j /\ i <= j < i + Z.of_nat fuel /\
    Z.testbit x j = true /\ forall k, i <= k < j -> Z.testbit x k = false.
Proof.
  revert i. induction fuel as [|fuel IH]; intros i Hi (k & Hk & Hb); [lia|].
  simpl. destruct (Z.testbit x i) eqn:E.
  - exists i. split_and!; [done|lia|lia|done|lia].
  - destruct (IH (i + 1)) as (j & Ej & Hj & Hbj & Hm); [lia| |].
    { exists k. split; [|done]. assert (k <> i) by congruence. lia. }
    exists j. split_and!; [done|lia|lia|done|].
    intros k' Hk'. destruct (Z.eq_dec k' i) as [->|]; [done|]. apply Hm. lia.
Qed.

Lemma bsf_spec x :
  0 <= x < 2 ^ 32 -> x <> 0 ->
  exists j, bsf x = Some j /\ 0 <= j < 32 /\ Z.testbit x j = true /\
    forall k, 0 <= k < j -> Z.testbit x k = false.
Proof.
  intros Hx Hne. apply (bsf_from_spec 32 0 x); [lia|].
  exists (Z.log2 x). split; [|apply Z.bit_log2; lia].
  split; [apply Z.log2_nonneg|]. apply Z.log2_lt_pow2; lia.
Qed.

(** [r] is the first position at or after word [i] whose bit is set, or [NPOS]
    when there is none below [n]. *)
Definition first_ok (flip : Z -> Z) (b : bitmap) (ws : list Z) (i r : Z) : Prop :=
  let T p := match ws !! Z.to_nat (p / 32 - i) with
             | Some w => Z.testbit (flip w) (p mod 32) | None => false end in
  (32 * i <= r < bm_n b /\ T r = true /\
   (forall p, 32 * i <= p < r -> T p = false)) \/
  (r = NPOS /\ forall p, 32 * i <= p < bm_n b -> T p = false).

Lemma first_loop_spec flip b ws i :
  0 <= i -> bm_n b <= 2 ^ 32 - 32 -> 32 * (i + Z.of_nat (length ws)) < 2 ^ 32 + 32 ->
  Forall (fun w => 0 <= flip w < 2 ^ 32) ws ->
  exists r, first_loop flip b ws i = Some r /\ first_ok flip b ws i r.
Proof.
  intros Hi Hn. revert i Hi. induction ws as [|w ws IH]; intros i Hi Hlen Hall.
  { exists NPOS. split; [done|]. right. split; [done|]. intros p _. by rewrite lookup_nil. }
  apply Forall_cons in Hall as [Hw Hall]. simpl in Hlen.
  destruct (IH (i + 1)) as (r & Er & Hr); [lia|lia|done|]. clear IH.
  assert (Hshift : forall p, 32 * (i + 1) <= p ->
    (w :: ws) !! Z.to_nat (p / 32 - i) = ws !! Z.to_nat (p / 32 - (i + 1))).
  { intros p Hp. assert (i + 1 <= p / 32) by (apply Z.div_le_lower_bound; lia).
    replace (Z.to_nat (p / 32 - i)) with (S (Z.to_nat (p / 32 - (i + 1)))) by lia. done. }
  assert (Hin : forall p, 32 * i <= p < 32 * (i + 1) ->
    (w :: ws) !! Z.to_nat (p / 32 - i) = Some w /\ p mod 32 = p - 32 * i).
  { intros p Hp. assert (p / 32 = i) as E.
    { symmetry. apply Z.div_unique with (p - 32 * i); lia. }
    rewrite E. replace (i - i) with 0 by lia. split; [done|].
    symmetry. apply Z.mod_unique with i; lia. }
  assert (Hskip : (forall p, 32 * i <= p < 32 * (i + 1) -> p < bm_n b ->
                             Z.testbit (flip w) (p - 32 * i) = false) ->
    first_ok flip b (w :: ws) i r).
  { intros Hz. destruct Hr as [(Hr1 & Hr2 & Hr3)|(-> & Hr2)].
    - left. split_and!; [lia|lia| |].
      + rewrite Hshift by lia. done.
      + intros p Hp. destruct (Z.lt_ge_cases p (32 * (i + 1))).
        * destruct (Hin p) as [-> ->]; [lia|]. apply Hz; lia.
        * rewrite Hshift by lia. apply Hr3. lia.
    - right. split; [done|]. intros p Hp. destruct (Z.lt_ge_cases p (32 * (i + 1))).
      + destruct (Hin p) as [-> ->]; [lia|]. apply Hz; lia.
      + rewrite Hshift by lia. apply Hr2. lia. }
  simpl first_loop. destruct (Z.eqb_spec (flip w) 0) as [E|E].
  - exists r. split; [done|]. apply Hskip. intros. rewrite E. apply Z.bits_0.
  - destruct (bsf_spec (flip w) Hw E) as (j & Ej & Hj & Hbj & Hmin).
    rewrite Ej. simpl. rewrite shiftl_mul by lia. change (2 ^ 5) with 32.
    rewrite (u32_small (i * 32)) by lia. rewrite u32_small by lia.
    destruct (Z.ltb_spec (j + i * 32) (bm_n b)).
    + exists (j + i * 32). split; [done|]. left. split_and!; [lia..| |].
      * destruct (Hin (j + i * 32)) as [-> ->]; [lia|].
        by replace (j + i * 32 - 32 * i) with j by lia.
      * intros p Hp. destruct (Hin p) as [-> ->]; [lia|]. apply Hmin. lia.
    + exists r. split; [done|]. apply Hskip. intros p Hp Hpn. apply Hmin. lia.
Qed.

Section searches.
Context (b : bitmap) (Hwf : bm_wf b) (start : Z) (Hstart : 0 <= start <= bm_sz b).

Lemma tail_words p :
  32 * start <= p ->
  drop (Z.to_nat start) (take (Z.to_nat (bm_sz b)) (bm_xs b)) !! Z.to_nat (p / 32 - start)
  = bm_xs b !! Z.to_nat (Z.shiftr p 5).
Proof.
  intros Hp. destruct Hwf as (_ & _ & Hlen & _).
  assert (start <= p / 32) by (apply Z.div_le_lower_bound; lia).
  rewrite <- Hlen, Nat2Z.id, firstn_all, lookup_drop, shiftr_div by lia.
  change (2 ^ 5) with 32. f_equal. lia.
Qed.

Lemma search_spec flip neg :
  (forall w, 0 <= w < 2 ^ 32 -> 0 <= flip w < 2 ^ 32) ->
  (forall w k, 0 <= k < 32 -> 0 <= w < 2 ^ 32 -> Z.testbit (flip w) k = xorb neg (Z.testbit w k)) ->
  exists r, first_loop flip b (drop (Z.to_nat start) (take (Z.to_nat (bm_sz b)) (bm_xs b))) start
            = Some r /\
    ((32 * start <= r < bm_n b /\ bm_test b r = negb neg /\
      (forall p, 32 * start <= p < r -> bm_test b p = neg)) \/
     (r = NPOS /\ forall p, 32 * start <= p < bm_n b -> bm_test b p = neg)).
Proof.
  intros Hr Hf. pose proof (bm_n_sz b Hwf) as Hnsz. pose proof Hwf as (Hn & Hsz & Hlen & Hall).
  pose proof (Z.mul_div_le (bm_n b + 31) 32 ltac:(lia)).
  destruct (first_loop_spec flip b
    (drop (Z.to_nat start) (take (Z.to_nat (bm_sz b)) (bm_xs b))) start) as (r & E & Hok).
  - lia.
  - lia.
  - rewrite length_drop, length_take. lia.
  - apply Forall_drop, Forall_take. eapply Forall_impl; [done|]. auto.
  - exists r. split; [done|].
    assert (HT : forall p, 32 * start <= p < bm_n b ->
      match drop (Z.to_nat start) (take (Z.to_nat (bm_sz b)) (bm_xs b)) !! Z.to_nat (p / 32 - start)
      with Some w => Z.testbit (flip w) (p mod 32) | None => false end
      = xorb neg (bm_test b p)).
    { intros p Hp. rewrite tail_words by lia. unfold bm_test.
      destruct (bm_word b Hwf p) as (w & Hw & Hwr); [lia|]. rewrite Hw.
      apply Hf; [|done]. apply Z.mod_pos_bound. lia. }
    destruct Hok as [(H1 & H2 & H3)|(-> & H2)].
    + left. rewrite HT in H2 by lia. split_and!; [lia..| |].
      * by destruct neg, (bm_test b r).
      * intros p Hp. specialize (H3 p Hp). rewrite HT in H3 by lia.
        by destruct neg, (bm_test b p).
    + right. split; [done|]. intros p Hp. specialize (H2 p Hp). rewrite HT in H2 by lia.
      by destruct neg, (bm_test b p).
Qed.
End searches.

(** [first_one(start)] always returns: either the least set position at
    or after word [start], or [(size_t)-1] when no bit of [0, n) from there on
    is set. *)
Theorem first_one_finds_least b start :
  bm_wf b -> 0 <= start <= bm_sz b ->
  exists r, bm_first_one b start = Some r /\
    ((32 * start <= r < bm_n b /\ bm_test b r = true /\
      (forall p, 32 * start <= p < r -> bm_test b p = false)) \/
     (r = NPOS /\ forall p, 32 * start <= p < bm_n b -> bm_test b p = false)).
Proof. intros Hwf Hs. by apply (search_spec b Hwf start Hs (fun w => w) false). Qed.

Definition bm_sample : bitmap := Bitmap [0; 1280] 41 2.

Lemma first_one_finds_least_witness :
  bm_wf bm_sample /\ exists r, bm_first_one bm_sample 0 = Some r /\ r = 40.
Proof.
  assert (bm_wf bm_sample) as Hwf.
  { unfold bm_wf. simpl. split_and!; [lia..|done|done|]. repeat constructor; lia. }
  split; [done|].
  destruct (first_one_finds_least bm_sample 0 Hwf) as (r & E & _); [simpl; lia|].
  exists r. split; [done|]. vm_compute in E. by injection E as <-.
Defined.

(** ** Programs over a bitmap *)

Lemma reset_words xs start val cnt : 0 <= start -> 0 <= cnt -> start + cnt <= Z.of_nat (length xs) ->
  exists ys, memsetd_words xs start val cnt = Some ys /\ length ys = length xs /\
    forall i, ys !! i = if (start <=? Z.of_nat i) && (Z.of_nat i <? start + cnt) then Some (u32 val) else xs !! i.
Proof.
  intros Hs Hc Hl. unfold memsetd_words. rewrite !(proj2 (Z.leb_le _ _)) by lia. cbn [andb]. eexists. split; [done|]. split.
  - rewrite !length_app, length_take, length_replicate, length_drop. lia.
  - intros i. destruct (Z.leb_spec start (Z.of_nat i)) as [H1|H1]; cbn [andb].
    + rewrite lookup_app_r by (rewrite length_take; lia). rewrite length_take.
      destruct (Z.ltb_spec (Z.of_nat i) (start + cnt)) as [H2|H2].
      * rewrite lookup_app_l by (rewrite length_replicate; lia). apply lookup_replicate_2. lia.
      * rewrite lookup_app_r, length_replicate, lookup_drop by (rewrite length_replicate; lia). f_equal. lia.
    + rewrite lookup_app_l by (rewrite length_take; lia). apply lookup_take_lt. lia.
Qed.

Lemma bm_reset_spec b val start n : bm_wf b -> 0 <= start <= bm_sz b -> 0 <= n < 2 ^ 32 ->
  exists b', bm_reset b val start n = Some b' /\ bm_wf b' /\ bm_n b' = bm_n b /\
    forall p, 0 <= p < bm_n b ->
      bm_test b' p = if (start <=? p / 32) && (p / 32 <? start + n) then Z.testbit (u32 val) (p mod 32) else bm_test b p.
Proof.
  intros (Hn & Hsz & Hlen & Hall) Hs Hc. unfold bm_reset.
  assert (Hr : u32 (bm_sz b - start) = bm_sz b - start) by (apply u32_small; split; [lia|]; rewrite Hsz; assert ((bm_n b + 31) / 32 <= bm_n b + 31) by (apply Z.div_le_upper_bound; lia); lia).
  rewrite Hr. set (cnt := if _ <? n then _ else n). assert (Hcnt : cnt = Z.min n (bm_sz b - start)) by (unfold cnt; zcases; lia).
  destruct (reset_words (bm_xs b) start val cnt) as (ys & -> & Hl & Hy); [lia..|]. eexists. split; [done|]. split.
  - split; [done|]. split; [done|]. split; [cbn; lia|]. cbn [bm_xs]. apply Forall_lookup. intros i w E. rewrite Hy in E.
    destruct (_ && _); [injection E as <-; apply u32_range|]. exact (Forall_lookup_1 _ _ _ _ Hall E).
  - split; [done|]. intros p Hp. unfold bm_test. cbn [bm_xs]. rewrite Hy, Z.shiftr_div_pow2 by lia. change (2 ^ 5) with 32.
    assert (0 <= p / 32) by (apply Z.div_pos; lia). rewrite Z2Nat.id by done.
    assert (p / 32 < bm_sz b) by (rewrite Hsz; apply Z.div_lt_upper_bound; [lia|]; pose proof (Z.div_mod (bm_n b + 31) 32 ltac:(lia)); pose proof (Z.mod_pos_bound (bm_n b + 31) 32 ltac:(lia)); lia).
    destruct (Z.leb_spec start (p / 32)); cbn [andb]; [|done].
    destruct (Z.ltb_spec (p / 32) (start + cnt)), (Z.ltb_spec (p / 32) (start + n)); try lia; done.
Qed.

(** The operations that change a bitmap; positions and words are those of a
    bitmap of [count] bits. *)
Inductive bm_op : Type := BSet (p : Z) (x : bool) | BClear (p : Z) | BReset (val start n : Z).
Definition bm_do (o : bm_op) (b : bitmap) : option bitmap :=
  match o with BSet p x => bm_set b p x | BClear p => bm_clear b p | BReset v st n => bm_reset b v st n end.
Fixpoint bm_run (os : list bm_op) (b : bitmap) : option bitmap :=
  match os with [] => Some b | o :: r => b' ← bm_do o b; bm_run r b' end.
Definition bm_fits (count : Z) (o : bm_op) : Prop :=
  match o with
  | BSet p _ | BClear p => 0 <= p < count
  | BReset _ st n => 0 <= st <= (count + 31) / 32 /\ 0 <= n < 2 ^ 32
  end.

(** The same on a function from positions to bits. *)
Definition bits_do (f : Z -> bool) (o : bm_op) : Z -> bool :=
  match o with
  | BSet p x => fun q => if q =? p then x else f q
  | BClear p => fun q => if q =? p then false else f q
  | BReset v st n => fun q => if (st <=? q / 32) && (q / 32 <? st + n) then Z.testbit (u32 v) (q mod 32) else f q
  end.

Lemma bm_do_spec o b f : bm_wf b -> bm_fits (bm_n b) o -> (forall p, 0 <= p < bm_n b -> bm_test b p = f p) ->
  exists b', bm_do o b = Some b' /\ bm_wf b' /\ bm_n b' = bm_n b /\ forall p, 0 <= p < bm_n b -> bm_test b' p = bits_do f o p.
Proof.
  intros Hwf Ho Hf. destruct o as [q x|q|v st n]; cbn [bm_do bm_fits bits_do] in *.
  - destruct (bm_set_spec b Hwf q x Ho) as (b' & E & Hw & Hn & Ht). exists b'. split; [done|]. split; [done|]. split; [done|].
    intros p Hp. rewrite Ht by lia. by rewrite Hf.
  - unfold bm_clear. destruct (bm_set_spec b Hwf q false Ho) as (b' & E & Hw & Hn & Ht). exists b'. split; [done|]. split; [done|]. split; [done|].
    intros p Hp. rewrite Ht by lia. by rewrite Hf.
  - destruct Ho as [Hs Hc]. rewrite <- (proj1 (proj2 Hwf)) in Hs.
    destruct (bm_reset_spec b v st n Hwf Hs Hc) as (b' & E & Hw & Hn & Ht). exists b'. split; [done|]. split; [done|]. split; [done|].
    intros p Hp. rewrite Ht by lia. by rewrite Hf.
Qed.

Lemma bm_run_spec os : forall b f, bm_wf b -> Forall (bm_fits (bm_n b)) os -> (forall p, 0 <= p < bm_n b -> bm_test b p = f p) ->
  exists b', bm_run os b = Some b' /\ bm_wf b' /\ bm_n b' = bm_n b /\
    forall p, 0 <= p < bm_n b -> bm_test b' p = fold_left bits_do os f p.
Proof.
  induction os as [|o os IH]; intros b f Hwf Hos Hf; [by exists b|]. apply Forall_cons in Hos as [Ho Hos].
  destruct (bm_do_spec o b f Hwf Ho Hf) as (b1 & E1 & W1 & N1 & F1). rewrite <- N1 in Hos, F1.
  destruct (IH b1 (bits_do f o) W1 Hos F1) as (b2 & E2 & W2 & N2 & F2). exists b2. cbn [bm_run fold_left]. rewrite E1. cbn.
  split; [done|]. split; [done|]. split; [congruence|]. intros p Hp. apply F2. lia.
Qed.

(** C33: bitmaps are well typed: after any program of [set], [clear] and [reset]
    within the bitmap, no access has left the words, there are still as many
    words of 32 bits as the bits need, and reading a bit gives what was last
    written to it; the searches return a position of the bitmap or
    [(size_t)-1]. *)
Theorem bitmap_well_typed count os :
  0 <= count < 2 ^ 32 - 31 -> Forall (bm_fits count) os ->
  exists b, bm_run os (bitmap_new count None) = Some b /\ bm_wf b /\ bm_n b = count /\
    (forall p, 0 <= p < count -> bm_get b p = Some (fold_left bits_do os (fun _ => false) p)) /\
    (forall start, 0 <= start <= bm_sz b -> exists r z, bm_first_one b start = Some r /\ bm_first_zero b start = Some z /\
       (r = NPOS \/ 32 * start <= r < count) /\ (z = NPOS \/ 32 * start <= z < count)).
Proof.
  intros Hc Hos. destruct (bitmap_new_wf count Hc) as (W0 & N0 & T0).
  destruct (bm_run_spec os (bitmap_new count None) (fun _ => false) W0) as (b & E & W & N & T); [by rewrite N0|auto|].
  rewrite N0 in N, T. exists b. split; [done|]. split; [done|]. split; [done|]. split.
  - intros p Hp. rewrite (bm_get_test b W p) by lia. by rewrite T.
  - intros start Hs. destruct (search_spec b W start Hs (fun w => w) false) as (r & Er & Hr); [auto|by intros; destruct (Z.testbit _ _)|].
    destruct (search_spec b W start Hs (fun w => u32 (Z.lnot w)) true) as (z & Ez & Hz).
    { intros w _. apply u32_range. }
    { intros w k Hk Hw. unfold u32, wrap. rewrite Z.mod_pow2_bits_low, Z.lnot_spec by lia. by destruct (Z.testbit w k). }
    exists r, z. split; [exact Er|]. split; [exact Ez|]. rewrite <- N. split; [destruct Hr as [[? _]|[? _]]|destruct Hz as [[? _]|[? _]]]; auto.
Qed.

Lemma bitmap_well_typed_witness :
  exists b, bm_run [BReset 0xF0 0 1; BSet 40 true; BClear 4] (bitmap_new 41 None) = Some b /\ bm_wf b /\
    bm_get b 40 = Some true /\ bm_get b 4 = Some false /\ bm_get b 5 = Some true.
Proof.
  destruct (bitmap_well_typed 41 [BReset 0xF0 0 1; BSet 40 true; BClear 4]) as (b & E & W & _ & G & _); [lia| |].
  - apply Forall_cons_2; [unfold bm_fits; change ((41 + 31) / 32) with 2; lia|]. apply Forall_cons_2; [unfold bm_fits; lia|]. apply Forall_cons_2; [unfold bm_fits; lia|]. by apply Forall_nil_2.
  - exists b. split; [exact E|]. split; [exact W|]. split; [apply (G 40); lia|]. split; [apply (G 4)|apply (G 5)]; lia.
Defined.
