(* ===== verification/LinkedList.v ===== *)
(** * The linked_list container (include/lib/linked_list.h)

    [linked_list<T>] owns its nodes; an iterator is a node pointer together
    with a pointer to the list's size.  The condition variables, the VFS
    children and bind-point lists and the PCI bus list are [linked_list]s.
    [new node] is a call of the kernel allocator: the address it returns is an
    argument of the operations that allocate. *)

From S2P Require Import Prelude Dll.
From stdpp Require Import gmap list.
#[local] Open Scope Z_scope.

(** [node*]: the sentinel embedded in the list, or an allocated node. *)
Inductive nptr : Type := LNil | LNode (a : Z).

#[export] Instance nptr_eq_dec : EqDecision nptr.
Proof. solve_decision. Defined.
#[export] Instance nptr_countable : Countable nptr.
Proof.
  refine (inj_countable' (fun p => match p with LNil => None | LNode a => Some a end)
    (fun o => match o with None => LNil | Some a => LNode a end) _).
  by intros [].
Defined.

Section linked_list.
Context {T : Type} `{EqDecision T}.

Record llist : Type := LList {
  ll_links : gmap nptr (link nptr);
  ll_keys  : gmap nptr T;      (** the [key] of each allocated node *)
  ll_sz    : Z
}.

(** [linked_list()]: nil.prev = nil.next = nil.nil = &nil *)
Definition ll_new : llist := LList {[ LNil := Link LNil LNil ]} ∅ 0.

Definition node_next (n : nptr) : M llist nptr :=
  s <-- get;; c <-- deref (ll_links s !! n);; ret (next c).
Definition node_prev (n : nptr) : M llist nptr :=
  s <-- get;; c <-- deref (ll_links s !! n);; ret (prev c).
Definition node_key (n : nptr) : M llist T :=
  s <-- get;; deref (ll_keys s !! n).

(** [node::insert] and [node::remove] *)
Definition node_insert (this x : nptr) : M llist unit :=
  s <-- get;; l <-- deref (dll_insert this x (ll_links s));;
  modify (fun s => LList l (ll_keys s) (ll_sz s)).
Definition node_remove (this : nptr) : M llist unit :=
  s <-- get;; l <-- deref (dll_remove this (ll_links s));;
  modify (fun s => LList l (ll_keys s) (ll_sz s)).

(** [new node(k, nil)] at address [a]: [prev] and [next] start out null, which
    no node of the list is; [delete n]. *)
Definition node_new (a : Z) (k : T) : M llist unit :=
  modify (fun s => LList (<[LNode a := Link (LNode 0) (LNode 0)]> (ll_links s))
                         (<[LNode a := k]> (ll_keys s)) (ll_sz s)).
Definition node_delete (n : nptr) : M llist unit :=
  match n with
  | LNil => halt Fault
  | LNode _ => modify (fun s => LList (delete n (ll_links s)) (delete n (ll_keys s)) (ll_sz s))
  end.

Definition sz_add (d : Z) : M llist unit :=
  modify (fun s => LList (ll_links s) (ll_keys s) (u32 (ll_sz s + d))).

(** [iterator::insert(k)]: insert after the current entry. *)
Definition it_insert (n : nptr) (a : Z) (k : T) : M llist nptr :=
  node_new a k;;; node_insert n (LNode a);;; sz_add 1;;; node_next n.

(** [iterator::erase()]; the iterator becomes [end()]. *)
Definition it_erase (n : nptr) : M llist nptr :=
  node_remove n;;; node_delete n;;; sz_add (-1);;; ret LNil.

(** [iterator::move_after(it)] *)
Definition it_move_after (n it : nptr) : M llist nptr :=
  nx <-- node_next it;;
  if decide (nx = n) then ret n
  else node_remove n;;; node_insert it n;;; ret n.

Definition ll_begin : M llist nptr := node_next LNil.
Definition ll_end : nptr := LNil.

(** [find(k)]: for (; it != end() && *it != k; ++it) *)
Fixpoint find_loop (fuel : nat) (it : nptr) (k : T) : M llist nptr :=
  match fuel with
  | O => halt Fuel
  | S f =>
    if decide (it = ll_end) then ret it
    else x <-- node_key it;;
         if decide (x = k) then ret it
         else it' <-- node_next it;; find_loop f it' k
  end.
Definition ll_find (fuel : nat) (k : T) : M llist nptr :=
  it <-- ll_begin;; find_loop fuel it k.

(** [count(k)] *)
Fixpoint count_loop (fuel : nat) (it : nptr) (k : T) (n : Z) : M llist Z :=
  match fuel with
  | O => halt Fuel
  | S f =>
    if decide (it = ll_end) then ret n
    else x <-- node_key it;;
         it' <-- node_next it;;
         count_loop f it' k (if decide (x = k) then n + 1 else n)
  end.
Definition ll_count (fuel : nat) (k : T) : M llist Z :=
  it <-- ll_begin;; count_loop fuel it k 0.

Definition push_front (a : Z) (k : T) : M llist nptr :=
  it <-- ll_begin;; it_insert it a k.
Definition pop_front : M llist nptr := it <-- ll_begin;; it_erase it.
Definition push_back (a : Z) (k : T) : M llist nptr :=
  it <-- node_prev LNil;; it_insert it a k.
Definition pop_back : M llist nptr := it <-- node_prev LNil;; it_erase it.
Definition ll_size : M llist Z := s <-- get;; ret (ll_sz s).

(** [~linked_list()]: [nil.next->dealloc()] deletes every node up to the
    sentinel, last first. *)
Fixpoint dealloc (fuel : nat) (n : nptr) : M llist unit :=
  match fuel with
  | O => halt Fuel
  | S f =>
    if decide (n = LNil) then ret tt
    else n' <-- node_next n;; dealloc f n';;; node_delete n
  end.
Definition ll_destroy (fuel : nat) : M llist unit :=
  it <-- ll_begin;; dealloc fuel it.

(** ** Representation

    [ll_rep s l]: the list holds the nodes [l], with their keys, in order. *)
Definition ll_rep (s : llist) (l : list (Z * T)) : Prop :=
  ring (ll_links s) LNil ((fun p => LNode p.1) <$> l) /\
  (forall p, p ∈ l -> ll_keys s !! LNode p.1 = Some p.2) /\
  ll_sz s = Z.of_nat (length l) /\ Z.of_nat (length l) < 2 ^ 32.

Definition addrs (l : list (Z * T)) : list nptr := (fun p => LNode p.1) <$> l.

Lemma addrs_app l1 l2 : addrs (l1 ++ l2) = addrs l1 ++ addrs l2.
Proof. apply fmap_app. Qed.

Lemma ll_new_rep : ll_rep ll_new [].
Proof.
  split_and!; simpl.
  - split; [|apply NoDup_singleton]. split; unfold nextof, prevof; by simplify_map_eq.
  - intros p Hp. by apply not_elem_of_nil in Hp.
  - done.
  - lia.
Qed.

Section ops.
Context (s : llist) (l : list (Z * T)) (Hrep : ll_rep s l).

Lemma rep_nodup : NoDup (addrs l).
Proof. destruct Hrep as [[_ Hnd] _]. by apply NoDup_cons in Hnd as [_ ?]. Qed.

Lemma ll_begin_spec : ll_begin s = Ok (match l with [] => LNil | p :: _ => LNode p.1 end, s).
Proof.
  destruct Hrep as (Hr & _). pose proof (ring_head _ _ _ Hr) as Hh. unfold nextof in Hh.
  unfold ll_begin, node_next. mgo. destruct (ll_links s !! LNil) as [c|] eqn:E.
  - simpl. unfold bind, ret. simpl in Hh. destruct l; simpl in Hh; congruence.
  - destruct l; done.
Qed.

Lemma node_prev_nil_spec :
  node_prev LNil s = Ok (match last l with None => LNil | Some p => LNode p.1 end, s).
Proof.
  destruct Hrep as (Hr & _). pose proof (ring_last _ _ _ Hr) as Hh. unfold prevof in Hh.
  unfold node_prev. mgo. destruct (ll_links s !! LNil) as [c|] eqn:E.
  - simpl. unfold bind, ret. simpl in Hh. rewrite last_cons, fmap_last in Hh.
    destruct (last l); simpl in Hh; congruence.
  - exfalso. rewrite last_cons, fmap_last in Hh. destruct (last l); done.
Qed.

Lemma node_next_spec l1 p l2 :
  l = l1 ++ p :: l2 ->
  node_next (LNode p.1) s = Ok (match l2 with [] => LNil | q :: _ => LNode q.1 end, s).
Proof.
  intros E. destruct Hrep as (Hr & _). rewrite E, fmap_app, fmap_cons, ring_rotate in Hr.
  pose proof (ring_head _ _ _ Hr) as Hh. unfold nextof in Hh. unfold node_next. mgo.
  destruct (ll_links s !! LNode p.1) as [c|] eqn:Ec.
  - simpl. unfold bind, ret. simpl in Hh. destruct l2; simpl in Hh; congruence.
  - destruct l2; done.
Qed.
End ops.

(** A fresh address is none of the list's nodes. *)
Definition fresh_addr (a : Z) (l : list (Z * T)) : Prop := a ∉ l.*1.

Lemma fresh_addr_node a l : fresh_addr a l -> LNode a ∉ LNil :: addrs l.
Proof.
  intros Hf [H|H]%elem_of_cons; [done|].
  apply list_elem_of_fmap in H as (p & [= ->] & Hp). apply Hf. by apply list_elem_of_fmap_2.
Qed.

(** [it_insert] after the node in front of [l2]. *)
Lemma it_insert_spec s l1 l2 a k :
  ll_rep s (l1 ++ l2) -> fresh_addr a (l1 ++ l2) -> Z.of_nat (length (l1 ++ l2)) + 1 < 2 ^ 32 ->
  exists s', it_insert (match last l1 with None => LNil | Some p => LNode p.1 end) a k s
             = Ok (LNode a, s') /\ ll_rep s' (l1 ++ (a, k) :: l2).
Proof.
  intros (Hr & Hk & Hs & Hlt) Hf Hlen. fold (addrs (l1 ++ l2)) in Hr.
  set (n := match last l1 with None => LNil | Some p => LNode p.1 end).
  set (m1 := <[LNode a := Link (LNode 0) (LNode 0)]> (ll_links s)).
  assert (Hfn : LNode a ∉ LNil :: addrs (l1 ++ l2)) by (by apply fresh_addr_node).
  assert (Hr1 : ring m1 LNil (addrs (l1 ++ l2))).
  { eapply ring_ext; [|exact Hr]. intros q Hq. apply lookup_insert_ne. intros <-. done. }
  assert (exists m2, dll_insert n (LNode a) m1 = Some m2 /\ ring m2 LNil (addrs (l1 ++ (a, k) :: l2)))
    as (m2 & Hins & Hr2).
  { assert (is_Some (m1 !! LNode a)) as Hsome by (subst m1; rewrite lookup_insert_eq; eauto).
    destruct (last l1) as [p|] eqn:El.
    - apply last_Some in El as [l0 ->]. rewrite <- app_assoc, addrs_app in Hr1, Hfn.
      destruct (dll_insert_after m1 LNil (addrs l0) (LNode p.1) (addrs l2) (LNode a))
        as (m2 & E & H & _); [done|done|done|].
      exists m2. split; [done|]. rewrite <- app_assoc, addrs_app. done.
    - apply last_None in El as ->. destruct (dll_insert_front m1 LNil (addrs l2) (LNode a))
        as (m2 & E & H & _); [done|done|done|]. by exists m2. }
  unfold it_insert, node_new, node_insert, sz_add. mgo. cbn [ll_links]. fold m1.
  mrun (deref_some _ _ (LList m1 (<[LNode a := k]> (ll_keys s)) (ll_sz s)) Hins). mgo.
  cbn [ll_links ll_keys ll_sz].
  set (s' := LList m2 (<[LNode a := k]> (ll_keys s)) (u32 (ll_sz s + 1))).
  assert (Hrep' : ll_rep s' (l1 ++ (a, k) :: l2)).
  { split_and!; simpl.
    - exact Hr2.
    - intros p Hp. destruct (decide (p.1 = a)) as [Ea|Ea].
      + assert (p = (a, k)) as ->; [|by rewrite lookup_insert_eq].
        apply elem_of_app in Hp as [Hp|[->|Hp]%elem_of_cons]; [|done|];
          destruct Hf; rewrite <- Ea; apply list_elem_of_fmap_2, elem_of_app; auto.
      + rewrite lookup_insert_ne by congruence. apply Hk.
        apply elem_of_app in Hp as [Hp|[->|Hp]%elem_of_cons]; [|done|]; apply elem_of_app; auto.
    - rewrite Hs, u32_small; rewrite !length_app in *; simpl; lia.
    - rewrite !length_app in *. simpl. lia. }
  exists s'. split; [|done]. fold s'.
  subst n. destruct (last l1) as [p|] eqn:El.
  - apply last_Some in El as [l0 ->]. rewrite <- app_assoc in Hrep'.
    by rewrite (node_next_spec s' _ Hrep' l0 p ((a, k) :: l2)).
  - apply last_None in El as ->. apply (ll_begin_spec s' _ Hrep').
Qed.

(** [it_erase] of a node of the list. *)
Lemma it_erase_spec s l1 p l2 :
  ll_rep s (l1 ++ p :: l2) ->
  exists s', it_erase (LNode p.1) s = Ok (LNil, s') /\ ll_rep s' (l1 ++ l2).
Proof.
  intros Hrep. pose proof (rep_nodup _ _ Hrep) as Hnd. destruct Hrep as (Hr & Hk & Hs & Hlt).
  fold (addrs (l1 ++ p :: l2)) in Hr. rewrite addrs_app in Hr, Hnd. simpl in Hr, Hnd.
  destruct (dll_remove_mid _ _ _ _ _ Hr) as (m' & E & Hr' & _ & _).
  assert (Hni : LNode p.1 ∉ addrs l1 ++ addrs l2).
  { by apply NoDup_mid in Hnd as [? _]. }
  unfold it_erase, node_remove, node_delete, sz_add. mgo. mrun (deref_some _ _ s E). mgo.
  cbn [ll_links ll_keys ll_sz]. eexists; split; [done|]. split_and!; simpl.
  - rewrite fmap_app. eapply ring_ext; [|exact Hr'].
    intros q Hq. apply lookup_delete_ne. intros <-. apply elem_of_cons in Hq as [?|?]; done.
  - intros q Hq. rewrite lookup_delete_ne; [apply Hk; rewrite elem_of_app in *; rewrite elem_of_cons; tauto|].
    intros [= Ea]. apply Hni. rewrite <- addrs_app. unfold addrs. rewrite Ea.
    by apply list_elem_of_fmap_2 with (f := fun p => LNode p.1).
  - rewrite Hs, u32_small; rewrite !length_app in *; simpl in *; lia.
  - rewrite !length_app in *. simpl in *. lia.
Qed.

(** ** Traversals *)

Definition hd_ptr (l : list (Z * T)) : nptr :=
  match l with [] => LNil | p :: _ => LNode p.1 end.

Lemma find_loop_spec fuel s l1 l2 k :
  ll_rep s (l1 ++ l2) -> (length l2 < fuel)%nat ->
  find_loop fuel (hd_ptr l2) k s
  = Ok (match list_find (fun p => p.2 = k) l2 with Some (_, p) => LNode p.1 | None => LNil end, s).
Proof.
  revert l1 l2. induction fuel as [|fuel IH]; intros l1 l2 Hrep Hf; [lia|].
  cbn [find_loop]. destruct l2 as [|p l2]; cbn [hd_ptr]; [by rewrite decide_True|].
  rewrite decide_False by done.
  unfold node_key. mgo. pose proof Hrep as (Hr & Hk & Hs & Hlt).
  assert (Hkp : ll_keys s !! LNode p.1 = Some p.2) by (apply Hk; set_solver).
  mrun (deref_some _ _ s Hkp). destruct (decide (p.2 = k)) as [Ek|Ek].
  - simpl. by rewrite decide_True.
  - simpl. rewrite (decide_False (P := p.2 = k)) by done.
    mrun (node_next_spec s _ Hrep l1 p l2 eq_refl).
    fold (hd_ptr l2). rewrite (IH (l1 ++ [p]) l2); [|by rewrite <- app_assoc|simpl in Hf; lia].
    by destruct (list_find (fun p => p.2 = k) l2) as [[i q]|].
Qed.

Lemma count_loop_spec fuel s l1 l2 k n :
  ll_rep s (l1 ++ l2) -> (length l2 < fuel)%nat ->
  count_loop fuel (hd_ptr l2) k n s
  = Ok (n + Z.of_nat (length (filter (fun p => p.2 = k) l2)), s).
Proof.
  revert l1 l2 n. induction fuel as [|fuel IH]; intros l1 l2 n Hrep Hf; [lia|].
  cbn [count_loop]. destruct l2 as [|p l2]; cbn [hd_ptr].
  { rewrite decide_True by done. unfold ret. simpl. do 2 f_equal. lia. }
  rewrite decide_False by done.
  unfold node_key. mgo. pose proof Hrep as (Hr & Hk & Hs & Hlt).
  assert (Hkp : ll_keys s !! LNode p.1 = Some p.2) by (apply Hk; set_solver).
  mrun (deref_some _ _ s Hkp). mrun (node_next_spec s _ Hrep l1 p l2 eq_refl).
  fold (hd_ptr l2). rewrite (IH (l1 ++ [p]) l2); [|by rewrite <- app_assoc|simpl in Hf; lia].
  rewrite filter_cons. destruct (decide (p.2 = k)); simpl; do 2 f_equal; lia.
Qed.

Lemma last_ptr_prev s l : ll_rep s l ->
  node_prev LNil s = Ok (match last l with None => LNil | Some p => LNode p.1 end, s).
Proof. intros Hrep. by apply node_prev_nil_spec. Qed.

(** the container refines the sequence of its elements: [push_back]
    appends, [pop_front] and [pop_back] drop an end, [erase] removes exactly
    the iterator's node, [find] stops at the first equal element (or at
    [end()]) and [count] counts the equal ones; all of them return without a
    fault, and the cached size stays the length. *)
Theorem linked_list_refines_sequence s l :
  ll_rep s l ->
  (forall a k, fresh_addr a l -> Z.of_nat (length l) + 1 < 2 ^ 32 ->
     exists s', push_back a k s = Ok (LNode a, s') /\ ll_rep s' (l ++ [(a, k)])) /\
  (forall p l', l = p :: l' -> exists s', pop_front s = Ok (LNil, s') /\ ll_rep s' l') /\
  (forall p l', l = l' ++ [p] -> exists s', pop_back s = Ok (LNil, s') /\ ll_rep s' l') /\
  (forall l1 p l2, l = l1 ++ p :: l2 ->
     exists s', it_erase (LNode p.1) s = Ok (LNil, s') /\ ll_rep s' (l1 ++ l2)) /\
  (forall k, ll_find (S (length l)) k s
     = Ok (match list_find (fun p => p.2 = k) l with Some (_, p) => LNode p.1 | None => ll_end end, s)) /\
  (forall k, ll_count (S (length l)) k s = Ok (Z.of_nat (length (filter (fun p => p.2 = k) l)), s)) /\
  ll_size s = Ok (Z.of_nat (length l), s).
Proof.
  intros Hrep. split_and!.
  - intros a k Hf Hlen. unfold push_back. mrun (last_ptr_prev s l Hrep).
    destruct (it_insert_spec s l [] a k) as (s' & E & H); rewrite ?app_nil_r in *; try done.
    by exists s'.
  - intros p l' ->. unfold pop_front. mrun (ll_begin_spec s _ Hrep).
    by apply (it_erase_spec s [] p l').
  - intros p l' ->. unfold pop_back. mrun (last_ptr_prev s _ Hrep). rewrite last_snoc.
    destruct (it_erase_spec s l' p [] Hrep) as (s' & E & H). rewrite app_nil_r in H. by exists s'.
  - intros l1 p l2 ->. by apply it_erase_spec.
  - intros k. unfold ll_find. mrun (ll_begin_spec s l Hrep).
    apply (find_loop_spec (S (length l)) s [] l k Hrep). lia.
  - intros k. unfold ll_count. mrun (ll_begin_spec s l Hrep).
    apply (count_loop_spec (S (length l)) s [] l k 0 Hrep). lia.
  - destruct Hrep as (_ & _ & E & _). unfold ll_size. mgo. by rewrite E.
Qed.

(** [push_front] on a non-empty list puts the new element second, not
    first: it calls [insert] on [begin()], and [insert] goes after the
    iterator. *)
Theorem push_front_goes_second s p l a k :
  ll_rep s (p :: l) -> fresh_addr a (p :: l) -> Z.of_nat (length (p :: l)) + 1 < 2 ^ 32 ->
  exists s', push_front a k s = Ok (LNode a, s') /\ ll_rep s' (p :: (a, k) :: l).
Proof.
  intros Hrep Hf Hlen. unfold push_front. mrun (ll_begin_spec s _ Hrep).
  by apply (it_insert_spec s [p] l a k).
Qed.
End linked_list.
Arguments llist : clear implicits.

(** ** Witnesses *)

Definition ll_sample : llist Z :=
  LList {[ LNil := Link (LNode 8) (LNode 8); LNode 8 := Link LNil LNil ]} {[ LNode 8 := 42 ]} 1.

Lemma ll_sample_rep : ll_rep ll_sample [(8, 42)].
Proof.
  split_and!.
  - split; [vm_compute; split_and!; reflexivity|].
    apply NoDup_cons. split; [|apply NoDup_singleton]. simpl. rewrite list_elem_of_singleton. done.
  - intros p Hp. apply list_elem_of_singleton in Hp as ->. vm_compute. reflexivity.
  - done.
  - simpl. lia.
Qed.

Lemma linked_list_refines_sequence_witness :
  ll_rep ll_sample [(8, 42)] /\
  exists s', push_back 9 43 ll_sample = Ok (LNode 9, s') /\ ll_rep s' [(8, 42); (9, 43)].
Proof.
  split; [exact ll_sample_rep|].
  apply (proj1 (linked_list_refines_sequence ll_sample [(8, 42)] ll_sample_rep) 9 43); [|simpl; lia].
  unfold fresh_addr. simpl. rewrite list_elem_of_singleton. lia.
Defined.

Lemma push_front_goes_second_witness :
  exists s', push_front 9 43 ll_sample = Ok (LNode 9, s') /\ ll_rep s' [(8, 42); (9, 43)].
Proof.
  apply (push_front_goes_second ll_sample (8, 42) [] 9 43 ll_sample_rep); [|simpl; lia].
  unfold fresh_addr. simpl. rewrite list_elem_of_singleton. lia.
Defined.
