(* ===== verification/Buddy.v ===== *)
(** * The physical frame allocator (kernel/mem/paging.cpp, kernel/include/paging.h)

    A buddy allocator: [page_entries[i]] describes frame [i], and for each
    order [x] in [0, BUDDY_MAX_ORDER] the list [buddy_lists[x]] links the free
    blocks of [2^x] frames, with a bitmap recording which of them are free.
    The first part translates [alloc_frames], [free_frames] and the part of
    [init] that builds the lists; the second part states the allocator's
    invariant and proves what the operations do to the set of free frames. *)

From S2P Require Import Prelude Dll Bitmap.
From stdpp Require Import gmap list.
#[local] Open Scope Z_scope.

Definition PAGE_SHIFT : Z := 12.
Definition PAGE_SIZE : Z := 4096.
Definition BUDDY_MAX_ORDER : Z := 10.

(** Pointers to [page_list_entry]: the sentinel of a list, or an element of
    [page_entries]. *)
Inductive pptr : Type :=
| PNil (x : Z)      (** [&buddy_lists[x].nil] *)
| PEnt (i : Z).     (** [page_entries + i] *)

#[export] Instance pptr_eq_dec : EqDecision pptr.
Proof. solve_decision. Defined.
#[export] Instance pptr_countable : Countable pptr.
Proof.
  refine (inj_countable' (fun p => match p with PNil x => inl x | PEnt i => inr i end)
    (fun s => match s with inl x => PNil x | inr i => PEnt i end) _).
  by intros [].
Defined.

(** The allocator's variables.  The fields of the [page_list_entry] objects
    are kept per field: [fs_links] their [prev]/[next], [fs_order] the [order]
    of [page_entries[i]]. *)
Record frames : Type := Frames {
  fs_links : gmap pptr (link pptr);
  fs_order : gmap Z Z;
  fs_map   : gmap Z bitmap;      (** [buddy_lists[x].map] *)
  fs_avail : gmap Z Z;           (** [buddy_lists[x].num_avail] *)
  fs_mem   : Z                   (** [memory_size], in bytes *)
}.

Definition with_links v (s : frames) := Frames v (fs_order s) (fs_map s) (fs_avail s) (fs_mem s).
Definition with_order v (s : frames) := Frames (fs_links s) v (fs_map s) (fs_avail s) (fs_mem s).
Definition with_maps v (s : frames) := Frames (fs_links s) (fs_order s) v (fs_avail s) (fs_mem s).
Definition with_avail v (s : frames) := Frames (fs_links s) (fs_order s) (fs_map s) v (fs_mem s).

Definition get_buddy (x order : Z) : Z := Z.lxor x (u32 (Z.shiftl 1 order)).

(** ** Field accesses *)

Definition list_first (x : Z) : M frames pptr :=
  s <-- get;; c <-- deref (fs_links s !! PNil x);; ret (next c).

(** [page_list_entry::insert] and [page_list_entry::remove] *)
Definition entry_insert (this x : pptr) : M frames unit :=
  s <-- get;; l <-- deref (dll_insert this x (fs_links s));; modify (with_links l).
Definition entry_remove (this : pptr) : M frames unit :=
  s <-- get;; l <-- deref (dll_remove this (fs_links s));; modify (with_links l).

(** [entry - page_entries] *)
Definition entry_index (p : pptr) : M frames Z :=
  match p with PEnt i => ret i | PNil _ => halt Fault end.

Definition order_get (i : Z) : M frames Z := s <-- get;; deref (fs_order s !! i).
Definition order_put (i o : Z) : M frames unit :=
  s <-- get;; _ <-- deref (fs_order s !! i);; modify (with_order (<[i := o]> (fs_order s))).

Definition map_test (x pos : Z) : M frames bool :=
  s <-- get;; b <-- deref (fs_map s !! x);; deref (bm_get b pos).
Definition map_put (x pos : Z) (v : bool) : M frames unit :=
  s <-- get;; b <-- deref (fs_map s !! x);; b' <-- deref (bm_set b pos v);;
  modify (with_maps (<[x := b']> (fs_map s))).
Definition avail_add (x d : Z) : M frames unit :=
  s <-- get;; n <-- deref (fs_avail s !! x);; modify (with_avail (<[x := n + d]> (fs_avail s))).

(** ** The operations *)

(** The four statements that put block [i] on list [x] (in [alloc_frames],
    [free_frames] and [init]). *)
Definition add_block (i x : Z) : M frames unit :=
  order_put i x;;;
  entry_insert (PNil x) (PEnt i);;;
  map_put x (Z.shiftr i x) true;;;
  avail_add x 1.

(** [for (; x <= BUDDY_MAX_ORDER && buddy_lists[x].nil.next == &buddy_lists[x].nil; x++) ;] *)
Fixpoint find_order (fuel : nat) (x : Z) : M frames Z :=
  match fuel with
  | O => halt Fuel
  | S k =>
    if x <=? BUDDY_MAX_ORDER then
      p <-- list_first x;;
      if decide (p = PNil x) then find_order k (x + 1) else ret x
    else ret x
  end.

(** [for (x--; x >= order; x--)]: split the block into buddies. *)
Fixpoint split_loop (fuel : nat) (x order idx : Z) : M frames unit :=
  if x <? order then ret tt
  else match fuel with
       | O => halt Fuel
       | S k => add_block (get_buddy idx x) x;;; split_loop k (x - 1) order idx
       end.

Definition alloc_frames (order : Z) : M frames Z :=
  asserth (order <=? BUDDY_MAX_ORDER);;;
  x <-- find_order 12 order;;
  if BUDDY_MAX_ORDER <? x then ret 0
  else
    entry <-- list_first x;;
    entry_remove entry;;;
    avail_add x (-1);;;
    idx <-- entry_index entry;;
    split_loop 11 (x - 1) order idx;;;
    order_put idx order;;;
    map_put order (Z.shiftr idx order) false;;;
    ret (u32 (Z.shiftl idx PAGE_SHIFT)).

(** The merging loop of [free_frames]; [entry] is [page_entries + idx]
    throughout, so the loop carries [idx] alone. *)
Fixpoint merge_loop (fuel : nat) (x idx : Z) : M frames (Z * Z) :=
  match fuel with
  | O => halt Fuel
  | S k =>
    if x <=? BUDDY_MAX_ORDER then
      s <-- get;;
      let b := get_buddy idx x in
      free <-- (if b <? Z.shiftr (fs_mem s) PAGE_SHIFT then
                  o <-- order_get b;;
                  if o =? x then map_test x (Z.shiftr b x) else ret false
                else ret false);;
      if (free : bool) then
        entry_remove (PEnt b);;;
        map_put x (Z.shiftr b x) false;;;
        avail_add x (-1);;;
        merge_loop k (x + 1) (if b <? idx then b else idx)
      else ret (x, idx)
    else ret (x, idx)
  end.

Definition free_frames (p : Z) : M frames Z :=
  s <-- get;;
  asserth (p <? fs_mem s);;;
  let idx := Z.shiftr p PAGE_SHIFT in
  o <-- order_get idx;;
  asserth (o <=? BUDDY_MAX_ORDER);;;
  r <-- merge_loop 12 o idx;;
  let order := Z.min r.1 BUDDY_MAX_ORDER in
  add_block r.2 order;;;
  ret (u32 (Z.shiftl 1 order)).

(** [for (; i+(1<<x) > mem_sz; x--) ;] *)
Fixpoint shrink_order (fuel : nat) (i x mem_sz : Z) : outcome Z :=
  if mem_sz <? i + Z.shiftl 1 x then
    match fuel with O => Stop Fuel | S k => shrink_order k i (x - 1) mem_sz end
  else Ok x.

(** The block-making loop of [paging::init]. *)
Fixpoint make_blocks (fuel : nat) (i x mem_sz : Z) : M frames unit :=
  if i <? mem_sz then
    match fuel with
    | O => halt Fuel
    | S k =>
      match shrink_order 11 i x mem_sz with
      | Stop e => halt e
      | Ok x' => add_block i x';;; make_blocks k (i + Z.shiftl 1 x') x' mem_sz
      end
    end
  else ret tt.

(** [page_entries = new page_list_entry[mem_sz]] and the loop that empties the
    lists.  A new entry has [order] 0xff and unspecified links [junk]. *)
Definition orders_upto : list Z := [0;1;2;3;4;5;6;7;8;9;10].

Definition init_lists (junk : Z -> link pptr) (memory_size : Z) : frames :=
  let mem_sz := Z.shiftr memory_size PAGE_SHIFT in
  let idxs := Z.of_nat <$> seq 0 (Z.to_nat mem_sz) in
  Frames
    (list_to_map ((fun x => (PNil x, Link (PNil x) (PNil x))) <$> orders_upto)
     ∪ list_to_map ((fun i => (PEnt i, junk i)) <$> idxs))
    (list_to_map ((fun i => (i, 255)) <$> idxs))
    (list_to_map ((fun x => (x, bitmap_new (Z.shiftr mem_sz x) None)) <$> orders_upto))
    (list_to_map ((fun x => (x, 0)) <$> orders_upto))
    memory_size.

(** The frame-allocator half of [paging::init(mem_sz)]: [start] is the first
    frame after the kernel, [(end - KERNEL_VIRTUAL_BASE) >> PAGE_SHIFT]. *)
Definition buddy_init (junk : Z -> link pptr) (memory_size start : Z) : outcome (unit * frames) :=
  let mem_sz := Z.shiftr memory_size PAGE_SHIFT in
  make_blocks (Z.to_nat mem_sz) start BUDDY_MAX_ORDER mem_sz (init_lists junk memory_size).
