(* ===== verification/BuddySpec.v ===== *)
(** * The frame allocator: invariant and correctness

    Ghost state: [fl x] is the content of [buddy_lists[x]], [al] the blocks
    handed out and not yet freed.  The invariant ties the lists, the bitmaps,
    the counters and the [order] fields together and keeps all blocks, free
    and allocated, pairwise disjoint.  The theorems describe each operation
    by its effect on the set of free frames. *)

From S2P Require Import Prelude Dll Bitmap Buddy.
From stdpp Require Import gmap list.
#[local] Open Scope Z_scope.

(** ** Blocks *)

Definition in_block (i x j : Z) : Prop := i <= j < i + 2 ^ x.
Definition disj (i x j y : Z) : Prop := i + 2 ^ x <= j \/ j + 2 ^ y <= i.
Definition npages (s : frames) : Z := Z.shiftr (fs_mem s) PAGE_SHIFT.
Definition block_ok (s : frames) (i x : Z) : Prop :=
  0 < i /\ aligned x i /\ i + 2 ^ x <= npages s.
Definition order_ok (x : Z) : Prop := 0 <= x <= BUDDY_MAX_ORDER.

Ltac ord_lia := unfold order_ok, BUDDY_MAX_ORDER in *; lia.

(** Updating one free list. *)
Definition upd (fl : Z -> list Z) (x : Z) (l : list Z) : Z -> list Z :=
  fun y => if y =? x then l else fl y.

Definition is_block (fl : Z -> list Z) (al : gmap Z Z) (i x : Z) : Prop :=
  (order_ok x /\ i ∈ fl x) \/ al !! i = Some x.

(** The frames the allocator can still hand out. *)
Definition free_frame (fl : Z -> list Z) (j : Z) : Prop :=
  exists x i, order_ok x /\ i ∈ fl x /\ in_block i x j.

(** The free bit of block [i] of order [x]. *)
Definition bit (s : frames) (x i : Z) : bool :=
  match fs_map s !! x with Some b => bm_test b (Z.shiftr i x) | None => false end.

(** ** The invariant

    [pe] is a block in flight: split off a list, or being merged. *)
Record inv0 (s : frames) (fl : Z -> list Z) (al : gmap Z Z) (pe : option (Z * Z)) : Prop := {
  i_mem : 0 <= fs_mem s < 2 ^ 32;
  i_ring : forall x, order_ok x -> ring (fs_links s) (PNil x) (PEnt <$> fl x);
  i_links : forall i, 0 <= i < npages s -> is_Some (fs_links s !! PEnt i);
  i_map : forall x, order_ok x -> exists b,
    fs_map s !! x = Some b /\ bm_wf b /\ bm_n b = Z.shiftr (npages s) x;
  i_avail : forall x, order_ok x -> fs_avail s !! x = Some (Z.of_nat (length (fl x)));
  i_order : forall i, 0 <= i < npages s -> exists o, fs_order s !! i = Some o /\
    0 <= o /\ (o <= BUDDY_MAX_ORDER -> aligned o i /\ i + 2 ^ o <= npages s);
  i_free : forall x i, order_ok x -> i ∈ fl x ->
    fs_order s !! i = Some x /\ bit s x i = true /\ block_ok s i x;
  i_al : forall i x, al !! i = Some x ->
    order_ok x /\ fs_order s !! i = Some x /\ block_ok s i x /\ i ∉ fl x;
  i_disj : forall i x j y, is_block fl al i x -> is_block fl al j y ->
    (i, x) <> (j, y) -> disj i x j y;
  i_pend : match pe with
           | None => True
           | Some (i, x) => 0 <= x /\ block_ok s i x /\
               forall j y, is_block fl al j y -> disj i x j y
           end
}.

(** A set bit at the recorded order of an entry means the entry is on that
    list; [ex] is the entry [alloc_frames] has taken off a list without
    clearing its bit. *)
Definition bits_ok (s : frames) (fl : Z -> list Z) (ex : option Z) : Prop :=
  forall x i, order_ok x -> 0 <= i < npages s -> ex <> Some i ->
    fs_order s !! i = Some x -> bit s x i = true -> i ∈ fl x.

Definition buddy_inv (s : frames) (fl : Z -> list Z) (al : gmap Z Z) : Prop :=
  inv0 s fl al None /\ bits_ok s fl None.

(** ** Generic facts *)

Lemma upd_eq fl x l : upd fl x l x = l.
Proof. unfold upd. by rewrite Z.eqb_refl. Qed.
Lemma upd_ne fl x y l : x <> y -> upd fl x l y = fl y.
Proof. intros. unfold upd. by destruct (Z.eqb_spec y x). Qed.

Lemma disj_sym i x j y : disj i x j y -> disj j y i x.
Proof. unfold disj. lia. Qed.

Lemma disj_ne i x j y : 0 <= x -> 0 <= y -> disj i x j y -> i <> j.
Proof. intros Hx Hy. pose proof (pow2_pos x Hx). pose proof (pow2_pos y Hy). unfold disj. lia. Qed.

(** Shrinking one of two disjoint blocks. *)
Lemma disj_sub i x j y i' x' :
  i <= i' -> i' + 2 ^ x' <= i + 2 ^ x -> disj i x j y -> disj i' x' j y.
Proof. unfold disj. lia. Qed.

Lemma pow2_succ x : 0 <= x -> 2 ^ (x + 1) = 2 * 2 ^ x.
Proof. intros. rewrite Z.pow_add_r by lia. lia. Qed.

(** The buddy of an aligned block is the other half of the next larger one. *)
Lemma get_buddy_cases i x :
  order_ok x -> aligned x i -> 0 <= i ->
  (aligned (x + 1) i /\ get_buddy i x = i + 2 ^ x) \/
  (aligned (x + 1) (i - 2 ^ x) /\ get_buddy i x = i - 2 ^ x /\ 2 ^ x <= i).
Proof.
  unfold order_ok, BUDDY_MAX_ORDER. intros Hx [k ->] Hi. unfold get_buddy.
  rewrite bit_u32 by lia. pose proof (pow2_pos x ltac:(lia)) as Hp.
  assert (0 <= k) by nia.
  assert (Z.lxor (k * 2 ^ x) (2 ^ x) = Z.lxor k 1 * 2 ^ x) as ->.
  { rewrite <- !Z.shiftl_mul_pow2 by lia. rewrite <- (Z.shiftl_1_l x), Z.shiftl_lxor. done. }
  destruct (Z.Even_or_Odd k) as [[q ->]|[q ->]].
  - left. replace (Z.lxor (2 * q) 1) with (2 * q + 1).
    + split; [|ring]. exists q. rewrite pow2_succ by lia. ring.
    + destruct q; [done|done|lia].
  - right. replace (Z.lxor (2 * q + 1) 1) with (2 * q).
    + split_and!; [|ring|nia]. exists q. rewrite pow2_succ by lia. ring.
    + destruct q; [done|done|lia].
Qed.

Lemma block_bit_pos s i x :
  order_ok x -> block_ok s i x -> 0 <= Z.shiftr i x < Z.shiftr (npages s) x.
Proof.
  unfold order_ok. intros Hx (H1 & H2 & H3). pose proof (pow2_pos x ltac:(lia)).
  rewrite !shiftr_div by lia. destruct H2 as [k ->].
  rewrite Z.div_mul by lia. split; [nia|].
  enough (k + 1 <= npages s / 2 ^ x) by lia. apply Z.div_le_lower_bound; nia.
Qed.

(** The index of a free or allocated block determines its order. *)
Lemma is_block_order s fl al pe i x :
  inv0 s fl al pe -> is_block fl al i x ->
  order_ok x /\ fs_order s !! i = Some x /\ block_ok s i x.
Proof.
  intros I [[Hx Hi]|Ha].
  - destruct (i_free _ _ _ _ I x i Hx Hi) as (? & _ & ?). done.
  - destruct (i_al _ _ _ _ I i x Ha) as (? & ? & ? & _). done.
Qed.

Lemma inv0_drop s fl al pe : inv0 s fl al pe -> inv0 s fl al None.
Proof. intros []; constructor; auto. Qed.

Lemma free_frame_cons fl o i j :
  order_ok o -> free_frame (upd fl o (i :: fl o)) j <-> free_frame fl j \/ in_block i o j.
Proof.
  intros Ho. unfold free_frame. split.
  - intros (x & k & Hx & Hk & Hj). destruct (Z.eq_dec x o) as [->|].
    + rewrite upd_eq in Hk. apply elem_of_cons in Hk as [->|Hk]; eauto 10.
    + rewrite upd_ne in Hk by done. eauto 10.
  - intros [(x & k & Hx & Hk & Hj)|Hj].
    + destruct (Z.eq_dec x o) as [->|]; [exists o, k|exists x, k].
      * rewrite upd_eq. set_solver.
      * rewrite upd_ne by done. done.
    + exists o, i. rewrite upd_eq. set_solver.
Qed.

Lemma free_frame_remove fl o l1 i l2 j :
  order_ok o -> fl o = l1 ++ i :: l2 ->
  free_frame fl j <-> free_frame (upd fl o (l1 ++ l2)) j \/ in_block i o j.
Proof.
  intros Ho E. unfold free_frame. split.
  - intros (x & k & Hx & Hk & Hj). destruct (Z.eq_dec x o) as [->|].
    + rewrite E in Hk. apply elem_of_app in Hk as [Hk|Hk]; [|apply elem_of_cons in Hk as [->|Hk]].
      * left. exists o, k. rewrite upd_eq. set_solver.
      * by right.
      * left. exists o, k. rewrite upd_eq. set_solver.
    + left. exists x, k. by rewrite upd_ne.
  - intros [(x & k & Hx & Hk & Hj)|Hj].
    + destruct (Z.eq_dec x o) as [->|]; [exists o, k|exists x, k].
      * rewrite upd_eq in Hk. rewrite E. set_solver.
      * rewrite upd_ne in Hk by done. done.
    + exists o, i. rewrite E. set_solver.
Qed.

(** ** Steps on the lists *)

Lemma fmap_PEnt_not_in i (l : list Z) : i ∉ l -> PEnt i ∉ (PEnt <$> l).
Proof. intros Hi Hin. apply list_elem_of_fmap in Hin as (k & [= ->] & Hk). done. Qed.

Lemma PNil_not_in x (l : list Z) : PNil x ∉ (PEnt <$> l).
Proof. intros Hin. by apply list_elem_of_fmap in Hin as (k & ? & ?). Qed.

Definition maps_ok (s : frames) : Prop :=
  forall x, order_ok x -> exists b,
    fs_map s !! x = Some b /\ bm_wf b /\ bm_n b = Z.shiftr (npages s) x.

(** Writing the bit of block [i] changes no other aligned block's bit. *)
Lemma map_put_spec s x i v :
  maps_ok s -> order_ok x -> block_ok s i x ->
  exists s', map_put x (Z.shiftr i x) v s = Ok (tt, s') /\
    s' = with_maps (fs_map s') s /\ maps_ok s' /\
    bit s' x i = v /\
    (forall y k, order_ok y -> aligned y k -> 0 <= k -> (y, k) <> (x, i) ->
       bit s' y k = bit s y k).
Proof.
  intros I Hx Hb. destruct (I x Hx) as (b & Hm & Hwf & Hn).
  pose proof (block_bit_pos s i x Hx Hb) as Hpos. rewrite <- Hn in Hpos.
  destruct (bm_set_spec b Hwf (Z.shiftr i x) v Hpos) as (b' & Hset & Hwf' & Hn' & Ht).
  unfold map_put. mgo. mrun (deref_some _ _ s Hm). mrun (deref_some _ _ s Hset).
  eexists; split; [done|]. split_and!; simpl.
  - done.
  - intros y Hy. destruct (Z.eq_dec y x) as [->|].
    + exists b'. simpl. rewrite lookup_insert_eq. rewrite Hn'. done.
    + simpl. rewrite lookup_insert_ne by done. by apply I.
  - unfold bit. simpl. rewrite lookup_insert_eq, Ht by lia. by rewrite Z.eqb_refl.
  - intros y k Hy Hk Hk0 Hne. unfold bit. simpl. destruct (Z.eq_dec y x) as [->|].
    + rewrite lookup_insert_eq, Hm. rewrite Ht by (apply Z.shiftr_nonneg; lia).
      destruct (Z.eqb_spec (Z.shiftr k x) (Z.shiftr i x)) as [E|]; [|done].
      destruct Hne. f_equal. apply (aligned_shiftr_inj x); [ord_lia|done|apply Hb|done].
    + rewrite lookup_insert_ne by done. done.
Qed.

(** What putting the block [i] of order [o] on its list does to the tables. *)
Record added (s s' : frames) (fl : Z -> list Z) (i o : Z) : Prop := {
  ad_mem : fs_mem s' = fs_mem s;
  ad_ring : forall x, order_ok x -> ring (fs_links s') (PNil x) (PEnt <$> upd fl o (i :: fl o) x);
  ad_links : forall k, 0 <= k < npages s -> is_Some (fs_links s' !! PEnt k);
  ad_map : maps_ok s';
  ad_avail : forall x, order_ok x -> fs_avail s' !! x = Some (Z.of_nat (length (upd fl o (i :: fl o) x)));
  ad_order : forall k, fs_order s' !! k = if k =? i then Some o else fs_order s !! k;
  ad_bit_i : bit s' o i = true;
  ad_bit : forall y k, order_ok y -> aligned y k -> 0 <= k -> (y, k) <> (o, i) -> bit s' y k = bit s y k
}.

Lemma insert_rings s fl al pe i o m' : inv0 s fl al pe -> order_ok o -> (forall y, order_ok y -> i ∉ fl y) ->
  ring m' (PNil o) (PEnt <$> i :: fl o) ->
  (forall k, k ∉ PEnt i :: PNil o :: (PEnt <$> fl o) -> m' !! k = fs_links s !! k) ->
  forall x, order_ok x -> ring m' (PNil x) (PEnt <$> upd fl o (i :: fl o) x).
Proof.
  intros I Ho Hni Hring Hframe x Hx. destruct (Z.eq_dec x o) as [->|Hne]; [by rewrite upd_eq|].
  rewrite upd_ne by done. eapply ring_ext; [|by apply (i_ring _ _ _ _ I)].
  intros k Hk. apply Hframe. rewrite !not_elem_of_cons. apply elem_of_cons in Hk as [->|Hk].
  { split_and!; [done|congruence|apply PNil_not_in]. }
  apply list_elem_of_fmap in Hk as (k' & -> & Hk').
  split_and!; [intros [= ->]; by apply (Hni x)|done|]. apply fmap_PEnt_not_in.
  intros Hin. destruct (is_block_order _ _ _ _ k' x I ltac:(by left)) as (_ & E1 & _).
  destruct (is_block_order _ _ _ _ k' o I ltac:(by left)) as (_ & E2 & _). congruence.
Qed.

Lemma add_block_run s fl al pe i o :
  inv0 s fl al pe -> order_ok o -> block_ok s i o -> (forall y, order_ok y -> i ∉ fl y) ->
  exists s', add_block i o s = Ok (tt, s') /\ added s s' fl i o.
Proof.
  intros I Ho Hb Hni. pose proof (pow2_pos o ltac:(ord_lia)) as Hpo.
  assert (Hi : 0 <= i < npages s) by (destruct Hb as (? & _ & ?); lia).
  destruct (i_order _ _ _ _ I i Hi) as (o0 & Ho0 & _).
  set (s1 := with_order (<[i := o]> (fs_order s)) s).
  destruct (dll_insert_front (fs_links s) (PNil o) (PEnt <$> fl o) (PEnt i)) as (m' & Hins & Hring & Hframe).
  { by apply (i_ring _ _ _ _ I). }
  { apply not_elem_of_cons. split; [done|]. apply fmap_PEnt_not_in. auto. }
  { by apply (i_links _ _ _ _ I). }
  set (s2 := with_links m' s1).
  destruct (map_put_spec s2 o i true (i_map _ _ _ _ I) Ho Hb) as (s3 & Emap & Hs3 & Hm3 & Hb3 & Hb3').
  unfold add_block, order_put. mgo. mrun (deref_some _ _ s Ho0). mgo. fold s1.
  unfold entry_insert. mgo. change (fs_links s1) with (fs_links s).
  mrun (deref_some _ _ s1 Hins). mgo. fold s2. mrun Emap. unfold avail_add. mgo.
  assert (fs_avail s3 !! o = Some (Z.of_nat (length (fl o)))) as Hav.
  { rewrite Hs3. simpl. by apply (i_avail _ _ _ _ I). }
  mrun (deref_some _ _ s3 Hav). eexists; split; [done|]. constructor; try done.
  - by rewrite Hs3.
  - rewrite Hs3. simpl. by apply (insert_rings s fl al pe).
  - intros k Hk. rewrite Hs3. simpl. destruct (decide (PEnt k ∈ PEnt i :: PNil o :: (PEnt <$> fl o))) as [Hin|Hin].
    + eapply ring_dom; [done|]. set_solver.
    + rewrite Hframe by done. by apply (i_links _ _ _ _ I).
  - intros x Hx. simpl. destruct (Z.eq_dec x o) as [->|].
    + rewrite lookup_insert_eq, upd_eq. simpl. f_equal. lia.
    + rewrite lookup_insert_ne, upd_ne by done. rewrite Hs3. by apply (i_avail _ _ _ _ I).
  - intros k. rewrite Hs3. simpl. rewrite lookup_insert. case_decide; zcases; congruence.
Qed.

Section added.
Context (s s' : frames) (fl : Z -> list Z) (al : gmap Z Z) (pe : option (Z * Z)) (i o : Z).
Hypotheses (I : inv0 s fl al pe) (Ho : order_ok o) (Hb : block_ok s i o)
  (Hd : forall j y, is_block fl al j y -> disj i o j y) (A : added s s' fl i o).

Lemma added_absent y : order_ok y -> i ∉ fl y.
Proof.
  intros Hy Hin. pose proof (pow2_pos o ltac:(ord_lia)). apply (disj_ne i o i y); [ord_lia|ord_lia| |done]. apply Hd. by left.
Qed.

Lemma added_block j y : is_block (upd fl o (i :: fl o)) al j y -> (j, y) = (i, o) \/ is_block fl al j y.
Proof.
  intros [[Hy Hj]|]; [|by right; right]. destruct (Z.eq_dec y o) as [->|].
  - rewrite upd_eq in Hj. apply elem_of_cons in Hj as [->|]; [by left|]. right; by left.
  - rewrite upd_ne in Hj by done. right; by left.
Qed.

Lemma added_keeps x k : k ∈ fl x -> k ∈ upd fl o (i :: fl o) x.
Proof. intros Hk. destruct (Z.eq_dec x o) as [->|]; [rewrite upd_eq; set_solver|by rewrite upd_ne]. Qed.

Lemma added_npages : npages s' = npages s.
Proof. unfold npages. by rewrite (ad_mem _ _ _ _ _ A). Qed.

Lemma added_order k : k <> i -> fs_order s' !! k = fs_order s !! k.
Proof. intros Hk. rewrite (ad_order _ _ _ _ _ A). by rewrite (proj2 (Z.eqb_neq _ _) Hk). Qed.
Lemma added_order_i : fs_order s' !! i = Some o.
Proof. by rewrite (ad_order _ _ _ _ _ A), Z.eqb_refl. Qed.

(** The blocks on the lists, old and new. *)
Lemma added_free x k : order_ok x -> k ∈ upd fl o (i :: fl o) x ->
  fs_order s' !! k = Some x /\ bit s' x k = true /\ block_ok s' k x.
Proof.
  intros Hx Hk. unfold block_ok. rewrite added_npages. destruct (Z.eq_dec k i) as [->|Hki].
  - assert (x = o) as -> by (destruct (Z.eq_dec x o); [done|]; rewrite upd_ne in Hk by done; by destruct (added_absent x)).
    split; [apply added_order_i|]. split; [apply (ad_bit_i _ _ _ _ _ A)|done].
  - assert (k ∈ fl x) as Hk' by (destruct (Z.eq_dec x o) as [->|]; [rewrite upd_eq in Hk; set_solver|by rewrite upd_ne in Hk]).
    destruct (i_free _ _ _ _ I x k Hx Hk') as (E1 & E2 & E3). rewrite added_order by done. split; [done|]. split; [|done].
    rewrite (ad_bit _ _ _ _ _ A); [exact E2|done|apply E3|destruct E3; lia|congruence].
Qed.

Lemma added_inv : match pe with Some (k, z) => disj i o k z | None => True end -> inv0 s' (upd fl o (i :: fl o)) al pe.
Proof.
  intros Hpe. pose proof (pow2_pos o ltac:(ord_lia)) as Hpo. constructor.
  - rewrite (ad_mem _ _ _ _ _ A). apply (i_mem _ _ _ _ I).
  - apply (ad_ring _ _ _ _ _ A).
  - rewrite added_npages. apply (ad_links _ _ _ _ _ A).
  - apply (ad_map _ _ _ _ _ A).
  - apply (ad_avail _ _ _ _ _ A).
  - rewrite added_npages. intros k Hk. destruct (Z.eq_dec k i) as [->|].
    + exists o. rewrite added_order_i. split_and!; [done|ord_lia|]. intros _. split; apply Hb.
    + rewrite added_order by done. by apply (i_order _ _ _ _ I).
  - apply added_free.
  - intros k x Ha. destruct (i_al _ _ _ _ I k x Ha) as (E1 & E2 & E3 & E4).
    assert (k <> i) as Hki by (intros ->; apply (disj_ne i o i x); [ord_lia|ord_lia|apply Hd; by right|done]).
    unfold block_ok. rewrite added_npages, added_order by done. split_and!; try done; try apply E3.
    destruct (Z.eq_dec x o) as [->|]; [rewrite upd_eq; set_solver|by rewrite upd_ne].
  - intros j y k z Hj Hk Hne. apply added_block in Hj as [[= -> ->]|Hj]; apply added_block in Hk as [[= -> ->]|Hk].
    + done.
    + by apply Hd.
    + by apply disj_sym, Hd.
    + by apply (i_disj _ _ _ _ I).
  - pose proof (i_pend _ _ _ _ I) as Hp. destruct pe as [[k z]|]; [|done]. destruct Hp as (Hz & Hk & Hp).
    unfold block_ok. rewrite added_npages. split; [done|]. split; [done|].
    intros j y Hj. apply added_block in Hj as [[= -> ->]|Hj]; [by apply disj_sym|auto].
Qed.

Lemma added_bits ex : bits_ok s fl ex -> bits_ok s' (upd fl o (i :: fl o)) ex.
Proof.
  intros HB x k Hx Hk Hex Hok Hbit. rewrite added_npages in Hk. destruct (Z.eq_dec k i) as [->|Hki].
  - rewrite added_order_i in Hok. injection Hok as <-. rewrite upd_eq. set_solver.
  - rewrite added_order in Hok by done. destruct (i_order _ _ _ _ I k Hk) as (o' & Ho' & _ & Hal).
    assert (o' = x) as -> by congruence. destruct Hal as [Hal _]; [apply Hx|].
    rewrite (ad_bit _ _ _ _ _ A) in Hbit; [|done|done|lia|congruence]. by apply added_keeps, (HB x k).
Qed.
End added.

Lemma add_block_spec s fl al pe ex i o :
  inv0 s fl al pe -> bits_ok s fl ex -> order_ok o -> block_ok s i o ->
  (forall j y, is_block fl al j y -> disj i o j y) ->
  match pe with Some (k, z) => disj i o k z | None => True end ->
  exists s', add_block i o s = Ok (tt, s') /\
    inv0 s' (upd fl o (i :: fl o)) al pe /\ bits_ok s' (upd fl o (i :: fl o)) ex /\
    fs_mem s' = fs_mem s /\ (forall k, k <> i -> fs_order s' !! k = fs_order s !! k).
Proof.
  intros I HB Ho Hb Hd Hpe.
  destruct (add_block_run s fl al pe i o I Ho Hb) as (s' & Hrun & A); [intros y; by apply (added_absent fl al i o Ho Hd)|].
  exists s'. split; [done|]. split; [by apply (added_inv s)|]. split; [by apply (added_bits s s' fl al pe)|].
  split; [apply A|]. by apply (added_order s s' fl i o).
Qed.

(** Unlinking a free block keeps every list a ring. *)
Lemma unlink_spec s fl al pe x l1 i l2 :
  inv0 s fl al pe -> order_ok x -> fl x = l1 ++ i :: l2 ->
  exists m', dll_remove (PEnt i) (fs_links s) = Some m' /\
    (forall y, order_ok y -> ring m' (PNil y) (PEnt <$> upd fl x (l1 ++ l2) y)) /\
    (forall p, is_Some (fs_links s !! p) -> is_Some (m' !! p)).
Proof.
  intros I Hx E. pose proof (i_ring _ _ _ _ I x Hx) as Hr.
  rewrite E, fmap_app, fmap_cons in Hr.
  destruct (dll_remove_mid _ _ _ _ _ Hr) as (m' & Hrm & Hr' & Hxm & Hf).
  rewrite <- fmap_app in Hr', Hf. exists m'. split_and!; [done| |].
  - intros y Hy. destruct (Z.eq_dec y x) as [->|]; [by rewrite upd_eq|].
    rewrite upd_ne by done. eapply ring_ext; [|by apply (i_ring _ _ _ _ I)].
    intros k Hk. apply Hf. rewrite not_elem_of_cons.
    apply elem_of_cons in Hk as [->|Hk]; [split; [congruence|apply PNil_not_in]|].
    apply list_elem_of_fmap in Hk as (k' & -> & Hk'). split; [done|].
    apply fmap_PEnt_not_in. intros Hin.
    destruct (is_block_order _ _ _ _ k' y I ltac:(by left)) as (_ & E1 & _).
    destruct (is_block_order _ _ _ _ k' x I) as (_ & E2 & _); [left; rewrite E; set_solver|].
    congruence.
  - intros p Hp. destruct (decide (p ∈ PNil x :: (PEnt <$> l1 ++ l2))) as [Hin|Hin].
    + by eapply ring_dom.
    + by rewrite Hf.
Qed.

(** The state after block [i] left list [x]: it is now in flight. *)
Lemma take_inv s fl al x l1 i l2 s' :
  inv0 s fl al None -> order_ok x -> fl x = l1 ++ i :: l2 ->
  fs_mem s' = fs_mem s -> fs_order s' = fs_order s ->
  (forall y, order_ok y -> ring (fs_links s') (PNil y) (PEnt <$> upd fl x (l1 ++ l2) y)) ->
  (forall p, is_Some (fs_links s !! p) -> is_Some (fs_links s' !! p)) ->
  fs_avail s' = <[x := Z.of_nat (length (fl x)) + -1]> (fs_avail s) ->
  maps_ok s' ->
  (forall y k, order_ok y -> aligned y k -> 0 <= k -> (y, k) <> (x, i) -> bit s' y k = bit s y k) ->
  inv0 s' (upd fl x (l1 ++ l2)) al (Some (i, x)) /\
  (bits_ok s fl None -> bits_ok s' (upd fl x (l1 ++ l2)) (Some i) /\
     (bit s' x i = false -> bits_ok s' (upd fl x (l1 ++ l2)) None)).
Proof.
  intros I Hx E Hmem Hord Hring Hlinks Hav Hmaps Hbits.
  assert (Hnp : npages s' = npages s) by (unfold npages; by rewrite Hmem).
  assert (Hi : i ∈ fl x) by (rewrite E; set_solver).
  assert (Hnd : NoDup (fl x)).
  { pose proof (i_ring _ _ _ _ I x Hx) as [_ Hnd]. apply NoDup_cons in Hnd as [_ Hnd].
    by apply NoDup_fmap_1 in Hnd. }
  assert (Hni : i ∉ l1 ++ l2) by (rewrite E in Hnd; apply NoDup_app in Hnd;
    rewrite NoDup_cons in Hnd; set_solver).
  assert (Hsub : forall y k, k ∈ upd fl x (l1 ++ l2) y -> k ∈ fl y /\ (y, k) <> (x, i)).
  { intros y k Hk. destruct (Z.eq_dec y x) as [->|].
    - rewrite upd_eq in Hk. rewrite E. split; [set_solver|]. intros [= ->]. done.
    - rewrite upd_ne in Hk by done. split; [done|congruence]. }
  assert (Hblk : forall j y, is_block (upd fl x (l1 ++ l2)) al j y -> is_block fl al j y).
  { intros j y [[Hy Hj]|]; [left; split; [done|by apply Hsub]|by right]. }
  split.
  - constructor.
    + rewrite Hmem. apply (i_mem _ _ _ _ I).
    + done.
    + intros k Hk. rewrite Hnp in Hk. apply Hlinks. by apply (i_links _ _ _ _ I).
    + done.
    + intros y Hy. rewrite Hav. destruct (Z.eq_dec y x) as [->|].
      * rewrite lookup_insert_eq, upd_eq, E, !length_app. simpl. f_equal. lia.
      * rewrite lookup_insert_ne, upd_ne by done. by apply (i_avail _ _ _ _ I).
    + intros k Hk. rewrite Hnp, Hord in *. by apply (i_order _ _ _ _ I).
    + intros y k Hy Hk. apply Hsub in Hk as [Hk Hne].
      destruct (i_free _ _ _ _ I y k Hy Hk) as (E1 & E2 & E3). rewrite Hord.
      split_and!; [done| |unfold block_ok; by rewrite Hnp].
      rewrite Hbits; [done|done|apply E3|destruct E3; lia|done].
    + intros k y Ha. destruct (i_al _ _ _ _ I k y Ha) as (E1 & E2 & E3 & E4). rewrite Hord.
      split_and!; [done|done|unfold block_ok; by rewrite Hnp|]. intros Hk. by apply Hsub in Hk as [].
    + intros j y k z Hj Hk. apply (i_disj _ _ _ _ I); auto.
    + destruct (i_free _ _ _ _ I x i Hx Hi) as (E1 & E2 & E3).
      split_and!; [ord_lia|unfold block_ok; by rewrite Hnp|].
      intros j y Hj. apply (i_disj _ _ _ _ I); [by left|auto|]. intros [= <- <-].
      destruct Hj as [[_ Hj]|Hj].
      * by apply Hsub in Hj as [].
      * destruct (i_al _ _ _ _ I i x Hj) as (_ & _ & _ & ?). done.
  - intros HB.
    assert (Hgen : forall y k, order_ok y -> 0 <= k < npages s' -> (y, k) <> (x, i) ->
      fs_order s' !! k = Some y -> bit s' y k = true -> k ∈ upd fl x (l1 ++ l2) y).
    { intros y k Hy Hk Hne Hok Hb. rewrite Hnp in Hk. rewrite Hord in Hok.
      destruct (i_order _ _ _ _ I k Hk) as (o & Ho & _ & Hal).
      assert (o = y) as -> by congruence. destruct Hal as [Hal _]; [apply Hy|].
      rewrite Hbits in Hb; [|done|done|lia|done].
      assert (k ∈ fl y) as Hin by (by apply HB).
      destruct (Z.eq_dec y x) as [->|]; [rewrite upd_eq|by rewrite upd_ne].
      rewrite E in Hin. assert (k <> i) by congruence. set_solver. }
    split.
    + intros y k Hy Hk Hex Hok Hb. apply Hgen; try done. congruence.
    + intros Hf y k Hy Hk _ Hok Hb. apply Hgen; try done. intros [= -> ->]. congruence.
Qed.

(** Recording the block in flight as allocated: the last statements of
    [alloc_frames]. *)
Lemma settle_spec s fl al i o :
  inv0 s fl al (Some (i, o)) -> bits_ok s fl (Some i) -> order_ok o ->
  exists s', (order_put i o;;; map_put o (Z.shiftr i o) false) s = Ok (tt, s') /\
    buddy_inv s' fl (<[i := o]> al).
Proof.
  intros I HB Ho. destruct (i_pend _ _ _ _ I) as (Hoz & Hb & Hd).
  pose proof (pow2_pos o Hoz) as Hpo.
  assert (Hi : 0 <= i < npages s) by (destruct Hb as (? & _ & ?); lia).
  destruct (i_order _ _ _ _ I i Hi) as (o0 & Ho0 & _).
  set (s1 := with_order (<[i := o]> (fs_order s)) s).
  destruct (map_put_spec s1 o i false (i_map _ _ _ _ I) Ho Hb)
    as (s2 & Emap & Hs2 & Hm2 & Hb2 & Hb2').
  unfold order_put. mgo. mrun (deref_some _ _ s Ho0). mgo. fold s1.
  exists s2. split; [done|].
  assert (Hnp : npages s2 = npages s) by (unfold npages; by rewrite Hs2).
  assert (Hne : forall j y, is_block fl al j y -> j <> i).
  { intros j y Hj. destruct (is_block_order _ _ _ _ j y I Hj) as (Hy & _).
    apply not_eq_sym, (disj_ne i o j y); [lia|ord_lia|auto]. }
  assert (Hord : forall k, k <> i -> fs_order s2 !! k = fs_order s !! k).
  { intros. rewrite Hs2. simpl. by apply lookup_insert_ne. }
  assert (Hordi : fs_order s2 !! i = Some o).
  { rewrite Hs2. simpl. by rewrite lookup_insert_eq. }
  assert (Hblk : forall j y, is_block fl (<[i := o]> al) j y ->
                  (j, y) = (i, o) \/ is_block fl al j y).
  { intros j y [Hj|Hj]; [by right; left|]. destruct (Z.eq_dec j i) as [->|].
    - rewrite lookup_insert_eq in Hj. left. congruence.
    - rewrite lookup_insert_ne in Hj by done. right; by right. }
  split; [constructor|].
  - rewrite Hs2. apply (i_mem _ _ _ _ I).
  - rewrite Hs2. apply (i_ring _ _ _ _ I).
  - rewrite Hnp, Hs2. apply (i_links _ _ _ _ I).
  - done.
  - rewrite Hs2. apply (i_avail _ _ _ _ I).
  - intros k Hk. rewrite Hnp in *. destruct (Z.eq_dec k i) as [->|].
    + exists o. split_and!; [done|done|]. intros _. split; apply Hb.
    + rewrite Hord by done. by apply (i_order _ _ _ _ I).
  - intros x k Hx Hk. destruct (i_free _ _ _ _ I x k Hx Hk) as (E1 & E2 & E3).
    assert (k <> i) by (apply (Hne k x); by left).
    rewrite Hord by done. split_and!; [done| |unfold block_ok; by rewrite Hnp].
    rewrite Hb2'; [exact E2|done|apply E3|destruct E3; lia|congruence].
  - intros k x Ha. destruct (Z.eq_dec k i) as [->|].
    + rewrite lookup_insert_eq in Ha. injection Ha as <-.
      split_and!; [done|done|unfold block_ok; by rewrite Hnp|].
      intros Hin. apply (Hne i o); [by left|done].
    + rewrite lookup_insert_ne in Ha by done.
      destruct (i_al _ _ _ _ I k x Ha) as (E1 & E2 & E3 & E4). rewrite Hord by done.
      split_and!; [done|done|unfold block_ok; by rewrite Hnp|done].
  - intros j y k z Hj Hk Hn.
    apply Hblk in Hj as [[= -> ->]|Hj]; apply Hblk in Hk as [[= -> ->]|Hk].
    + done.
    + by apply Hd.
    + by apply disj_sym, Hd.
    + by apply (i_disj _ _ _ _ I).
  - done.
  - intros x k Hx Hk _ Hok Hbit. rewrite Hnp in Hk. destruct (Z.eq_dec k i) as [->|].
    + rewrite Hordi in Hok. injection Hok as <-. congruence.
    + rewrite Hord in Hok by done.
      destruct (i_order _ _ _ _ I k Hk) as (o' & Ho' & _ & Hal).
      assert (o' = x) as -> by congruence. destruct Hal as [Hal _]; [apply Hx|].
      rewrite Hb2' in Hbit; [|done|done|lia|congruence]. apply HB; try done. congruence.
Qed.

(** ** [alloc_frames] *)

Lemma list_first_spec s fl al pe x :
  inv0 s fl al pe -> order_ok x ->
  list_first x s = Ok (match fl x with [] => PNil x | i :: _ => PEnt i end, s).
Proof.
  intros I Hx. pose proof (i_ring _ _ _ _ I x Hx) as Hr.
  pose proof (ring_head _ _ _ Hr) as Hh. unfold nextof in Hh. unfold list_first. mgo.
  destruct (fs_links s !! PNil x) as [c|] eqn:E.
  - simpl. unfold bind, ret. simpl in Hh. destruct (fl x); simpl in Hh; congruence.
  - destruct (fl x); done.
Qed.

Lemma find_order_spec s fl al pe fuel x :
  inv0 s fl al pe -> 0 <= x <= 11 -> 11 - x < Z.of_nat fuel ->
  exists x', find_order fuel x s = Ok (x', s) /\ x <= x' <= 11 /\
    (x' <= BUDDY_MAX_ORDER -> fl x' <> []) /\
    (forall y, x <= y < x' -> fl y = []).
Proof.
  intros I. revert x. unfold BUDDY_MAX_ORDER.
  induction fuel as [|fuel IH]; intros x Hx Hf; [lia|].
  cbn [find_order]. destruct (Z.leb_spec x BUDDY_MAX_ORDER) as [Hle|Hgt]; unfold BUDDY_MAX_ORDER in *.
  - rewrite (bind_ok _ _ _ _ _ (list_first_spec s fl al pe x I ltac:(ord_lia))).
    destruct (fl x) as [|i l] eqn:E.
    + rewrite decide_True by done. destruct (IH (x + 1)) as (x' & E1 & H1 & H2 & H3); [lia..|].
      exists x'. split_and!; [done|lia|lia|done|]. intros y Hy.
      destruct (Z.eq_dec y x) as [->|]; [done|]. apply H3. lia.
    + rewrite decide_False by done. exists x. split_and!; [done|lia|lia|by rewrite E|intros; lia].
  - exists x. split_and!; [done|lia|lia|lia|intros; lia].
Qed.

Lemma get_buddy_up i x : order_ok x -> aligned (x + 1) i -> 0 <= i -> get_buddy i x = i + 2 ^ x.
Proof.
  intros Hx Hal Hi. assert (Hxz : 0 <= x) by (ord_lia).
  destruct (get_buddy_cases i x Hx) as [[_ E]|([k E] & _ & _)]; [|done|done|].
  - apply (aligned_le x (x + 1)); [lia|done].
  - exfalso. destruct Hal as [q ->]. rewrite pow2_succ in E by lia.
    pose proof (pow2_pos x Hxz). assert ((2 * q - 1 - 2 * k) * 2 ^ x = 0) as [Ez|Ez]%Z.mul_eq_0 by lia; lia.
Qed.

Lemma inv0_shrink s fl al i x y :
  0 <= y <= x -> inv0 s fl al (Some (i, x)) -> inv0 s fl al (Some (i, y)).
Proof.
  intros Hyx []; constructor; auto. destruct i_pend0 as (H1 & (H2 & H3 & H4) & H5).
  assert (2 ^ y <= 2 ^ x) by (apply Z.pow_le_mono_r; lia).
  split_and!; [lia| |].
  - split_and!; [lia|by apply (aligned_le y x)|lia].
  - intros j z Hj. eapply disj_sub; [| |by apply H5]; lia.
Qed.

Lemma split_loop_spec fuel s fl al x order idx :
  inv0 s fl al (Some (idx, x + 1)) -> bits_ok s fl (Some idx) ->
  order_ok order -> order <= x + 1 -> x <= BUDDY_MAX_ORDER -> x - order < Z.of_nat fuel ->
  exists s' fl', split_loop fuel x order idx s = Ok (tt, s') /\
    inv0 s' fl' al (Some (idx, order)) /\ bits_ok s' fl' (Some idx) /\ fs_mem s' = fs_mem s /\
    forall j, free_frame fl j \/ in_block idx (x + 1) j <->
              free_frame fl' j \/ in_block idx order j.
Proof.
  revert s fl x. induction fuel as [|fuel IH]; intros s fl x I HB Ho Hle Hmax Hf.
  - assert (x + 1 = order) as <- by lia. simpl.
    destruct (Z.ltb_spec x (x + 1)); [|lia]. exists s, fl. split_and!; try done.
  - simpl. destruct (Z.ltb_spec x order) as [Hlt|Hge].
    { assert (x + 1 = order) as <- by lia. exists s, fl. split_and!; try done. }
    assert (Hx : order_ok x) by (ord_lia).
    assert (Hxz : 0 <= x) by (ord_lia).
    pose proof (pow2_pos x Hxz) as Hp. pose proof (pow2_succ x Hxz) as Hp2.
    destruct (i_pend _ _ _ _ I) as (_ & (H1 & H2 & H3) & H4).
    rewrite get_buddy_up by (try done; lia).
    assert (Hal : aligned x (idx + 2 ^ x)).
    { apply Z.divide_add_r; [by apply (aligned_le x (x + 1)); [lia|]|exists 1; ring]. }
    assert (Hd : disj idx x (idx + 2 ^ x) x) by (unfold disj; lia).
    assert (I' := inv0_shrink s fl al idx (x + 1) x ltac:(lia) I).
    destruct (add_block_spec s fl al (Some (idx, x)) (Some idx) (idx + 2 ^ x) x)
      as (s1 & E1 & I1 & HB1 & Hm1 & _); [done|done|done| | |by apply disj_sym|].
    { split_and!; [lia|done|lia]. }
    { intros j y Hj. eapply disj_sub; [| |by apply H4]; lia. }
    mrun E1. replace (x - 1 + 1) with x in IH by lia.
    destruct (IH s1 (upd fl x (idx + 2 ^ x :: fl x)) (x - 1)) as (s2 & fl2 & E2 & I2 & HB2 & Hm2 & Hfr).
    { by replace (x - 1 + 1) with x by lia. }
    { done. } { done. } { lia. } { lia. } { lia. }
    exists s2, fl2. split_and!; [done|done|done|congruence|].
    intros j. rewrite <- Hfr, free_frame_cons by done.
    replace (x - 1 + 1) with x by lia. unfold in_block. rewrite Hp2.
    split; [intros [?|?]; [tauto|]|intros [[?|?]|?]; [tauto|right; lia..]].
    destruct (Z.lt_ge_cases j (idx + 2 ^ x)); [right; lia|left; right; lia].
Qed.

Lemma shiftl_page s i x : 0 <= fs_mem s < 2 ^ 32 -> 0 <= x -> block_ok s i x ->
  u32 (Z.shiftl i PAGE_SHIFT) = i * PAGE_SIZE /\ i * PAGE_SIZE < fs_mem s.
Proof.
  intros Hm Hx (H1 & H2 & H3). pose proof (pow2_pos x Hx). unfold npages, PAGE_SHIFT, PAGE_SIZE in *.
  rewrite shiftl_mul by lia. change (2 ^ 12) with 4096. rewrite shiftr_div in H3 by lia.
  change (2 ^ 12) with 4096 in H3. pose proof (Z.mul_div_le (fs_mem s) 4096 ltac:(lia)).
  split; [apply u32_small|]; nia.
Qed.

(** The split of a free list at its head, seen from [alloc_frames]. *)
Lemma take_first_spec s fl al x i l :
  buddy_inv s fl al -> order_ok x -> fl x = i :: l ->
  exists s', (entry_remove (PEnt i);;; avail_add x (-1)) s = Ok (tt, s') /\
    inv0 s' (upd fl x l) al (Some (i, x)) /\ bits_ok s' (upd fl x l) (Some i) /\
    fs_mem s' = fs_mem s.
Proof.
  intros [I HB] Hx E.
  destruct (unlink_spec s fl al None x [] i l I Hx E) as (m' & Hrm & Hr & Hd).
  unfold entry_remove. mgo. mrun (deref_some _ _ s Hrm). mgo. unfold avail_add. mgo.
  assert (fs_avail (with_links m' s) !! x = Some (Z.of_nat (length (fl x)))) as Hav
    by apply (i_avail _ _ _ _ I x Hx).
  mrun (deref_some _ _ (with_links m' s) Hav). eexists; split; [done|].
  destruct (take_inv s fl al x [] i l
    (with_avail (<[x := Z.of_nat (length (fl x)) + -1]> (fs_avail (with_links m' s)))
       (with_links m' s))) as [I' HB']; try done.
  { exact (i_map _ _ _ _ I). }
  split_and!; [done|by apply HB'|done].
Qed.

Lemma alloc_frames_spec s fl al order :
  buddy_inv s fl al -> order_ok order ->
  (exists idx s' fl',
     alloc_frames order s = Ok (idx * PAGE_SIZE, s') /\
     block_ok s idx order /\ al !! idx = None /\
     buddy_inv s' fl' (<[idx := order]> al) /\
     (forall j, free_frame fl j <-> free_frame fl' j \/ in_block idx order j) /\
     (forall j, free_frame fl' j -> ~ in_block idx order j)) \/
  (alloc_frames order s = Ok (0, s) /\ forall x, order <= x <= BUDDY_MAX_ORDER -> fl x = []).
Proof.
  intros Hinv Ho. pose proof Hinv as [I HB]. unfold alloc_frames.
  assert (order <=? BUDDY_MAX_ORDER = true) as Hle by (apply Z.leb_le; apply Ho).
  mrun (asserth_true _ s Hle).
  destruct (find_order_spec s fl al None 12 order I) as (x & Ex & Hx & Hne & Hemp).
  { ord_lia. } { ord_lia. }
  mrun Ex. unfold BUDDY_MAX_ORDER in *. destruct (Z.ltb_spec 10 x).
  { right. split; [done|]. intros y Hy. apply Hemp. lia. }
  left. assert (Hxo : order_ok x) by (ord_lia).
  destruct (fl x) as [|idx l] eqn:E; [by destruct Hne|].
  mrun (list_first_spec s fl al None x I Hxo). rewrite E.
  destruct (take_first_spec s fl al x idx l Hinv Hxo E) as (s1 & E1 & I1 & HB1 & Hm1).
  rewrite <- bind_assoc. mrun E1. simpl entry_index. mgo.
  replace x with (x - 1 + 1) in I1 by lia.
  destruct (split_loop_spec 11 s1 (upd fl x l) al (x - 1) order idx)
    as (s2 & fl2 & E2 & I2 & HB2 & Hm2 & Hfr); try done; try lia.
  { by replace (x - 1 + 1) with x in * by lia. }
  { unfold BUDDY_MAX_ORDER; lia. } { ord_lia. }
  mrun E2. destruct (settle_spec s2 fl2 al idx order I2 HB2 Ho) as (s3 & E3 & Hinv3).
  rewrite <- bind_assoc. mrun E3. unfold ret.
  destruct (i_pend _ _ _ _ I2) as (Hoz & Hb & Hd).
  assert (Hb' : block_ok s idx order).
  { destruct Hb as (? & ? & Hb). split_and!; [done|done|]. unfold npages in *. congruence. }
  destruct (shiftl_page s idx order (i_mem _ _ _ _ I) Hoz Hb') as [-> _].
  exists idx, s3, fl2. split_and!; [done|done| |done| |].
  - destruct (al !! idx) as [y|] eqn:Ha; [|done]. exfalso.
    destruct (i_al _ _ _ _ I idx y Ha) as (Hy & _).
    apply (disj_ne idx order idx y); [done|ord_lia| |done].
    apply Hd. by right.
  - intros j. rewrite <- Hfr. replace (x - 1 + 1) with x by lia.
    apply (free_frame_remove fl x [] idx l); done.
  - intros j (y & k & Hy & Hk & Hj) Hj'.
    assert (Hdj := Hd k y ltac:(by left)). unfold disj, in_block in *. lia.
Qed.

(** C1: [alloc_frames(order)] either returns the address of a block of
    [2^order] frames, aligned to its size, that was free, is disjoint from
    every block handed out before, and leaves exactly the other free frames
    free; or it returns [nullptr], changes nothing, and no free block of order
    [order] or more exists.  It never halts or faults. *)
Theorem alloc_frames_correct s fl al order :
  buddy_inv s fl al -> order_ok order ->
  (exists idx s' fl',
     alloc_frames order s = Ok (idx * PAGE_SIZE, s') /\
     block_ok s idx order /\ al !! idx = None /\
     buddy_inv s' fl' (<[idx := order]> al) /\
     (forall j, free_frame fl j <-> free_frame fl' j \/ in_block idx order j) /\
     (forall j, free_frame fl' j -> ~ in_block idx order j)) \/
  (alloc_frames order s = Ok (0, s) /\ forall x, order <= x <= BUDDY_MAX_ORDER -> fl x = []).
Proof. apply alloc_frames_spec. Qed.


(** ** [free_frames] *)

Lemma inv0_pend s fl al pe i x :
  inv0 s fl al pe -> 0 <= x -> block_ok s i x ->
  (forall j y, is_block fl al j y -> disj i x j y) -> inv0 s fl al (Some (i, x)).
Proof. intros []; constructor; auto. Qed.

(** The test [idx_buddy < npages && buddy->order == x && map[...]] decides
    membership in list [x]. *)
Lemma buddy_test_spec s fl al pe x b :
  inv0 s fl al pe -> bits_ok s fl None -> order_ok x -> 0 <= b ->
  (if b <? Z.shiftr (fs_mem s) PAGE_SHIFT then
     o <-- order_get b;; if o =? x then map_test x (Z.shiftr b x) else ret false
   else ret false) s = Ok (bool_decide (b ∈ fl x), s).
Proof.
  intros I HB Hx Hb. fold (npages s).
  assert (Hin : b ∈ fl x -> b < npages s /\ fs_order s !! b = Some x /\ bit s x b = true).
  { intros Hin. destruct (i_free _ _ _ _ I x b Hx Hin) as (E1 & E2 & (? & ? & ?)).
    split_and!; try done. pose proof (pow2_pos x ltac:(ord_lia)). lia. }
  destruct (Z.ltb_spec b (npages s)) as [Hlt|Hge].
  - destruct (i_order _ _ _ _ I b ltac:(lia)) as (o & Ho & Hoz & Hal).
    unfold order_get. mgo. mrun (deref_some _ _ s Ho). destruct (Z.eqb_spec o x) as [->|Hne].
    + destruct Hal as [Hal Hfit]; [apply Hx|].
      destruct (i_map _ _ _ _ I x Hx) as (bm & Hm & Hwf & Hn).
      assert (0 <= Z.shiftr b x < bm_n bm) as Hpos.
      { rewrite Hn. pose proof (pow2_pos x ltac:(ord_lia)). rewrite !shiftr_div by lia.
        destruct Hal as [k ->]. rewrite Z.div_mul by lia. split; [nia|].
        enough (k + 1 <= npages s / 2 ^ x) by lia. apply Z.div_le_lower_bound; nia. }
      unfold map_test. mgo. mrun (deref_some _ _ s Hm).
      rewrite (deref_some _ _ s (bm_get_test bm Hwf _ Hpos)). do 2 f_equal.
      assert (bm_test bm (Z.shiftr b x) = bit s x b) as -> by (unfold bit; by rewrite Hm).
      destruct (bit s x b) eqn:Eb; symmetry.
      * apply bool_decide_eq_true_2. apply HB; try done; lia.
      * apply bool_decide_eq_false_2. intros H. apply Hin in H as (_ & _ & ?). congruence.
    + unfold ret. do 2 f_equal. symmetry. apply bool_decide_eq_false_2.
      intros H. apply Hin in H as (_ & ? & _). congruence.
  - unfold ret. do 2 f_equal. symmetry. apply bool_decide_eq_false_2.
    intros H. apply Hin in H as (? & _ & _). lia.
Qed.

(** One merging step. *)
Lemma merge_step s fl al x idx b :
  inv0 s fl al (Some (idx, x)) -> bits_ok s fl None -> order_ok x ->
  b = get_buddy idx x -> b ∈ fl x ->
  exists s' fl', (entry_remove (PEnt b);;; map_put x (Z.shiftr b x) false;;; avail_add x (-1)) s
                 = Ok (tt, s') /\
    inv0 s' fl' al (Some (if b <? idx then b else idx, x + 1)) /\ bits_ok s' fl' None /\
    fs_mem s' = fs_mem s /\
    forall j, free_frame fl j \/ in_block idx x j <->
              free_frame fl' j \/ in_block (if b <? idx then b else idx) (x + 1) j.
Proof.
  intros I HB Hx Hb Hin. assert (Hxz : 0 <= x) by ord_lia.
  pose proof (pow2_pos x Hxz) as Hp. pose proof (pow2_succ x Hxz) as Hp2.
  destruct (i_pend _ _ _ _ I) as (_ & (H1 & H2 & H3) & H4).
  destruct (i_free _ _ _ _ I x b Hx Hin) as (_ & _ & Hbok).
  destruct (list_elem_of_split _ _ Hin) as (l1 & l2 & E).
  destruct (unlink_spec s fl al _ x l1 b l2 I Hx E) as (m' & Hrm & Hr & Hd).
  set (s1 := with_links m' s).
  destruct (map_put_spec s1 x b false (i_map _ _ _ _ I) Hx Hbok)
    as (s2 & Emap & Hs2 & Hm2 & Hb2 & Hb2').
  assert (fs_avail s2 !! x = Some (Z.of_nat (length (fl x)))) as Hav.
  { rewrite Hs2. apply (i_avail _ _ _ _ I x Hx). }
  unfold entry_remove. mgo. mrun (deref_some _ _ s Hrm). mgo. fold s1. mrun Emap.
  unfold avail_add. mgo. mrun (deref_some _ _ s2 Hav). set (s3 := with_avail (<[x := Z.of_nat (length (fl x)) + -1]> (fs_avail s2)) s2).
  destruct (take_inv s fl al x l1 b l2 s3 (inv0_drop _ _ _ _ I) Hx E) as [I3 HB3].
  { simpl. by rewrite Hs2. } { simpl. by rewrite Hs2. } { simpl. by rewrite Hs2. }
  { simpl. by rewrite Hs2. } { simpl. by rewrite Hs2. } { exact Hm2. } { exact Hb2'. }
  assert (HBn : bits_ok s3 (upd fl x (l1 ++ l2)) None) by (apply HB3; [done|exact Hb2]).
  destruct (i_pend _ _ _ _ I3) as (_ & (G1 & G2 & G3) & G4).
  assert (Hsub : forall j y, is_block (upd fl x (l1 ++ l2)) al j y -> is_block fl al j y).
  { intros j y [[Hy Hj]|]; [left; split; [done|]|by right].
    destruct (Z.eq_dec y x) as [->|]; [rewrite upd_eq in Hj; rewrite E; set_solver|].
    by rewrite upd_ne in Hj. }
  assert (Hnp : npages s3 = npages s) by (unfold npages; simpl; by rewrite Hs2).
  assert (Hcase : (if b <? idx then b else idx) = Z.min b idx /\ aligned (x + 1) (Z.min b idx)
                  /\ (b = idx + 2 ^ x \/ idx = b + 2 ^ x)).
  { destruct (get_buddy_cases idx x Hx H2) as [[Ha Eb]|(Ha & Eb & _)]; [lia| |];
      rewrite <- Hb in Eb; destruct (Z.ltb_spec b idx); try lia.
    - rewrite Z.min_r by lia. split_and!; [done|done|lia].
    - rewrite Z.min_l by lia. rewrite Eb. split_and!; [done|done|lia]. }
  destruct Hcase as (-> & Hal & Hcase).
  exists s3, (upd fl x (l1 ++ l2)). split_and!; [done| |done|simpl; by rewrite Hs2|].
  - apply (inv0_pend _ _ _ _ _ _ I3); [lia|split_and!; [lia|done|rewrite Hnp in *; lia]|].
    intros j y Hj. destruct (is_block_order _ _ _ _ j y I3 Hj) as (Hy & _).
    pose proof (pow2_pos y ltac:(ord_lia)).
    specialize (G4 j y Hj). specialize (H4 j y (Hsub j y Hj)). unfold disj in *. lia.
  - intros j. rewrite (free_frame_remove fl x l1 b l2 j Hx E). unfold in_block.
    split; [intros [[?|?]|?]; [tauto|right; lia..]|intros [?|?]; [tauto|]].
    destruct (decide (b <= j < b + 2 ^ x)); [tauto|right; lia].
Qed.

Lemma merge_loop_spec fuel s fl al x idx :
  inv0 s fl al (Some (idx, x)) -> bits_ok s fl None -> 0 <= x <= 11 ->
  11 - x < Z.of_nat fuel ->
  exists x' idx' s' fl', merge_loop fuel x idx s = Ok ((x', idx'), s') /\
    inv0 s' fl' al (Some (idx', x')) /\ bits_ok s' fl' None /\ x <= x' <= 11 /\
    fs_mem s' = fs_mem s /\
    (x' <= BUDDY_MAX_ORDER -> get_buddy idx' x' ∉ fl' x') /\
    forall j, free_frame fl j \/ in_block idx x j <-> free_frame fl' j \/ in_block idx' x' j.
Proof.
  revert s fl x idx. induction fuel as [|fuel IH]; intros s fl x idx I HB Hx Hf; [lia|].
  cbn [merge_loop]. destruct (Z.leb_spec x BUDDY_MAX_ORDER) as [Hle|Hgt].
  - assert (Hxo : order_ok x) by ord_lia. mgo.
    destruct (i_pend _ _ _ _ I) as (_ & (H1 & H2 & H3) & H4).
    assert (Hb0 : 0 <= get_buddy idx x).
    { pose proof (pow2_pos x ltac:(lia)).
      destruct (get_buddy_cases idx x Hxo H2) as [[_ ->]|(_ & -> & ?)]; lia. }
    mrun (buddy_test_spec s fl al _ x _ I HB Hxo Hb0).
    destruct (decide (get_buddy idx x ∈ fl x)) as [Hin|Hin].
    + rewrite bool_decide_eq_true_2 by done.
      destruct (merge_step s fl al x idx _ I HB Hxo eq_refl Hin)
        as (s1 & fl1 & E1 & I1 & HB1 & Hm1 & Hfr1).
      rewrite <- !bind_assoc. rewrite <- !bind_assoc in E1. mrun E1.
      destruct (IH s1 fl1 (x + 1) _ I1 HB1) as (x' & idx' & s2 & fl2 & E2 & I2 & HB2 & Hx2 & Hm2 & Hn2 & Hfr2);
        [ord_lia|ord_lia|].
      exists x', idx', s2, fl2. split_and!; try done; try lia; try congruence.
      intros j. by rewrite Hfr1.
    + rewrite bool_decide_eq_false_2 by done. exists x, idx, s, fl. split_and!; try done; lia.
  - exists x, idx, s, fl. split_and!; try done; ord_lia.
Qed.

Lemma free_frames_spec s fl al idx x :
  buddy_inv s fl al -> al !! idx = Some x ->
  exists r s' fl', free_frames (idx * PAGE_SIZE) s = Ok (r, s') /\
    buddy_inv s' fl' (delete idx al) /\
    ((forall j, free_frame fl' j <-> free_frame fl j \/ in_block idx x j) \/
     (exists b, order_ok x /\ aligned (BUDDY_MAX_ORDER + 1) (b - 2 ^ BUDDY_MAX_ORDER) /\
        (forall j, in_block b BUDDY_MAX_ORDER j -> ~ free_frame fl' j) /\
        (forall j, free_frame fl' j \/ in_block b BUDDY_MAX_ORDER j <->
                   free_frame fl j \/ in_block idx x j))).
Proof.
  intros [I HB] Ha. destruct (i_al _ _ _ _ I idx x Ha) as (Hx & Hord & Hb & Hni).
  assert (Hxz : 0 <= x) by ord_lia.
  destruct (shiftl_page s idx x (i_mem _ _ _ _ I) Hxz Hb) as [_ Hlt].
  assert (Hidx : Z.shiftr (idx * PAGE_SIZE) PAGE_SHIFT = idx).
  { unfold PAGE_SIZE, PAGE_SHIFT. rewrite shiftr_div by lia. apply Z.div_mul. lia. }
  assert (Hsub : forall j y, is_block fl (delete idx al) j y -> is_block fl al j y /\ (idx, x) <> (j, y)).
  { intros j y [[Hy Hj]|Hj].
    - split; [by left|]. intros [= -> ->]. done.
    - apply lookup_delete_Some in Hj as [Hne Hj]. split; [by right|congruence]. }
  assert (I1 : inv0 s fl (delete idx al) (Some (idx, x))).
  { apply (inv0_pend s fl (delete idx al) None); [|lia|done|].
    - destruct I as [K1 K2 K3 K4 K5 K6 K7 K8 K9 K10]. constructor; auto.
      + intros i y Hi. apply lookup_delete_Some in Hi as [_ Hi]. auto.
      + intros i y j z Hi Hj. apply K9; [by apply Hsub|by apply Hsub].
    - intros j y Hj. apply Hsub in Hj as [Hj Hne]. apply (i_disj _ _ _ _ I); [by right|done|done]. }
  unfold free_frames. mgo.
  mrun (asserth_true (idx * PAGE_SIZE <? fs_mem s) s ltac:(by apply Z.ltb_lt)). rewrite Hidx.
  unfold order_get. mgo. mrun (deref_some _ _ s Hord).
  mrun (asserth_true (x <=? BUDDY_MAX_ORDER) s ltac:(apply Z.leb_le; ord_lia)).
  destruct (merge_loop_spec 12 s fl _ x idx I1 HB) as (x' & i' & s1 & fl1 & E1 & I2 & HB1 & Hx' & Hm1 & _ & Hfr);
    [ord_lia|ord_lia|].
  mrun E1. simpl. set (o := Z.min x' BUDDY_MAX_ORDER).
  assert (Ho : order_ok o) by (subst o; ord_lia).
  assert (I3 := inv0_shrink s1 fl1 _ i' x' o ltac:(subst o; ord_lia) I2).
  destruct (i_pend _ _ _ _ I3) as (_ & Hb3 & Hd3).
  destruct (add_block_spec s1 fl1 _ None None i' o (inv0_drop _ _ _ _ I3) HB1 Ho Hb3 Hd3 Logic.I)
    as (s2 & E2 & I4 & HB4 & Hm2 & _).
  mrun E2. eexists _, s2, _. split_and!; [done|by split|].
  destruct (Z.le_gt_cases x' BUDDY_MAX_ORDER) as [Hle|Hgt].
  - left. assert (o = x') as -> by (subst o; lia). intros j.
    rewrite free_frame_cons by done. by rewrite Hfr.
  - right. assert (x' = 11) as -> by ord_lia. assert (o = 10) as -> by done.
    destruct (i_pend _ _ _ _ I2) as (_ & (G1 & G2 & G3) & G4).
    exists (i' + 2 ^ BUDDY_MAX_ORDER). split_and!; [done| | |].
    + by replace (i' + 2 ^ BUDDY_MAX_ORDER - 2 ^ BUDDY_MAX_ORDER) with i' by lia.
    + intros j Hj. rewrite free_frame_cons by done.
      intros [(y & k & Hy & Hk & Hjk)|Hj'].
      * specialize (G4 k y ltac:(by left)). unfold disj, in_block, BUDDY_MAX_ORDER in *. lia.
      * unfold in_block, BUDDY_MAX_ORDER in *. lia.
    + intros j. rewrite Hfr, free_frame_cons by done. unfold in_block, BUDDY_MAX_ORDER.
      split; [intros [[?|?]|?]; [tauto|right; lia..]|intros [?|?]; [tauto|]].
      destruct (decide (j < i' + 2 ^ 10)); [left; right; lia|right; lia].
Qed.

(** C2: freeing a block that [alloc_frames] handed out never halts or faults,
    keeps the invariant, and accounts for every frame: either the free frames
    afterwards are exactly the previous ones and those of the block, or the
    freed block was merged with a free buddy of the largest order, and then
    exactly the upper half of that doubled block (one block of
    [2^BUDDY_MAX_ORDER] frames) is no longer free nor allocated. *)
Theorem free_frames_correct s fl al idx x :
  buddy_inv s fl al -> al !! idx = Some x ->
  exists r s' fl', free_frames (idx * PAGE_SIZE) s = Ok (r, s') /\
    buddy_inv s' fl' (delete idx al) /\
    ((forall j, free_frame fl' j <-> free_frame fl j \/ in_block idx x j) \/
     (exists b, order_ok x /\ aligned (BUDDY_MAX_ORDER + 1) (b - 2 ^ BUDDY_MAX_ORDER) /\
        (forall j, in_block b BUDDY_MAX_ORDER j -> ~ free_frame fl' j) /\
        (forall j, free_frame fl' j \/ in_block b BUDDY_MAX_ORDER j <->
                   free_frame fl j \/ in_block idx x j))).
Proof. apply free_frames_spec. Qed.


(** ** Initialisation *)

Lemma list_to_map_fn {K V} `{Countable K} (f : Z -> K) (g : Z -> V) (l : list Z) k :
  Inj (=) (=) f -> NoDup l -> k ∈ l ->
  (list_to_map ((fun i => (f i, g i)) <$> l) : gmap K V) !! f k = Some (g k).
Proof.
  intros Hf Hnd Hk. apply elem_of_list_to_map_1.
  - rewrite <- list_fmap_compose. apply NoDup_fmap_2; [|done]. intros a b E. by apply Hf.
  - apply list_elem_of_fmap. by exists k.
Qed.

Lemma orders_upto_spec x : order_ok x -> x ∈ orders_upto.
Proof.
  intros Hx. unfold orders_upto. rewrite !elem_of_cons. ord_lia.
Qed.

Lemma orders_upto_nodup : NoDup orders_upto.
Proof. by apply (bool_decide_eq_true_1 (NoDup orders_upto)). Qed.

Lemma idxs_spec n i : 0 <= i < n -> i ∈ (Z.of_nat <$> seq 0 (Z.to_nat n)).
Proof.
  intros. apply list_elem_of_fmap. exists (Z.to_nat i). split; [lia|].
  apply elem_of_seq. lia.
Qed.

Lemma idxs_nodup n : NoDup (Z.of_nat <$> seq 0 n).
Proof. apply NoDup_fmap_2; [apply _|apply NoDup_seq]. Qed.

#[local] Instance PNil_inj : Inj (=) (=) PNil.
Proof. by intros ?? [= ->]. Qed.
#[local] Instance PEnt_inj : Inj (=) (=) PEnt.
Proof. by intros ?? [= ->]. Qed.

Lemma init_lists_inv junk ms :
  0 <= ms < 2 ^ 32 -> buddy_inv (init_lists junk ms) (fun _ => []) ∅.
Proof.
  intros Hms. assert (Hnp : npages (init_lists junk ms) = ms / 4096).
  { unfold npages. simpl. unfold PAGE_SHIFT. by rewrite shiftr_div. }
  assert (0 <= ms / 4096 < 2 ^ 20) as Hnr.
  { split; [apply Z.div_pos; lia|apply Z.div_lt_upper_bound; lia]. }
  assert (Hno : forall i x, ~ is_block (fun _ => []) (∅ : gmap Z Z) i x).
  { intros i x [[_ H]|H]; [by apply not_elem_of_nil in H|by rewrite lookup_empty in H]. }
  assert (Hord : forall i, 0 <= i < npages (init_lists junk ms) ->
                 fs_order (init_lists junk ms) !! i = Some 255).
  { intros i Hi. apply (list_to_map_fn (fun i => i) (fun _ => 255)); [apply _|apply idxs_nodup|].
    apply idxs_spec. done. }
  split; [constructor|].
  - done.
  - intros x Hx. assert (E : fs_links (init_lists junk ms) !! PNil x = Some (Link (PNil x) (PNil x))).
    { apply lookup_union_Some_l. apply (list_to_map_fn PNil (fun x => Link (PNil x) (PNil x)));
        [apply _|apply orders_upto_nodup|by apply orders_upto_spec]. }
    split; [|apply NoDup_singleton]. split; unfold nextof, prevof; by rewrite E.
  - intros i Hi. apply lookup_union_is_Some. right.
    exists (junk i). apply (list_to_map_fn PEnt junk); [apply _|apply idxs_nodup|]. by apply idxs_spec.
  - intros x Hx. exists (bitmap_new (Z.shiftr (npages (init_lists junk ms)) x) None).
    destruct (bitmap_new_wf (Z.shiftr (npages (init_lists junk ms)) x)) as (H1 & H2 & _).
    { rewrite Hnp, shiftr_div by ord_lia. pose proof (pow2_pos x ltac:(ord_lia)).
      split; [apply Z.div_pos; lia|]. pose proof (Z.div_le_upper_bound (ms / 4096) (2 ^ x) (ms / 4096)). nia. }
    split_and!; [|done|done].
    apply (list_to_map_fn (fun x => x) (fun x => bitmap_new (Z.shiftr _ x) None));
      [apply _|apply orders_upto_nodup|by apply orders_upto_spec].
  - intros x Hx. apply (list_to_map_fn (fun x => x) (fun _ => 0));
      [apply _|apply orders_upto_nodup|by apply orders_upto_spec].
  - intros i Hi. exists 255. rewrite Hord by done. split_and!; [done|lia|ord_lia].
  - intros x i _ Hi. by apply not_elem_of_nil in Hi.
  - intros i x. by rewrite lookup_empty.
  - intros i x j y Hi. by apply Hno in Hi.
  - done.
  - intros x i Hx Hi _ Ho. rewrite Hord in Ho by done. injection Ho as <-. ord_lia.
Qed.

Lemma shrink_order_spec fuel i x n :
  0 <= x -> i < n -> x < Z.of_nat fuel ->
  exists x', shrink_order fuel i x n = Ok x' /\ 0 <= x' <= x /\ i + 2 ^ x' <= n.
Proof.
  revert x. induction fuel as [|fuel IH]; intros x Hx Hi Hf; [lia|].
  simpl. rewrite Z.shiftl_1_l. destruct (Z.ltb_spec n (i + 2 ^ x)) as [Hlt|Hge].
  - assert (x <> 0) by (intros ->; simpl in Hlt; lia).
    destruct (IH (x - 1)) as (x' & E & ? & ?); [lia..|]. exists x'. split_and!; [done|lia..].
  - exists x. split_and!; [done|lia..].
Qed.

Lemma make_blocks_spec fuel s fl i x start :
  buddy_inv s fl ∅ -> order_ok x -> aligned x i -> 0 < start <= i -> i <= npages s ->
  npages s - i <= Z.of_nat fuel ->
  (forall j y, is_block fl ∅ j y -> j + 2 ^ y <= i) ->
  (forall j, free_frame fl j <-> start <= j < i) ->
  exists s' fl', make_blocks fuel i x (npages s) s = Ok (tt, s') /\ buddy_inv s' fl' ∅ /\
    fs_mem s' = fs_mem s /\ forall j, free_frame fl' j <-> start <= j < npages s.
Proof.
  revert s fl i x. induction fuel as [|fuel IH]; intros s fl i x Hinv Hx Hal Hst Hi Hf Hblk Hfr.
  { assert (i = npages s) as -> by lia. simpl. rewrite Z.ltb_irrefl. by exists s, fl. }
  cbn [make_blocks]. destruct (Z.ltb_spec i (npages s)) as [Hlt|Hge].
  2: { assert (i = npages s) as -> by lia. by exists s, fl. }
  destruct (shrink_order_spec 11 i x (npages s)) as (x' & -> & Hx' & Hfit); [ord_lia|done|ord_lia|].
  assert (Hxo : order_ok x') by ord_lia. pose proof (pow2_pos x' ltac:(lia)) as Hp.
  assert (Hal' : aligned x' i) by (by apply (aligned_le x' x)).
  destruct Hinv as [I HB].
  destruct (add_block_spec s fl ∅ None None i x' I HB Hxo) as (s1 & E1 & I1 & HB1 & Hm1 & _).
  { split_and!; [lia|done|lia]. }
  { intros j y Hj. right. by apply Hblk. } { done. }
  mrun E1. rewrite Z.shiftl_1_l. assert (Hnp : npages s1 = npages s) by (unfold npages; by rewrite Hm1).
  rewrite <- Hnp.
  destruct (IH s1 (upd fl x' (i :: fl x')) (i + 2 ^ x') x') as (s2 & fl2 & E2 & Hinv2 & Hm2 & Hfr2).
  - by split.
  - done.
  - apply Z.divide_add_r; [done|exists 1; ring].
  - lia.
  - lia.
  - lia.
  - intros j y [[Hy Hj]|Hj]; [|by rewrite lookup_empty in Hj].
    destruct (Z.eq_dec y x') as [->|].
    + rewrite upd_eq in Hj. apply elem_of_cons in Hj as [->|Hj]; [lia|].
      specialize (Hblk j x' ltac:(by left)). lia.
    + rewrite upd_ne in Hj by done. specialize (Hblk j y ltac:(by left)). lia.
  - intros j. rewrite free_frame_cons, Hfr by done. unfold in_block. lia.
  - exists s2, fl2. split_and!; [done|done|congruence|done].
Qed.

Lemma buddy_init_inv junk memory_size start :
  0 <= memory_size < 2 ^ 32 -> aligned BUDDY_MAX_ORDER start ->
  0 < start <= memory_size / PAGE_SIZE ->
  exists s fl, buddy_init junk memory_size start = Ok (tt, s) /\ buddy_inv s fl ∅ /\
    forall j, free_frame fl j <-> start <= j < memory_size / PAGE_SIZE.
Proof.
  intros Hms Hal Hst. pose proof (init_lists_inv junk memory_size Hms) as Hinv.
  assert (Hnp : npages (init_lists junk memory_size) = memory_size / PAGE_SIZE).
  { unfold npages, PAGE_SHIFT. simpl. by rewrite shiftr_div. }
  destruct (make_blocks_spec (Z.to_nat (npages (init_lists junk memory_size)))
    _ _ start BUDDY_MAX_ORDER start Hinv) as (s & fl & E & H1 & _ & H2).
  - ord_lia.
  - done.
  - lia.
  - rewrite Hnp. lia.
  - lia.
  - intros j y [[_ H]|H]; [by apply not_elem_of_nil in H|by rewrite lookup_empty in H].
  - intros j. split; [intros (x & i & _ & H & _); by apply not_elem_of_nil in H|lia].
  - exists s, fl. split_and!; [exact E|done|]. intros j. by rewrite H2, Hnp.
Qed.

(** [paging::init] builds a well-formed allocator whose free frames are
    exactly those from the first 4 MiB boundary after the kernel up to the end
    of memory, whatever the new list entries' links contained. *)
Theorem buddy_init_correct junk memory_size start :
  0 <= memory_size < 2 ^ 32 -> aligned BUDDY_MAX_ORDER start ->
  0 < start <= memory_size / PAGE_SIZE ->
  exists s fl, buddy_init junk memory_size start = Ok (tt, s) /\ buddy_inv s fl ∅ /\
    forall j, free_frame fl j <-> start <= j < memory_size / PAGE_SIZE.
Proof. apply buddy_init_inv. Qed.

(** ** Running the allocator

    A client allocates, and frees what it holds; [al] records what it holds. *)
Inductive fstep : frames * gmap Z Z -> frames * gmap Z Z -> Prop :=
| fstep_alloc s al order a s' :
    order_ok order -> alloc_frames order s = Ok (a, s') -> a <> 0 ->
    fstep (s, al) (s', <[a / PAGE_SIZE := order]> al)
| fstep_nomem s al order s' :
    order_ok order -> alloc_frames order s = Ok (0, s') -> fstep (s, al) (s', al)
| fstep_free s al idx x r s' :
    al !! idx = Some x -> free_frames (idx * PAGE_SIZE) s = Ok (r, s') ->
    fstep (s, al) (s', delete idx al).

Lemma alloc_frames_cases s fl al order :
  buddy_inv s fl al -> order_ok order ->
  (exists idx s' fl', alloc_frames order s = Ok (idx * PAGE_SIZE, s') /\ 0 < idx /\
     buddy_inv s' fl' (<[idx := order]> al)) \/
  alloc_frames order s = Ok (0, s).
Proof.
  intros Hinv Ho. destruct (alloc_frames_spec s fl al order Hinv Ho)
    as [(idx & s' & fl' & E & (? & _) & _ & H & _)|[E _]]; [left; eauto 10|by right].
Qed.

Lemma fstep_inv s al s' al' fl :
  fstep (s, al) (s', al') -> buddy_inv s fl al -> exists fl', buddy_inv s' fl' al'.
Proof.
  intros Hs Hinv. inversion Hs; subst.
  - destruct (alloc_frames_cases s fl al order Hinv) as [(idx & t & fl' & E & _ & H)|E];
      [done| |congruence].
    assert (a = idx * PAGE_SIZE /\ s' = t) as [-> ->] by (split; congruence).
    exists fl'. unfold PAGE_SIZE. rewrite Z.div_mul by lia. done.
  - destruct (alloc_frames_cases s fl al' order Hinv) as [(idx & t & fl' & E & Hi & H)|E]; [done| |].
    + exfalso. rewrite E in *. unfold PAGE_SIZE in *. simplify_eq. lia.
    + exists fl. congruence.
  - destruct (free_frames_spec s fl al idx x Hinv) as (r' & t & fl' & E & H & _); [done|].
    exists fl'. assert (s' = t) as -> by congruence. done.
Qed.

(** C5: however a client interleaves allocations and frees of the blocks it
    holds, starting from the booted allocator, the blocks it holds are aligned,
    lie in managed memory and never overlap, and the next [alloc_frames] or
    [free_frames] neither halts nor faults. *)
Theorem frames_reachable_safe junk memory_size start s0 s al :
  0 <= memory_size < 2 ^ 32 -> aligned BUDDY_MAX_ORDER start ->
  0 < start <= memory_size / PAGE_SIZE ->
  buddy_init junk memory_size start = Ok (tt, s0) -> rtc fstep (s0, ∅) (s, al) ->
  (forall i x, al !! i = Some x -> order_ok x /\ block_ok s i x) /\
  (forall i x j y, al !! i = Some x -> al !! j = Some y -> i <> j -> disj i x j y) /\
  (forall order, order_ok order -> exists a s', alloc_frames order s = Ok (a, s')) /\
  (forall i x, al !! i = Some x -> exists r s', free_frames (i * PAGE_SIZE) s = Ok (r, s')).
Proof.
  intros Hms Hal Hst E0 Hrun.
  assert (exists fl, buddy_inv s fl al) as [fl Hinv].
  { destruct (buddy_init_inv junk memory_size start Hms Hal Hst) as (s1 & fl1 & E1 & H1 & _).
    assert (s1 = s0) as -> by congruence. clear E0 E1.
    assert (G : forall c c', rtc fstep c c' -> forall fl, buddy_inv c.1 fl c.2 ->
                exists fl', buddy_inv c'.1 fl' c'.2).
    { induction 1 as [|[? ?] [? ?] ? Hs _ IH]; intros fl Hi; [eauto|].
      destruct (fstep_inv _ _ _ _ fl Hs Hi) as [fl' Hi']. eauto. }
    apply (G _ _ Hrun fl1 H1). }
  split_and!.
  - intros i x Ha. destruct (i_al _ _ _ _ (proj1 Hinv) i x Ha) as (? & _ & ? & _). done.
  - intros i x j y Hi Hj Hne. apply (i_disj _ _ _ _ (proj1 Hinv)); [by right|by right|congruence].
  - intros order Ho. destruct (alloc_frames_cases s fl al order Hinv Ho) as [(? & ? & ? & ? & _)|?]; eauto.
  - intros i x Ha. destruct (free_frames_spec s fl al i x Hinv Ha) as (? & ? & ? & ? & _). eauto.
Qed.

(** ** Concrete runs *)

Definition junk0 (i : Z) : link pptr := Link (PEnt i) (PEnt i).

(** 16 MiB of memory with the kernel in the first 8: two free blocks of the
    largest order, buddies of each other. *)
Definition boot16 : outcome (unit * frames) := buddy_init junk0 (2 ^ 24) 2048.

Definition free_count (s : frames) : Z :=
  foldr Z.add 0 ((fun x => 2 ^ x * default 0 (fs_avail s !! x)) <$> orders_upto).

Definition final_state {A} (o : outcome (A * frames)) : frames :=
  match o with Ok (_, s) => s | Stop _ => Frames ∅ ∅ ∅ ∅ 0 end.

Definition boot_state : frames := final_state boot16.

(** [alloc_frames(0)], then [free_frames] of the result: the free-frame
    counts before, in between and after, and what [free_frames] returned. *)
Definition alloc_free_counts (s : frames) : option (Z * Z * Z * Z) :=
  match alloc_frames 0 s with
  | Ok (a, s1) =>
    match free_frames a s1 with
    | Ok (r, s2) => Some (free_count s, free_count s1, free_count s2, r)
    | Stop _ => None
    end
  | Stop _ => None
  end.

(** allocating one frame right after boot and freeing it again loses
    4 MiB: 2048 frames are free before, 1024 after.  [free_frames] merges up
    to and including the largest order and then clamps the order, dropping the
    buddy it has just unlinked.  Its return value, 1024, is neither the bytes
    freed (paging.h) nor the frames freed. *)
Theorem alloc_free_leaks_max_block :
  alloc_free_counts boot_state = Some (2048, 2047, 1024, 1024).
Proof. vm_compute. reflexivity. Qed.

Definition result_addr (o : outcome (Z * frames)) : Z :=
  match o with Ok (a, _) => a | Stop _ => 0 end.

Lemma boot_alloc3 : result_addr (alloc_frames 3 boot_state) = 3072 * PAGE_SIZE.
Proof. vm_compute. reflexivity. Qed.
Lemma boot_alloc0 : result_addr (alloc_frames 0 boot_state) = 3072 * PAGE_SIZE.
Proof. vm_compute. reflexivity. Qed.

#[local] Opaque boot_state boot16 alloc_frames.

Lemma boot16_bounds : 0 < 2048 <= 2 ^ 24 / PAGE_SIZE.
Proof. split; [lia|by apply Z.leb_le]. Qed.

Lemma boot16_ok : buddy_init junk0 (2 ^ 24) 2048 = Ok (tt, boot_state).
Proof.
  destruct (buddy_init_inv junk0 (2 ^ 24) 2048) as (s & fl & E & _ & _);
    [lia|by exists 2|apply boot16_bounds|].
  Transparent boot_state boot16. unfold boot_state, boot16. rewrite E. simpl. reflexivity.
Qed.

Lemma boot_state_inv :
  exists fl, buddy_inv boot_state fl ∅ /\ forall j, free_frame fl j <-> 2048 <= j < 4096.
Proof.
  destruct (buddy_init_inv junk0 (2 ^ 24) 2048) as (s & fl & E & H1 & H2);
    [lia|by exists 2|apply boot16_bounds|].
  exists fl. Transparent boot_state boot16. unfold boot_state, boot16. rewrite E. split; assumption.
Qed.

Lemma alloc_frames_correct_witness :
  exists fl, buddy_inv boot_state fl ∅ /\
    exists idx s', alloc_frames 3 boot_state = Ok (idx * PAGE_SIZE, s') /\ 2048 <= idx.
Proof.
  destruct boot_state_inv as (fl & Hinv & Hf). exists fl. split; [done|].
  destruct (alloc_frames_correct boot_state fl ∅ 3 Hinv) as [(idx & s' & fl' & E & Hb & _ & _ & H1 & _)|[E _]].
  - ord_lia.
  - exists idx, s'. split; [done|]. apply (Hf idx). apply H1. right. unfold in_block. lia.
  - exfalso. pose proof boot_alloc3 as Ea. rewrite E in Ea. discriminate Ea.
Defined.

Lemma free_frames_correct_witness :
  exists s fl al, buddy_inv s fl al /\ al !! 3072 = Some 3 /\
    exists r s', free_frames (3072 * PAGE_SIZE) s = Ok (r, s').
Proof.
  destruct boot_state_inv as (fl & Hinv & Hf).
  destruct (alloc_frames_spec boot_state fl ∅ 3 Hinv) as [(idx & s' & fl' & E & _ & _ & H & _)|[E _]].
  - ord_lia.
  - assert (idx = 3072) as ->.
    { pose proof boot_alloc3 as Ea. rewrite E in Ea. simpl in Ea. unfold PAGE_SIZE in Ea. lia. }
    assert (Ha : (<[3072 := 3]> (∅ : gmap Z Z)) !! 3072 = Some 3) by (vm_compute; reflexivity).
    exists s', fl', (<[3072 := 3]> ∅). split_and!; [done|done|].
    destruct (free_frames_correct s' fl' _ 3072 3 H Ha) as (r & s2 & _ & E2 & _).
    by exists r, s2.
  - exfalso. pose proof boot_alloc3 as Ea. rewrite E in Ea. discriminate Ea.
Defined.

Lemma buddy_init_correct_witness :
  exists s fl, buddy_init junk0 (2 ^ 24) 2048 = Ok (tt, s) /\ buddy_inv s fl ∅.
Proof.
  destruct (buddy_init_correct junk0 (2 ^ 24) 2048) as (s & fl & E & H1 & _).
  - lia.
  - by exists 2.
  - apply boot16_bounds.
  - exists s, fl. split; assumption.
Defined.

Lemma frames_reachable_safe_witness :
  exists a s al, rtc fstep (boot_state, ∅) (s, al) /\ al !! a = Some 0 /\
    exists r s', free_frames (a * PAGE_SIZE) s = Ok (r, s').
Proof.
  destruct boot_state_inv as (fl & Hinv & Hf).
  destruct (alloc_frames_cases boot_state fl ∅ 0 Hinv) as [(idx & s' & fl' & E & Hi & H)|E].
  - ord_lia.
  - assert (Hst : fstep (boot_state, ∅) (s', <[idx := 0]> ∅)).
    { replace idx with (idx * PAGE_SIZE / PAGE_SIZE) by (unfold PAGE_SIZE; by rewrite Z.div_mul by lia).
      apply fstep_alloc; [ord_lia|done|unfold PAGE_SIZE; lia]. }
    assert (Hr : rtc fstep (boot_state, ∅) (s', <[idx := 0]> ∅)) by (by apply rtc_once).
    assert (Ha : (<[idx := 0]> (∅ : gmap Z Z)) !! idx = Some 0) by apply lookup_insert_eq.
    exists idx, s', (<[idx := 0]> ∅). split_and!; [done|done|].
    destruct (frames_reachable_safe junk0 (2 ^ 24) 2048 boot_state s' (<[idx := 0]> ∅))
      as (_ & _ & _ & Hfree).
    + lia.
    + by exists 2.
    + apply boot16_bounds.
    + exact boot16_ok.
    + done.
    + by apply (Hfree idx 0).
  - exfalso. pose proof boot_alloc0 as Ea. rewrite E in Ea. discriminate Ea.
Defined.
