(* ===== verification/StringLib.v ===== *)
(** * Memory and string primitives (kernel/lib/string.cpp)

    The functions are loops over memory, most of them a [rep movs]/[rep stos]
    instruction.  The machine state is the byte memory, as far as it is
    mapped, and the direction flag that [cld] and [std] write: an access to an
    unmapped address faults, and addresses wrap at 32 bits. *)

From S2P Require Import Prelude.
From stdpp Require Import gmap list.
#[local] Open Scope Z_scope.

Record mach : Type := Mach { m_mem : gmap Z Z; m_df : bool }.

Definition with_mem (m : gmap Z Z) (s : mach) : mach := Mach m (m_df s).
(** [cld] and [std] *)
Definition set_df (b : bool) : M mach unit := modify (fun s => Mach (m_mem s) b).

Fixpoint load_bytes (m : gmap Z Z) (a : Z) (n : nat) : option (list Z) :=
  match n with
  | O => Some []
  | S k => b ← m !! a; r ← load_bytes m (u32 (a + 1)) k; Some (b :: r)
  end.

Fixpoint store_bytes (m : gmap Z Z) (a : Z) (bs : list Z) : option (gmap Z Z) :=
  match bs with
  | [] => Some m
  | b :: r =>
    match m !! a with
    | Some _ => store_bytes (<[a := b]> m) (u32 (a + 1)) r
    | None => None
    end
  end.

Definition load8 (a : Z) : M mach Z := s <-- get;; deref (m_mem s !! a).
Definition store8 (a v : Z) : M mach unit :=
  s <-- get;; m <-- deref (store_bytes (m_mem s) a [u8 v]);; modify (with_mem m).

(** The bytes of a little-endian [w]-byte value. *)
Fixpoint le_bytes (w : nat) (v : Z) : list Z :=
  match w with O => [] | S k => u8 v :: le_bytes k (Z.shiftr v 8) end.

(** ** The repeated string instructions

    [w] is the operand size (1, 2 or 4); with the direction flag set the
    pointers move down. *)

Definition advance (df : bool) (w : nat) (a : Z) : Z :=
  if df then u32 (a - Z.of_nat w) else u32 (a + Z.of_nat w).

Fixpoint rep_movs (w n : nat) (dst src : Z) : M mach unit :=
  match n with
  | O => ret tt
  | S k =>
    s <-- get;;
    bs <-- deref (load_bytes (m_mem s) src w);;
    m <-- deref (store_bytes (m_mem s) dst bs);;
    modify (with_mem m);;;
    rep_movs w k (advance (m_df s) w dst) (advance (m_df s) w src)
  end.

Fixpoint rep_stos (w n : nat) (dst v : Z) : M mach unit :=
  match n with
  | O => ret tt
  | S k =>
    s <-- get;;
    m <-- deref (store_bytes (m_mem s) dst (le_bytes w v));;
    modify (with_mem m);;;
    rep_stos w k (advance (m_df s) w dst) v
  end.

(** ** Copying and filling *)

Definition memcpy (dest src num : Z) : M mach Z :=
  set_df false;;; rep_movs 1 (Z.to_nat num) dest src;;; ret dest.
Definition memcpyw (dest src num : Z) : M mach Z :=
  set_df false;;; rep_movs 2 (Z.to_nat num) dest src;;; ret dest.
Definition memcpyd (dest src num : Z) : M mach Z :=
  set_df false;;; rep_movs 4 (Z.to_nat num) dest src;;; ret dest.

Definition memset (ptr value num : Z) : M mach Z :=
  set_df false;;; rep_stos 1 (Z.to_nat num) ptr value;;; ret ptr.
Definition memsetw (ptr value num : Z) : M mach Z :=
  set_df false;;; rep_stos 2 (Z.to_nat num) ptr value;;; ret ptr.
Definition memsetd (ptr value num : Z) : M mach Z :=
  set_df false;;; rep_stos 4 (Z.to_nat num) ptr value;;; ret ptr.

(** [memmove], [memmovew] and [memmoved] differ in the operand size only. *)
Definition memmove_w (w : nat) (dest src num : Z) : M mach Z :=
  (if dest <? src then set_df false;;; rep_movs w (Z.to_nat num) dest src
   else if src <? dest then
     let back := Z.of_nat w * (num - 1) in
     set_df true;;; rep_movs w (Z.to_nat num) (u32 (dest + back)) (u32 (src + back))
   else ret tt);;;
  ret dest.
Definition memmove : Z -> Z -> Z -> M mach Z := memmove_w 1.
Definition memmovew : Z -> Z -> Z -> M mach Z := memmove_w 2.
Definition memmoved : Z -> Z -> Z -> M mach Z := memmove_w 4.

(** ** Comparing and scanning

    [char] is signed: the differences of [strcmp] are differences of signed
    bytes, those of [memcmp] of unsigned ones.  Loops without a length bound
    take fuel. *)

Fixpoint memcmp (num : nat) (ptr1 ptr2 : Z) : M mach Z :=
  match num with
  | O => ret 0
  | S k =>
    a <-- load8 ptr1;; b <-- load8 ptr2;;
    if a =? b then memcmp k (u32 (ptr1 + 1)) (u32 (ptr2 + 1)) else ret (a - b)
  end.

Fixpoint strlen_loop (fuel : nat) (s : Z) (n : Z) : M mach Z :=
  match fuel with
  | O => halt Fuel
  | S k => c <-- load8 s;; if c =? 0 then ret n else strlen_loop k (u32 (s + 1)) (n + 1)
  end.
Definition strlen (fuel : nat) (s : Z) : M mach Z := strlen_loop fuel s 0.

Fixpoint strcmp (fuel : nat) (str1 str2 : Z) : M mach Z :=
  match fuel with
  | O => halt Fuel
  | S k =>
    a <-- load8 str1;; b <-- load8 str2;;
    if negb (a =? 0) && (a =? b) then strcmp k (u32 (str1 + 1)) (u32 (str2 + 1))
    else ret (i8 a - i8 b)
  end.

Fixpoint strncmp (n : nat) (str1 str2 : Z) : M mach Z :=
  match n with
  | O => ret 0
  | S k =>
    a <-- load8 str1;; b <-- load8 str2;;
    if negb (a =? 0) && (a =? b) then strncmp k (u32 (str1 + 1)) (u32 (str2 + 1))
    else ret (i8 a - i8 b)
  end.

(** The loop that copies a byte through [d++] and [src++] until it was zero. *)
Fixpoint copy_loop (fuel : nat) (d src : Z) : M mach unit :=
  match fuel with
  | O => halt Fuel
  | S k =>
    c <-- load8 src;; store8 d c;;;
    if c =? 0 then ret tt else copy_loop k (u32 (d + 1)) (u32 (src + 1))
  end.
Definition strcpy (fuel : nat) (dest src : Z) : M mach Z :=
  copy_loop fuel dest src;;; ret dest.

Fixpoint skip_loop (fuel : nat) (d : Z) : M mach Z :=
  match fuel with
  | O => halt Fuel
  | S k => c <-- load8 d;; if c =? 0 then ret d else skip_loop k (u32 (d + 1))
  end.
Definition strcat (fuel : nat) (dest src : Z) : M mach Z :=
  d <-- skip_loop fuel dest;; copy_loop fuel d src;;; ret dest.

(** ** [itoa]

    [digits_loop] fills [buffer], least significant digit first; an [int] has
    at most 31 binary digits, so 32 rounds are enough and [buffer[72]] is never
    overrun.  The null result for a bad base is 0. *)
Fixpoint digits_loop (fuel : nat) (value base : Z) : list Z :=
  match fuel with
  | O => []
  | S k =>
    if 0 <? value then
      let v := Z.rem value base in
      (if v <? 10 then 48 + v else 65 + (v - 10)) :: digits_loop k (Z.quot value base) base
    else []
  end.

(** [str[i] = ...; str[len] = 0], byte after byte. *)
Fixpoint put_string (str : Z) (cs : list Z) : M mach unit :=
  match cs with
  | [] => store8 str 0
  | c :: r => store8 str c;;; put_string (u32 (str + 1)) r
  end.

Definition itoa (value str base : Z) : M mach Z :=
  if (base <? 2) || (36 <? base) then ret 0
  else put_string str (rev (digits_loop 32 value base));;; ret str.

(** ** Block accesses *)

Definition mapped (m : gmap Z Z) (a n : Z) : Prop :=
  forall i, 0 <= i < n -> is_Some (m !! (a + i)).

(** [m'] is [m] with [n] bytes from [src] copied to [dst]. *)
Definition copied (m m' : gmap Z Z) (dst src n : Z) : Prop :=
  forall k, m' !! k = if (dst <=? k) && (k <? dst + n) then m !! (src + (k - dst)) else m !! k.

Lemma mapped_ext m m' a n :
  (forall k, is_Some (m !! k) -> is_Some (m' !! k)) -> mapped m a n -> mapped m' a n.
Proof. intros H Hm i Hi. by apply H, Hm. Qed.

Lemma mapped_sub m a n b k : mapped m a n -> a <= b -> b + k <= a + n -> mapped m b k.
Proof. intros H ? ? i Hi. replace (b + i) with (a + (b - a + i)) by lia. apply H. lia. Qed.

Lemma load_bytes_spec m a n :
  0 <= a -> a + Z.of_nat n <= 2 ^ 32 -> mapped m a (Z.of_nat n) ->
  exists bs, load_bytes m a n = Some bs /\ length bs = n /\
    forall i, 0 <= i < Z.of_nat n -> bs !! Z.to_nat i = m !! (a + i).
Proof.
  revert a. induction n as [|n IH]; intros a Ha Hb Hm; [exists []; split_and!; [done|done|intros; lia]|].
  destruct (Hm 0) as [b Eb]; [lia|]. rewrite Z.add_0_r in Eb. simpl. rewrite Eb. simpl.
  destruct (decide (n = 0%nat)) as [->|Hn].
  - exists [b]. simpl. split_and!; [done|done|]. intros i Hi. assert (i = 0) as -> by lia.
    by rewrite Z.add_0_r.
  - rewrite u32_small by lia. destruct (IH (a + 1)) as (bs & E & Hl & Hi); [lia|lia| |].
    { apply (mapped_sub m a (Z.of_nat (S n))); [done|lia|lia]. }
    rewrite E. simpl. exists (b :: bs). split_and!; [done|simpl; lia|].
    intros i Hi'. destruct (Z.eq_dec i 0) as [->|]; [by rewrite Z.add_0_r|].
    replace (Z.to_nat i) with (S (Z.to_nat (i - 1))) by lia. simpl.
    rewrite Hi by lia. f_equal. lia.
Qed.

Lemma store_bytes_spec m a bs :
  0 <= a -> a + Z.of_nat (length bs) <= 2 ^ 32 -> mapped m a (Z.of_nat (length bs)) ->
  exists m', store_bytes m a bs = Some m' /\
    forall k, m' !! k = if (a <=? k) && (k <? a + Z.of_nat (length bs))
                        then bs !! Z.to_nat (k - a) else m !! k.
Proof.
  revert m a. induction bs as [|b bs IH]; intros m a Ha Hb Hm.
  { exists m. split; [done|]. intros k. cbn [length]. zcases; first [done|lia]. }
  destruct (Hm 0) as [b0 Eb]; [simpl; lia|]. rewrite Z.add_0_r in Eb. simpl. rewrite Eb.
  simpl in Hb. destruct (decide (bs = [])) as [->|Hne].
  - exists (<[a := b]> m). split; [done|]. intros k. cbn [length].
    zcases; try (rewrite lookup_insert_ne by lia; done).
    assert (k = a) as -> by lia. by rewrite lookup_insert_eq, Z.sub_diag.
  - assert (length bs <> 0%nat) by (destruct bs; done). rewrite u32_small by lia.
    destruct (IH (<[a := b]> m) (a + 1)) as (m' & E & Hk); [lia|lia| |].
    { apply (mapped_ext m).
      - intros k Hk. destruct (Z.eq_dec a k) as [->|]; [rewrite lookup_insert_eq; eauto|].
        by rewrite lookup_insert_ne.
      - apply (mapped_sub m a (Z.of_nat (length (b :: bs)))); [done|lia|simpl; lia]. }
    exists m'. split; [done|]. intros k. rewrite Hk.
    destruct (Z.leb_spec (a + 1) k), (Z.ltb_spec k (a + 1 + Z.of_nat (length bs))),
      (Z.leb_spec a k), (Z.ltb_spec k (a + Z.of_nat (S (length bs)))); simpl; try lia;
      try (rewrite lookup_insert_ne by lia; done).
    + replace (Z.to_nat (k - a)) with (S (Z.to_nat (k - (a + 1)))) by lia. done.
    + assert (k = a) as -> by lia. by rewrite lookup_insert_eq, Z.sub_diag.
Qed.

(** One [movs] of [w] bytes. *)
Lemma mov_step m dst src w :
  0 <= dst -> dst + Z.of_nat w <= 2 ^ 32 -> 0 <= src -> src + Z.of_nat w <= 2 ^ 32 ->
  mapped m dst (Z.of_nat w) -> mapped m src (Z.of_nat w) ->
  exists bs m', load_bytes m src w = Some bs /\ store_bytes m dst bs = Some m' /\
    copied m m' dst src (Z.of_nat w).
Proof.
  intros. destruct (load_bytes_spec m src w) as (bs & E & Hl & Hi); [done..|].
  destruct (store_bytes_spec m dst bs) as (m' & E' & Hk); rewrite ?Hl; [done..|].
  exists bs, m'. split_and!; [done|done|]. intros k. rewrite Hk, Hl.
  destruct (Z.leb_spec dst k), (Z.ltb_spec k (dst + Z.of_nat w)); simpl; try done.
  rewrite Hi by lia. f_equal.
Qed.

Lemma copied_mapped m m' dst src n a k :
  copied m m' dst src n -> mapped m src n -> mapped m a k -> mapped m' a k.
Proof.
  intros Hc Hs Ha i Hi. rewrite Hc.
  destruct (Z.leb_spec dst (a + i)), (Z.ltb_spec (a + i) (dst + n)); simpl; try by apply Ha.
  apply Hs. lia.
Qed.

(** Ascending copy: right when the destination starts below the source, or
    the ranges do not meet. *)
Lemma rep_movs_up w n s dst src :
  m_df s = false -> (0 < w)%nat ->
  0 <= dst -> dst + Z.of_nat (n * w) <= 2 ^ 32 -> 0 <= src -> src + Z.of_nat (n * w) <= 2 ^ 32 ->
  mapped (m_mem s) dst (Z.of_nat (n * w)) -> mapped (m_mem s) src (Z.of_nat (n * w)) ->
  dst <= src \/ src + Z.of_nat (n * w) <= dst ->
  exists m', rep_movs w n dst src s = Ok (tt, with_mem m' s) /\
    copied (m_mem s) m' dst src (Z.of_nat (n * w)).
Proof.
  intros Hdf Hw. revert s dst src Hdf.
  induction n as [|n IH]; intros s dst src Hdf Hd Hdb Hs Hsb Hmd Hms Hov.
  { exists (m_mem s). split; [by destruct s|]. intros k. cbn [Nat.mul]. zcases; first [done|lia]. }
  assert (Hlen : Z.of_nat (S n * w) = Z.of_nat w + Z.of_nat (n * w)) by lia. rewrite Hlen in *.
  destruct (mov_step (m_mem s) dst src w) as (bs & m1 & E1 & E2 & Hc1); [lia..| | |].
  { by apply (mapped_sub _ dst (Z.of_nat w + Z.of_nat (n * w))); [|lia|lia]. }
  { by apply (mapped_sub _ src (Z.of_nat w + Z.of_nat (n * w))); [|lia|lia]. }
  assert (Hms1 : mapped (m_mem s) src (Z.of_nat w)).
  { by apply (mapped_sub _ src (Z.of_nat w + Z.of_nat (n * w))); [|lia|lia]. }
  cbn [rep_movs]. mgo. mrun (deref_some _ _ s E1). mrun (deref_some _ _ s E2). mgo.
  unfold advance. rewrite Hdf. destruct (decide (n = 0%nat)) as [->|Hn].
  { exists m1. split; [done|]. simpl. rewrite Z.add_0_r. done. }
  rewrite (u32_small (dst + _)), (u32_small (src + _)) by nia.
  destruct (IH (with_mem m1 s) (dst + Z.of_nat w) (src + Z.of_nat w)) as (m2 & E3 & Hc2).
  - done.
  - lia.
  - lia.
  - lia.
  - lia.
  - simpl. eapply copied_mapped; [done|done|].
    apply (mapped_sub _ dst (Z.of_nat w + Z.of_nat (n * w))); [done|lia|lia].
  - simpl. eapply copied_mapped; [done|done|].
    apply (mapped_sub _ src (Z.of_nat w + Z.of_nat (n * w))); [done|lia|lia].
  - lia.
  - exists m2. split; [done|]. simpl in Hc2. intros k. rewrite Hc2, !Hc1.
    destruct (Z.leb_spec (dst + Z.of_nat w) k), (Z.ltb_spec k (dst + Z.of_nat w + Z.of_nat (n * w))),
      (Z.leb_spec dst k), (Z.ltb_spec k (dst + (Z.of_nat w + Z.of_nat (n * w)))),
      (Z.ltb_spec k (dst + Z.of_nat w)); simpl; try lia; try done.
    set (q := src + Z.of_nat w + (k - (dst + Z.of_nat w))).
    replace (src + (k - dst)) with q by lia.
    destruct (Z.leb_spec dst q), (Z.ltb_spec q (dst + Z.of_nat w)); simpl; try done. lia.
Qed.

(** Descending copy: right when the destination starts above the source. *)
Lemma rep_movs_down w n s dst src :
  m_df s = true -> (0 < w)%nat ->
  0 <= dst -> dst + Z.of_nat (n * w) <= 2 ^ 32 -> 0 <= src -> src + Z.of_nat (n * w) <= 2 ^ 32 ->
  mapped (m_mem s) dst (Z.of_nat (n * w)) -> mapped (m_mem s) src (Z.of_nat (n * w)) ->
  src <= dst ->
  exists m', rep_movs w n (u32 (dst + Z.of_nat w * (Z.of_nat n - 1)))
                          (u32 (src + Z.of_nat w * (Z.of_nat n - 1))) s = Ok (tt, with_mem m' s) /\
    copied (m_mem s) m' dst src (Z.of_nat (n * w)).
Proof.
  intros Hdf Hw. revert s Hdf.
  induction n as [|n IH]; intros s Hdf Hd Hdb Hs Hsb Hmd Hms Hov.
  { exists (m_mem s). split; [by destruct s|]. intros k. cbn [Nat.mul]. zcases; first [done|lia]. }
  assert (Hlen : Z.of_nat (S n * w) = Z.of_nat w + Z.of_nat (n * w)) by lia. rewrite Hlen in *.
  assert (Hoff : Z.of_nat w * (Z.of_nat (S n) - 1) = Z.of_nat (n * w)) by nia. rewrite Hoff.
  rewrite (u32_small (dst + _)), (u32_small (src + _)) by lia.
  destruct (mov_step (m_mem s) (dst + Z.of_nat (n * w)) (src + Z.of_nat (n * w)) w)
    as (bs & m1 & E1 & E2 & Hc1); [lia..| | |].
  { apply (mapped_sub _ dst (Z.of_nat w + Z.of_nat (n * w))); [done|lia|lia]. }
  { apply (mapped_sub _ src (Z.of_nat w + Z.of_nat (n * w))); [done|lia|lia]. }
  assert (Hms1 : mapped (m_mem s) (src + Z.of_nat (n * w)) (Z.of_nat w)).
  { apply (mapped_sub _ src (Z.of_nat w + Z.of_nat (n * w))); [done|lia|lia]. }
  cbn [rep_movs]. mgo. mrun (deref_some _ _ s E1). mrun (deref_some _ _ s E2). mgo.
  unfold advance. rewrite Hdf.
  replace (dst + Z.of_nat (n * w) - Z.of_nat w) with (dst + Z.of_nat w * (Z.of_nat n - 1)) by nia.
  replace (src + Z.of_nat (n * w) - Z.of_nat w) with (src + Z.of_nat w * (Z.of_nat n - 1)) by nia.
  destruct (IH (with_mem m1 s)) as (m2 & E3 & Hc2).
  - done.
  - lia.
  - lia.
  - lia.
  - lia.
  - simpl. eapply copied_mapped; [done|done|].
    apply (mapped_sub _ dst (Z.of_nat w + Z.of_nat (n * w))); [done|lia|lia].
  - simpl. eapply copied_mapped; [done|done|].
    apply (mapped_sub _ src (Z.of_nat w + Z.of_nat (n * w))); [done|lia|lia].
  - lia.
  - exists m2. split; [done|]. simpl in Hc2. intros k. rewrite Hc2, !Hc1.
    destruct (Z.leb_spec dst k), (Z.ltb_spec k (dst + Z.of_nat (n * w))),
      (Z.leb_spec (dst + Z.of_nat (n * w)) k), (Z.ltb_spec k (dst + (Z.of_nat w + Z.of_nat (n * w)))),
      (Z.ltb_spec k (dst + Z.of_nat (n * w) + Z.of_nat w)); simpl; try lia; try done.
    + destruct (Z.leb_spec (dst + Z.of_nat (n * w)) (src + (k - dst))); [lia|done].
    + f_equal. lia.
Qed.

(** [memmove] (and its word and double-word variants) copies every byte
    of the source range as it was before the call, whatever the overlap of the
    two ranges, changes no other byte, and returns the destination.  When the
    source lies below the destination it leaves the direction flag set. *)
Theorem memmove_correct w s dest src num :
  (0 < w)%nat -> 0 <= num ->
  0 <= dest -> dest + num * Z.of_nat w <= 2 ^ 32 -> 0 <= src -> src + num * Z.of_nat w <= 2 ^ 32 ->
  mapped (m_mem s) dest (num * Z.of_nat w) -> mapped (m_mem s) src (num * Z.of_nat w) ->
  exists s', memmove_w w dest src num s = Ok (dest, s') /\
    copied (m_mem s) (m_mem s') dest src (num * Z.of_nat w) /\
    m_df s' = if dest <? src then false else if src <? dest then true else m_df s.
Proof.
  intros Hw Hn Hd Hdb Hs Hsb Hmd Hms. unfold memmove_w.
  assert (Hnw : num * Z.of_nat w = Z.of_nat (Z.to_nat num * w)) by lia. rewrite Hnw in *.
  destruct (Z.ltb_spec dest src) as [Hlt|Hge].
  - unfold set_df. mgo.
    destruct (rep_movs_up w (Z.to_nat num) (Mach (m_mem s) false) dest src)
      as (m' & E & Hc); try done; try lia.
    mrun E. eexists. split_and!; [done|done|done].
  - destruct (Z.ltb_spec src dest) as [Hlt|Hge'].
    + unfold set_df. mgo.
      destruct (rep_movs_down w (Z.to_nat num) (Mach (m_mem s) true) dest src)
        as (m' & E & Hc); try done; try lia.
      rewrite Z2Nat.id in E by done. mrun E. eexists. split_and!; [done|done|done].
    + mgo. exists s. split_and!; [done| |done]. intros k. assert (src = dest) as -> by lia.
      destruct (Z.leb_spec dest k), (Z.ltb_spec k (dest + Z.of_nat (Z.to_nat num * w)));
        simpl; try done. f_equal. lia.
Qed.

Definition mem4 : mach := Mach {[ 100 := 1; 101 := 2; 102 := 3; 103 := 4 ]} false.

Lemma memmove_correct_witness :
  exists s', memmove_w 1 101 100 3 mem4 = Ok (101, s') /\ m_mem s' !! 103 = Some 3 /\ m_df s' = true.
Proof.
  destruct (memmove_correct 1 mem4 101 100 3) as (s' & E & Hc & Hdf); [lia..| | |].
  - intros i Hi. assert (i = 0 \/ i = 1 \/ i = 2) as [-> |[-> | ->]] by lia; vm_compute; eauto.
  - intros i Hi. assert (i = 0 \/ i = 1 \/ i = 2) as [-> |[-> | ->]] by lia; vm_compute; eauto.
  - exists s'. split_and!; [done| |done]. rewrite Hc. vm_compute. reflexivity.
Defined.

(** ** C strings *)

(** The bytes of [l] and a zero byte lie at [a]; no byte of [l] is zero. *)
Fixpoint cstr (m : gmap Z Z) (a : Z) (l : list Z) : Prop :=
  match l with
  | [] => m !! a = Some 0
  | c :: r => m !! a = Some c /\ 0 < c < 256 /\ cstr m (u32 (a + 1)) r
  end.

(** What [strcmp] computes: the difference at the first position where the
    strings, ended by their zero, differ. *)
Fixpoint str_diff (l1 l2 : list Z) : Z :=
  match l1, l2 with
  | [], [] => 0
  | [], b :: _ => - i8 b
  | a :: _, [] => i8 a
  | a :: r1, b :: r2 => if a =? b then str_diff r1 r2 else i8 a - i8 b
  end.

Lemma i8_inj a b : 0 <= a < 256 -> 0 <= b < 256 -> i8 a = i8 b -> a = b.
Proof.
  intros Ha Hb. unfold i8, to_signed. cbv zeta.
  rewrite !wrap_small by (change (2 ^ 8) with 256; lia).
  change (2 ^ (8 - 1)) with 128. change (2 ^ 8) with 256. zcases; lia.
Qed.

Lemma i8_zero : i8 0 = 0.
Proof. reflexivity. Qed.

Lemma str_diff_zero m a1 a2 l1 l2 :
  cstr m a1 l1 -> cstr m a2 l2 -> str_diff l1 l2 = 0 <-> l1 = l2.
Proof.
  revert a1 a2 l2. induction l1 as [|x l1 IH]; intros a1 a2 [|y l2]; cbn [cstr str_diff].
  - done.
  - intros _ (_ & Hy & _). split; [|done]. intros H.
    assert (y = 0); [|lia]. apply i8_inj; [lia|lia|]. rewrite i8_zero. lia.
  - intros (_ & Hx & _) _. split; [|done]. intros H.
    assert (x = 0); [|lia]. apply i8_inj; [lia|lia|]. rewrite i8_zero. lia.
  - intros (_ & Hx & H1) (_ & Hy & H2). destruct (Z.eqb_spec x y) as [->|Hne].
    + rewrite (IH _ _ _ H1 H2). split; [by intros ->|by intros [= ->]].
    + split; [|by intros [= -> ->]]. intros H. destruct Hne. apply i8_inj; lia.
Qed.

Lemma load8_ok s a v : m_mem s !! a = Some v -> load8 a s = Ok (v, s).
Proof. intros H. unfold load8. mgo. by rewrite (deref_some _ _ s H). Qed.

Lemma strcmp_run fuel s a1 a2 l1 l2 :
  cstr (m_mem s) a1 l1 -> cstr (m_mem s) a2 l2 -> (length l1 < fuel)%nat ->
  strcmp fuel a1 a2 s = Ok (str_diff l1 l2, s).
Proof.
  revert a1 a2 l1 l2. induction fuel as [|k IH]; intros a1 a2 l1 l2 H1 H2 Hf; [lia|].
  cbn [strcmp]. destruct l1 as [|x l1], l2 as [|y l2]; cbn [cstr str_diff] in *.
  - mrun (load8_ok _ _ _ H1). mrun (load8_ok _ _ _ H2). done.
  - destruct H2 as (H2 & Hy & _). mrun (load8_ok _ _ _ H1). mrun (load8_ok _ _ _ H2). done.
  - destruct H1 as (H1 & Hx & _). mrun (load8_ok _ _ _ H1). mrun (load8_ok _ _ _ H2).
    destruct (Z.eqb_spec x 0), (Z.eqb_spec x 0); simpl; try lia. by rewrite i8_zero, Z.sub_0_r.
  - destruct H1 as (H1 & Hx & H1'), H2 as (H2 & Hy & H2').
    mrun (load8_ok _ _ _ H1). mrun (load8_ok _ _ _ H2).
    destruct (Z.eqb_spec x 0); [lia|]. cbn [negb andb].
    destruct (Z.eqb_spec x y); [|done]. apply IH; [done|done|simpl in Hf; lia].
Qed.

(** [strcmp] of two C strings terminates within the first one's length,
    changes nothing, and returns zero exactly when the strings are equal; in
    general it returns the difference of the first characters that differ,
    read as signed bytes. *)
Theorem strcmp_correct s a1 a2 l1 l2 :
  cstr (m_mem s) a1 l1 -> cstr (m_mem s) a2 l2 ->
  (forall fuel, (length l1 < fuel)%nat -> strcmp fuel a1 a2 s = Ok (str_diff l1 l2, s)) /\
  (str_diff l1 l2 = 0 <-> l1 = l2).
Proof.
  intros H1 H2. split; [|by eapply str_diff_zero].
  intros fuel Hf. by apply strcmp_run.
Qed.

Definition mem_str : mach :=
  Mach {[ 10 := 97; 11 := 98; 12 := 0; 20 := 97; 21 := 99; 22 := 0 ]} false.

Lemma strcmp_correct_witness :
  strcmp 3 10 20 mem_str = Ok (-1, mem_str) /\ (str_diff [97; 98] [97; 99] = 0 <-> [97; 98] = [97; 99]).
Proof.
  destruct (strcmp_correct mem_str 10 20 [97; 98] [97; 99]) as [H1 H2].
  - vm_compute. repeat split.
  - vm_compute. repeat split.
  - split; [|exact H2]. apply (H1 3%nat). simpl. lia.
Defined.

(** ** Numbers as text *)

(** Reading a digit string back. *)
Definition digit_val (c : Z) : Z := if c <? 58 then c - 48 else c - 65 + 10.
Definition read_base (base : Z) (cs : list Z) : Z :=
  fold_left (fun acc c => acc * base + digit_val c) cs 0.

Lemma read_base_app base cs c : read_base base (cs ++ [c]) = read_base base cs * base + digit_val c.
Proof. unfold read_base. by rewrite fold_left_app. Qed.

Lemma digits_loop_read fuel value base :
  2 <= base <= 36 -> 0 <= value < 2 ^ Z.of_nat fuel ->
  read_base base (rev (digits_loop fuel value base)) = value.
Proof.
  intros Hb. revert value. induction fuel as [|k IH]; intros value Hv.
  { simpl in *. unfold read_base. simpl. lia. }
  cbn [digits_loop]. destruct (Z.ltb_spec 0 value); [|unfold read_base; simpl; lia].
  cbv zeta. cbn [rev]. rewrite read_base_app.
  rewrite Z.quot_div_nonneg, Z.rem_mod_nonneg by lia.
  pose proof (Z.mod_pos_bound value base). pose proof (Z.div_mod value base).
  rewrite IH; cycle 1.
  { split; [apply Z.div_pos; lia|]. apply Z.div_lt_upper_bound; [lia|].
    rewrite Nat2Z.inj_succ, Z.pow_succ_r in Hv by lia. nia. }
  assert (Hd : digit_val (if value mod base <? 10 then 48 + value mod base
                 else 65 + (value mod base - 10)) = value mod base).
  { unfold digit_val. zcases; lia. }
  rewrite Hd. lia.
Qed.

Lemma digits_loop_length fuel value base : (length (digits_loop fuel value base) <= fuel)%nat.
Proof.
  revert value. induction fuel as [|k IH]; intros value; simpl; [lia|].
  destruct (0 <? value); simpl; [|lia]. specialize (IH (Z.quot value base)). lia.
Qed.

Lemma digits_loop_chars fuel value base c :
  2 <= base <= 36 -> c ∈ digits_loop fuel value base -> 48 <= c <= 57 \/ 65 <= c <= 90.
Proof.
  intros Hb. revert value. induction fuel as [|k IH]; intros value; cbn [digits_loop].
  { by intros ?%elem_of_nil. }
  destruct (Z.ltb_spec 0 value); [|by intros ?%elem_of_nil].
  cbv zeta. intros [->|H']%elem_of_cons; [|by eapply IH].
  rewrite Z.rem_mod_nonneg by lia. pose proof (Z.mod_pos_bound value base). zcases; lia.
Qed.

Lemma store8_ok s a v :
  is_Some (m_mem s !! a) -> store8 a v s = Ok (tt, with_mem (<[a := u8 v]> (m_mem s)) s).
Proof. intros [x H]. unfold store8. mgo. simpl. rewrite H. done. Qed.

Lemma cstr_insert_below m a l b v :
  0 <= a -> a + Z.of_nat (length l) < 2 ^ 32 -> b < a -> cstr m a l -> cstr (<[b := v]> m) a l.
Proof.
  revert a. induction l as [|c l IH]; intros a Ha Hl Hb; cbn [cstr length] in *.
  - by rewrite lookup_insert_ne by lia.
  - rewrite lookup_insert_ne, !u32_small by lia. intros (? & ? & ?). split_and!; [done|lia|lia|].
    apply IH; [lia|lia|lia|done].
Qed.

Lemma put_string_ok s a l :
  0 <= a -> a + Z.of_nat (length l) < 2 ^ 32 -> mapped (m_mem s) a (Z.of_nat (length l) + 1) ->
  Forall (fun c => 0 < c < 256) l ->
  exists s', put_string a l s = Ok (tt, s') /\ cstr (m_mem s') a l /\ m_df s' = m_df s /\
    forall k, k < a \/ a + Z.of_nat (length l) < k -> m_mem s' !! k = m_mem s !! k.
Proof.
  revert s a. induction l as [|c l IH]; intros s a Ha Hl Hm Hc; cbn [put_string cstr length] in *.
  - rewrite (store8_ok s a); [|replace a with (a + 0) by lia; apply Hm; lia].
    eexists. split_and!; [done|by simpl; rewrite lookup_insert_eq|done|].
    intros k Hk. simpl. by rewrite lookup_insert_ne by lia.
  - rewrite (bind_ok _ _ _ _ _ (store8_ok s a c ltac:(replace a with (a + 0) by lia; apply Hm; lia))).
    rewrite !u32_small by lia. apply Forall_cons in Hc as [Hc Hcs].
    destruct (IH (with_mem (<[a := u8 c]> (m_mem s)) s) (a + 1)) as (s' & E & Hs & Hdf & Hk); [lia|lia| |done|].
    { simpl. apply (mapped_ext (m_mem s)).
      - intros k Hk. destruct (decide (k = a)) as [->|]; [rewrite lookup_insert_eq; eauto|].
        by rewrite lookup_insert_ne.
      - eapply mapped_sub; [done|lia|lia]. }
    exists s'. split_and!; [done| |lia|lia|done|done|].
    + rewrite Hk by lia. simpl. rewrite lookup_insert_eq. f_equal. apply wrap_small.
      change (2 ^ 8) with 256. lia.
    + intros k Hk'. rewrite Hk by lia. simpl. by rewrite lookup_insert_ne by lia.
Qed.

(** [itoa] of a non-negative [int] in a base from 2 to 36 writes, at
    [str], a C string of at most 32 characters among 0-9 and A-Z that reads
    back as the number, and touches nothing beyond it; a base out of range
    gives the null pointer and writes nothing. *)
Theorem itoa_roundtrip s value str base :
  0 <= value < 2 ^ 31 -> 0 <= str -> str + 32 < 2 ^ 32 -> mapped (m_mem s) str 33 ->
  (2 <= base <= 36 ->
   exists s' l, itoa value str base s = Ok (str, s') /\ cstr (m_mem s') str l /\
     read_base base l = value /\ (length l <= 32)%nat /\
     Forall (fun c => 48 <= c <= 57 \/ 65 <= c <= 90) l /\
     forall k, k < str \/ str + Z.of_nat (length l) < k -> m_mem s' !! k = m_mem s !! k) /\
  (~ 2 <= base <= 36 -> itoa value str base s = Ok (0, s)).
Proof.
  intros Hv Hs Hs' Hm. unfold itoa. split; intros Hb; cycle 1.
  { zcases; first [done|lia]. }
  replace ((base <? 2) || (36 <? base)) with false by (zcases; first [done|lia]).
  pose proof (digits_loop_length 32 value base) as Hl. rewrite <- length_rev in Hl.
  assert (Hcs : Forall (fun c => 48 <= c <= 57 \/ 65 <= c <= 90) (rev (digits_loop 32 value base))).
  { apply Forall_forall. intros c Hc%list_elem_of_In%in_rev%list_elem_of_In. by eapply digits_loop_chars. }
  destruct (put_string_ok s str (rev (digits_loop 32 value base))) as (s' & E & Hc & _ & Hk); [done|lia| | |].
  { eapply mapped_sub; [done|lia|lia]. }
  { apply (Forall_impl _ _ _ Hcs). intros c Hc. cbv beta in *. lia. }
  exists s', (rev (digits_loop 32 value base)). mrun E.
  split_and!; [done|done| |done|done|done]. apply digits_loop_read; [done|lia].
Qed.

Definition mem_buf : mach := Mach (list_to_map ((fun i => (Z.of_nat i, 7)) <$> seq 100 33)) false.

Lemma itoa_roundtrip_witness :
  exists s' l, itoa 255 100 16 mem_buf = Ok (100, s') /\ cstr (m_mem s') 100 l /\ read_base 16 l = 255.
Proof.
  destruct (itoa_roundtrip mem_buf 255 100 16) as [H _]; [lia..| |].
  - intros i Hi. rewrite <- (Z2Nat.id i) by lia.
    assert (Hn : (Z.to_nat i < 33)%nat) by lia. revert Hn. generalize (Z.to_nat i). intros n Hn.
    do 33 (destruct n as [|n]; [vm_compute; eauto|]). lia.
  - destruct H as (s' & l & H1 & H2 & H3 & _); [lia|]. by exists s', l.
Defined.
