(* ===== verification/MathLib.v ===== *)
(** * Integer logarithm and square root (kernel/lib/math.cpp)

    The table-driven binary logarithm and the digit-by-digit square root, on
    32-bit words, proved equal to [Z.log2] and [Z.sqrt]. *)

From S2P Require Import Prelude.
From stdpp Require Import gmap list.
#[local] Open Scope Z_scope.

Definition LT (n : Z) : list Z := replicate 16 n.

Definition lgtable : list Z :=
  [255; 0; 1; 1; 2; 2; 2; 2; 3; 3; 3; 3; 3; 3; 3; 3] ++
  LT 4 ++ LT 5 ++ LT 5 ++ LT 6 ++ LT 6 ++ LT 6 ++ LT 6 ++
  LT 7 ++ LT 7 ++ LT 7 ++ LT 7 ++ LT 7 ++ LT 7 ++ LT 7 ++ LT 7.

(** [lgtable[x]]: outside the table the access is undefined. *)
Definition lg (x : Z) : option Z := if x <? 0 then None else lgtable !! Z.to_nat x.

(** The two overloads return [uint8_t]. *)
Definition ilg16 (v : Z) : option Z :=
  let x := Z.shiftr v 8 in
  if negb (x =? 0) then l ← lg x; Some (u8 (8 + l)) else lg v.

Definition ilg32 (v : Z) : option Z :=
  let y := Z.shiftr v 16 in
  if negb (y =? 0) then
    let x := Z.shiftr y 8 in
    if negb (x =? 0) then l ← lg x; Some (u8 (24 + l)) else l ← lg y; Some (u8 (16 + l))
  else
    let x := Z.shiftr v 8 in
    if negb (x =? 0) then l ← lg x; Some (u8 (8 + l)) else lg v.

(** [while (one > v) one >>= 2] *)
Fixpoint isqrt_scale (fuel : nat) (one v : Z) : outcome Z :=
  match fuel with
  | O => Stop Fuel
  | S k => if v <? one then isqrt_scale k (Z.shiftr one 2) v else Ok one
  end.

Fixpoint isqrt_loop (fuel : nat) (v res one : Z) : outcome Z :=
  match fuel with
  | O => Stop Fuel
  | S k =>
    if one =? 0 then Ok res
    else
      let '(v', res') :=
        if u32 (res + one) <=? v then (u32 (v - u32 (res + one)), u32 (res + u32 (Z.shiftl one 1)))
        else (v, res) in
      isqrt_loop k v' (Z.shiftr res' 1) (Z.shiftr one 2)
  end.

(** [one] starts at 4^15 and loses two bits a round: both loops end within 17
    tests. *)
Definition isqrt (v : Z) : outcome Z :=
  match isqrt_scale 17 (2 ^ 30) v with
  | Ok one => isqrt_loop 17 v 0 one
  | Stop e => Stop e
  end.

(** ** The table *)

Definition lg_ok (x : nat) : bool :=
  match lg (Z.of_nat x) with Some l => l =? Z.log2 (Z.of_nat x) | None => false end.

Lemma lg_all : forallb lg_ok (seq 1 255) = true.
Proof. vm_compute. reflexivity. Qed.

Lemma lg_log2 x : 1 <= x < 256 -> lg x = Some (Z.log2 x).
Proof.
  intros Hx. pose proof lg_all as H. rewrite forallb_forall in H.
  specialize (H (Z.to_nat x)). rewrite in_seq in H. specialize (H ltac:(lia)).
  unfold lg_ok in H. rewrite Z2Nat.id in H by lia. destruct (lg x); [|done].
  apply Z.eqb_eq in H. by f_equal.
Qed.

Lemma log2_shift v k : 0 <= k -> 0 < Z.shiftr v k -> Z.log2 v = k + Z.log2 (Z.shiftr v k).
Proof.
  intros Hk Hv. assert (0 < v).
  { destruct (Z.le_gt_cases v 0); [|done]. rewrite shiftr_div in Hv by done.
    assert (v / 2 ^ k <= 0); [|lia]. pose proof (pow2_pos k Hk).
    apply Z.div_le_upper_bound; lia. }
  rewrite Z.log2_shiftr in * by lia.
  assert (k <= Z.log2 v); [|lia].
  destruct (Z.le_gt_cases k (Z.log2 v)) as [|Hlt]; [done|].
  rewrite (Z.shiftr_eq_0 v k) in Hv; lia.
Qed.

Lemma lg_shift v k b :
  0 <= k -> b = 2 ^ k -> 0 <= v < b * 256 -> Z.shiftr v k <> 0 ->
  lg (Z.shiftr v k) = Some (Z.log2 v - k) /\ 0 <= Z.log2 v - k < 8.
Proof.
  intros Hk -> Hv Hne. pose proof (pow2_pos k Hk).
  assert (1 <= Z.shiftr v k < 256).
  { rewrite shiftr_div in * by done. pose proof (Z.div_pos v (2 ^ k) ltac:(lia) ltac:(lia)).
    split; [lia|]. apply Z.div_lt_upper_bound; lia. }
  rewrite lg_log2 by done. rewrite (log2_shift v k) by lia.
  replace (k + Z.log2 (Z.shiftr v k) - k) with (Z.log2 (Z.shiftr v k)) by lia.
  split; [done|]. split; [apply Z.log2_nonneg|]. apply Z.log2_lt_pow2; lia.
Qed.

Lemma shiftr_small v k : 0 <= v -> 0 <= k -> Z.shiftr v k = 0 -> v < 2 ^ k.
Proof.
  intros Hv Hk E. rewrite shiftr_div in E by done. pose proof (pow2_pos k Hk).
  apply Z.div_small_iff in E; lia.
Qed.

Lemma u8_small x : 0 <= x < 256 -> u8 x = x.
Proof. apply (wrap_small 8). Qed.

(** for every non-zero word, both [ilg] overloads return the binary
    logarithm rounded down, and never read outside the table. *)
Theorem ilg_correct v :
  (1 <= v < 2 ^ 16 -> ilg16 v = Some (Z.log2 v)) /\
  (1 <= v < 2 ^ 32 -> ilg32 v = Some (Z.log2 v)).
Proof.
  split; intros Hv; unfold ilg16, ilg32; cbv zeta.
  - destruct (Z.eqb_spec (Z.shiftr v 8) 0) as [E|E]; cbn [negb].
    + apply shiftr_small in E; [|lia|lia]. apply lg_log2. lia.
    + destruct (lg_shift v 8 256) as [-> ?]; [lia|done|lia|done|]. simpl.
      rewrite u8_small by lia. f_equal. lia.
  - rewrite Z.shiftr_shiftr by lia. change (16 + 8) with 24.
    destruct (Z.eqb_spec (Z.shiftr v 16) 0) as [E|E]; cbn [negb].
    + apply shiftr_small in E; [|lia|lia].
      destruct (Z.eqb_spec (Z.shiftr v 8) 0) as [E'|E']; cbn [negb].
      * apply shiftr_small in E'; [|lia|lia]. apply lg_log2. lia.
      * destruct (lg_shift v 8 256) as [-> ?]; [lia|done|lia|done|]. simpl.
        rewrite u8_small by lia. f_equal. lia.
    + destruct (Z.eqb_spec (Z.shiftr v 24) 0) as [E'|E']; cbn [negb].
      * apply shiftr_small in E'; [|lia|lia].
        destruct (lg_shift v 16 65536) as [-> ?]; [lia|done|lia|done|]. simpl.
        rewrite u8_small by lia. f_equal. lia.
      * destruct (lg_shift v 24 16777216) as [-> ?]; [lia|done|lia|done|]. simpl.
        rewrite u8_small by lia. f_equal. lia.
Qed.

Lemma ilg_correct_witness : ilg16 1000 = Some 9 /\ ilg32 4000000000 = Some 31.
Proof.
  destruct (ilg_correct 1000) as [H _]. destruct (ilg_correct 4000000000) as [_ H'].
  split; [apply H|apply H']; lia.
Defined.

(** ** The square root *)

Lemma pow4 k : 0 <= k -> 4 ^ k = 2 ^ k * 2 ^ k.
Proof. intros. rewrite <- Z.pow_mul_l. done. Qed.

Lemma shiftr_pow4 k : 0 < k -> Z.shiftr (4 ^ k) 2 = 4 ^ (k - 1).
Proof.
  intros. rewrite shiftr_div by lia. replace k with (1 + (k - 1)) at 1 by lia.
  rewrite Z.pow_add_r by lia. change (4 ^ 1) with 4. change (2 ^ 2) with 4.
  rewrite Z.mul_comm. by rewrite Z.div_mul.
Qed.

(** The digit found in round [k]: [a] is the root so far, [n] the argument. *)
Lemma isqrt_loop_zero fuel v res : (0 < fuel)%nat -> isqrt_loop fuel v res 0 = Ok res.
Proof. destruct fuel; [lia|done]. Qed.

(** One round: the digit [p] of the root is taken when it fits. *)
Lemma isqrt_round k n a p :
  0 <= k <= 15 -> p = 2 ^ k -> 0 <= n < 2 ^ 32 -> 0 <= a -> (2 * p | a) ->
  a * a <= n < (a + 2 * p) * (a + 2 * p) ->
  exists a', 0 <= a' /\ (p | a') /\ a' * a' <= n < (a' + p) * (a' + p) /\
    (if u32 (2 * a * p + p * p) <=? n - a * a
     then (u32 (n - a * a - u32 (2 * a * p + p * p)), u32 (2 * a * p + u32 (Z.shiftl (p * p) 1)))
     else (n - a * a, 2 * a * p)) = (n - a' * a', 2 * a' * p).
Proof.
  intros Hk Hp Hn Ha [q Hq] Hsq. assert (Hp0 : 0 < p) by (subst p; apply pow2_pos; lia).
  assert (Hp16 : p * 2 ^ (15 - k) = 2 ^ 15) by (subst p; rewrite <- Z.pow_add_r by lia; f_equal; lia).
  assert (Hr : 0 < 2 ^ (15 - k)) by (apply pow2_pos; lia). set (r := 2 ^ (15 - k)) in *.
  assert (Hlt : a < 2 ^ 16) by nia.
  assert (Ha' : a <= 2 ^ 16 - 2 * p) by (assert (q < r) by nia; nia).
  assert (Hpp : p <= 2 ^ 15) by nia.
  assert (Hb : 0 <= 2 * a * p + p * p < 2 ^ 32) by nia.
  assert (Hb2 : 0 <= 2 * a * p + 2 * (p * p) < 2 ^ 32).
  { assert ((a + p) * p <= (2 ^ 16 - p) * p) by nia. assert ((2 ^ 16 - p) * p <= 2 ^ 30) by nia. nia. }
  rewrite (u32_small (2 * a * p + p * p)) by done. rewrite shiftl_mul by lia.
  change (2 ^ 1) with 2. rewrite (u32_small (p * p * 2)) by nia.
  destruct (Z.leb_spec (2 * a * p + p * p) (n - a * a)) as [Hle|Hgt].
  - exists (a + p). rewrite !u32_small by nia. split_and!; [lia| |nia|nia|f_equal; ring].
    exists (2 * q + 1). nia.
  - exists a. split_and!; [lia| |nia|nia|done]. exists (2 * q). lia.
Qed.

Lemma isqrt_loop_spec (k : nat) fuel n a :
  (k + 1 < fuel)%nat -> (k <= 15)%nat -> 0 <= n < 2 ^ 32 -> 0 <= a -> (2 * 2 ^ Z.of_nat k | a) ->
  a * a <= n < (a + 2 * 2 ^ Z.of_nat k) * (a + 2 * 2 ^ Z.of_nat k) ->
  isqrt_loop fuel (n - a * a) (2 * a * 2 ^ Z.of_nat k) (2 ^ Z.of_nat k * 2 ^ Z.of_nat k) = Ok (Z.sqrt n).
Proof.
  revert fuel a. induction k as [|k IH]; intros fuel a Hf Hk Hn Ha Hdiv Hsq;
    (destruct fuel as [|fuel]; [lia|]); cbn [isqrt_loop].
  - destruct (isqrt_round 0 n a 1) as (a' & Ha' & _ & Hsq' & E); [lia|done|done|done|done|done|].
    change (2 ^ Z.of_nat 0) with 1 in *. change (1 * 1) with 1 in *. change (1 =? 0) with false.
    cbv iota. rewrite E. change (Z.shiftr 1 2) with 0. rewrite isqrt_loop_zero by lia.
    f_equal. rewrite Z.mul_1_r, shiftr_div by lia. change (2 ^ 1) with 2.
    rewrite Z.mul_comm, Z.div_mul by lia. symmetry. apply Z.sqrt_unique. unfold Z.succ. lia.
  - destruct (isqrt_round (Z.of_nat (S k)) n a (2 ^ Z.of_nat (S k)))
      as (a' & Ha' & Hdiv' & Hsq' & E); [lia|done|done|done|done|done|].
    pose proof (pow2_pos (Z.of_nat (S k)) ltac:(lia)).
    destruct (Z.eqb_spec (2 ^ Z.of_nat (S k) * 2 ^ Z.of_nat (S k)) 0); [nia|].
    rewrite E. assert (Hp : 2 ^ Z.of_nat (S k) = 2 * 2 ^ Z.of_nat k).
    { rewrite Nat2Z.inj_succ, Z.pow_succ_r by lia. done. }
    rewrite Hp in *. rewrite !shiftr_div by lia. change (2 ^ 1) with 2. change (2 ^ 2) with 4.
    replace (2 * a' * (2 * 2 ^ Z.of_nat k)) with (2 * a' * 2 ^ Z.of_nat k * 2) by ring.
    replace (2 * 2 ^ Z.of_nat k * (2 * 2 ^ Z.of_nat k)) with (2 ^ Z.of_nat k * 2 ^ Z.of_nat k * 4) by ring.
    rewrite !Z.div_mul by lia. apply IH; [lia|lia|done|done|done|done].
Qed.

(** The scaling loop stops at the largest power of four that is at most [v]. *)
Lemma isqrt_scale_spec (k : nat) fuel v :
  (k + 1 < fuel)%nat -> 0 < v -> v < 4 * (2 ^ Z.of_nat k * 2 ^ Z.of_nat k) ->
  exists j, (j <= k)%nat /\
    isqrt_scale fuel (2 ^ Z.of_nat k * 2 ^ Z.of_nat k) v = Ok (2 ^ Z.of_nat j * 2 ^ Z.of_nat j) /\
    v < 4 * (2 ^ Z.of_nat j * 2 ^ Z.of_nat j).
Proof.
  revert fuel. induction k as [|k IH]; intros fuel Hf Hv Hlt; (destruct fuel as [|fuel]; [lia|]);
    cbn [isqrt_scale]; destruct (Z.ltb_spec v (2 ^ Z.of_nat 0 * 2 ^ Z.of_nat 0)).
  - change (2 ^ Z.of_nat 0) with 1 in *. lia.
  - exists 0%nat. destruct (Z.ltb_spec v (2 ^ Z.of_nat 0 * 2 ^ Z.of_nat 0)); [lia|]. done.
  - change (2 ^ Z.of_nat 0) with 1 in *. lia.
  - assert (Hp : 2 ^ Z.of_nat (S k) = 2 * 2 ^ Z.of_nat k).
    { rewrite Nat2Z.inj_succ, Z.pow_succ_r by lia. done. }
    destruct (Z.ltb_spec v (2 ^ Z.of_nat (S k) * 2 ^ Z.of_nat (S k))).
    + rewrite Hp, shiftr_div in * by lia. change (2 ^ 2) with 4.
      replace (2 * 2 ^ Z.of_nat k * (2 * 2 ^ Z.of_nat k)) with (2 ^ Z.of_nat k * 2 ^ Z.of_nat k * 4) by ring.
      rewrite Z.div_mul by lia. destruct (IH fuel) as (j & ? & ? & ?); [lia|lia|lia|].
      exists j. split_and!; [lia|done|done].
    + exists (S k). done.
Qed.

(** [isqrt] terminates on every 32-bit word and returns the integer
    square root rounded down. *)
Theorem isqrt_correct v : 0 <= v < 2 ^ 32 -> isqrt v = Ok (Z.sqrt v).
Proof.
  intros Hv. unfold isqrt. destruct (decide (v = 0)) as [->|Hne]; [reflexivity|].
  change (2 ^ 30) with (2 ^ Z.of_nat 15 * 2 ^ Z.of_nat 15).
  destruct (isqrt_scale_spec 15 17 v) as (j & Hj & E & Hlt); [lia|lia|cbn; lia|].
  rewrite E. pose proof (isqrt_loop_spec j 17 v 0) as H.
  rewrite Z.mul_0_r, Z.mul_0_l, Z.sub_0_r in H. apply H; [lia|lia|lia|lia| |lia].
  apply Z.divide_0_r.
Qed.

Lemma isqrt_correct_witness : isqrt 4294967295 = Ok 65535.
Proof. exact (isqrt_correct 4294967295 ltac:(lia)). Defined.
