(* ===== verification/Vector.v ===== *)
(** * The vector container (include/lib/vector.h)

    [vector<T>] keeps four pointers into one allocated buffer.  The buffer is
    a list of cells, a cell being raw memory ([None]) or a live object; the
    pointers are indices from [_membegin].  Reading or destroying raw memory,
    and touching memory outside the buffer, faults.  The open files of a
    process, the PCI devices and the AHCI drivers are vectors. *)

From S2P Require Import Prelude.
From stdpp Require Import gmap list.
#[local] Open Scope Z_scope.

Section vector.
Context {T : Type} `{EqDecision T}.
(** [sizeof(T)] *)
Variable sizeofT : Z.

#[local] Notation cell := (option T).

Record vec : Type := Vec {
  v_buf : option (list cell);      (** [None]: [_membegin] is null *)
  v_begin : Z;
  v_end : Z;
  v_memend : Z;
  v_contract : bool;
  v_maxcap : Z
}.

Definition v_size (v : vec) : Z := v_end v - v_begin v.
Definition v_capacity (v : vec) : Z := v_memend v.
Definition v_empty (v : vec) : bool := v_size v =? 0.

(** [malloc(n * sizeof(T))]: the byte count is a 32-bit product. *)
Definition malloc_cells (n : Z) : list cell :=
  replicate (Z.to_nat (u32 (n * sizeofT) / sizeofT)) None.

(** ** Cells *)

Definition read_cell (buf : list cell) (i : Z) : option T :=
  if i <? 0 then None else mjoin (buf !! Z.to_nat i).
(** placement new *)
Definition construct (buf : list cell) (i : Z) (x : T) : option (list cell) :=
  if (i <? 0) || (Z.of_nat (length buf) <=? i) then None else Some (<[Z.to_nat i := Some x]> buf).
(** explicit destructor call *)
Definition destroy (buf : list cell) (i : Z) : option (list cell) :=
  _ ← read_cell buf i; Some (<[Z.to_nat i := None]> buf).

(** [_destroy(b, b + n)] *)
Fixpoint destroy_cells (n : nat) (buf : list cell) (b : Z) : option (list cell) :=
  match n with
  | O => Some buf
  | S k => buf' ← destroy buf b; destroy_cells k buf' (b + 1)
  end.

(** [n] rounds of [new(_end++) T(std::move( *_begin++))] *)
Fixpoint move_cells (n : nat) (src : list cell) (i : Z) (dst : list cell) (j : Z) : option (list cell) :=
  match n with
  | O => Some dst
  | S k => x ← read_cell src i; dst' ← construct dst j x; move_cells k src (i + 1) dst' (j + 1)
  end.

(** [n] rounds of [new(_end++) T(val)] *)
Fixpoint fill_cells (n : nat) (buf : list cell) (i : Z) (x : T) : option (list cell) :=
  match n with
  | O => Some buf
  | S k => buf' ← construct buf i x; fill_cells k buf' (i + 1) x
  end.

(** ** Capacity *)

Definition expand_capacity (v : vec) : Z :=
  u32 (u32 (v_capacity v * 3) / 2 + v_capacity v mod 2).

Definition set_null (v : vec) : vec := Vec None 0 0 0 (v_contract v) (v_maxcap v).

Definition resize_container (n : Z) : M vec unit :=
  v <-- get;;
  if n =? v_capacity v then ret tt
  else match v_buf v with
  | None => put (Vec (Some (malloc_cells n)) 0 0 n (v_contract v) (v_maxcap v))
  | Some old =>
    if n <? 1 then
      _ <-- deref (destroy_cells (Z.to_nat (v_size v)) old (v_begin v));;
      put (set_null v)
    else
      let cnt := if n <? v_size v then n else v_size v in
      buf <-- deref (move_cells (Z.to_nat cnt) old (v_begin v) (malloc_cells n) 0);;
      _ <-- deref (destroy_cells (Z.to_nat (v_size v)) old (v_begin v));;
      put (Vec (Some buf) 0 cnt n (v_contract v) (v_maxcap v))
  end.

(** [_push()]: the slot for a new element, or null. *)
Definition push_slot : M vec (option Z) :=
  v <-- get;;
  if v_maxcap v <=? v_size v then ret None
  else
    pos <-- (if v_memend v <=? v_end v then
               let oldcap := v_capacity v in
               let newcap := expand_capacity v in
               let newcap := if newcap <? u32 (oldcap + 1) then u32 (oldcap + 1) else newcap in
               let newcap := if v_maxcap v <? newcap then v_maxcap v else newcap in
               resize_container newcap;;;
               v' <-- get;; ret (v_begin v' + oldcap)
             else ret (v_end v));;
    modify (fun v => Vec (v_buf v) (v_begin v) (pos + 1) (v_memend v) (v_contract v) (v_maxcap v));;;
    ret (Some pos).

Definition with_buf (buf : list cell) (v : vec) : vec :=
  Vec (Some buf) (v_begin v) (v_end v) (v_memend v) (v_contract v) (v_maxcap v).

(** A write through a [T*] into the buffer. *)
Definition construct_at (i : Z) (x : T) : M vec unit :=
  v <-- get;; old <-- deref (v_buf v);; buf <-- deref (construct old i x);; modify (with_buf buf).
Definition destroy_at (i : Z) : M vec unit :=
  v <-- get;; old <-- deref (v_buf v);; buf <-- deref (destroy old i);; modify (with_buf buf).
Definition read_at (i : Z) : M vec T :=
  v <-- get;; buf <-- deref (v_buf v);; deref (read_cell buf i).

(** ** Constructors *)

Definition vec_new (n : Z) (contract : bool) (maxcap : Z) : vec :=
  let n := if maxcap <? n then maxcap else n in
  if 0 <? n then Vec (Some (malloc_cells n)) 0 0 n contract maxcap
  else Vec None 0 0 0 contract maxcap.

Definition max_size_t : Z := 2 ^ 32 - 1.

(** From an initializer list; for the empty one the pointers are left
    uninitialised, and the vector has no meaning. *)
Definition vec_of_il (il : list T) : option vec :=
  match il with
  | [] => None
  | _ =>
    let n := Z.of_nat (length il) in
    buf ← move_cells (length il) (Some <$> il) 0 (malloc_cells n) 0;
    Some (Vec (Some buf) 0 n n true max_size_t)
  end.

Definition vec_copy (x : vec) : option vec :=
  let n := v_capacity x in
  buf ← move_cells (Z.to_nat (v_size x)) (default [] (v_buf x)) (v_begin x) (malloc_cells n) 0;
  Some (Vec (Some buf) 0 (v_size x) n (v_contract x) (v_maxcap x)).

(** Move construction: the new vector and what is left of the argument. *)
Definition vec_move (x : vec) : vec * vec := (x, set_null x).

Definition vec_destroy : M vec unit :=
  v <-- get;;
  match v_buf v with
  | None => ret tt
  | Some old =>
    _ <-- deref (destroy_cells (Z.to_nat (v_size v)) old (v_begin v));; put (set_null v)
  end.

(** ** Operations *)

Definition set_contract (b : bool) : M vec unit :=
  modify (fun v => Vec (v_buf v) (v_begin v) (v_end v) (v_memend v) b (v_maxcap v)).
Definition set_max_capacity (m : Z) : M vec unit :=
  modify (fun v => Vec (v_buf v) (v_begin v) (v_end v) (v_memend v) (v_contract v) m).
Definition get_max_capacity (v : vec) : Z := v_maxcap v.

(** [for (; it != end() && *it != k; ++it)]; [n] is the distance to the end. *)
Fixpoint vfind_loop (n : nat) (it : Z) (k : T) : M vec Z :=
  match n with
  | O => ret it
  | S m => x <-- read_at it;; if decide (x = k) then ret it else vfind_loop m (it + 1) k
  end.
Definition vec_find (k : T) : M vec Z :=
  v <-- get;; vfind_loop (Z.to_nat (v_size v)) (v_begin v) k.

Fixpoint vcount_loop (n : nat) (it : Z) (k : T) (c : Z) : M vec Z :=
  match n with
  | O => ret c
  | S m => x <-- read_at it;; vcount_loop m (it + 1) k (if decide (x = k) then c + 1 else c)
  end.
Definition vec_count (k : T) : M vec Z :=
  v <-- get;; vcount_loop (Z.to_nat (v_size v)) (v_begin v) k 0.

Definition vec_resize (n : Z) (val : T) : M vec unit :=
  v <-- get;;
  if v_maxcap v <? n then ret tt
  else
    resize_container n;;;
    v <-- get;;
    match v_buf v with
    | None => ret tt
    | Some old =>
      buf <-- deref (fill_cells (Z.to_nat (v_memend v - v_end v)) old (v_end v) val);;
      put (Vec (Some buf) (v_begin v) (v_memend v) (v_memend v) (v_contract v) (v_maxcap v))
    end.

Definition vec_reserve (n : Z) : M vec unit :=
  v <-- get;;
  if (v_capacity v <? n) && (n <=? v_maxcap v) then resize_container n else ret tt.

(** The three forms of [push_back] and [emplace_back] construct [T] from their
    argument at the slot. *)
Definition vec_push_back (x : T) : M vec (option Z) :=
  pos <-- push_slot;;
  match pos with
  | None => ret None
  | Some p => construct_at p x;;; ret (Some p)
  end.

Definition maybe_contract : M vec unit :=
  v <-- get;;
  let sz := v_size v in
  if v_contract v && (u32 (4 * sz) <=? v_capacity v)
  then resize_container (if sz <? 1 then 1 else sz) else ret tt.

Definition vec_pop_front : M vec unit :=
  v <-- get;;
  asserth (v_begin v <? v_end v);;;
  destroy_at (v_begin v);;;
  modify (fun v => Vec (v_buf v) (v_begin v + 1) (v_end v) (v_memend v) (v_contract v) (v_maxcap v));;;
  maybe_contract.

Definition vec_pop_back : M vec unit :=
  v <-- get;;
  asserth (v_begin v <? v_end v);;;
  modify (fun v => Vec (v_buf v) (v_begin v) (v_end v - 1) (v_memend v) (v_contract v) (v_maxcap v));;;
  destroy_at (v_end v - 1);;;
  maybe_contract.

Definition vec_clear : M vec unit :=
  v <-- get;;
  buf <-- match v_buf v with
          | None => ret None
          | Some old =>
            b <-- deref (destroy_cells (Z.to_nat (v_size v)) old (v_begin v));; ret (Some b)
          end;;
  put (Vec buf 0 0 (v_memend v) (v_contract v) (v_maxcap v));;;
  if v_contract v && (1 <? v_capacity v) then resize_container 1 else ret tt.

Definition vec_front : M vec T := v <-- get;; read_at (v_begin v).
Definition vec_back : M vec T := v <-- get;; read_at (v_end v - 1).
Definition vec_get (ix : Z) : M vec T :=
  v <-- get;; asserth (ix <? v_size v);;; read_at (v_begin v + ix).

(** [operator[]] on the left of an assignment. *)
Definition vec_set (ix : Z) (x : T) : M vec unit :=
  v <-- get;; asserth (ix <? v_size v);;; _ <-- read_at (v_begin v + ix);; construct_at (v_begin v + ix) x.

(** ** Representation

    [vec_rep v b l]: the live objects are [l], in the cells from [b] on; all
    other cells are raw. *)

Definition layout (b : nat) (l : list T) (r : nat) : list cell :=
  replicate b None ++ (Some <$> l) ++ replicate r None.

Definition vec_rep (v : vec) (b : nat) (l : list T) : Prop :=
  v_begin v = Z.of_nat b /\ v_end v = Z.of_nat (b + length l) /\ 0 <= v_maxcap v /\
  match v_buf v with
  | None => b = 0%nat /\ l = [] /\ v_memend v = 0
  | Some buf => exists r, buf = layout b l r /\ v_memend v = Z.of_nat (b + length l + r) /\
                          v_memend v * sizeofT < 2 ^ 32
  end.

Hypothesis sizeofT_pos : 0 < sizeofT.

Lemma read_cell_app pre x post :
  read_cell (pre ++ Some x :: post) (Z.of_nat (length pre)) = Some x.
Proof.
  unfold read_cell. destruct (Z.ltb_spec (Z.of_nat (length pre)) 0); [lia|].
  by rewrite Nat2Z.id, list_lookup_middle.
Qed.

Lemma construct_app pre c post x :
  construct (pre ++ c :: post) (Z.of_nat (length pre)) x = Some (pre ++ Some x :: post).
Proof.
  unfold construct. rewrite length_app. cbn [length]. zcases; try lia.
  rewrite Nat2Z.id, insert_app_r_alt by lia. by rewrite Nat.sub_diag.
Qed.

Lemma destroy_app pre x post :
  destroy (pre ++ Some x :: post) (Z.of_nat (length pre)) = Some (pre ++ None :: post).
Proof.
  unfold destroy. rewrite read_cell_app. cbn [mbind option_bind].
  rewrite Nat2Z.id, insert_app_r_alt by lia. by rewrite Nat.sub_diag.
Qed.

Lemma destroy_cells_app (l : list T) pre post :
  destroy_cells (length l) (pre ++ (Some <$> l) ++ post) (Z.of_nat (length pre)) =
  Some (pre ++ replicate (length l) None ++ post).
Proof.
  revert pre. induction l as [|x l IH]; intros pre; [done|].
  cbn [length destroy_cells fmap list_fmap app replicate]. rewrite destroy_app. simpl.
  specialize (IH (pre ++ [None])). rewrite length_app in IH. cbn [length] in IH.
  rewrite <- !app_assoc in IH. simpl in IH.
  replace (Z.of_nat (length pre) + 1) with (Z.of_nat (length pre + 1)) by lia. exact IH.
Qed.

Lemma move_cells_app n (l : list T) pre post dpre m :
  (n <= length l)%nat -> (n <= m)%nat ->
  move_cells n (pre ++ (Some <$> l) ++ post) (Z.of_nat (length pre))
             (dpre ++ replicate m None) (Z.of_nat (length dpre)) =
  Some (dpre ++ (Some <$> take n l) ++ replicate (m - n) None).
Proof.
  revert l pre dpre m. induction n as [|n IH]; intros l pre dpre m Hl Hm.
  { cbn. by rewrite Nat.sub_0_r. }
  destruct l as [|x l]; simpl in Hl; [lia|]. destruct m as [|m]; [lia|].
  cbn [move_cells fmap list_fmap app replicate take]. rewrite read_cell_app. simpl.
  rewrite construct_app. simpl.
  specialize (IH l (pre ++ [Some x]) (dpre ++ [Some x]) m ltac:(lia) ltac:(lia)).
  rewrite !length_app in IH. cbn [length] in IH. rewrite <- !app_assoc in IH. simpl in IH.
  replace (Z.of_nat (length pre) + 1) with (Z.of_nat (length pre + 1)) by lia.
  replace (Z.of_nat (length dpre) + 1) with (Z.of_nat (length dpre + 1)) by lia. exact IH.
Qed.

Lemma fill_cells_app n pre m x :
  (n <= m)%nat ->
  fill_cells n (pre ++ replicate m None) (Z.of_nat (length pre)) x =
  Some (pre ++ replicate n (Some x) ++ replicate (m - n) None).
Proof.
  revert pre m. induction n as [|n IH]; intros pre m Hm; [cbn; by rewrite Nat.sub_0_r|].
  destruct m as [|m]; [lia|]. cbn [fill_cells replicate]. rewrite construct_app. simpl.
  specialize (IH (pre ++ [Some x]) m ltac:(lia)).
  rewrite length_app in IH. cbn [length] in IH. rewrite <- !app_assoc in IH. simpl in IH.
  replace (Z.of_nat (length pre) + 1) with (Z.of_nat (length pre + 1)) by lia. exact IH.
Qed.

Lemma malloc_cells_ok n :
  0 <= n -> n * sizeofT < 2 ^ 32 -> malloc_cells n = replicate (Z.to_nat n) None.
Proof.
  intros Hn Hb. unfold malloc_cells. rewrite u32_small by nia. by rewrite Z.div_mul by lia.
Qed.

Lemma layout_destroy b l r :
  destroy_cells (length l) (layout b l r) (Z.of_nat b) = Some (replicate (b + length l + r) None).
Proof.
  unfold layout. rewrite <- (length_replicate b (@None T)) at 2. rewrite destroy_cells_app.
  by rewrite !replicate_add, app_assoc.
Qed.

Lemma layout_move n b l r m :
  (n <= length l)%nat -> (n <= m)%nat ->
  move_cells n (layout b l r) (Z.of_nat b) (replicate m None) 0 = Some (layout 0 (take n l) (m - n)).
Proof.
  intros ? ?. unfold layout at 1. rewrite <- (length_replicate b (@None T)) at 2.
  apply (move_cells_app n l (replicate b None) (replicate r None) [] m); done.
Qed.

Lemma vec_rep_size v b l : vec_rep v b l -> v_size v = Z.of_nat (length l).
Proof. intros (Hb & He & _). unfold v_size. lia. Qed.

Lemma vec_rep_capacity v b l : vec_rep v b l -> Z.of_nat (b + length l) <= v_capacity v.
Proof.
  intros (Hb & He & _ & Hbuf). unfold v_capacity.
  destruct (v_buf v); [destruct Hbuf as (r & _ & -> & _); lia|]. destruct Hbuf as (-> & -> & ->). simpl. lia.
Qed.

(** Reallocation keeps the objects that fit, moved to the front. *)
Lemma resize_container_spec n v b l :
  vec_rep v b l -> 0 <= n -> n * sizeofT < 2 ^ 32 -> n <> v_capacity v ->
  exists v', resize_container n v = Ok (tt, v') /\ vec_rep v' 0 (take (Z.to_nat n) l) /\
    v_capacity v' = n /\ v_contract v' = v_contract v /\ v_maxcap v' = v_maxcap v.
Proof.
  intros Hrep Hn Hb Hne. pose proof (vec_rep_size _ _ _ Hrep) as Hsz.
  destruct Hrep as (Hbeg & Hend & Hmax & Hbuf). unfold resize_container. mgo.
  destruct (Z.eqb_spec n (v_capacity v)); [lia|]. destruct (v_buf v) as [old|].
  - destruct Hbuf as (r & -> & Hcap & Hcb). rewrite Hsz, Hbeg, Nat2Z.id.
    pose proof (layout_destroy b l r) as Hd. destruct (Z.ltb_spec n 1).
    + mrun (deref_some _ _ v Hd). eexists. split; [done|]. assert (n = 0) as -> by lia.
      rewrite take_0. repeat split; done.
    + set (c := if n <? Z.of_nat (length l) then n else Z.of_nat (length l)).
      assert (Hc : Z.to_nat c = length (take (Z.to_nat n) l) /\ 0 <= c).
      { subst c. rewrite length_take. zcases; lia. }
      assert (Htk : take (Z.to_nat c) l = take (Z.to_nat n) l).
      { subst c. zcases; [done|]. rewrite Nat2Z.id, !take_ge by lia. done. }
      rewrite malloc_cells_ok by lia.
      pose proof (layout_move (Z.to_nat c) b l r (Z.to_nat n)) as Hm. rewrite Htk in Hm.
      rewrite length_take in Hc. specialize (Hm ltac:(lia) ltac:(lia)).
      mrun (deref_some _ _ v Hm). mrun (deref_some _ _ v Hd). eexists. split; [done|].
      split; [|done]. split_and!; [done|simpl; rewrite length_take; lia|done|]. simpl.
      eexists. split_and!; [done|rewrite length_take; lia|lia].
  - destruct Hbuf as (-> & -> & Hcap). eexists. split; [done|].
    rewrite take_nil. split; [|done]. split_and!; [done|done|done|]. simpl.
    exists (Z.to_nat n). rewrite malloc_cells_ok by lia. split_and!; [done|lia|lia].
Qed.

Definition same_config (v v' : vec) : Prop :=
  v_contract v' = v_contract v /\ v_maxcap v' = v_maxcap v.

(** ** The operations on the represented sequence *)

Lemma construct_at_end v b l x :
  vec_rep v b l -> v_end v < v_memend v ->
  exists v', (modify (fun v => Vec (v_buf v) (v_begin v) (v_end v + 1) (v_memend v)
                                   (v_contract v) (v_maxcap v));;;
              construct_at (v_end v) x) v = Ok (tt, v') /\
    vec_rep v' b (l ++ [x]) /\ v_capacity v' = v_capacity v /\ same_config v v'.
Proof.
  intros (Hb & He & Hm & Hbuf) Hlt. unfold construct_at. mgo. cbn [v_buf v_end].
  destruct (v_buf v) as [old|] eqn:Ebuf.
  - destruct Hbuf as (r & -> & Hcap & Hcb). destruct r as [|r]; [lia|].
    rewrite (bind_ok (deref (Some (layout b l (S r)))) _ _ _ _ eq_refl).
    assert (Hc : construct (layout b l (S r)) (v_end v) x = Some (layout b (l ++ [x]) r)).
    { unfold layout. rewrite app_assoc. cbn [replicate].
      replace (v_end v) with (Z.of_nat (length (replicate b (@None T) ++ (Some <$> l)))).
      - rewrite construct_app, fmap_app, <- !app_assoc. done.
      - rewrite length_app, length_replicate, length_fmap. lia. }
    mrun (deref_some _ _ (Vec (Some (layout b l (S r))) (v_begin v) (v_end v + 1) (v_memend v)
                              (v_contract v) (v_maxcap v)) Hc).
    eexists. split; [done|]. split; [|done].
    split_and!; [done|simpl; rewrite length_app; simpl; lia|done|]. simpl.
    exists r. rewrite length_app. simpl. split_and!; [done|lia|done].
  - destruct Hbuf as (-> & -> & ?). simpl in *. lia.
Qed.

Lemma expand_ok v b l :
  vec_rep v b l -> v_size v < v_maxcap v -> v_memend v <= v_end v -> b = 0%nat ->
  let oldcap := v_capacity v in
  let newcap := expand_capacity v in
  let newcap := if newcap <? u32 (oldcap + 1) then u32 (oldcap + 1) else newcap in
  let newcap := if v_maxcap v <? newcap then v_maxcap v else newcap in
  v_maxcap v < 2 ^ 32 -> oldcap = v_size v /\ oldcap < newcap <= v_maxcap v.
Proof.
  intros Hrep Hlt Hfull -> oldcap newcap. cbv zeta. intros Hmax.
  pose proof (vec_rep_size _ _ _ Hrep) as Hsz. pose proof (vec_rep_capacity _ _ _ Hrep) as Hcap.
  destruct Hrep as (_ & He & _). unfold oldcap, v_capacity in *.
  assert (Hoc : v_memend v = v_size v) by (unfold v_size in *; lia).
  split; [done|]. rewrite (u32_small (v_memend v + 1)) by lia.
  assert (0 <= newcap) by apply u32_range. zcases; lia.
Qed.

(** [push_back] appends, when the vector has room or its first element is at
    the start of the buffer; at the maximal size it returns null. *)
Lemma vec_push_back_spec v b l x :
  vec_rep v b l -> v_maxcap v * sizeofT < 2 ^ 32 -> b = 0%nat \/ v_end v < v_memend v ->
  if v_maxcap v <=? Z.of_nat (length l) then vec_push_back x v = Ok (None, v)
  else exists v' b', vec_push_back x v = Ok (Some (Z.of_nat (b' + length l)), v') /\
         vec_rep v' b' (l ++ [x]) /\ (b = 0%nat -> b' = 0%nat) /\ same_config v v' /\
         (v_capacity v <= v_maxcap v -> v_capacity v' <= v_maxcap v).
Proof.
  intros Hrep Hmax Hpos. pose proof (vec_rep_size _ _ _ Hrep) as Hsz.
  assert (Hm : 0 <= v_maxcap v) by apply Hrep.
  unfold vec_push_back, push_slot. mgo. rewrite Hsz.
  destruct (Z.leb_spec (v_maxcap v) (Z.of_nat (length l))); [done|]. rewrite !bind_assoc.
  destruct (Z.leb_spec (v_memend v) (v_end v)) as [Hfull|Hroom].
  - assert (b = 0%nat) as -> by lia.
    destruct (expand_ok v 0 l Hrep ltac:(lia) Hfull eq_refl ltac:(nia)) as [Hoc Hnc].
    match type of Hnc with _ < ?n <= _ => set (nc := n) in * end. cbv zeta. fold nc. mgo.
    destruct (resize_container_spec nc v 0 l) as (v1 & E1 & Hrep1 & Hcap1 & Hct1 & Hmx1);
      [done|lia|nia|lia|]. mrun E1. mgo.
    rewrite take_ge in Hrep1 by lia.
    replace (v_begin v1 + v_capacity v) with (v_end v1) by (destruct Hrep1 as (-> & -> & _); lia).
    destruct (construct_at_end v1 0 l x Hrep1) as (v2 & E2 & Hrep2 & Hcap2 & Hct2 & Hmx2).
    { destruct Hrep1 as (_ & -> & _). unfold v_capacity in Hcap1. lia. }
    exists v2, 0%nat. rewrite (bind_ok (modify _) _ _ _ _ eq_refl) in E2. rewrite (bind_ok _ _ _ _ _ E2).
    destruct Hrep1 as (_ & -> & _). unfold same_config.
    split_and!; [done|done|done|congruence|congruence|lia].
  - destruct (construct_at_end v b l x Hrep Hroom) as (v2 & E2 & Hrep2 & Hcap2 & Hct2 & Hmx2).
    rewrite (bind_ok (modify _) _ _ _ _ eq_refl) in E2. mgo.
    rewrite (bind_ok _ _ _ _ _ E2). exists v2, b. destruct Hrep as (_ & -> & _).
    split_and!; [done|done|done|done|lia].
Qed.

(** Contracting keeps the sequence. *)
Lemma maybe_contract_spec v b l :
  vec_rep v b l -> v_maxcap v * sizeofT < 2 ^ 32 -> v_capacity v <= v_maxcap v ->
  1 <= v_maxcap v ->
  exists v' b', maybe_contract v = Ok (tt, v') /\ vec_rep v' b' l /\ (b' = b \/ b' = 0%nat) /\
    same_config v v' /\ v_capacity v' <= v_maxcap v.
Proof.
  intros Hrep Hmax Hcm Hm1. pose proof (vec_rep_size _ _ _ Hrep) as Hsz.
  pose proof (vec_rep_capacity _ _ _ Hrep) as Hcap.
  unfold maybe_contract. mgo. cbv zeta. rewrite Hsz.
  destruct (v_contract v && _); [|by exists v, b; split_and!; auto; split].
  set (n := if Z.of_nat (length l) <? 1 then 1 else Z.of_nat (length l)).
  assert (Hn : Z.of_nat (length l) <= n /\ 1 <= n <= v_maxcap v) by (subst n; zcases; lia).
  destruct (Z.eq_dec n (v_capacity v)) as [Heq|Hne].
  - exists v, b. unfold resize_container. mgo. rewrite (proj2 (Z.eqb_eq _ _) Heq).
    by split_and!; auto; split.
  - destruct (resize_container_spec n v b l) as (v1 & E1 & Hrep1 & Hcap1 & Hct1 & Hmx1); [done|lia|nia|done|].
    rewrite take_ge in Hrep1 by lia. exists v1, 0%nat. split_and!; [done|done|by right|done|lia].
Qed.

Lemma vec_pop_back_spec v b l x :
  vec_rep v b (l ++ [x]) -> v_maxcap v * sizeofT < 2 ^ 32 -> v_capacity v <= v_maxcap v ->
  exists v' b', vec_pop_back v = Ok (tt, v') /\ vec_rep v' b' l /\ (b' = b \/ b' = 0%nat) /\
    same_config v v' /\ v_capacity v' <= v_maxcap v.
Proof.
  intros Hrep Hmax Hcm. pose proof (vec_rep_capacity _ _ _ Hrep) as Hcap.
  destruct Hrep as (Hb & He & Hm & Hbuf). rewrite length_app in He, Hcap. simpl in He, Hcap.
  unfold vec_pop_back. mgo.
  rewrite (bind_ok _ _ _ _ _ (asserth_true (v_begin v <? v_end v) v ltac:(apply Z.ltb_lt; lia))). mgo.
  unfold destroy_at. mgo. cbn [v_buf]. destruct (v_buf v) as [old|] eqn:Ebuf; cycle 1.
  { destruct Hbuf as (_ & Hnil & _). by apply app_nil in Hnil as []. }
  destruct Hbuf as (r & -> & Hmc & Hcb). rewrite length_app in Hmc. simpl in Hmc.
  mrun (deref_some (Some (layout b (l ++ [x]) r)) _
    (Vec (Some (layout b (l ++ [x]) r)) (v_begin v) (v_end v - 1) (v_memend v) (v_contract v) (v_maxcap v)) eq_refl).
  assert (Hd : destroy (layout b (l ++ [x]) r) (v_end v - 1) = Some (layout b l (S r))).
  { unfold layout. rewrite fmap_app, <- app_assoc, app_assoc. cbn [fmap list_fmap app].
    replace (v_end v - 1) with (Z.of_nat (length (replicate b (@None T) ++ (Some <$> l)))).
    - by rewrite destroy_app, <- app_assoc.
    - rewrite length_app, length_replicate, length_fmap. lia. }
  mgo. mrun (deref_some _ _ (Vec (Some (layout b (l ++ [x]) r)) (v_begin v) (v_end v - 1) (v_memend v)
                            (v_contract v) (v_maxcap v)) Hd). mgo.
  set (v1 := with_buf _ _).
  destruct (maybe_contract_spec v1 b l) as (v2 & b' & E2 & H2); [|done|done|simpl; unfold v_capacity in *; lia|].
  - split_and!; [done|simpl; lia|done|]. simpl. exists (S r). split_and!; [done|lia|done].
  - exists v2, b'. split; [exact E2|]. exact H2.
Qed.

Lemma vec_pop_front_spec v b l x :
  vec_rep v b (x :: l) -> v_maxcap v * sizeofT < 2 ^ 32 -> v_capacity v <= v_maxcap v ->
  exists v' b', vec_pop_front v = Ok (tt, v') /\ vec_rep v' b' l /\ (b' = S b \/ b' = 0%nat) /\
    same_config v v' /\ v_capacity v' <= v_maxcap v.
Proof.
  intros Hrep Hmax Hcm. pose proof (vec_rep_capacity _ _ _ Hrep) as Hcap.
  destruct Hrep as (Hb & He & Hm & Hbuf). simpl in He, Hcap.
  unfold vec_pop_front. mgo.
  rewrite (bind_ok _ _ _ _ _ (asserth_true (v_begin v <? v_end v) v ltac:(apply Z.ltb_lt; lia))).
  unfold destroy_at. mgo. destruct (v_buf v) as [old|] eqn:Ebuf; [|by destruct Hbuf as (_ & ? & _)].
  destruct Hbuf as (r & -> & Hmc & Hcb). simpl in Hmc.
  mrun (deref_some (Some (layout b (x :: l) r)) _ v eq_refl).
  assert (Hd : destroy (layout b (x :: l) r) (v_begin v) = Some (layout (S b) l r)).
  { unfold layout. cbn [fmap list_fmap app].
    replace (v_begin v) with (Z.of_nat (length (replicate b (@None T)))) by (rewrite length_replicate; lia).
    rewrite destroy_app. f_equal. rewrite <- Nat.add_1_r, replicate_add, <- app_assoc. done. }
  mgo. mrun (deref_some _ _ v Hd). mgo. set (v1 := Vec _ _ _ _ _ _).
  destruct (maybe_contract_spec v1 (S b) l) as (v2 & b' & E2 & H2); [|done|done|simpl; unfold v_capacity in *; lia|].
  - split_and!; [simpl; lia|simpl; lia|done|]. simpl. exists r. split_and!; [done|lia|done].
  - exists v2, b'. split; [exact E2|]. exact H2.
Qed.

Lemma vec_clear_spec v b l :
  vec_rep v b l -> v_maxcap v * sizeofT < 2 ^ 32 -> v_capacity v <= v_maxcap v ->
  exists v', vec_clear v = Ok (tt, v') /\ vec_rep v' 0 [] /\ same_config v v' /\ v_capacity v' <= v_maxcap v.
Proof.
  intros Hrep Hmax Hcm. pose proof (vec_rep_size _ _ _ Hrep) as Hsz.
  destruct Hrep as (Hb & He & Hm & Hbuf). unfold vec_clear. mgo.
  assert (exists buf v1, (match v_buf v with
          | None => ret None
          | Some old => b <-- deref (destroy_cells (Z.to_nat (v_size v)) old (v_begin v));; ret (Some b)
          end : M vec _) v = Ok (buf, v) /\
     v1 = Vec buf 0 0 (v_memend v) (v_contract v) (v_maxcap v) /\ vec_rep v1 0 [])
    as (buf & v1 & E1 & Hv1 & Hrep1).
  { rewrite Hsz, Hb, Nat2Z.id. destruct (v_buf v) as [old|].
    - destruct Hbuf as (r & -> & Hmc & Hcb). mrun (deref_some _ _ v (layout_destroy b l r)).
      eexists _, _. split_and!; [done|done|]. split_and!; [done|done|done|]. simpl.
      exists (b + length l + r)%nat. done.
    - eexists _, _. split_and!; [done|done|]. split_and!; [done|done|done|]. simpl.
      by destruct Hbuf as (_ & _ & ?). }
  mrun E1. mgo. rewrite <- Hv1.
  destruct (v_contract v && _) eqn:Ec.
  - apply andb_true_iff in Ec as [_ Hc%Z.ltb_lt].
    destruct (resize_container_spec 1 v1 0 []) as (v2 & E2 & Hrep2 & Hcap2 & Hct & Hmx); [done|lia|nia| |].
    { subst v1. unfold v_capacity in *. simpl. lia. }
    exists v2. rewrite take_nil in Hrep2. subst v1. split_and!; [done|done|done|lia].
  - exists v1. subst v1. by split_and!.
Qed.

Lemma resize_container_same v : resize_container (v_capacity v) v = Ok (tt, v).
Proof. unfold resize_container. mgo. by rewrite Z.eqb_refl. Qed.

(** [resize(n, x)] fills the buffer up to its new end. *)
Lemma vec_resize_fill v l x :
  vec_rep v 0 l ->
  exists v', (v <-- get;;
    match v_buf v with
    | None => ret tt
    | Some old =>
      buf <-- deref (fill_cells (Z.to_nat (v_memend v - v_end v)) old (v_end v) x);;
      put (Vec (Some buf) (v_begin v) (v_memend v) (v_memend v) (v_contract v) (v_maxcap v))
    end) v = Ok (tt, v') /\
    vec_rep v' 0 (l ++ replicate (Z.to_nat (v_capacity v) - length l) x) /\
    v_capacity v' = v_capacity v /\ same_config v v'.
Proof.
  intros (Hb & He & Hm & Hbuf). mgo. destruct (v_buf v) as [old|] eqn:Ebuf.
  - destruct Hbuf as (r & -> & Hmc & Hcb). simpl in He, Hmc.
    replace (Z.to_nat (v_memend v - v_end v)) with r by lia.
    assert (Hf : fill_cells r (layout 0 l r) (v_end v) x = Some (layout 0 (l ++ replicate r x) 0)).
    { unfold layout. simpl. replace (v_end v) with (Z.of_nat (length (Some <$> l : list cell))).
      - rewrite fill_cells_app by lia. rewrite Nat.sub_diag, fmap_app, fmap_replicate, <- !app_assoc. done.
      - rewrite length_fmap. lia. }
    mrun (deref_some _ _ v Hf). unfold v_capacity. simpl.
    replace (Z.to_nat (v_memend v) - length l)%nat with r by lia.
    eexists. split; [done|]. split; [|done].
    split_and!; [done|simpl; rewrite length_app, length_replicate; lia|done|]. simpl.
    exists 0%nat. rewrite length_app, length_replicate. split_and!; [done|lia|done].
  - destruct Hbuf as (_ & -> & Hmc). exists v. split; [done|]. unfold v_capacity. rewrite Hmc. simpl.
    split; [|done]. split_and!; [done|done|done|]. by rewrite Ebuf.
Qed.

Lemma vec_resize_spec v l n x :
  vec_rep v 0 l -> v_maxcap v * sizeofT < 2 ^ 32 -> 0 <= n <= v_maxcap v ->
  exists v', vec_resize n x v = Ok (tt, v') /\
    vec_rep v' 0 (take (Z.to_nat n) l ++ replicate (Z.to_nat n - length l) x) /\
    v_capacity v' = n /\ same_config v v'.
Proof.
  intros Hrep Hmax Hn. pose proof (vec_rep_capacity _ _ _ Hrep) as Hcap. simpl in Hcap.
  unfold vec_resize. mgo. destruct (Z.ltb_spec (v_maxcap v) n); [lia|].
  destruct (Z.eq_dec n (v_capacity v)) as [->|Hne].
  - mrun (resize_container_same v). destruct (vec_resize_fill v l x Hrep) as (v' & E & Hrep' & Hc & Hs).
    exists v'. rewrite take_ge by lia. split_and!; [exact E|done|done|done].
  - destruct (resize_container_spec n v 0 l) as (v1 & E1 & Hrep1 & Hc1 & Hct & Hmx); [done|lia|nia|done|].
    mrun E1. destruct (vec_resize_fill v1 _ x Hrep1) as (v' & E & Hrep' & Hc & Hs1 & Hs2).
    exists v'. split; [exact E|]. rewrite length_take, Hc1 in Hrep'.
    replace (Z.to_nat n - Z.to_nat n `min` length l)%nat with (Z.to_nat n - length l)%nat in Hrep' by lia.
    unfold same_config. split_and!; [done|lia|congruence|congruence].
Qed.

Lemma vec_reserve_spec v l n :
  vec_rep v 0 l -> v_maxcap v * sizeofT < 2 ^ 32 -> v_capacity v <= v_maxcap v ->
  exists v', vec_reserve n v = Ok (tt, v') /\ vec_rep v' 0 l /\ v_capacity v' <= v_maxcap v /\
    (n <= v_maxcap v -> n <= v_capacity v') /\ same_config v v'.
Proof.
  intros Hrep Hmax Hcm. pose proof (vec_rep_capacity _ _ _ Hrep) as Hcap. simpl in Hcap.
  unfold vec_reserve. mgo.
  destruct (Z.ltb_spec (v_capacity v) n), (Z.leb_spec n (v_maxcap v)); cbn [andb];
    try (exists v; split_and!; [done|done|done|lia|done]).
  destruct (resize_container_spec n v 0 l) as (v1 & E1 & Hrep1 & Hc1 & Hct & Hmx); [done|lia|nia|lia|].
  rewrite take_ge in Hrep1 by lia. exists v1. split_and!; [done|done|lia|lia|done].
Qed.

(** ** Refinement of the stack operations *)

Inductive vop : Type :=
| VPush (x : T) | VPopBack | VClear | VResize (n : Z) (x : T) | VReserve (n : Z).

Definition vexec (op : vop) : M vec unit :=
  match op with
  | VPush x => vec_push_back x;;; ret tt
  | VPopBack => vec_pop_back
  | VClear => vec_clear
  | VResize n x => vec_resize n x
  | VReserve n => vec_reserve n
  end.

(** What each operation means for the sequence; [None]: the assertion of
    [pop_back] halts the kernel. *)
Definition vspec (maxcap : Z) (op : vop) (l : list T) : option (list T) :=
  match op with
  | VPush x => Some (if maxcap <=? Z.of_nat (length l) then l else l ++ [x])
  | VPopBack => match l with [] => None | _ => Some (removelast l) end
  | VClear => Some []
  | VResize n x => Some (if maxcap <? n then l
                         else take (Z.to_nat n) l ++ replicate (Z.to_nat n - length l) x)
  | VReserve _ => Some l
  end.

Definition vop_ok (op : vop) : Prop := match op with VResize n _ => 0 <= n | _ => True end.

Fixpoint vrun (ops : list vop) : M vec unit :=
  match ops with [] => ret tt | op :: r => vexec op;;; vrun r end.
Fixpoint vspec_run (maxcap : Z) (ops : list vop) (l : list T) : option (list T) :=
  match ops with [] => Some l | op :: r => l' ← vspec maxcap op l; vspec_run maxcap r l' end.

Definition vec_inv (maxcap : Z) (v : vec) (l : list T) : Prop :=
  vec_rep v 0 l /\ v_maxcap v = maxcap /\ v_capacity v <= maxcap.

Lemma vec_pop_back_empty v : vec_rep v 0 [] -> vec_pop_back v = Stop Panic.
Proof.
  intros (Hb & He & _). unfold vec_pop_back. mgo. apply bind_stop.
  destruct (Z.ltb_spec (v_begin v) (v_end v)); [simpl in *; lia|done].
Qed.

Lemma vexec_sim maxcap op v l :
  maxcap * sizeofT < 2 ^ 32 -> vop_ok op -> vec_inv maxcap v l ->
  match vspec maxcap op l with
  | Some l' => exists v', vexec op v = Ok (tt, v') /\ vec_inv maxcap v' l'
  | None => vexec op v = Stop Panic
  end.
Proof.
  intros Hmax Hok (Hrep & <- & Hcap). destruct op as [x| | |n x|n]; cbn [vspec vexec].
  - pose proof (vec_push_back_spec v 0 l x Hrep Hmax (or_introl eq_refl)) as Hp.
    destruct (v_maxcap v <=? Z.of_nat (length l)).
    + exists v. rewrite (bind_ok _ _ _ _ _ Hp). by split_and!.
    + destruct Hp as (v' & b' & E & Hrep' & Hb & [_ Hmx] & Hc). rewrite (bind_ok _ _ _ _ _ E).
      exists v'. rewrite (Hb eq_refl) in Hrep'. split; [done|]. split; [done|]. split; [done|]. lia.
  - destruct l as [|y l0]; [by apply vec_pop_back_empty|].
    destruct (exists_last (l := y :: l0)) as (l1 & z & Hl); [done|].
    rewrite Hl in *. rewrite removelast_last.
    destruct (vec_pop_back_spec v 0 l1 z Hrep Hmax Hcap) as (v' & b' & E & Hrep' & Hb & [_ Hmx] & Hc).
    exists v'. assert (b' = 0%nat) as -> by (by destruct Hb). split; [done|]. split; [done|]. split; [done|lia].
  - destruct (vec_clear_spec v 0 l Hrep Hmax Hcap) as (v' & E & Hrep' & [_ Hmx] & Hc).
    exists v'. split; [done|]. split; [done|]. split; [done|lia].
  - simpl in Hok. destruct (Z.ltb_spec (v_maxcap v) n) as [Hlt|Hle].
    + exists v. unfold vec_resize. mgo. apply Z.ltb_lt in Hlt. rewrite Hlt. by split_and!.
    + destruct (vec_resize_spec v l n x Hrep Hmax ltac:(lia)) as (v' & E & Hrep' & Hc & [_ Hmx]).
      exists v'. split; [done|]. split; [done|]. split; [done|lia].
  - destruct (vec_reserve_spec v l n Hrep Hmax Hcap) as (v' & E & Hrep' & Hc & _ & [_ Hmx]).
    exists v'. split; [done|]. split; [done|]. split; [done|lia].
Qed.

Lemma vrun_sim maxcap ops v l :
  maxcap * sizeofT < 2 ^ 32 -> Forall vop_ok ops -> vec_inv maxcap v l ->
  match vspec_run maxcap ops l with
  | Some l' => exists v', vrun ops v = Ok (tt, v') /\ vec_inv maxcap v' l'
  | None => vrun ops v = Stop Panic
  end.
Proof.
  intros Hmax Hok. revert v l. induction Hok as [|op ops Hop Hok IH]; intros v l Hinv; cbn [vspec_run vrun].
  { by exists v. }
  pose proof (vexec_sim maxcap op v l Hmax Hop Hinv) as Hs.
  destruct (vspec maxcap op l) as [l1|]; cbn [mbind option_bind].
  - destruct Hs as (v1 & E & Hinv1). rewrite (bind_ok _ _ _ _ _ E). by apply IH.
  - by apply bind_stop.
Qed.

Lemma vec_new_inv n c maxcap :
  0 <= n -> 0 <= maxcap -> maxcap * sizeofT < 2 ^ 32 -> vec_inv maxcap (vec_new n c maxcap) [].
Proof.
  intros Hn Hm Hmax. unfold vec_new. cbv zeta.
  set (n' := if maxcap <? n then maxcap else n).
  assert (0 <= n' <= maxcap) by (subst n'; zcases; lia).
  destruct (Z.ltb_spec 0 n').
  - unfold vec_inv, v_capacity. simpl. split_and!; [|done|lia]. split_and!; [done|done|done|]. simpl.
    exists (Z.to_nat n'). rewrite malloc_cells_ok by nia. split_and!; [done|lia|nia].
  - split_and!; [|done|done]. by split_and!.
Qed.

(** What a client reads. *)
Lemma read_at_rep v b l i :
  vec_rep v b l -> (i < length l)%nat ->
  exists x, l !! i = Some x /\ read_at (v_begin v + Z.of_nat i) v = Ok (x, v).
Proof.
  intros (Hb & He & _ & Hbuf) Hi. destruct (lookup_lt_is_Some_2 l i Hi) as [x Hx].
  exists x. split; [done|]. unfold read_at. mgo. rewrite Hb.
  destruct (v_buf v) as [buf|] eqn:Ebuf; [|destruct Hbuf as (_ & -> & _); simpl in Hi; lia].
  destruct Hbuf as (r & -> & _). mrun (deref_some (Some (layout b l r)) _ v eq_refl).
  apply deref_some. unfold read_cell. destruct (Z.ltb_spec (Z.of_nat b + Z.of_nat i) 0); [lia|].
  replace (Z.to_nat (Z.of_nat b + Z.of_nat i)) with (b + i)%nat by lia. unfold layout.
  rewrite lookup_app_r by (rewrite length_replicate; lia). rewrite length_replicate.
  replace (b + i - b)%nat with i by lia.
  rewrite lookup_app_l by (rewrite length_fmap; lia). by rewrite list_lookup_fmap, Hx.
Qed.

Lemma vec_get_spec v b l ix :
  vec_rep v b l -> 0 <= ix ->
  vec_get ix v = match l !! Z.to_nat ix with Some x => Ok (x, v) | None => Stop Panic end.
Proof.
  intros Hrep Hix. unfold vec_get. mgo. rewrite (vec_rep_size _ _ _ Hrep).
  destruct (Z.ltb_spec ix (Z.of_nat (length l))) as [Hlt|Hge].
  - rewrite (bind_ok _ _ _ _ _ (asserth_true true v eq_refl)).
    destruct (read_at_rep v b l (Z.to_nat ix) Hrep ltac:(lia)) as (x & -> & E).
    rewrite Z2Nat.id in E by done. exact E.
  - rewrite lookup_ge_None_2 by lia. done.
Qed.

Lemma vec_set_spec v b l ix x :
  vec_rep v b l -> 0 <= ix < Z.of_nat (length l) ->
  exists v', vec_set ix x v = Ok (tt, v') /\ vec_rep v' b (<[Z.to_nat ix := x]> l) /\ same_config v v' /\
             v_capacity v' = v_capacity v.
Proof.
  intros Hrep Hix. unfold vec_set. mgo. rewrite (vec_rep_size _ _ _ Hrep).
  rewrite (proj2 (Z.ltb_lt _ _)) by lia. mrun (asserth_true true v eq_refl).
  destruct (read_at_rep v b l (Z.to_nat ix) Hrep ltac:(lia)) as (y & Hy & E).
  rewrite Z2Nat.id in E by lia. mrun E. destruct Hrep as (Hb & He & Hm & Hbuf).
  unfold construct_at. mgo. destruct (v_buf v) as [buf|]; [|destruct Hbuf as (_ & -> & _); simpl in *; lia].
  destruct Hbuf as (r & -> & Hme & Hsz). mrun (deref_some (Some (layout b l r)) _ v eq_refl).
  assert (Ec : construct (layout b l r) (v_begin v + ix) x = Some (layout b (<[Z.to_nat ix := x]> l) r)).
  { unfold construct, layout. rewrite !length_app, !length_replicate, length_fmap.
    destruct (Z.ltb_spec (v_begin v + ix) 0); [lia|].
    destruct (Z.leb_spec (Z.of_nat (b + (length l + r))) (v_begin v + ix)); [lia|]. cbn [orb]. f_equal.
    replace (Z.to_nat (v_begin v + ix)) with (length (replicate b (@None T)) + Z.to_nat ix)%nat
      by (rewrite length_replicate; lia).
    rewrite insert_app_r, insert_app_l by (rewrite length_fmap; lia). by rewrite list_fmap_insert. }
  mrun (deref_some _ _ v Ec). eexists. split; [reflexivity|]. unfold vec_rep; simpl. rewrite length_insert.
  split_and!; auto; [exists r; auto|split; reflexivity].
Qed.

Lemma vfind_loop_spec v b l k n i :
  vec_rep v b l -> (i + n = length l)%nat ->
  vfind_loop n (v_begin v + Z.of_nat i) k v =
  Ok (v_begin v + match list_find (eq k) (drop i l) with
                  | Some (j, _) => Z.of_nat (i + j) | None => Z.of_nat (length l) end, v).
Proof.
  intros Hrep. revert i. induction n as [|n IH]; intros i Hi; cbn [vfind_loop].
  { rewrite drop_ge by lia. simpl. unfold ret. do 3 f_equal. lia. }
  destruct (read_at_rep v b l i Hrep ltac:(lia)) as (x & Hx & E). mrun E.
  rewrite (drop_S _ _ _ Hx). cbn [list_find]. destruct (decide (x = k)) as [->|Hne].
  - rewrite decide_True by done. unfold ret. do 3 f_equal. lia.
  - rewrite decide_False by done.
    replace (v_begin v + Z.of_nat i + 1) with (v_begin v + Z.of_nat (S i)) by lia.
    rewrite IH by lia. destruct (list_find (eq k) (drop (S i) l)) as [[j y]|]; simpl; do 3 f_equal. lia.
Qed.

Lemma vcount_loop_spec v b l k n i c :
  vec_rep v b l -> (i + n = length l)%nat ->
  vcount_loop n (v_begin v + Z.of_nat i) k c v =
  Ok (c + Z.of_nat (length (filter (eq k) (drop i l))), v).
Proof.
  intros Hrep. revert i c. induction n as [|n IH]; intros i c Hi; cbn [vcount_loop].
  { rewrite drop_ge by lia. simpl. unfold ret. do 2 f_equal. lia. }
  destruct (read_at_rep v b l i Hrep ltac:(lia)) as (x & Hx & E). mrun E.
  rewrite (drop_S _ _ _ Hx), filter_cons.
  replace (v_begin v + Z.of_nat i + 1) with (v_begin v + Z.of_nat (S i)) by lia.
  rewrite IH by lia. destruct (decide (x = k)) as [->|Hne].
  - rewrite decide_True by done. simpl. do 2 f_equal. lia.
  - by rewrite decide_False by done.
Qed.

(** C32: a vector under any sequence of [push_back], [pop_back], [clear],
    [resize] and [reserve] behaves as a sequence: it halts exactly when
    [pop_back] finds it empty, never faults, and otherwise indexing, [size],
    [find] and [count] read the sequence the operations describe.  The maximal
    capacity has to fit the address space. *)
Theorem vector_refines_sequence n c maxcap ops :
  0 <= n -> 0 <= maxcap -> maxcap * sizeofT < 2 ^ 32 -> Forall vop_ok ops ->
  match vspec_run maxcap ops [] with
  | None => vrun ops (vec_new n c maxcap) = Stop Panic
  | Some l => exists v, vrun ops (vec_new n c maxcap) = Ok (tt, v) /\
      v_size v = Z.of_nat (length l) /\ v_size v <= v_capacity v <= maxcap /\
      (forall ix, 0 <= ix -> vec_get ix v =
         match l !! Z.to_nat ix with Some x => Ok (x, v) | None => Stop Panic end) /\
      (forall k, vec_find k v = Ok (match list_find (eq k) l with
                                    | Some (j, _) => Z.of_nat j | None => Z.of_nat (length l) end, v)) /\
      (forall k, vec_count k v = Ok (Z.of_nat (length (filter (eq k) l)), v))
  end.
Proof.
  intros Hn Hm Hmax Hok. pose proof (vrun_sim maxcap ops _ [] Hmax Hok (vec_new_inv n c maxcap Hn Hm Hmax)) as H.
  destruct (vspec_run maxcap ops []) as [l|]; [|done].
  destruct H as (v & E & Hrep & Hmx & Hcap). exists v.
  pose proof (vec_rep_size _ _ _ Hrep) as Hsz. pose proof (vec_rep_capacity _ _ _ Hrep) as Hc.
  assert (Hb : v_begin v = 0) by (destruct Hrep as [-> _]; done).
  split_and!; [done|done|simpl in Hc; lia|lia| | |].
  - intros ix Hix. by apply (vec_get_spec v 0).
  - intros k. unfold vec_find. mgo. rewrite Hsz, Nat2Z.id.
    pose proof (vfind_loop_spec v 0 l k (length l) 0 Hrep eq_refl) as Hf.
    rewrite Hb in *. exact Hf.
  - intros k. unfold vec_count. mgo. rewrite Hsz, Nat2Z.id.
    pose proof (vcount_loop_spec v 0 l k (length l) 0 0 Hrep eq_refl) as Hf.
    rewrite Hb in *. exact Hf.
Qed.

(** The slot of a push that has to grow a vector whose front was popped. *)
Lemma push_slot_grown v b l :
  vec_rep v b l -> v_maxcap v * sizeofT < 2 ^ 32 -> v_end v = v_memend v -> v_memend v < v_maxcap v ->
  exists r v', push_slot v = Ok (Some (v_memend v), v') /\
    v_buf v' = Some (layout 0 l (b + S r)) /\ v_begin v' = 0 /\ v_end v' = v_memend v + 1 /\
    v_memend v = Z.of_nat (b + length l).
Proof.
  intros Hrep Hmax Hfull Hlt. pose proof (vec_rep_size _ _ _ Hrep) as Hsz.
  assert (Hm : 0 <= v_maxcap v) by apply Hrep.
  assert (Hme : v_memend v = Z.of_nat (b + length l)) by (destruct Hrep as (_ & ? & _); lia).
  unfold push_slot. mgo. rewrite Hsz. destruct (Z.leb_spec (v_maxcap v) (Z.of_nat (length l))); [lia|].
  destruct (Z.leb_spec (v_memend v) (v_end v)); [|lia]. cbv zeta. mgo.
  change (v_capacity v) with (v_memend v). rewrite !(u32_small (v_memend v + 1)) by nia.
  match goal with |- context [resize_container ?e] => set (nc := e) end.
  assert (Hnc : v_memend v < nc <= v_maxcap v).
  { subst nc. destruct (Z.ltb_spec (expand_capacity v) (v_memend v + 1)); zcases; lia. }
  destruct (resize_container_spec nc v b l) as (v1 & E1 & Hrep1 & Hcap1 & Hct1 & Hmx1);
    [done|lia|nia|unfold v_capacity; lia|]. mrun E1. mgo.
  rewrite take_ge in Hrep1 by lia. destruct Hrep1 as (Hb1 & He1 & _ & Hbuf1).
  destruct (v_buf v1) as [buf1|] eqn:Eb1.
  - destruct Hbuf1 as (r & -> & Hmc & _). unfold v_capacity in *. simpl in Hmc, Hb1. rewrite Hb1.
    assert (exists r', r = (b + S r')%nat) as [r' ->] by (exists (r - b - 1)%nat; lia).
    exists r'. rewrite Z.add_0_l. eexists. split; [done|]. cbn [v_buf v_begin v_end]; rewrite ?Eb1; split_and!; done.
  - unfold v_capacity in *. destruct Hbuf1 as (_ & _ & ?). lia.
Qed.

(** when a full vector whose front was popped has to grow for a
    [push_back], the new element is not placed behind the others: it goes to
    the old capacity's index, and the cells in between are raw memory counted
    by [size]; indexing the first of them faults. *)
Theorem push_after_pop_front_leaves_hole v b l x :
  vec_rep v (S b) l -> v_maxcap v * sizeofT < 2 ^ 32 ->
  v_end v = v_memend v -> v_memend v < v_maxcap v ->
  exists v', vec_push_back x v = Ok (Some (v_capacity v), v') /\
    v_size v' = v_size v + Z.of_nat (S b) + 1 /\
    vec_get (Z.of_nat (length l)) v' = Stop Fault.
Proof.
  intros Hrep Hmax Hfull Hlt. pose proof (vec_rep_size _ _ _ Hrep) as Hsz.
  destruct (push_slot_grown v (S b) l Hrep Hmax Hfull Hlt) as (r & v1 & E1 & Hbuf & Hb & He & Hme).
  unfold vec_push_back. mrun E1. unfold construct_at. mgo. rewrite Hbuf.
  mrun (deref_some (Some (layout 0 l (S b + S r))) _ v1 eq_refl).
  assert (Hc : construct (layout 0 l (S b + S r)) (v_memend v) x =
               Some ((Some <$> l) ++ replicate (S b) None ++ Some x :: replicate r None)).
  { unfold layout. rewrite replicate_add. cbn [replicate app].
    rewrite app_comm_cons, (app_assoc (Some <$> l)).
    replace (v_memend v) with (Z.of_nat (length ((Some <$> l) ++ None :: replicate b (@None T)))).
    - by rewrite construct_app, <- app_assoc.
    - rewrite length_app, length_fmap. simpl. rewrite length_replicate. lia. }
  mgo. mrun (deref_some _ _ v1 Hc). mgo. eexists. split; [done|].
  unfold v_size, with_buf. cbn [v_end v_begin]. rewrite He, Hb. split.
  { unfold v_size in Hsz. destruct Hrep as (? & ? & _). lia. }
  unfold vec_get. mgo. unfold v_size, read_at. cbn [v_end v_begin v_buf]. rewrite ?He, ?Hb.
  destruct (Z.ltb_spec (Z.of_nat (length l)) (v_memend v + 1 - 0)); [|lia].
  rewrite (bind_ok (asserth true) _ _ _ _ eq_refl). mgo.
  cbn [v_buf].  rewrite (bind_ok (deref (Some _)) _ _ _ _ eq_refl). rewrite Z.add_0_l. unfold read_cell.
  destruct (Z.ltb_spec (Z.of_nat (length l)) 0); [lia|]. rewrite Nat2Z.id.
  rewrite lookup_app_r by (rewrite length_fmap; lia). rewrite length_fmap, Nat.sub_diag. done.
Qed.

End vector.

Definition hole_ops : M (vec (T := Z)) unit :=
  vec_push_back 4 1;;; vec_push_back 4 2;;; vec_pop_front 4.

Definition after (c : M (vec (T := Z)) unit) (v : vec (T := Z)) : vec (T := Z) :=
  match c v with Ok (_, v') => v' | Stop _ => v end.

Lemma vector_refines_sequence_witness :
  vspec_run 1024 [VPush 5; VPush 6; VPush 7; VPopBack; VResize 4 9] [] = Some [5; 6; 9; 9] /\
  exists v, vrun 4 [VPush 5; VPush 6; VPush 7; VPopBack; VResize 4 9] (vec_new 4 1 true 1024) = Ok (tt, v) /\
    vec_get 2 v = Ok (9, v).
Proof.
  split; [reflexivity|].
  pose proof (vector_refines_sequence (T := Z) 4 ltac:(lia) 1 true 1024
    [VPush 5; VPush 6; VPush 7; VPopBack; VResize 4 9] ltac:(lia) ltac:(lia) ltac:(lia)
    ltac:(repeat constructor; simpl; lia)) as H.
  change (vspec_run 1024 [VPush 5; VPush 6; VPush 7; VPopBack; VResize 4 9] []) with (Some [5; 6; 9; 9]) in H.
  destruct H as (v & E & _ & _ & Hg & _). exists v. split; [exact E|]. exact (Hg 2 ltac:(lia)).
Defined.

Lemma push_after_pop_front_leaves_hole_witness :
  exists v', vec_push_back 4 3 (after hole_ops (vec_new 4 2 false 1024)) = Ok (Some 2, v') /\
    vec_get 1 v' = Stop Fault.
Proof.
  destruct (push_after_pop_front_leaves_hole (T := Z) 4 ltac:(lia)
    (after hole_ops (vec_new 4 2 false 1024)) 0 [2] 3) as (v' & E & _ & Hg).
  - split; [vm_compute; reflexivity|]. split; [vm_compute; reflexivity|].
    split; [vm_compute; discriminate|]. exists 0%nat. vm_compute. repeat split.
  - vm_compute. reflexivity.
  - vm_compute. reflexivity.
  - vm_compute. reflexivity.
  - exists v'. split; [exact E|exact Hg].
Defined.
