(* ===== verification/MemLayout.v ===== *)
(** * Address arithmetic of the kernel (kernel/include/memory.h, heap.h)

    The rounding functions and the constants of the kernel's address space
    that the heap, the page directories and the memory manager share. *)

From S2P Require Import Prelude.
From stdpp Require Import gmap list.
#[local] Open Scope Z_scope.

Definition KERNEL_VIRTUAL_BASE : Z := 0xC0000000.
Definition KERNEL_IDMAP_SIZE : Z := 0x10000000.
Definition REMAP_END : Z := 0xffffc000.
Definition HEAP_BASE : Z := KERNEL_VIRTUAL_BASE + KERNEL_IDMAP_SIZE.
Definition HEAP_END : Z := HEAP_BASE + 0x20000000.
Definition HEAP_INIT_SIZE : Z := 0x100000.

Definition align_addr (addr : Z) : Z :=
  u32 (Z.land addr 0xFFFFF000 + (if Z.land addr 0xFFF =? 0 then 0 else 0x1000)).
Definition align_addr_4m (addr : Z) : Z :=
  u32 (Z.land addr 0xFFC00000 + (if Z.land addr 0x3FFFFF =? 0 then 0 else 0x400000)).

Lemma land_low a n : 0 <= n -> Z.land a (2 ^ n - 1) = a mod 2 ^ n.
Proof. intros. rewrite <- Z.land_ones by done. by rewrite Z.ones_equiv. Qed.

(** Clearing the low [n] bits of a 32-bit word. *)
Lemma land_high a n :
  0 <= n <= 32 -> 0 <= a < 2 ^ 32 -> Z.land a (2 ^ 32 - 2 ^ n) = a - a mod 2 ^ n.
Proof.
  intros Hn Ha. pose proof (pow2_pos n ltac:(lia)).
  assert (E : a - a mod 2 ^ n = Z.shiftl (Z.shiftr a n) n).
  { rewrite shiftl_mul, shiftr_div by lia. pose proof (Z.div_mod a (2 ^ n)). lia. }
  rewrite E. assert (E2 : 2 ^ 32 - 2 ^ n = Z.shiftl (Z.ones (32 - n)) n).
  { rewrite shiftl_mul, Z.ones_equiv, Z.mul_pred_l, <- Z.pow_add_r by lia.
    by replace (32 - n + n) with 32 by lia. }
  rewrite E2. apply Z.bits_inj'. intros i Hi. rewrite Z.land_spec.
  destruct (Z.lt_ge_cases i n).
  - rewrite !Z.shiftl_spec_low by lia. apply andb_false_r.
  - rewrite !Z.shiftl_spec by lia. rewrite Z.shiftr_spec by lia.
    replace (i - n + n) with i by lia. destruct (Z.lt_ge_cases i 32).
    + rewrite Z.ones_spec_low by lia. apply andb_true_r.
    + rewrite Z.ones_spec_high, andb_false_r by lia. symmetry.
      destruct (Z.eq_dec a 0) as [->|]; [apply Z.testbit_0_l|].
      apply Z.bits_above_log2; [lia|]. assert (Z.log2 a < 32) by (apply Z.log2_lt_pow2; lia). lia.
Qed.

Lemma align_addr_spec a :
  0 <= a <= 2 ^ 32 - 4096 ->
  a <= align_addr a < a + 4096 /\ align_addr a mod 4096 = 0 /\ align_addr a <= 2 ^ 32 - 4096.
Proof.
  intros Ha. unfold align_addr.
  change 0xFFFFF000 with (2 ^ 32 - 2 ^ 12). change 0xFFF with (2 ^ 12 - 1).
  rewrite land_low, land_high by lia. change (2 ^ 12) with 4096. change 0x1000 with 4096.
  pose proof (Z.mod_pos_bound a 4096). pose proof (Z.div_mod a 4096).
  assert (a / 4096 <= (2 ^ 32 - 4096) / 4096) by (apply Z.div_le_mono; lia).
  change ((2 ^ 32 - 4096) / 4096) with 1048575 in *.
  assert (Hm : forall k, (4096 * k) mod 4096 = 0) by (intros k; rewrite Z.mul_comm; apply Z.mod_mul; lia).
  destruct (Z.eqb_spec (a mod 4096) 0).
  - rewrite u32_small by lia. replace (a - a mod 4096 + 0) with (4096 * (a / 4096)) by lia.
    rewrite Hm. lia.
  - rewrite u32_small by lia. replace (a - a mod 4096 + 4096) with (4096 * (a / 4096 + 1)) by lia.
    rewrite Hm. lia.
Qed.

Lemma align_addr_id a : 0 <= a < 2 ^ 32 -> a mod 4096 = 0 -> align_addr a = a.
Proof.
  intros Ha E. unfold align_addr.
  change 0xFFFFF000 with (2 ^ 32 - 2 ^ 12). change 0xFFF with (2 ^ 12 - 1).
  rewrite land_low, land_high by lia. change (2 ^ 12) with 4096. rewrite E.
  rewrite u32_small; simpl; lia.
Qed.

Lemma align_addr_4m_spec a :
  0 <= a <= 2 ^ 32 - 2 ^ 22 -> a <= align_addr_4m a < a + 2 ^ 22 /\ align_addr_4m a mod 2 ^ 22 = 0.
Proof.
  intros Ha. unfold align_addr_4m.
  change 0xFFC00000 with (2 ^ 32 - 2 ^ 22). change 0x3FFFFF with (2 ^ 22 - 1). change 0x400000 with (2 ^ 22).
  rewrite land_low, land_high by lia. pose proof (Z.mod_pos_bound a (2 ^ 22)). pose proof (Z.div_mod a (2 ^ 22)).
  assert (Hq : a / 2 ^ 22 <= (2 ^ 32 - 2 ^ 22) / 2 ^ 22) by (apply Z.div_le_mono; lia).
  change ((2 ^ 32 - 2 ^ 22) / 2 ^ 22) with 1023 in Hq.
  assert (Hm : forall k, (2 ^ 22 * k) mod 2 ^ 22 = 0) by (intros k; rewrite Z.mul_comm; apply Z.mod_mul; lia).
  destruct (Z.eqb_spec (a mod 2 ^ 22) 0).
  - rewrite u32_small by lia. replace (a - a mod 2 ^ 22 + 0) with (2 ^ 22 * (a / 2 ^ 22)) by lia. rewrite Hm. lia.
  - assert (a / 2 ^ 22 <> 1023) by lia.
    rewrite u32_small by lia. replace (a - a mod 2 ^ 22 + 2 ^ 22) with (2 ^ 22 * (a / 2 ^ 22 + 1)) by lia. rewrite Hm. lia.
Qed.
