(* ===== verification/Heap.v ===== *)
(** * The kernel heap (kernel/include/heap.h, kernel/mem/heap.cpp)

    Blocks tile the heap from [HEAP_BASE] to [heap_end]; each begins with a
    [boundary_header] (20 bytes) and ends with a [boundary_footer] (8 bytes)
    that points back to it, and the unused blocks are on a circular list
    ordered by size.  Headers and footers are kept by address, the list
    pointers of the headers in the link store; [LNil] is [_list_nil], and
    [LNode 0] the null pointer.  Memory the code has not written holds
    arbitrary values: [junk] stands for the list pointers found in a header
    that is written for the first time.  The calls into the kernel page
    directory, whose results the code ignores, are recorded in order. *)

From S2P Require Import Prelude Dll LinkedList MemLayout.
From stdpp Require Import gmap list.
#[local] Open Scope Z_scope.

Definition HEAP_HEADER_MAGIC : Z := 0x50414548.
Definition HEAP_FOOTER_MAGIC : Z := 0x48454150.
Definition HEAP_HEADER_RM_MAGIC : Z := 0x48455252.
Definition HEAP_FOOTER_RM_MAGIC : Z := 0x52524548.

Definition MIN_BLOCK_SIZE : Z := 8.
Definition MIN_SREL_SIZE : Z := 0x100000.
Definition sizeof_header : Z := 20.
Definition sizeof_footer : Z := 8.
(** [sizeof(boundary_header) + sizeof(boundary_footer) + MIN_BLOCK_SIZE] *)
Definition MIN_TOTAL : Z := sizeof_header + sizeof_footer + MIN_BLOCK_SIZE.

Record hdr : Type := Hdr { h_magic : Z; h_size : Z; h_used : bool }.
Record ftr : Type := Ftr { f_magic : Z; f_header : Z }.

(** [alloc_pages(first page, count)]; and, from [srel], freeing one page. *)
Inductive page_call : Type := AllocPages (page n : Z) | ReleasePage (addr : Z).

Record heap : Type := Heap {
  hp_links : gmap nptr (link nptr);
  hp_hdr : gmap Z hdr;
  hp_ftr : gmap Z ftr;
  hp_end : Z;
  hp_online : bool;
  hp_calls : list page_call
}.

(** ** Field accesses *)

Definition get_hdr (a : Z) : M heap hdr := s <-- get;; deref (hp_hdr s !! a).
Definition get_ftr (a : Z) : M heap ftr := s <-- get;; deref (hp_ftr s !! a).
Definition put_hdr (a : Z) (h : hdr) : M heap unit :=
  modify (fun s => Heap (hp_links s) (<[a := h]> (hp_hdr s)) (hp_ftr s) (hp_end s) (hp_online s) (hp_calls s)).
Definition put_ftr (a : Z) (f : ftr) : M heap unit :=
  modify (fun s => Heap (hp_links s) (hp_hdr s) (<[a := f]> (hp_ftr s)) (hp_end s) (hp_online s) (hp_calls s)).
Definition put_links (l : gmap nptr (link nptr)) : M heap unit :=
  modify (fun s => Heap l (hp_hdr s) (hp_ftr s) (hp_end s) (hp_online s) (hp_calls s)).
Definition set_hsize (a sz : Z) : M heap unit :=
  h <-- get_hdr a;; put_hdr a (Hdr (h_magic h) sz (h_used h)).
Definition set_hused (a : Z) (u : bool) : M heap unit :=
  h <-- get_hdr a;; put_hdr a (Hdr (h_magic h) (h_size h) u).
Definition set_hmagic (a m : Z) : M heap unit :=
  h <-- get_hdr a;; put_hdr a (Hdr m (h_size h) (h_used h)).

Definition hdr_next (p : nptr) : M heap nptr :=
  s <-- get;; c <-- deref (hp_links s !! p);; ret (next c).
Definition hdr_prev (p : nptr) : M heap nptr :=
  s <-- get;; c <-- deref (hp_links s !! p);; ret (prev c).

Definition null : nptr := LNode 0.

(** [boundary_header::insert] and [boundary_header::remove] *)
Definition hdr_insert (this x : nptr) : M heap unit :=
  s <-- get;; l <-- deref (dll_insert this x (hp_links s));; put_links l.
Definition hdr_remove (this : nptr) : M heap unit :=
  s <-- get;; l <-- deref (dll_remove this (hp_links s));;
  put_links (<[this := Link null null]> l).

(** A bound on the length of the free list. *)
Definition list_fuel (s : heap) : nat := S (size (hp_links s)).

(** ** The free list *)

(** for (l = l->next; l != start && l->size < x->size; l = l->next) *)
Fixpoint insert_walk (fuel : nat) (l : nptr) (sz : Z) : M heap nptr :=
  match fuel with
  | O => halt Fuel
  | S k =>
    match l with
    | LNil => ret l
    | LNode a =>
      h <-- get_hdr a;;
      if h_size h <? sz then
        if negb (h_magic h =? HEAP_HEADER_MAGIC) || h_used h then halt Panic
        else l' <-- hdr_next l;; insert_walk k l' sz
      else ret l
    end
  end.

Definition insert_list (x : Z) : M heap unit :=
  h <-- get_hdr x;;
  asserth (negb (h_used h));;;
  s <-- get;;
  l <-- hdr_next LNil;;
  l <-- insert_walk (list_fuel s) l (h_size h);;
  p <-- hdr_prev l;;
  hdr_insert p (LNode x).

Definition is_online : M heap bool := s <-- get;; ret (hp_online s).

(** ** Growing and shrinking *)

Definition page_call_log (c : page_call) : M heap unit :=
  modify (fun s => Heap (hp_links s) (hp_hdr s) (hp_ftr s) (hp_end s) (hp_online s) (hp_calls s ++ [c])).
Definition set_end (e : Z) : M heap unit :=
  modify (fun s => Heap (hp_links s) (hp_hdr s) (hp_ftr s) e (hp_online s) (hp_calls s)).

Definition sbrk (inc : Z) : M heap Z :=
  s <-- get;;
  let new_end := align_addr (u32 (hp_end s + inc)) in
  let inc := u32 (new_end - hp_end s) in
  page_call_log (AllocPages (Z.shiftr (hp_end s) 12) (Z.shiftr inc 12));;;
  set_end new_end;;;
  ret inc.

(** for (i = new_end; i < heap_end; i += 0x1000); the addresses grow by a page
    each round, so a count of the pages is enough fuel. *)
Fixpoint srel_loop (fuel : nat) (i e : Z) : M heap unit :=
  if i <? e then
    match fuel with
    | O => halt Fuel
    | S k => page_call_log (ReleasePage i);;; srel_loop k (u32 (i + 0x1000)) e
    end
  else ret tt.

Definition srel (dec : Z) : M heap Z :=
  s <-- get;;
  let new_end := align_addr (u32 (hp_end s - dec)) in
  let dec := u32 (hp_end s - new_end) in
  srel_loop (Z.to_nat (dec / 4096 + 1)) new_end (hp_end s);;;
  set_end new_end;;;
  ret dec.

(** ** Allocation *)

Section alloc.
Variable junk : link nptr.

(** A header written over memory that was not a header. *)
Definition new_hdr (a : Z) (h : hdr) : M heap unit :=
  put_hdr a h;;; s <-- get;; put_links (<[LNode a := junk]> (hp_links s)).

(** The block size for a request: minimum, tags, machine alignment. *)
Definition block_size (size : Z) : Z :=
  let size := if size <? MIN_BLOCK_SIZE then MIN_BLOCK_SIZE else size in
  let size := u32 (size + (sizeof_header + sizeof_footer)) in
  u32 (size + (if size mod 4 =? 0 then 0 else 4 - size mod 4)).

(** The distance from a block's payload to the next page boundary. *)
Definition align_offset (h : Z) : Z :=
  let start := u32 (h + sizeof_header) in u32 (align_addr start - start).

Definition fits (align : bool) (a hsize size : Z) : bool :=
  if align then
    let offset := align_offset a in
    ((offset =? 0) || (MIN_TOTAL <=? offset)) && (u32 (size + offset) <=? hsize)
  else size <=? hsize.

(** The search loop; [None] is [found = false]. *)
Fixpoint find_fit (fuel : nat) (l : nptr) (align : bool) (size : Z) : M heap (option Z) :=
  match fuel with
  | O => halt Fuel
  | S k =>
    match l with
    | LNil => ret None
    | LNode a =>
      h <-- get_hdr a;;
      if negb (h_magic h =? HEAP_HEADER_MAGIC) || h_used h then halt Panic
      else if fits align a (h_size h) size then ret (Some a)
      else l' <-- hdr_next l;; find_fit k l' align size
    end
  end.

(** No suitable block: extend the heap, and the last block if it is unused. *)
Definition extend (align : bool) (size : Z) : M heap Z :=
  s <-- get;;
  let old_end := hp_end s in
  let footer := u32 (old_end - sizeof_footer) in
  f <-- get_ftr footer;;
  asserth (f_magic f =? HEAP_FOOTER_MAGIC);;;
  allocsz <-- sbrk (u32 (size + (if align then 0x1000 else 0)));;
  lh <-- get_hdr (f_header f);;
  h <-- (if h_used lh then
           new_hdr old_end (Hdr HEAP_HEADER_MAGIC allocsz false);;; ret old_end
         else
           set_hsize (f_header f) (u32 (h_size lh + allocsz));;;
           hdr_remove (LNode (f_header f));;;
           ret (f_header f));;
  s' <-- get;;
  put_ftr (u32 (hp_end s' - sizeof_footer)) (Ftr HEAP_FOOTER_MAGIC h);;;
  ret h.

(** Split off the front of the block so that the payload starts on a page. *)
Definition align_block (h : Z) : M heap Z :=
  let start := u32 (h + sizeof_header) in
  let offset := align_offset h in
  if 0 <? offset then
    asserth (MIN_TOTAL <=? offset);;;
    hh <-- get_hdr h;;
    let old_footer := u32 (h + h_size hh - sizeof_footer) in
    oft <-- get_ftr old_footer;;
    asserth (f_magic oft =? HEAP_FOOTER_MAGIC);;;
    let oldsize := h_size hh in
    put_hdr h (Hdr (h_magic hh) offset false);;;
    let footer := u32 (start + offset - sizeof_footer - sizeof_header) in
    put_ftr footer (Ftr HEAP_FOOTER_MAGIC h);;;
    insert_list h;;;
    let h' := u32 (footer + sizeof_footer) in
    new_hdr h' (Hdr HEAP_HEADER_MAGIC (u32 (oldsize - offset)) false);;;
    oft' <-- get_ftr old_footer;;
    put_ftr old_footer (Ftr (f_magic oft') h');;;
    ret h'
  else ret h.

(** Split off the rest of a block that is large enough for another one. *)
Definition split_block (h size : Z) : M heap unit :=
  hh <-- get_hdr h;;
  if u32 (size + MIN_TOTAL) <=? h_size hh then
    let old_footer := u32 (h + h_size hh - sizeof_footer) in
    let oldsize := h_size hh in
    set_hsize h size;;;
    put_ftr (u32 (h + size - sizeof_footer)) (Ftr HEAP_FOOTER_MAGIC h);;;
    let p := u32 (h + size) in
    new_hdr p (Hdr HEAP_HEADER_MAGIC (u32 (oldsize - size)) false);;;
    oft <-- get_ftr old_footer;;
    put_ftr old_footer (Ftr (f_magic oft) p);;;
    insert_list p
  else ret tt.

Definition alloc (size : Z) (align : bool) : M heap Z :=
  let size := block_size size in
  s <-- get;;
  l <-- hdr_next LNil;;
  found <-- find_fit (list_fuel s) l align size;;
  h <-- match found with
        | None => extend align size
        | Some a => hdr_remove (LNode a);;; ret a
        end;;
  h <-- (if align then align_block h else ret h);;
  split_block h size;;;
  set_hused h true;;;
  ret (u32 (h + sizeof_header)).

(** ** Release *)

(** Merge with the block to the right, if it is an unused one; the footer of
    the block is returned. *)
Definition merge_right (header footer : Z) : M heap Z :=
  s <-- get;;
  hh <-- get_hdr header;;
  let right := u32 (header + h_size hh) in
  if right <? hp_end s then
    rh <-- get_hdr right;;
    if h_magic rh =? HEAP_HEADER_MAGIC then
      rp <-- hdr_prev (LNode right);;
      if negb (bool_decide (rp = null)) then
        let right_footer := u32 (right + h_size rh - sizeof_footer) in
        rf <-- get_ftr right_footer;;
        if (f_magic rf =? HEAP_FOOTER_MAGIC) && (f_header rf =? right) && negb (h_used rh) then
          set_hsize header (u32 (h_size hh + h_size rh));;;
          hdr_remove (LNode right);;;
          set_hmagic right HEAP_HEADER_RM_MAGIC;;;
          ret right_footer
        else ret footer
      else ret footer
    else ret footer
  else ret footer.

(** Merge with the block to the left; the header of the block is returned. *)
Definition merge_left (header : Z) : M heap Z :=
  if u32 (HEAP_BASE + MIN_TOTAL) <=? header then
    let left_footer := u32 (header - sizeof_footer) in
    lf <-- get_ftr left_footer;;
    if f_magic lf =? HEAP_FOOTER_MAGIC then
      let left := f_header lf in
      lh <-- get_hdr left;;
      if (h_magic lh =? HEAP_HEADER_MAGIC) && negb (h_used lh) then
        lp <-- hdr_prev (LNode left);;
        if negb (bool_decide (lp = null)) && (u32 (left + h_size lh) =? header) then
          hdr_remove (LNode left);;;
          hh <-- get_hdr header;;
          set_hsize left (u32 (h_size lh + h_size hh));;;
          put_ftr left_footer (Ftr HEAP_FOOTER_RM_MAGIC (f_header lf));;;
          ret left
        else ret header
      else ret header
    else ret header
  else ret header.

(** Give the end of the heap back when the last block is large; [None] when
    the whole block went, otherwise the block's footer. *)
Definition release (header footer : Z) : M heap (option Z) :=
  s <-- get;;
  hh <-- get_hdr header;;
  if (hp_end s =? u32 (footer + sizeof_footer)) && (MIN_SREL_SIZE <=? h_size hh) &&
     (HEAP_BASE + HEAP_INIT_SIZE <? header)
  then
    if negb (Z.land header 0xFFF =? 0) then
      let offset := align_offset header in
      let start := u32 (u32 (header + sizeof_header) + offset) in
      let start := if offset <? MIN_BLOCK_SIZE + sizeof_footer then u32 (start + 0x1000) else start in
      let relsize := u32 (hp_end s - start) in
      if MIN_SREL_SIZE <=? relsize then
        srel relsize;;;
        s' <-- get;;
        set_hsize header (u32 (hp_end s' - header));;;
        let footer := u32 (hp_end s' - sizeof_footer) in
        put_ftr footer (Ftr HEAP_FOOTER_MAGIC header);;;
        ret (Some footer)
      else ret (Some footer)
    else srel (h_size hh);;; ret None
  else ret (Some footer).

Definition free (p : Z) : M heap unit :=
  s <-- get;;
  if (p <? HEAP_BASE) || (hp_end s <=? p) then halt Panic
  else
    let header := u32 (p - sizeof_header) in
    hh <-- get_hdr header;;
    let footer := u32 (header + h_size hh - sizeof_footer) in
    ff <-- get_ftr footer;;
    if negb (h_magic hh =? HEAP_HEADER_MAGIC) || negb (f_magic ff =? HEAP_FOOTER_MAGIC) ||
       negb (f_header ff =? header) || negb (h_used hh)
    then halt Panic
    else
      footer <-- merge_right header footer;;
      header <-- merge_left header;;
      r <-- release header footer;;
      match r with
      | None => ret tt
      | Some footer =>
        f <-- get_ftr footer;;
        put_ftr footer (Ftr (f_magic f) header);;;
        set_hused header false;;;
        insert_list header
      end.

(** ** Initialisation *)

Definition heap_boot : heap := Heap ∅ ∅ ∅ (HEAP_BASE + HEAP_INIT_SIZE) false [].

Definition heap_init : M heap unit :=
  page_call_log (AllocPages (Z.shiftr HEAP_BASE 12) (Z.shiftr HEAP_INIT_SIZE 12));;;
  put_links {[ LNil := Link LNil LNil ]};;;
  new_hdr HEAP_BASE (Hdr HEAP_HEADER_MAGIC HEAP_INIT_SIZE false);;;
  put_ftr (HEAP_BASE + HEAP_INIT_SIZE - sizeof_footer) (Ftr HEAP_FOOTER_MAGIC HEAP_BASE);;;
  insert_list HEAP_BASE;;;
  modify (fun s => Heap (hp_links s) (hp_hdr s) (hp_ftr s) (hp_end s) true (hp_calls s)).

End alloc.
