(* ===== verification/HeapSpec.v ===== *)
(** * Correctness of the kernel heap

    The heap is a sequence of blocks that tile its address range; a block is
    used, on the free list, or in the hands of the operation that runs.  The
    invariant ties the sequence to the boundary tags and to the sorted free
    list, and the theorems state what allocation and release do to it. *)

From S2P Require Import Prelude Dll LinkedList MemLayout Heap.
From stdpp Require Import gmap list sorting.
#[local] Open Scope Z_scope.

(** [BRaw]: a range whose tags have not been written yet. *)
Inductive bst : Type := BUsed | BFree | BHand | BRaw.
#[export] Instance bst_eq_dec : EqDecision bst.
Proof. solve_decision. Defined.

Record blk : Type := Blk { b_addr : Z; b_size : Z; b_st : bst }.

Definition b_flag (b : blk) : bool := match b_st b with BUsed => true | _ => false end.
Definition b_foot (b : blk) : Z := b_addr b + b_size b - sizeof_footer.
Definition b_ptr (b : blk) : nptr := LNode (b_addr b).

(** The blocks follow each other from [a] to [e]. *)
Fixpoint tiles (a : Z) (bs : list blk) (e : Z) : Prop :=
  match bs with
  | [] => a = e
  | b :: r => b_addr b = a /\ MIN_TOTAL <= b_size b /\ b_size b mod 4 = 0 /\ tiles (a + b_size b) r e
  end.

(** The tags of a block. *)
Definition blk_mem (H : gmap Z hdr) (F : gmap Z ftr) (b : blk) : Prop :=
  b_st b <> BRaw ->
  H !! b_addr b = Some (Hdr HEAP_HEADER_MAGIC (b_size b) (b_flag b)) /\
  F !! b_foot b = Some (Ftr HEAP_FOOTER_MAGIC (b_addr b)).

Definition size_le (b c : blk) : Prop := b_size b <= b_size c.

Definition free_of (bs : list blk) : list blk := filter (fun b => b_st b = BFree) bs.
Definition used_of (bs : list blk) : list blk := filter (fun b => b_st b = BUsed) bs.

Definition end_ok (e : Z) : Prop :=
  HEAP_BASE + HEAP_INIT_SIZE <= e <= 2 ^ 32 - 4096 /\ e mod 4096 = 0.

Definition heap_st (s : heap) (bs fl : list blk) : Prop :=
  tiles HEAP_BASE bs (hp_end s) /\ end_ok (hp_end s) /\
  Forall (blk_mem (hp_hdr s) (hp_ftr s)) bs /\
  Forall (fun b => b_st b <> BRaw -> is_Some (hp_links s !! b_ptr b)) bs /\
  ring (hp_links s) LNil (b_ptr <$> fl) /\ fl ≡ₚ free_of bs /\ StronglySorted size_le fl.

(** ** Tiling *)

Lemma tiles_app a l1 l2 e : tiles a (l1 ++ l2) e <-> exists m, tiles a l1 m /\ tiles m l2 e.
Proof.
  revert a. induction l1 as [|b l1 IH]; intros a; simpl.
  - split; [by eexists|]. by intros (m & -> & ?).
  - rewrite IH. naive_solver.
Qed.

Lemma tiles_le a bs e : tiles a bs e -> a <= e.
Proof.
  revert a. induction bs as [|b bs IH]; intros a; simpl; [lia|].
  intros (_ & Hs & _ & Ht%IH). change MIN_TOTAL with 36 in Hs. lia.
Qed.

Lemma tiles_in a bs e b :
  tiles a bs e -> b ∈ bs -> a <= b_addr b /\ b_addr b + b_size b <= e /\ 36 <= b_size b /\ b_size b mod 4 = 0.
Proof.
  revert a. induction bs as [|c bs IH]; intros a; simpl; [by intros _ ?%elem_of_nil|].
  intros (Ha & Hs & Hm & Ht) [->|Hb]%elem_of_cons; change MIN_TOTAL with 36 in Hs.
  - apply tiles_le in Ht. lia.
  - destruct (IH _ Ht Hb) as (? & ? & ? & ?). lia.
Qed.

Lemma tiles_mod4 a bs e b : tiles a bs e -> a mod 4 = 0 -> b ∈ bs -> b_addr b mod 4 = 0.
Proof.
  revert a. induction bs as [|c bs IH]; intros a; simpl; [by intros _ _ ?%elem_of_nil|].
  intros (Ha & Hs & Hm & Ht) Ha4 [->|Hb]%elem_of_cons; [by rewrite Ha|].
  eapply IH; [done| |done]. rewrite Z.add_mod, Ha4, Hm by lia. done.
Qed.

(** The tags of the blocks outside a range survive changes inside it. *)
Lemma blk_mem_frame H F H' F' a bs e :
  tiles a bs e ->
  (forall x, a <= x < e -> H' !! x = H !! x) ->
  (forall x, a <= x < e -> F' !! x = F !! x) ->
  Forall (blk_mem H F) bs -> Forall (blk_mem H' F') bs.
Proof.
  intros Ht HH HF. rewrite !Forall_forall. intros Hb b Hin.
  intros Hraw. destruct (Hb b Hin Hraw) as [E1 E2]. destruct (tiles_in _ _ _ _ Ht Hin) as (? & ? & ? & ?).
  split; [rewrite HH; [done|lia]|].
  rewrite HF; [done|]. unfold b_foot, sizeof_footer. lia.
Qed.

Lemma free_of_app l1 l2 : free_of (l1 ++ l2) = free_of l1 ++ free_of l2.
Proof. apply filter_app. Qed.
Lemma used_of_app l1 l2 : used_of (l1 ++ l2) = used_of l1 ++ used_of l2.
Proof. apply filter_app. Qed.

Lemma free_of_none l : Forall (fun b => b_st b <> BFree) l -> free_of l = [].
Proof.
  intros H. induction H as [|b l Hb Hl IH]; [done|]. unfold free_of in *.
  by rewrite filter_cons_False.
Qed.

(** ** Replacing a run of blocks that are not on the free list *)

Lemma heap_st_replace s s' l1 mid nb l2 fl m1 m2 m3 :
  heap_st s (l1 ++ mid ++ l2) fl ->
  tiles HEAP_BASE l1 m1 -> tiles m1 mid m2 -> tiles m1 nb m3 -> tiles m3 l2 (hp_end s') ->
  end_ok (hp_end s') ->
  Forall (fun b => b_st b <> BFree) mid -> Forall (fun b => b_st b <> BFree) nb ->
  (forall x, x < m1 \/ m2 <= x /\ l2 <> [] -> hp_hdr s' !! x = hp_hdr s !! x) ->
  (forall x, x < m1 \/ m2 <= x /\ l2 <> [] -> hp_ftr s' !! x = hp_ftr s !! x) ->
  (forall p, match p with LNil => True | LNode x => x < m1 \/ m2 <= x /\ l2 <> [] end ->
             hp_links s' !! p = hp_links s !! p) ->
  l2 = [] \/ m3 = m2 ->
  Forall (blk_mem (hp_hdr s') (hp_ftr s')) nb ->
  Forall (fun b => b_st b <> BRaw -> is_Some (hp_links s' !! b_ptr b)) nb ->
  heap_st s' (l1 ++ nb ++ l2) fl.
Proof.
  intros (Ht & _ & Hmem & Hlk & Hring & Hperm & Hsort) Ht1 Htm Htn Ht2 He Hmid Hnb HH HF HL Hl2 Hmn Hln.
  rewrite !Forall_app in Hmem, Hlk. destruct Hmem as (M1 & _ & M2), Hlk as (L1 & _ & L2).
  assert (Ht2' : exists e, tiles m2 l2 e).
  { apply tiles_app in Ht as (x & Hx1 & Hx). apply tiles_app in Hx as (y & Hy1 & Hy).
    destruct Hl2 as [->|<-]; [by exists m2|]. by eexists. }
  destruct Ht2' as [e2 Ht2'].
  assert (Hlinks1 : forall b, b ∈ l1 ++ l2 -> hp_links s' !! b_ptr b = hp_links s !! b_ptr b).
  { intros b [Hb|Hb]%elem_of_app; apply HL; simpl.
    - destruct (tiles_in _ _ _ _ Ht1 Hb). lia.
    - destruct (tiles_in _ _ _ _ Ht2' Hb). right. split; [lia|]. by intros ->; apply elem_of_nil in Hb. }
  split_and!.
  - apply tiles_app. exists m1. split; [done|]. apply tiles_app. by exists m3.
  - exact He.
  - rewrite !Forall_app. split_and!; [| done |].
    + eapply blk_mem_frame; [exact Ht1| | |done]; intros x Hx; [apply HH|apply HF]; lia.
    + destruct l2 as [|c l2]; [constructor|].
      eapply blk_mem_frame; [exact Ht2'| | |done]; intros x Hx; [apply HH|apply HF]; right; (split; [lia|done]).
  - rewrite !Forall_app. split_and!; [|done|]; rewrite Forall_forall in *; intros b Hb;
      rewrite Hlinks1 by set_solver; auto.
  - eapply ring_ext; [|exact Hring]. intros p [->|Hp]%elem_of_cons; [by apply HL|].
    apply list_elem_of_fmap in Hp as (b & -> & Hb). apply Hlinks1.
    rewrite Hperm in Hb. unfold free_of in Hb. rewrite !filter_app in Hb.
    change (filter _ mid) with (free_of mid) in Hb. rewrite (free_of_none mid Hmid) in Hb.
    rewrite !elem_of_app, !list_elem_of_filter in Hb. rewrite elem_of_app.
    destruct Hb as [[_ ?]|[?%elem_of_nil|[_ ?]]]; tauto.
  - rewrite Hperm, !free_of_app, (free_of_none mid Hmid), (free_of_none nb Hnb). done.
  - done.
Qed.

(** ** Lookups in a well-formed heap *)

Lemma tiles_inj a bs e b c :
  tiles a bs e -> b ∈ bs -> c ∈ bs -> b_addr b = b_addr c -> b = c.
Proof.
  revert a. induction bs as [|d bs IH]; intros a; simpl; [by intros _ ?%elem_of_nil|].
  intros (Ha & Hs & Hm & Ht) [->|Hb]%elem_of_cons [->|Hc]%elem_of_cons E;
    [done| | |by eapply IH]; change MIN_TOTAL with 36 in Hs.
  - destruct (tiles_in _ _ _ _ Ht Hc). lia.
  - destruct (tiles_in _ _ _ _ Ht Hb). lia.
Qed.

Definition with_links (l : gmap nptr (link nptr)) (s : heap) : heap :=
  Heap l (hp_hdr s) (hp_ftr s) (hp_end s) (hp_online s) (hp_calls s).

Lemma get_hdr_ok s bs fl b :
  heap_st s bs fl -> b ∈ bs -> b_st b <> BRaw ->
  get_hdr (b_addr b) s = Ok (Hdr HEAP_HEADER_MAGIC (b_size b) (b_flag b), s).
Proof.
  intros (_ & _ & Hmem & _) Hb Hraw. rewrite Forall_forall in Hmem.
  destruct (Hmem b Hb Hraw) as [E _]. unfold get_hdr. mgo. by apply deref_some.
Qed.

Lemma get_ftr_ok s bs fl b :
  heap_st s bs fl -> b ∈ bs -> b_st b <> BRaw ->
  get_ftr (b_foot b) s = Ok (Ftr HEAP_FOOTER_MAGIC (b_addr b), s).
Proof.
  intros (_ & _ & Hmem & _) Hb Hraw. rewrite Forall_forall in Hmem.
  destruct (Hmem b Hb Hraw) as [_ E]. unfold get_ftr. mgo. by apply deref_some.
Qed.

Lemma nextof_run s p q : nextof (hp_links s) p = Some q -> hdr_next p s = Ok (q, s).
Proof.
  unfold nextof, hdr_next. intros H. mgo.
  destruct (hp_links s !! p) as [c|]; simplify_eq/=. by mgo.
Qed.

Lemma prevof_run s p q : prevof (hp_links s) p = Some q -> hdr_prev p s = Ok (q, s).
Proof.
  unfold prevof, hdr_prev. intros H. mgo.
  destruct (hp_links s !! p) as [c|]; simplify_eq/=. by mgo.
Qed.

Definition ptr_of (fl : list blk) : nptr := match fl with [] => LNil | b :: _ => b_ptr b end.

Lemma ptr_of_head fl : head ((b_ptr <$> fl) ++ [LNil]) = Some (ptr_of fl).
Proof. by destruct fl. Qed.

Lemma free_in s bs fl b : heap_st s bs fl -> b ∈ fl -> b ∈ bs /\ b_st b = BFree.
Proof.
  intros (_ & _ & _ & _ & _ & Hperm & _) Hb. rewrite Hperm in Hb.
  apply list_elem_of_filter in Hb. naive_solver.
Qed.

Lemma fl_next s bs f1 b f2 :
  heap_st s bs (f1 ++ b :: f2) -> hdr_next (b_ptr b) s = Ok (ptr_of f2, s).
Proof.
  intros (_ & _ & _ & _ & Hring & _). rewrite fmap_app, fmap_cons in Hring.
  apply nextof_run. by rewrite (ring_next _ _ _ _ _ Hring), ptr_of_head.
Qed.

Lemma fl_first s bs fl : heap_st s bs fl -> hdr_next LNil s = Ok (ptr_of fl, s).
Proof.
  intros (_ & _ & _ & _ & Hring & _). apply nextof_run.
  by rewrite (ring_head _ _ _ Hring), ptr_of_head.
Qed.

Lemma fl_fuel s bs fl : heap_st s bs fl -> (length fl < list_fuel s)%nat.
Proof.
  intros (_ & _ & _ & _ & Hring & _). apply ring_length in Hring. rewrite length_fmap in Hring.
  unfold list_fuel. lia.
Qed.

(** The walk stops at the first block that is not smaller. *)
Lemma insert_walk_spec s bs sz fuel f1 f2 :
  heap_st s bs (f1 ++ f2) -> (length f2 < fuel)%nat ->
  exists g1 g2, f2 = g1 ++ g2 /\ insert_walk fuel (ptr_of f2) sz s = Ok (ptr_of g2, s) /\
    Forall (fun b => b_size b < sz) g1 /\ match g2 with [] => True | b :: _ => sz <= b_size b end.
Proof.
  revert fuel f1. induction f2 as [|b f2 IH]; intros fuel f1 Hst Hf; (destruct fuel as [|fuel]; [simpl in Hf; lia|]).
  { by exists [], []. }
  destruct (free_in _ _ _ b Hst) as [Hin Hfree]; [set_solver|].
  cbn [ptr_of insert_walk b_ptr]. mrun (get_hdr_ok _ _ _ _ Hst Hin ltac:(by rewrite Hfree)). cbn [h_size h_magic h_used].
  destruct (Z.ltb_spec (b_size b) sz) as [Hlt|Hge].
  - rewrite Z.eqb_refl. unfold b_flag. rewrite Hfree. cbn [negb orb].
    change (LNode (b_addr b)) with (b_ptr b). mrun (fl_next _ _ _ _ _ Hst).
    destruct (IH fuel (f1 ++ [b])) as (g1 & g2 & -> & E & Hg1 & Hg2).
    + by rewrite <- app_assoc.
    + simpl in Hf. lia.
    + exists (b :: g1), g2. split_and!; [done|done|by constructor|done].
  - exists [], (b :: f2). by split_and!.
Qed.

Definition set_st (st : bst) (b : blk) : blk := Blk (b_addr b) (b_size b) st.

Lemma sorted_insert g1 g2 b :
  StronglySorted size_le (g1 ++ g2) -> Forall (fun c => b_size c < b_size b) g1 ->
  match g2 with [] => True | c :: _ => b_size b <= b_size c end ->
  StronglySorted size_le (g1 ++ b :: g2).
Proof.
  intros Hs H1 H2. induction g1 as [|c g1 IH]; simpl in *.
  - constructor; [done|]. destruct g2 as [|c g2]; [constructor|].
    apply StronglySorted_inv in Hs as [_ Hall]. constructor; [done|].
    eapply Forall_impl; [exact Hall|]. unfold size_le. intros d ?. simpl. lia.
  - apply StronglySorted_inv in Hs as [Hs Hall]. apply Forall_cons in H1 as [Hc H1].
    constructor; [by apply IH|]. rewrite Forall_app in Hall. destruct Hall as [Ha1 Ha2].
    rewrite Forall_app. split; [done|]. constructor; [unfold size_le; lia|done].
Qed.

Lemma blk_mem_set_st H F b st :
  (b_flag (set_st st b) = b_flag b) -> b_st b <> BRaw -> blk_mem H F b -> blk_mem H F (set_st st b).
Proof. intros E Hr Hm _. destruct (Hm Hr) as [H1 H2]. split; [|done]. by rewrite E. Qed.

Lemma tiles_set_st a l1 b l2 e st : tiles a (l1 ++ b :: l2) e -> tiles a (l1 ++ set_st st b :: l2) e.
Proof. rewrite !tiles_app. done. Qed.

Lemma free_of_hand l1 b l2 : b_st b <> BFree -> free_of (l1 ++ b :: l2) = free_of l1 ++ free_of l2.
Proof. intros Hb. rewrite free_of_app. unfold free_of at 2. by rewrite filter_cons_False. Qed.

Lemma free_of_free l1 b l2 : b_st b = BFree -> free_of (l1 ++ b :: l2) ≡ₚ b :: free_of l1 ++ free_of l2.
Proof.
  intros Hb. rewrite free_of_app. unfold free_of at 2. rewrite filter_cons_True by done.
  by rewrite <- Permutation_middle.
Qed.

Lemma hand_not_listed s l1 b l2 fl :
  heap_st s (l1 ++ b :: l2) fl -> b_st b <> BFree -> b_ptr b ∉ LNil :: (b_ptr <$> fl).
Proof.
  intros Hst Hb [Hn|Hin]%elem_of_cons; [done|].
  apply list_elem_of_fmap in Hin as (c & Hc & Hin). destruct (free_in _ _ _ _ Hst Hin) as [Hcin Hcf].
  destruct Hst as (Ht & _). assert (b = c) as ->; [|done].
  eapply tiles_inj; [done|set_solver|done|by injection Hc].
Qed.

(** [insert_list] puts the block in hand on the free list, in order. *)
Lemma insert_list_spec s l1 b l2 fl :
  heap_st s (l1 ++ b :: l2) fl -> b_st b = BHand ->
  exists lk fl', insert_list (b_addr b) s = Ok (tt, with_links lk s) /\
    heap_st (with_links lk s) (l1 ++ set_st BFree b :: l2) fl'.
Proof.
  intros Hst Hb. assert (Hin : b ∈ l1 ++ b :: l2) by set_solver.
  unfold insert_list. mrun (get_hdr_ok _ _ _ _ Hst Hin ltac:(by rewrite Hb)). cbn [h_used h_size]. unfold b_flag at 1.
  rewrite Hb. cbn [negb]. rewrite (bind_ok (asserth true) _ _ _ _ eq_refl). mgo.
  mrun (fl_first _ _ _ Hst).
  destruct (insert_walk_spec s (l1 ++ b :: l2) (b_size b) (list_fuel s) [] fl Hst (fl_fuel _ _ _ Hst))
    as (g1 & g2 & -> & E & Hg1 & Hg2).
  mrun E. pose proof (hand_not_listed _ _ _ _ _ Hst ltac:(by rewrite Hb)) as Hnl.
  destruct Hst as (Ht & He & Hmem & Hlk & Hring & Hperm & Hsort).
  rewrite fmap_app in Hring, Hnl.
  assert (exists p, last (LNil :: (b_ptr <$> g1)) = Some p) as [p Hp].
  { destruct (last (LNil :: (b_ptr <$> g1))) eqn:E0; [by eexists|]. by apply last_None in E0. }
  pose proof (ring_prev _ _ _ _ _ Hring (ptr_of_head g2)) as Hprev. rewrite Hp in Hprev.
  mrun (prevof_run _ _ _ Hprev).
  assert (Hb' : is_Some (hp_links s !! b_ptr b)).
  { rewrite Forall_forall in Hlk. apply Hlk; [done|by rewrite Hb]. }
  destruct (ring_insert_at _ _ _ _ _ _ Hring Hnl Hb' Hp) as (lk & Ei & Hring' & Hfr).
  unfold hdr_insert. mgo. mrun (deref_some _ _ s Ei). exists lk, (g1 ++ set_st BFree b :: g2).
  split; [done|]. split_and!.
  - by apply tiles_set_st.
  - done.
  - rewrite Forall_app, Forall_cons in *. destruct Hmem as (M1 & Mb & M2). split_and!; [done| |done].
    apply blk_mem_set_st; [unfold b_flag; by rewrite Hb|by rewrite Hb|done].
  - simpl. assert (Hdom : forall c, is_Some (hp_links s !! b_ptr c) -> is_Some (lk !! b_ptr c)).
    { intros c Hc. destruct (decide (b_ptr c ∈ b_ptr b :: LNil :: (b_ptr <$> g1) ++ (b_ptr <$> g2))) as [Hin'|Hnin].
      - eapply ring_dom; [exact Hring'|]. rewrite !elem_of_cons, !elem_of_app, elem_of_cons in *. tauto.
      - by rewrite Hfr. }
    rewrite Forall_app, Forall_cons in *. destruct Hlk as (L1 & Lb & L2).
    split_and!; [eapply Forall_impl; [exact L1|]|intros _; apply (Hdom b), Lb; by rewrite Hb|eapply Forall_impl; [exact L2|]]; auto.
  - simpl. by rewrite fmap_app.
  - rewrite free_of_free by done. rewrite free_of_hand in Hperm by (by rewrite Hb).
    rewrite <- Hperm. by rewrite Permutation_middle.
  - by apply sorted_insert.
Qed.

(** [remove] takes a block off the free list. *)
Lemma hdr_remove_spec s l1 b l2 fl :
  heap_st s (l1 ++ b :: l2) fl -> b_st b = BFree ->
  exists lk fl', hdr_remove (b_ptr b) s = Ok (tt, with_links lk s) /\
    heap_st (with_links lk s) (l1 ++ set_st BHand b :: l2) fl' /\
    forall p, is_Some (hp_links s !! p) -> is_Some (lk !! p).
Proof.
  intros (Ht & He & Hmem & Hlk & Hring & Hperm & Hsort) Hb.
  assert (Hbf : b ∈ fl).
  { rewrite Hperm, free_of_free by done. set_solver. }
  apply list_elem_of_split in Hbf as (g1 & g2 & ->).
  rewrite fmap_app, fmap_cons in Hring.
  destruct (dll_remove_mid _ _ _ _ _ Hring) as (m' & E & Hring' & _ & Hfr).
  unfold hdr_remove. mgo. mrun (deref_some _ _ s E).
  eexists _, (g1 ++ g2). split; [done|].
  assert (Hdom : forall p, is_Some (hp_links s !! p) -> is_Some (<[b_ptr b := Link null null]> m' !! p)).
  { intros p Hp. destruct (decide (p = b_ptr b)) as [->|Hne]; [rewrite lookup_insert_eq; eauto|].
    rewrite lookup_insert_ne by done.
    destruct (decide (p ∈ LNil :: (b_ptr <$> g1) ++ (b_ptr <$> g2))) as [Hin'|Hnin].
    - by eapply ring_dom.
    - by rewrite Hfr. }
  split; [|exact Hdom].
  assert (Hnd : b_ptr b ∉ LNil :: (b_ptr <$> g1) ++ (b_ptr <$> g2)).
  { destruct Hring as [_ Hnd]. rewrite app_comm_cons in Hnd. by apply NoDup_mid in Hnd as [? _]. }
  split_and!.
  - by apply tiles_set_st.
  - done.
  - rewrite Forall_app, Forall_cons in *. destruct Hmem as (M1 & Mb & M2). split_and!; [done| |done].
    apply blk_mem_set_st; [unfold b_flag; by rewrite Hb|by rewrite Hb|done].
  - simpl.
    rewrite Forall_app, Forall_cons in *. destruct Hlk as (L1 & Lb & L2).
    split_and!; [eapply Forall_impl; [exact L1|]|intros _; apply Hdom, Lb; by rewrite Hb|eapply Forall_impl; [exact L2|]]; simpl; auto.
  - simpl. eapply ring_ext; [|rewrite fmap_app; exact Hring'].
    intros k Hk. rewrite lookup_insert_ne; [done|]. intros <-. rewrite fmap_app in Hk. done.
  - rewrite free_of_hand by done. rewrite free_of_free in Hperm by done.
    rewrite <- Permutation_middle in Hperm. by apply Permutation_cons_inv in Hperm.
  - clear -Hsort. induction g1 as [|c g1 IH]; simpl in *.
    + by apply StronglySorted_inv in Hsort as [? _].
    + apply StronglySorted_inv in Hsort as [Hs Hall]. constructor; [by apply IH|].
      rewrite Forall_app, Forall_cons in *. naive_solver.
Qed.

(** ** Page calls

    The heap asks for pages when it grows and gives them back when it shrinks;
    nothing else it does moves its end or calls the page directory. *)

Definition quiet {A} (c : M heap A) : Prop :=
  forall s a s', c s = Ok (a, s') ->
    hp_end s' = hp_end s /\ hp_calls s' = hp_calls s /\ hp_online s' = hp_online s.

Lemma quiet_bind {A B} (c : M heap A) (k : A -> M heap B) :
  quiet c -> (forall a, quiet (k a)) -> quiet (bind c k).
Proof.
  intros Hc Hk s b s' (a & s1 & E1 & E2)%bind_inv. destruct (Hc _ _ _ E1) as (? & ? & ?), (Hk _ _ _ _ E2) as (? & ? & ?).
  split_and!; congruence.
Qed.
Lemma quiet_ret {A} (a : A) : quiet (ret a).
Proof. intros s b s' E. by injection E as _ <-. Qed.
Lemma quiet_get : quiet get.
Proof. intros s b s' E. by injection E as _ <-. Qed.
Lemma quiet_halt {A} e : quiet (halt e : M heap A).
Proof. by intros s b s'. Qed.
Lemma quiet_deref {A} (o : option A) : quiet (deref o).
Proof. destruct o; [apply quiet_ret|apply quiet_halt]. Qed.
Lemma quiet_asserth b : quiet (asserth b).
Proof. destruct b; [apply quiet_ret|apply quiet_halt]. Qed.
Lemma quiet_put_hdr a h : quiet (put_hdr a h).
Proof. intros s b s' E. by injection E as _ <-. Qed.
Lemma quiet_put_ftr a f : quiet (put_ftr a f).
Proof. intros s b s' E. by injection E as _ <-. Qed.
Lemma quiet_put_links l : quiet (put_links l).
Proof. intros s b s' E. by injection E as _ <-. Qed.

Create HintDb quiet.
#[export] Hint Resolve quiet_ret quiet_get quiet_halt quiet_deref quiet_asserth
  quiet_put_hdr quiet_put_ftr quiet_put_links : quiet.

(** Splits binds and case distinctions, and closes the commands it knows. *)
Ltac quiet :=
  repeat first
    [ solve [eauto with quiet]
    | apply quiet_bind; [|intros ?]
    | progress cbv zeta
    | match goal with |- quiet (match ?x with _ => _ end) => destruct x end ].

Lemma quiet_get_hdr a : quiet (get_hdr a).
Proof. unfold get_hdr. quiet. Qed.
Lemma quiet_get_ftr a : quiet (get_ftr a).
Proof. unfold get_ftr. quiet. Qed.
#[export] Hint Resolve quiet_get_hdr quiet_get_ftr : quiet.
Lemma quiet_set_hsize a z : quiet (set_hsize a z).
Proof. unfold set_hsize. quiet. Qed.
Lemma quiet_set_hused a u : quiet (set_hused a u).
Proof. unfold set_hused. quiet. Qed.
Lemma quiet_set_hmagic a m : quiet (set_hmagic a m).
Proof. unfold set_hmagic. quiet. Qed.
Lemma quiet_hdr_next p : quiet (hdr_next p).
Proof. unfold hdr_next. quiet. Qed.
Lemma quiet_hdr_prev p : quiet (hdr_prev p).
Proof. unfold hdr_prev. quiet. Qed.
Lemma quiet_hdr_insert p x : quiet (hdr_insert p x).
Proof. unfold hdr_insert. quiet. Qed.
Lemma quiet_hdr_remove p : quiet (hdr_remove p).
Proof. unfold hdr_remove. quiet. Qed.
#[export] Hint Resolve quiet_set_hsize quiet_set_hused quiet_set_hmagic quiet_hdr_next quiet_hdr_prev
  quiet_hdr_insert quiet_hdr_remove : quiet.
Lemma quiet_new_hdr junk a h : quiet (new_hdr junk a h).
Proof. unfold new_hdr. quiet. Qed.
Lemma quiet_insert_walk f l z : quiet (insert_walk f l z).
Proof. revert l. induction f as [|f IH]; intros l; cbn [insert_walk]; quiet. Qed.
#[export] Hint Resolve quiet_new_hdr quiet_insert_walk : quiet.
Lemma quiet_insert_list x : quiet (insert_list x).
Proof. unfold insert_list. quiet. Qed.
Lemma quiet_find_fit f l al z : quiet (find_fit f l al z).
Proof. revert l. induction f as [|f IH]; intros l; cbn [find_fit]; quiet. Qed.
#[export] Hint Resolve quiet_insert_list quiet_find_fit : quiet.
Lemma quiet_align_block junk h : quiet (align_block junk h).
Proof. unfold align_block. quiet. Qed.
Lemma quiet_split_block junk h z : quiet (split_block junk h z).
Proof. unfold split_block. quiet. Qed.
Lemma quiet_merge_right h f : quiet (merge_right h f).
Proof. unfold merge_right. quiet. Qed.
Lemma quiet_merge_left h : quiet (merge_left h).
Proof. unfold merge_left. quiet. Qed.
#[export] Hint Resolve quiet_align_block quiet_split_block quiet_merge_right quiet_merge_left : quiet.

(** The end moved up by [k] pages, which were asked for in one call. *)
Definition grown (s s' : heap) : Prop :=
  hp_online s' = hp_online s /\
  exists k, 0 <= k /\ hp_end s' = hp_end s + 4096 * k /\
    hp_calls s' = hp_calls s ++ if k =? 0 then [] else [AllocPages (hp_end s / 4096) k].

(** The end moved down by [k] pages, which were given back one by one. *)
Definition shrunk (s s' : heap) : Prop :=
  hp_online s' = hp_online s /\
  exists k : nat, hp_end s = hp_end s' + 4096 * Z.of_nat k /\
    hp_calls s' = hp_calls s ++ ((fun j => ReleasePage (hp_end s' + 4096 * Z.of_nat j)) <$> seq 0 k).

Lemma grown_quiet {A} (c : M heap A) s a s1 s' : quiet c -> c s1 = Ok (a, s') -> grown s s1 -> grown s s'.
Proof. intros Hq E (? & k & ? & ? & ?). destruct (Hq _ _ _ E) as (E1 & E2 & E3). split; [congruence|]. exists k. rewrite E1, E2. done. Qed.

Lemma grown_quiet_l {A} (c : M heap A) s a s1 s' : quiet c -> c s = Ok (a, s1) -> grown s1 s' -> grown s s'.
Proof. intros Hq E (? & k & ? & ? & ?). destruct (Hq _ _ _ E) as (E1 & E2 & E3). split; [congruence|]. exists k. rewrite <- E1, <- E2. done. Qed.

Lemma shrunk_refl s : shrunk s s.
Proof. split; [done|]. exists 0%nat. simpl. rewrite app_nil_r. split; [lia|done]. Qed.

Lemma shrunk_quiet_l {A} (c : M heap A) s a s1 s' : quiet c -> c s = Ok (a, s1) -> shrunk s1 s' -> shrunk s s'.
Proof. intros Hq E (? & k & ? & ?). destruct (Hq _ _ _ E) as (E1 & E2 & E3). split; [congruence|]. exists k. rewrite <- E1, <- E2. done. Qed.

Lemma shrunk_quiet_r {A} (c : M heap A) s a s1 s' : quiet c -> c s1 = Ok (a, s') -> shrunk s s1 -> shrunk s s'.
Proof. intros Hq E (? & k & ? & ?). destruct (Hq _ _ _ E) as (E1 & E2 & E3). split; [congruence|]. exists k. rewrite E1, E2. done. Qed.
