(* ===== verification/HeapOps.v ===== *)
(** * The heap's operations on the block sequence

    Each stage of [alloc] and [free] as a change of the block sequence, and
    the theorems about the whole operations. *)

From S2P Require Import Prelude Dll LinkedList MemLayout Heap HeapSpec.
From stdpp Require Import gmap list sorting.
#[local] Open Scope Z_scope.

(** Arithmetic with the heap's constants. *)
Ltac hlia :=
  unfold b_foot, end_ok, MIN_TOTAL, HEAP_BASE, HEAP_INIT_SIZE, KERNEL_VIRTUAL_BASE, KERNEL_IDMAP_SIZE,
    sizeof_header, sizeof_footer, MIN_BLOCK_SIZE, is_u32 in *; lia.

Section heap_ops.
Variable junk : link nptr.

(** ** Ranges *)

Lemma blk_range s bs fl b :
  heap_st s bs fl -> b ∈ bs ->
  HEAP_BASE <= b_addr b /\ b_addr b + b_size b <= hp_end s /\ 36 <= b_size b /\
  b_size b mod 4 = 0 /\ b_addr b mod 4 = 0 /\ hp_end s <= 2 ^ 32 - 4096 /\ 0xD0100000 <= hp_end s.
Proof.
  intros (Ht & He & _) Hb. destruct (tiles_in _ _ _ _ Ht Hb) as (? & ? & ? & ?).
  pose proof (tiles_mod4 _ _ _ _ Ht eq_refl Hb). destruct He as [He _].
  split_and!; [done|done|done|done|done|lia|hlia].
Qed.

Lemma align_offset_spec a :
  0 <= a -> a + 20 <= 2 ^ 32 - 4096 ->
  0 <= align_offset a < 4096 /\ (a + 20 + align_offset a) mod 4096 = 0 /\
  align_addr (a + 20) = a + 20 + align_offset a.
Proof.
  intros Ha Hb. unfold align_offset, sizeof_header. cbv zeta. rewrite (u32_small (a + 20)) by lia.
  destruct (align_addr_spec (a + 20)) as (H1 & H2 & H3); [lia|].
  rewrite u32_small by lia. replace (a + 20 + (align_addr (a + 20) - (a + 20))) with (align_addr (a + 20)) by lia.
  split_and!; [lia|lia|done|done].
Qed.

Lemma mod4_of_4096 x : x mod 4096 = 0 -> x mod 4 = 0.
Proof.
  intros H. apply Z.mod_divide; [lia|]. apply Z.mod_divide in H; [|lia].
  etransitivity; [|exact H]. by exists 1024.
Qed.

Lemma mod4_add x y : x mod 4 = 0 -> y mod 4 = 0 -> (x + y) mod 4 = 0.
Proof. intros H1 H2. by rewrite Z.add_mod, H1, H2 by lia. Qed.
Lemma mod4_sub x y : x mod 4 = 0 -> y mod 4 = 0 -> (x - y) mod 4 = 0.
Proof. intros H1 H2. by rewrite Zminus_mod, H1, H2. Qed.

Lemma align_offset_mod4 a :
  0 <= a -> a + 20 <= 2 ^ 32 - 4096 -> a mod 4 = 0 -> align_offset a mod 4 = 0.
Proof.
  intros Ha Hb Hm. destruct (align_offset_spec a Ha Hb) as (_ & H & _).
  apply mod4_of_4096 in H.
  replace (align_offset a) with (a + 20 + align_offset a - (a + 20)) by lia.
  apply mod4_sub; [done|]. by apply mod4_add.
Qed.

Lemma block_size_spec size :
  0 <= size < 2 ^ 31 ->
  36 <= block_size size /\ size + 28 <= block_size size <= Z.max size 8 + 31 /\ block_size size mod 4 = 0.
Proof.
  intros Hs. unfold block_size, sizeof_header, sizeof_footer, MIN_BLOCK_SIZE. cbv zeta.
  set (sz := if size <? 8 then 8 else size).
  assert (Hsz : sz = Z.max size 8) by (subst sz; zcases; lia). rewrite Hsz.
  change (20 + 8) with 28. rewrite (u32_small (Z.max size 8 + 28)) by lia.
  pose proof (Z.mod_pos_bound (Z.max size 8 + 28) 4). pose proof (Z.div_mod (Z.max size 8 + 28) 4).
  destruct (Z.eqb_spec ((Z.max size 8 + 28) mod 4) 0) as [E|E].
  - rewrite Z.add_0_r, u32_small by lia. lia.
  - rewrite u32_small by lia. split; [lia|]. split; [lia|].
    replace (Z.max size 8 + 28 + (4 - (Z.max size 8 + 28) mod 4))
      with ((((Z.max size 8 + 28) / 4) + 1) * 4) by lia.
    apply Z.mod_mul. lia.
Qed.

(** ** The search *)

Definition blk_fits (align : bool) (size : Z) (b : blk) : bool := fits align (b_addr b) (b_size b) size.

Lemma find_fit_spec s bs align size fuel f1 f2 :
  heap_st s bs (f1 ++ f2) -> (length f2 < fuel)%nat ->
  (find_fit fuel (ptr_of f2) align size s = Ok (None, s) /\
     Forall (fun b => blk_fits align size b = false) f2) \/
  exists g1 b g2, f2 = g1 ++ b :: g2 /\
    find_fit fuel (ptr_of f2) align size s = Ok (Some (b_addr b), s) /\
    blk_fits align size b = true /\ Forall (fun b => blk_fits align size b = false) g1.
Proof.
  revert fuel f1. induction f2 as [|b f2 IH]; intros fuel f1 Hst Hf; (destruct fuel as [|fuel]; [simpl in Hf; lia|]).
  { by left. }
  destruct (free_in _ _ _ b Hst) as [Hin Hfree]; [set_solver|].
  cbn [ptr_of find_fit b_ptr]. rewrite (bind_ok _ _ _ _ _ (get_hdr_ok _ _ _ _ Hst Hin ltac:(by rewrite Hfree))).
  cbn [h_size h_magic h_used]. rewrite Z.eqb_refl. unfold b_flag. rewrite Hfree. cbn [negb orb].
  change (fits align (b_addr b) (b_size b) size) with (blk_fits align size b).
  destruct (blk_fits align size b) eqn:Efit.
  - right. exists [], b, f2. by split_and!.
  - change (LNode (b_addr b)) with (b_ptr b). mrun (fl_next _ _ _ _ _ Hst).
    destruct (IH fuel (f1 ++ [b])) as [[E Hall]|(g1 & c & g2 & -> & E & Hfit & Hall)].
    + by rewrite <- app_assoc.
    + simpl in Hf. lia.
    + left. split; [done|by constructor].
    + right. exists (b :: g1), c, g2. split_and!; [done|done|done|by constructor].
Qed.

(** ** Running the field updates *)

Definition with_hdr (H : gmap Z hdr) (s : heap) : heap :=
  Heap (hp_links s) H (hp_ftr s) (hp_end s) (hp_online s) (hp_calls s).
Definition with_ftr (F : gmap Z ftr) (s : heap) : heap :=
  Heap (hp_links s) (hp_hdr s) F (hp_end s) (hp_online s) (hp_calls s).

Lemma put_hdr_run a h s : put_hdr a h s = Ok (tt, with_hdr (<[a := h]> (hp_hdr s)) s).
Proof. reflexivity. Qed.
Lemma put_ftr_run a f s : put_ftr a f s = Ok (tt, with_ftr (<[a := f]> (hp_ftr s)) s).
Proof. reflexivity. Qed.
Lemma new_hdr_run a h s :
  new_hdr junk a h s =
  Ok (tt, with_links (<[LNode a := junk]> (hp_links s)) (with_hdr (<[a := h]> (hp_hdr s)) s)).
Proof. reflexivity. Qed.

Lemma get_hdr_run a h s : hp_hdr s !! a = Some h -> get_hdr a s = Ok (h, s).
Proof. intros E. unfold get_hdr. mgo. by apply deref_some. Qed.
Lemma get_ftr_run a f s : hp_ftr s !! a = Some f -> get_ftr a s = Ok (f, s).
Proof. intros E. unfold get_ftr. mgo. by apply deref_some. Qed.

Lemma set_hsize_run a h sz s :
  hp_hdr s !! a = Some h ->
  set_hsize a sz s = Ok (tt, with_hdr (<[a := Hdr (h_magic h) sz (h_used h)]> (hp_hdr s)) s).
Proof. intros E. unfold set_hsize. by mrun (get_hdr_run _ _ _ E). Qed.
Lemma set_hused_run a h u s :
  hp_hdr s !! a = Some h ->
  set_hused a u s = Ok (tt, with_hdr (<[a := Hdr (h_magic h) (h_size h) u]> (hp_hdr s)) s).
Proof. intros E. unfold set_hused. by mrun (get_hdr_run _ _ _ E). Qed.
Lemma set_hmagic_run a h m s :
  hp_hdr s !! a = Some h ->
  set_hmagic a m s = Ok (tt, with_hdr (<[a := Hdr m (h_size h) (h_used h)]> (hp_hdr s)) s).
Proof. intros E. unfold set_hmagic. by mrun (get_hdr_run _ _ _ E). Qed.

(** [remove] looks at the links only. *)
Lemma hdr_remove_links p s s1 lk :
  hp_links s1 = hp_links s -> hdr_remove p s = Ok (tt, with_links lk s) ->
  hdr_remove p s1 = Ok (tt, with_links lk s1).
Proof.
  unfold hdr_remove. intros E. rewrite !(bind_ok get _ _ _ _ eq_refl). rewrite E.
  destruct (dll_remove p (hp_links s)) as [l|]; [|done].
  rewrite !(bind_ok (deref (Some l)) _ _ _ _ eq_refl). unfold put_links, modify, with_links.
  intros [= <-]. done.
Qed.

Lemma blk_tags s bs fl b :
  heap_st s bs fl -> b ∈ bs -> b_st b <> BRaw ->
  hp_hdr s !! b_addr b = Some (Hdr HEAP_HEADER_MAGIC (b_size b) (b_flag b)) /\
  hp_ftr s !! b_foot b = Some (Ftr HEAP_FOOTER_MAGIC (b_addr b)).
Proof. intros (_ & _ & Hm & _) Hb Hr. rewrite Forall_forall in Hm. by apply Hm. Qed.

(** Replacing one block in place. *)
Lemma heap_st_replace1 s s' l1 b nb l2 fl :
  heap_st s (l1 ++ b :: l2) fl -> hp_end s' = hp_end s ->
  tiles (b_addr b) nb (b_addr b + b_size b) ->
  b_st b <> BFree -> Forall (fun b => b_st b <> BFree) nb ->
  (forall x, x < b_addr b \/ b_addr b + b_size b <= x -> hp_hdr s' !! x = hp_hdr s !! x) ->
  (forall x, x < b_addr b \/ b_addr b + b_size b <= x -> hp_ftr s' !! x = hp_ftr s !! x) ->
  (forall p, match p with LNil => True | LNode x => x < b_addr b \/ b_addr b + b_size b <= x end ->
             hp_links s' !! p = hp_links s !! p) ->
  Forall (blk_mem (hp_hdr s') (hp_ftr s')) nb ->
  Forall (fun b => b_st b <> BRaw -> is_Some (hp_links s' !! b_ptr b)) nb ->
  heap_st s' (l1 ++ nb ++ l2) fl.
Proof.
  intros Hst He Hn Hb Hnb HH HF HL Hm Hl. assert (Hst' := Hst).
  destruct Hst' as (Ht & Hend & _). apply tiles_app in Ht as (m & Ht1 & Hab & Hsz & Hm4 & Ht2).
  subst m. eapply (heap_st_replace s s' l1 [b] nb l2 fl (b_addr b) (b_addr b + b_size b) (b_addr b + b_size b));
    try done; rewrite ?He; try done.
  - by constructor.
  - intros x Hx. apply HH. lia.
  - intros x Hx. apply HF. lia.
  - intros [|x] Hx; apply HL; [done|lia].
  - by right.
Qed.

(** ** Splitting *)

(** The tags of a block in hand are moved to its first [o] bytes. *)
Lemma cut_front s l1 b l2 fl o :
  heap_st s (l1 ++ b :: l2) fl -> b_st b = BHand -> 36 <= o -> o + 36 <= b_size b -> o mod 4 = 0 ->
  let b1 := Blk (b_addr b) o BHand in
  let b2 := Blk (b_addr b + o) (b_size b - o) BRaw in
  let s1 := with_hdr (<[b_addr b := Hdr HEAP_HEADER_MAGIC o false]> (hp_hdr s)) s in
  heap_st (with_ftr (<[b_addr b + o - sizeof_footer := Ftr HEAP_FOOTER_MAGIC (b_addr b)]> (hp_ftr s)) s1) (l1 ++ b1 :: b2 :: l2) fl.
Proof.
  intros Hst Hb Ho Hos O4 b1 b2 s1. assert (Hin : b ∈ l1 ++ b :: l2) by set_solver.
  destruct (blk_range _ _ _ _ Hst Hin) as (R1 & R2 & R3 & R4 & R5 & R6 & R7). set (s2 := with_ftr _ _).
  apply (heap_st_replace1 s s2 l1 b [b1; b2]); try done.
  - simpl. split_and!; try done; try hlia. by apply mod4_sub.
  - by rewrite Hb.
  - repeat constructor; done.
  - intros x Hx. simpl. rewrite !lookup_insert_ne by hlia. done.
  - intros x Hx. simpl. rewrite !lookup_insert_ne by hlia. done.
  - constructor; [|constructor; [|constructor]]; [intros _; split; unfold b_foot; simpl|done]; by rewrite lookup_insert_eq.
  - constructor; [|constructor; [|constructor]]; [|done]. intros _. simpl.
    destruct Hst as (_ & _ & _ & Hl & _). rewrite Forall_forall in Hl. apply (Hl b Hin). by rewrite Hb.
Qed.

(** The rest gets tags and links of its own. *)
Lemma tag_rest s l1 b l2 fl :
  heap_st s (l1 ++ b :: l2) fl -> b_st b = BRaw ->
  let s1 := with_links (<[b_ptr b := junk]> (hp_links s)) (with_hdr (<[b_addr b := Hdr HEAP_HEADER_MAGIC (b_size b) false]> (hp_hdr s)) s) in
  heap_st (with_ftr (<[b_foot b := Ftr HEAP_FOOTER_MAGIC (b_addr b)]> (hp_ftr s)) s1) (l1 ++ set_st BHand b :: l2) fl.
Proof.
  intros Hst Hb s1. assert (Hin : b ∈ l1 ++ b :: l2) by set_solver.
  destruct (blk_range _ _ _ _ Hst Hin) as (R1 & R2 & R3 & R4 & R5 & R6 & R7). set (s2 := with_ftr _ _).
  apply (heap_st_replace1 s s2 l1 b [set_st BHand b]); try done.
  - by rewrite Hb.
  - by repeat constructor.
  - intros x Hx. simpl. rewrite lookup_insert_ne by hlia. done.
  - intros x Hx. simpl. rewrite lookup_insert_ne by (unfold b_foot; hlia). done.
  - intros [|x] Hx; simpl; (rewrite lookup_insert_ne; [done|]); [done|]. intros [= ?]. hlia.
  - constructor; [|constructor]. intros _. split; unfold b_foot; simpl; by rewrite lookup_insert_eq.
  - constructor; [|constructor]. intros _. simpl. rewrite lookup_insert_eq. eauto.
Qed.

Lemma split_block_spec s l1 b l2 fl size :
  heap_st s (l1 ++ b :: l2) fl -> b_st b = BHand -> 36 <= size <= b_size b -> size mod 4 = 0 ->
  exists s' fl' b' rest, split_block junk (b_addr b) size s = Ok (tt, s') /\
    heap_st s' (l1 ++ b' :: rest ++ l2) fl' /\ b_addr b' = b_addr b /\ size <= b_size b' /\
    b_st b' = BHand /\
    (rest = [] \/ exists c, rest = [c] /\ b_st c = BFree) /\
    hp_calls s' = hp_calls s /\ hp_online s' = hp_online s.
Proof.
  intros Hst Hb Hsz Hm4. assert (Hin : b ∈ l1 ++ b :: l2) by set_solver.
  destruct (blk_range _ _ _ _ Hst Hin) as (R1 & R2 & R3 & R4 & R5 & R6 & R7).
  destruct (blk_tags _ _ _ _ Hst Hin ltac:(by rewrite Hb)) as [Th Tf].
  unfold split_block. mrun (get_hdr_run _ _ _ Th). cbn [h_size].
  rewrite (u32_small (size + MIN_TOTAL)) by hlia.
  destruct (Z.leb_spec (size + MIN_TOTAL) (b_size b)) as [Hle|Hgt]; cycle 1.
  { exists s, fl, b, []. split_and!; try done; [lia|by left]. }
  rewrite (u32_small (b_addr b + b_size b - sizeof_footer)) by hlia.
  rewrite (u32_small (b_addr b + size - sizeof_footer)), (u32_small (b_addr b + size)),
    (u32_small (b_size b - size)) by hlia.
  mrun (set_hsize_run _ _ size _ Th). cbn [h_magic h_used]. mrun (put_ftr_run (b_addr b + size - sizeof_footer)
    (Ftr HEAP_FOOTER_MAGIC (b_addr b)) (with_hdr (<[b_addr b := Hdr HEAP_HEADER_MAGIC size (b_flag b)]> (hp_hdr s)) s)).
  rewrite (bind_ok _ _ _ _ _ (new_hdr_run _ _ _)). cbn [hp_links hp_hdr hp_ftr with_hdr with_ftr].
  set (s3 := with_links _ _).
  assert (Tf3 : hp_ftr s3 !! (b_addr b + b_size b - sizeof_footer) = Some (Ftr HEAP_FOOTER_MAGIC (b_addr b))).
  { simpl. rewrite lookup_insert_ne by hlia. exact Tf. }
  mrun (get_ftr_run _ _ _ Tf3). rewrite (bind_ok _ _ _ _ _ (put_ftr_run _ _ _)). cbn [f_magic].
  set (s4 := with_ftr _ s3).
  set (b1 := Blk (b_addr b) size BHand). set (b2 := Blk (b_addr b + size) (b_size b - size) BHand).
  assert (Hst4 : heap_st s4 ((l1 ++ [b1]) ++ b2 :: l2) fl).
  { pose proof (cut_front s l1 b l2 fl size Hst Hb ltac:(lia) ltac:(hlia) Hm4) as Hc. cbv zeta in Hc. rewrite cons_middle, app_assoc in Hc.
    apply (tag_rest _ (l1 ++ [b1]) _ l2 fl) in Hc; [|done]. unfold b_foot in Hc. cbn [b_addr b_size] in Hc.
    replace (b_addr b + size + (b_size b - size) - sizeof_footer) with (b_addr b + b_size b - sizeof_footer) in Hc by lia.
    unfold s4, s3, b_flag. rewrite Hb. exact Hc. }
  destruct (insert_list_spec s4 (l1 ++ [b1]) b2 l2 fl Hst4 eq_refl) as (lk & fl' & E & Hst5).
  exists (with_links lk s4), fl', b1, [set_st BFree b2]. split_and!; try done.
  - by rewrite <- app_assoc in Hst5.
  - right. by eexists.
Qed.

(** ** Aligning *)

Lemma align_block_spec s l1 b l2 fl :
  heap_st s (l1 ++ b :: l2) fl -> b_st b = BHand ->
  let o := align_offset (b_addr b) in
  o = 0 \/ 36 <= o -> o + 36 <= b_size b ->
  exists s' fl' b' front, align_block junk (b_addr b) s = Ok (b_addr b', s') /\
    heap_st s' (l1 ++ front ++ b' :: l2) fl' /\ b_addr b' = b_addr b + o /\
    b_size b' = b_size b - o /\ b_st b' = BHand /\
    (front = [] \/ exists c, front = [c] /\ b_st c = BFree) /\
    hp_calls s' = hp_calls s /\ hp_online s' = hp_online s.
Proof.
  intros Hst Hb o Ho Hos. assert (Hin : b ∈ l1 ++ b :: l2) by set_solver.
  destruct (blk_range _ _ _ _ Hst Hin) as (R1 & R2 & R3 & R4 & R5 & R6 & R7).
  destruct (blk_tags _ _ _ _ Hst Hin ltac:(by rewrite Hb)) as [Th Tf].
  destruct (align_offset_spec (b_addr b)) as (O1 & O2 & O3); [hlia|hlia|]. fold o in O1, O2, O3.
  assert (O4 : o mod 4 = 0) by (apply align_offset_mod4; [hlia|hlia|done]).
  unfold align_block. cbv zeta. fold o. destruct (Z.ltb_spec 0 o) as [Hpos|Hz]; cycle 1.
  { assert (o = 0) as Ho0 by lia. exists s, fl, b, [].
    split_and!; try done; [lia|lia|by left]. }
  destruct (Z.leb_spec MIN_TOTAL o); [|hlia]. rewrite (bind_ok (asserth true) _ _ _ _ eq_refl).
  mrun (get_hdr_run _ _ _ Th). cbn [h_size h_magic].
  rewrite (u32_small (b_addr b + b_size b - sizeof_footer)) by hlia.
  rewrite (u32_small (b_addr b + sizeof_header)) by hlia.
  replace (u32 (b_addr b + sizeof_header + o - sizeof_footer - sizeof_header))
    with (b_addr b + o - sizeof_footer) by (rewrite u32_small by hlia; lia).
  replace (u32 (b_addr b + o - sizeof_footer + sizeof_footer))
    with (b_addr b + o) by (rewrite u32_small by hlia; lia).
  rewrite (u32_small (b_size b - o)) by hlia.
  mrun (get_ftr_run _ _ _ Tf). cbn [f_magic]. rewrite Z.eqb_refl.
  rewrite (bind_ok (asserth true) _ _ _ _ eq_refl).
  rewrite (bind_ok _ _ _ _ _ (put_hdr_run _ _ _)), (bind_ok _ _ _ _ _ (put_ftr_run _ _ _)).
  cbn [hp_ftr with_hdr]. set (s2 := with_ftr _ _).
  set (b1 := Blk (b_addr b) o BHand). set (b2 := Blk (b_addr b + o) (b_size b - o) BRaw).
  assert (Hst2 : heap_st s2 (l1 ++ [b1; b2] ++ l2) fl) by (apply cut_front; [done|done|lia|lia|done]).
  destruct (insert_list_spec s2 l1 b1 ([b2] ++ l2) fl Hst2 eq_refl) as (lk & fl' & E & Hst3).
  mrun E. rewrite (bind_ok _ _ _ _ _ (new_hdr_run _ _ _)). set (s4 := with_links _ (with_hdr _ _)).
  assert (Tf4 : hp_ftr s4 !! (b_addr b + b_size b - sizeof_footer) = Some (Ftr HEAP_FOOTER_MAGIC (b_addr b))).
  { simpl. rewrite lookup_insert_ne by hlia. exact Tf. }
  mrun (get_ftr_run _ _ _ Tf4). rewrite (bind_ok _ _ _ _ _ (put_ftr_run _ _ _)). cbn [f_magic].
  set (s5 := with_ftr _ s4). set (b2' := set_st BHand b2).
  exists s5, fl', b2', [set_st BFree b1]. split_and!; try done; [|right; by eexists].
  replace (l1 ++ set_st BFree b1 :: [b2] ++ l2) with ((l1 ++ [set_st BFree b1]) ++ b2 :: l2) in Hst3
    by (by rewrite <- app_assoc).
  replace (l1 ++ [set_st BFree b1] ++ b2' :: l2) with ((l1 ++ [set_st BFree b1]) ++ [b2'] ++ l2)
    by (by rewrite <- app_assoc).
  apply (tag_rest _ _ _ _ _) in Hst3; [|done]. unfold b_foot in Hst3. cbn [b_addr b_size b2] in Hst3.
  replace (b_addr b + o + (b_size b - o) - sizeof_footer) with (b_addr b + b_size b - sizeof_footer) in Hst3 by lia. exact Hst3.
Qed.

(** ** Growing the heap *)

Lemma last_foot s l1 b fl : heap_st s (l1 ++ [b]) fl -> b_addr b + b_size b = hp_end s.
Proof. intros (Ht & _). apply tiles_app in Ht as (m & _ & Hab & _ & _ & He). simpl in He. lia. Qed.

Lemma end_mod4 s bs fl : heap_st s bs fl -> hp_end s mod 4 = 0.
Proof. intros (_ & [_ He] & _). by apply mod4_of_4096. Qed.

Definition grow (s : heap) (inc : Z) : heap :=
  Heap (hp_links s) (hp_hdr s) (hp_ftr s) (align_addr (hp_end s + inc)) (hp_online s)
    (hp_calls s ++ [AllocPages (Z.shiftr (hp_end s) 12)
                      (Z.shiftr (align_addr (hp_end s + inc) - hp_end s) 12)]).

Lemma sbrk_run s bs fl inc :
  heap_st s bs fl -> 0 < inc -> hp_end s + inc <= 2 ^ 32 - 4096 ->
  sbrk inc s = Ok (align_addr (hp_end s + inc) - hp_end s, grow s inc) /\
  inc <= align_addr (hp_end s + inc) - hp_end s /\ end_ok (align_addr (hp_end s + inc)).
Proof.
  intros (_ & [He1 He2] & _) Hi Hb. destruct (align_addr_spec (hp_end s + inc)) as (A1 & A2 & A3); [hlia|].
  unfold sbrk. mgo. cbv zeta. rewrite (u32_small (hp_end s + inc)) by hlia. rewrite u32_small by hlia.
  unfold page_call_log, set_end. mgo. split; [done|]. split; [lia|]. split; [hlia|done].
Qed.

(** A new block behind the last one, up to the new end. *)
Lemma append_block s l1 b fl ne cs :
  heap_st s (l1 ++ [b]) fl -> b_st b = BUsed -> end_ok ne -> hp_end s + 36 <= ne ->
  let h := Blk (hp_end s) (ne - hp_end s) BHand in
  heap_st (Heap (<[b_ptr h := junk]> (hp_links s)) (<[hp_end s := Hdr HEAP_HEADER_MAGIC (ne - hp_end s) false]> (hp_hdr s))
             (<[ne - sizeof_footer := Ftr HEAP_FOOTER_MAGIC (hp_end s)]> (hp_ftr s)) ne (hp_online s) cs) (l1 ++ [b; h]) fl.
Proof.
  intros Hst Hb Hok Hne h. assert (Hin : b ∈ l1 ++ [b]) by set_solver.
  destruct (blk_range _ _ _ _ Hst Hin) as (R1 & R2 & R3 & R4 & R5 & R6 & R7).
  destruct (blk_tags _ _ _ _ Hst Hin ltac:(by rewrite Hb)) as [Th Tf]. pose proof (last_foot _ _ _ _ Hst) as Hlast.
  pose proof (end_mod4 _ _ _ Hst) as He4. pose proof (mod4_of_4096 _ (proj2 Hok)) as Hne4. set (s' := Heap _ _ _ _ _ _).
  apply (heap_st_replace s s' l1 [b] [b; h] [] fl (b_addr b) (hp_end s) (hp_end s')); try done.
  - destruct Hst as (Ht & _). apply tiles_app in Ht as (m & Ht1 & Hab & _). by subst m.
  - simpl. split_and!; try done; try hlia. by apply mod4_sub.
  - repeat constructor. by rewrite Hb.
  - repeat constructor; [by rewrite Hb|done].
  - intros x [Hx|[_ ?]]; [|done]. simpl. by rewrite lookup_insert_ne by hlia.
  - intros x [Hx|[_ ?]]; [|done]. simpl. by rewrite lookup_insert_ne by hlia.
  - intros [|x] Hx; simpl; (rewrite lookup_insert_ne; [done|]); [done|]. intros [= ?]. destruct Hx as [Hx|[_ ?]]; [hlia|done].
  - by left.
  - constructor; [|constructor; [|constructor]]; intros _; split; unfold b_foot in *; simpl.
    + by rewrite lookup_insert_ne by hlia.
    + by rewrite lookup_insert_ne by hlia.
    + by rewrite lookup_insert_eq.
    + replace (hp_end s + (ne - hp_end s) - sizeof_footer) with (ne - sizeof_footer) by lia. by rewrite lookup_insert_eq.
  - constructor; [|constructor; [|constructor]]; intros _; simpl.
    + rewrite lookup_insert_ne by (intros [= ?]; hlia).
      destruct Hst as (_ & _ & _ & Hl & _). rewrite Forall_forall in Hl. apply (Hl b Hin). by rewrite Hb.
    + rewrite lookup_insert_eq. eauto.
Qed.

(** The last block, off the free list, up to the new end. *)
Lemma stretch_block s l1 b fl' ne cs :
  heap_st s (l1 ++ [set_st BHand b]) fl' -> end_ok ne -> hp_end s + 36 <= ne ->
  let h := Blk (b_addr b) (b_size b + (ne - hp_end s)) BHand in
  heap_st (Heap (hp_links s) (<[b_addr b := Hdr HEAP_HEADER_MAGIC (b_size b + (ne - hp_end s)) false]> (hp_hdr s))
             (<[ne - sizeof_footer := Ftr HEAP_FOOTER_MAGIC (b_addr b)]> (hp_ftr s)) ne (hp_online s) cs) (l1 ++ [h]) fl'.
Proof.
  intros Hst Hok Hne h. assert (Hin : set_st BHand b ∈ l1 ++ [set_st BHand b]) by set_solver.
  destruct (blk_range _ _ _ _ Hst Hin) as (R1 & R2 & R3 & R4 & R5 & R6 & R7). cbn in R1, R2, R3, R4, R5, R6, R7.
  pose proof (last_foot _ _ _ _ Hst) as Hlast. cbn in Hlast.
  pose proof (end_mod4 _ _ _ Hst) as He4. pose proof (mod4_of_4096 _ (proj2 Hok)) as Hne4. set (s' := Heap _ _ _ _ _ _).
  apply (heap_st_replace s s' l1 [set_st BHand b] [h] [] fl' (b_addr b) (hp_end s) (hp_end s')); try done.
  - destruct Hst as (Ht & _). apply tiles_app in Ht as (m & Ht1 & Hab & _). by subst m.
  - simpl. split_and!; try done; try hlia. apply mod4_add; [done|]. by apply mod4_sub.
  - by repeat constructor.
  - by repeat constructor.
  - intros x [Hx|[_ ?]]; [|done]. simpl. by rewrite lookup_insert_ne by hlia.
  - intros x [Hx|[_ ?]]; [|done]. simpl. by rewrite lookup_insert_ne by hlia.
  - by left.
  - constructor; [|constructor]. intros _; split; unfold b_foot; simpl; [by rewrite lookup_insert_eq|].
    replace (b_addr b + (b_size b + (ne - hp_end s)) - sizeof_footer) with (ne - sizeof_footer) by lia. by rewrite lookup_insert_eq.
  - constructor; [|constructor]. intros _. destruct Hst as (_ & _ & _ & Hl & _).
    apply Forall_app in Hl as [_ Hl]. apply Forall_cons in Hl as [Hl _]. by apply Hl.
Qed.

Lemma extend_spec s l1 b fl align size :
  heap_st s (l1 ++ [b]) fl -> (b_st b = BUsed \/ b_st b = BFree) ->
  36 <= size -> size < 2 ^ 31 + 64 -> size mod 4 = 0 -> hp_end s + size + 4096 <= 2 ^ 32 - 4096 ->
  exists s' fl' keep h, extend junk align size s = Ok (b_addr h, s') /\
    heap_st s' (l1 ++ keep ++ [h]) fl' /\ b_st h = BHand /\
    size + (if align then 4096 else 0) <= b_size h /\
    (b_st b = BUsed /\ keep = [b] /\ b_addr h = hp_end s \/
     b_st b = BFree /\ keep = [] /\ b_addr h = b_addr b) /\
    hp_end s <= hp_end s' /\ hp_online s' = hp_online s.
Proof.
  intros Hst Hb Hsz Hsz2 Hs4 Hend. assert (Hin : b ∈ l1 ++ [b]) by set_solver.
  assert (Hraw : b_st b <> BRaw) by (destruct Hb as [-> | ->]; done).
  destruct (blk_range _ _ _ _ Hst Hin) as (R1 & R2 & R3 & R4 & R5 & R6 & R7).
  destruct (blk_tags _ _ _ _ Hst Hin Hraw) as [Th Tf]. pose proof (last_foot _ _ _ _ Hst) as Hlast.
  unfold extend. mgo. cbv zeta. rewrite (u32_small (hp_end s - sizeof_footer)) by hlia.
  unfold b_foot in Tf. rewrite Hlast in Tf. mrun (get_ftr_run _ _ _ Tf). cbn [f_magic f_header].
  rewrite Z.eqb_refl, (bind_ok (asserth true) _ _ _ _ eq_refl).
  set (inc := u32 _). assert (Hinc : inc = size + if align then 4096 else 0).
  { subst inc. apply u32_small. destruct align; lia. }
  assert (Hinc0 : 36 <= inc) by (destruct align; lia).
  destruct (sbrk_run s _ _ inc Hst) as (E & Hge & Hok); [destruct align; lia|destruct align; lia|].
  mrun E. set (ne := align_addr (hp_end s + inc)) in *. set (sg := grow s inc).
  mrun (get_hdr_run (b_addr b) _ sg Th). cbn [h_used h_size].
  pose proof (end_mod4 _ _ _ Hst) as He4. pose proof (mod4_of_4096 _ (proj2 Hok)) as Hne4.
  destruct Hb as [Hb|Hb]; unfold b_flag; rewrite Hb.
  - rewrite bind_assoc, (bind_ok _ _ _ _ _ (new_hdr_run _ _ _)). mgo.
    cbn [hp_end with_links with_hdr grow sg]. fold ne. rewrite (u32_small (ne - sizeof_footer)) by hlia.
    rewrite (bind_ok _ _ _ _ _ (put_ftr_run _ _ _)).
    eexists _, fl, [b], (Blk (hp_end s) (ne - hp_end s) BHand). split; [reflexivity|]. split; [apply (append_block s l1 b fl ne); [done|done|done|hlia]|].
    cbn. fold ne. split_and!; try done; [lia|by left|lia].
  - rewrite (u32_small (b_size b + (ne - hp_end s))) by hlia. rewrite !bind_assoc.
    mrun (set_hsize_run (b_addr b) _ (b_size b + (ne - hp_end s)) sg Th). cbn [h_magic h_used].
    destruct (hdr_remove_spec s l1 b [] fl Hst Hb) as (lk & fl' & Er & Hst1 & _).
    change (LNode (b_addr b)) with (b_ptr b). rewrite bind_assoc.
    rewrite (bind_ok _ _ _ _ _ (hdr_remove_links _ s (with_hdr _ sg) lk eq_refl Er)). mgo.
    cbn [hp_end with_links with_hdr grow sg]. fold ne. rewrite (u32_small (ne - sizeof_footer)) by hlia.
    rewrite (bind_ok _ _ _ _ _ (put_ftr_run _ _ _)). unfold b_flag. rewrite Hb.
    eexists _, fl', [], (Blk (b_addr b) (b_size b + (ne - hp_end s)) BHand). split; [reflexivity|]. split; [apply (stretch_block (with_links lk s) l1 b fl' ne); [done|done|cbn; hlia]|].
    cbn. fold ne. split_and!; try done; [lia|by right|lia].
Qed.

(** ** The invariant between operations *)

Definition unused (b : blk) : bool := negb (b_flag b).
Definition settled (b : blk) : Prop := b_st b = BUsed \/ b_st b = BFree.

(** No two unused blocks are neighbours. *)
Fixpoint coalesced (pf : bool) (bs : list blk) : Prop :=
  match bs with
  | [] => True
  | b :: r => pf && unused b = false /\ coalesced (unused b) r
  end.

Definition heap_ok (s : heap) (bs fl : list blk) : Prop :=
  heap_st s bs fl /\ Forall settled bs /\ coalesced false bs.

Definition last_unused (pf : bool) (l : list blk) : bool :=
  match last l with Some b => unused b | None => pf end.

Lemma coalesced_app pf l1 l2 :
  coalesced pf (l1 ++ l2) <-> coalesced pf l1 /\ coalesced (last_unused pf l1) l2.
Proof.
  revert pf. induction l1 as [|b l1 IH]; intros pf; [simpl; naive_solver|].
  assert (E : last_unused pf (b :: l1) = last_unused (unused b) l1).
  { unfold last_unused. rewrite last_cons. by destruct (last l1). }
  cbn [app coalesced]. rewrite E, IH. naive_solver.
Qed.

(** One used block, with at most one unused block split off on each side. *)
Lemma coalesced_carve l1 h front u rest l2 :
  coalesced false (l1 ++ h :: l2) -> unused h = true -> b_st u = BUsed ->
  (front = [] \/ exists c, front = [c] /\ b_st c = BFree) ->
  (rest = [] \/ exists c, rest = [c] /\ b_st c = BFree) ->
  coalesced false (l1 ++ front ++ u :: rest ++ l2).
Proof.
  rewrite !coalesced_app. intros [H1 [H2 H3]] Hh Hu Hf Hr. rewrite Hh in *. rewrite andb_true_r in H2.
  assert (Hu' : unused u = false) by (unfold unused, b_flag; by rewrite Hu).
  assert (Hl2 : coalesced false l2).
  { destruct l2 as [|c l2]; [done|]. simpl in *. naive_solver. }
  split; [done|]. rewrite H2.
  destruct Hf as [->|(c & -> & Hc)]; simpl; rewrite ?Hu';
    (destruct Hr as [->|(d & -> & Hd)]; simpl; rewrite ?Hu');
    repeat match goal with
    | E : b_st ?c = BFree |- _ =>
      assert (unused c = true) by (unfold unused, b_flag; by rewrite E); clear E
    end; repeat match goal with E : unused _ = true |- _ => rewrite !E; clear E end;
    rewrite ?andb_false_r; split_and!; try done; try (destruct l2; simpl in *; naive_solver).
Qed.

Lemma used_of_free b : b_st b = BFree -> used_of [b] = [].
Proof. intros E. unfold used_of. rewrite filter_cons_False; [done|]. by rewrite E. Qed.
Lemma used_of_cons_used b l : b_st b = BUsed -> used_of (b :: l) = b :: used_of l.
Proof. intros E. unfold used_of. by rewrite filter_cons_True. Qed.
Lemma used_of_cons_other b l : b_st b <> BUsed -> used_of (b :: l) = used_of l.
Proof. intros E. unfold used_of. by rewrite filter_cons_False. Qed.

Lemma settled_raw b : settled b -> b_st b <> BRaw.
Proof. intros [-> | ->]; done. Qed.

(** The block an allocation will carve up. *)
Definition carve_ok (align : bool) (size : Z) (h : blk) : Prop :=
  size <= b_size h /\
  (align = true -> (align_offset (b_addr h) = 0 \/ 36 <= align_offset (b_addr h)) /\
                   size + align_offset (b_addr h) <= b_size h).

Lemma fits_carve s bs fl b align size :
  heap_st s bs fl -> b ∈ bs -> 0 <= size < 2 ^ 31 + 64 ->
  blk_fits align size b = true -> carve_ok align size b.
Proof.
  intros Hst Hb Hs. destruct (blk_range _ _ _ _ Hst Hb) as (R1 & R2 & R3 & R4 & R5 & R6 & R7).
  destruct (align_offset_spec (b_addr b)) as (O1 & O2 & O3); [hlia|hlia|].
  unfold blk_fits, fits, carve_ok. destruct align.
  - cbv zeta. rewrite u32_small by lia. rewrite andb_true_iff, orb_true_iff.
    rewrite Z.eqb_eq, !Z.leb_le. unfold MIN_TOTAL, sizeof_header, sizeof_footer, MIN_BLOCK_SIZE. lia.
  - rewrite Z.leb_le. lia.
Qed.

(** Where the search or the extension leaves the heap. *)
Definition in_hand (s s' : heap) (bs : list blk) (align : bool) (size : Z) (h : blk) : Prop :=
  exists l1 l2 fl', heap_st s' (l1 ++ h :: l2) fl' /\ b_st h = BHand /\
    Forall settled l1 /\ Forall settled l2 /\ coalesced false (l1 ++ h :: l2) /\
    used_of (l1 ++ l2) = used_of bs /\ size <= b_size h /\
    (align = true -> size + align_offset (b_addr h) <= b_size h).

Lemma take_free s bs fl b align size :
  heap_ok s bs fl -> b ∈ fl -> 0 <= size < 2 ^ 31 + 64 -> blk_fits align size b = true ->
  exists s', hdr_remove (LNode (b_addr b)) s = Ok (tt, s') /\
    in_hand s s' bs align size (set_st BHand b) /\
    (align = true -> align_offset (b_addr b) = 0 \/ 36 <= align_offset (b_addr b)).
Proof.
  intros (Hst & Hset & Hco) Hb Hs Hfit. destruct (free_in _ _ _ _ Hst Hb) as [Hin Hfree].
  destruct (fits_carve _ _ _ _ _ _ Hst Hin Hs Hfit) as [C1 C2].
  apply list_elem_of_split in Hin as (l1 & l2 & ->).
  destruct (hdr_remove_spec _ _ _ _ _ Hst Hfree) as (lk & fl' & E & Hst' & _).
  exists (with_links lk s). split; [done|]. rewrite Forall_app, Forall_cons in Hset.
  destruct Hset as (S1 & _ & S2). split; [|intros Ha; by apply C2].
  exists l1, l2, fl'. split_and!; try done.
  - rewrite coalesced_app in *. cbn [coalesced] in *.
    assert (E1 : unused (set_st BHand b) = unused b) by (unfold unused, b_flag; simpl; by rewrite Hfree).
    by rewrite E1.
  - rewrite !used_of_app. f_equal. by rewrite used_of_cons_other by (by rewrite Hfree).
  - intros Ha. by apply C2.
Qed.

Lemma page_offset e : 0 <= e -> e + 20 <= 2 ^ 32 - 4096 -> e mod 4096 = 0 -> align_offset e = 4076.
Proof.
  intros He Hb Hm. destruct (align_offset_spec e He Hb) as (O1 & O2 & _).
  rewrite <- Z.add_assoc, <- Z.add_mod_idemp_l, Hm, Z.add_0_l in O2 by lia.
  destruct (Z.lt_ge_cases (20 + align_offset e) 4096).
  - rewrite Z.mod_small in O2; lia.
  - pose proof (Z.mod_pos_bound (20 + align_offset e) 4096).
    rewrite <- (Z.mod_add _ (-1)), Z.mod_small in O2; lia.
Qed.

Lemma extend_hand s bs fl align size :
  heap_ok s bs fl -> 36 <= size < 2 ^ 31 + 64 -> size mod 4 = 0 ->
  hp_end s + size + 8192 <= 2 ^ 32 - 4096 ->
  exists s' h, extend junk align size s = Ok (b_addr h, s') /\ in_hand s s' bs align size h /\
    (align_offset (b_addr h) = 4076 \/
     exists l1 b, bs = l1 ++ [b] /\ b_st b = BFree /\ b_addr h = b_addr b).
Proof.
  intros (Hst & Hset & Hco) Hs Hs4 Hend.
  destruct (exists_last (l := bs)) as (l1 & b & ->).
  { intros ->. destruct Hst as (Ht & He & _). simpl in Ht. hlia. }
  rewrite Forall_app in Hset. destruct Hset as [S1 Sb]. apply Forall_cons in Sb as [Sb _].
  destruct (extend_spec s l1 b fl align size Hst Sb) as (s' & fl' & keep & h & E & Hst' & Hh & Hsz & Hk & Hle & _);
    [lia|lia|done|lia|].
  assert (Hin : b ∈ l1 ++ [b]) by set_solver.
  destruct (blk_range _ _ _ _ Hst Hin) as (R1 & R2 & R3 & R4 & R5 & R6 & R7).
  assert (Hoff : align_offset (b_addr h) < 4096).
  { apply align_offset_spec; destruct Hk as [(_ & _ & ->)|(_ & _ & ->)]; hlia. }
  exists s', h. split; [done|]. split.
  - exists (l1 ++ keep), [], fl'. rewrite <- !app_assoc, app_nil_r. split_and!; try done.
    + rewrite Forall_app. split; [done|].
      destruct Hk as [(_ & -> & _)|(_ & -> & _)]; [by apply Forall_singleton|constructor].
    + destruct Hk as [(Hb & -> & _)|(Hb & -> & _)]; rewrite coalesced_app in *; cbn [app coalesced] in *.
      * assert (E1 : unused b = false) by (unfold unused, b_flag; by rewrite Hb). rewrite E1 in *. naive_solver.
      * assert (E1 : unused b = unused h) by (unfold unused, b_flag; by rewrite Hb, Hh). by rewrite <- E1.
    + rewrite !used_of_app. f_equal. destruct Hk as [(Hb & -> & _)|(Hb & -> & _)]; [done|].
      by rewrite used_of_free.
    + destruct align; lia.
    + intros ->. lia.
  - destruct Hk as [(_ & _ & Ha)|(Hb & _ & Ha)]; [left|right; by exists l1, b].
    rewrite Ha. destruct Hst as (_ & [_ He] & _). apply page_offset; hlia.
Qed.

(** ** Allocation *)

(** What a successful allocation of [size] bytes at [p] does. *)
Definition allocated (size : Z) (align : bool) (bs : list blk) (p : Z) (s' : heap) : Prop :=
  exists bs' fl' b, heap_ok s' bs' fl' /\ b ∈ bs' /\ b_st b = BUsed /\ p = b_addr b + 20 /\
    p + size <= b_foot b /\ p mod 4 = 0 /\ (align = true -> p mod 4096 = 0) /\
    used_of bs' ≡ₚ b :: used_of bs.

Lemma set_hused_spec s l1 b l2 fl :
  heap_st s (l1 ++ b :: l2) fl -> b_st b = BHand ->
  exists s', set_hused (b_addr b) true s = Ok (tt, s') /\
    heap_st s' (l1 ++ set_st BUsed b :: l2) fl.
Proof.
  intros Hst Hb. assert (Hin : b ∈ l1 ++ b :: l2) by set_solver.
  destruct (blk_range _ _ _ _ Hst Hin) as (R1 & R2 & R3 & R4 & R5 & R6 & R7).
  destruct (blk_tags _ _ _ _ Hst Hin ltac:(by rewrite Hb)) as [Th Tf].
  rewrite (set_hused_run _ _ true _ Th). eexists. split; [done|].
  apply (heap_st_replace1 s _ l1 b [set_st BUsed b] l2 fl Hst); try done.
  - by rewrite Hb.
  - by repeat constructor.
  - intros x Hx. simpl. by rewrite lookup_insert_ne by lia.
  - apply Forall_singleton. intros _. split; simpl; [by rewrite lookup_insert_eq|exact Tf].
  - apply Forall_singleton. intros _. destruct Hst as (_ & _ & _ & Hl & _).
    rewrite Forall_forall in Hl. apply (Hl b Hin). by rewrite Hb.
Qed.

Lemma settled_front (front : list blk) :
  (front = [] \/ exists c, front = [c] /\ b_st c = BFree) -> Forall settled front /\ used_of front = [].
Proof.
  intros [->|(c & -> & Hc)]; [done|]. split; [|by apply used_of_free].
  apply Forall_singleton. by right.
Qed.

Lemma carve_spec s s1 bs h req align :
  in_hand s s1 bs align (block_size req) h -> 0 <= req < 2 ^ 31 ->
  (align = true -> align_offset (b_addr h) = 0 \/ 36 <= align_offset (b_addr h)) ->
  exists p s', (h' <-- (if align then align_block junk (b_addr h) else ret (b_addr h));;
                split_block junk h' (block_size req);;; set_hused h' true;;;
                ret (u32 (h' + sizeof_header))) s1 = Ok (p, s') /\
    allocated req align bs p s'.
Proof.
  intros (l1 & l2 & fl1 & Hst1 & Hh & S1 & S2 & Hco & Hus & Hsz & Hal) Hreq Hoff.
  destruct (block_size_spec req Hreq) as (B1 & B2 & B3).
  set (o := if align then align_offset (b_addr h) else 0).
  assert (exists s2 fl2 b' front,
    (if align then align_block junk (b_addr h) else ret (b_addr h)) s1 = Ok (b_addr b', s2) /\
    heap_st s2 (l1 ++ front ++ b' :: l2) fl2 /\ b_addr b' = b_addr h + o /\
    b_size b' = b_size h - o /\ b_st b' = BHand /\
    (front = [] \/ exists c, front = [c] /\ b_st c = BFree))
    as (s2 & fl2 & b' & front & E2 & Hst2 & Hab & Hsb & Hb' & Hfr).
  { destruct align.
    - destruct (align_block_spec s1 l1 h l2 fl1 Hst1 Hh (Hoff eq_refl)) as (s2 & fl2 & b' & fr & ? & ? & ? & ? & ? & ? & _).
      + specialize (Hal eq_refl). lia.
      + by exists s2, fl2, b', fr.
    - exists s1, fl1, h, []. subst o. split_and!; try done; [lia|lia|by left]. }
  mrun E2. rewrite app_assoc in Hst2.
  assert (Ho : block_size req <= b_size b') by (subst o; destruct align; [specialize (Hal eq_refl)|]; lia).
  destruct (split_block_spec s2 (l1 ++ front) b' l2 fl2 (block_size req) Hst2 Hb')
    as (s3 & fl3 & u & rest & E3 & Hst3 & Hau & Hsu & Hu & Hre & _); [lia|done|].
  mrun E3. rewrite <- Hau.
  destruct (set_hused_spec s3 _ u _ _ Hst3 Hu) as (s4 & E4 & Hst4). mrun E4.
  set (u' := set_st BUsed u) in *. assert (Hin : u' ∈ (l1 ++ front) ++ u' :: rest ++ l2) by set_solver.
  destruct (blk_range _ _ _ _ Hst4 Hin) as (R1 & R2 & R3 & R4 & R5 & R6 & R7). simpl in *.
  rewrite u32_small by hlia. eexists _, s4. split; [done|].
  rewrite <- app_assoc in Hst4, Hin. destruct (settled_front _ Hfr) as [F1 F2], (settled_front _ Hre) as [G1 G2].
  exists (l1 ++ front ++ u' :: rest ++ l2), fl3, u'. split_and!; try done.
  - split; [done|]. split.
    + rewrite !Forall_app, Forall_cons, Forall_app. split_and!; try done. by left.
    + eapply coalesced_carve; try done. unfold unused, b_flag. by rewrite Hh.
  - unfold b_foot. simpl. hlia.
  - by apply mod4_add.
  - intros ->. assert (o = align_offset (b_addr h)) by done. rewrite Hau, Hab, H.
    assert (Hinh : h ∈ l1 ++ h :: l2) by set_solver.
    destruct (blk_range _ _ _ _ Hst1 Hinh) as (Q1 & Q2 & Q3 & _ & _ & Q6 & _).
    destruct (align_offset_spec (b_addr h)) as (_ & O2 & _); [hlia|hlia|].
    replace (b_addr h + align_offset (b_addr h) + sizeof_header)
      with (b_addr h + 20 + align_offset (b_addr h)) by (unfold sizeof_header; lia). done.
  - rewrite !used_of_app, used_of_cons_used, used_of_app by done. rewrite F2, G2. simpl.
    rewrite <- Hus, used_of_app. by rewrite <- Permutation_middle.
Qed.

Lemma align_block_panics s l1 b l2 fl :
  heap_st s (l1 ++ b :: l2) fl -> 0 < align_offset (b_addr b) < 36 ->
  align_block junk (b_addr b) s = Stop Panic.
Proof.
  intros _ Ho. unfold align_block. cbv zeta. destruct (Z.ltb_spec 0 (align_offset (b_addr b))); [|lia].
  apply bind_stop. destruct (Z.leb_spec MIN_TOTAL (align_offset (b_addr b))); [hlia|done].
Qed.

(** The one case in which an allocation halts the kernel: a page-aligned
    request that no free block satisfies, when the last block is free and
    starts less than 36 bytes before the place its tags would need. *)
Definition alloc_stuck (bs fl : list blk) (align : bool) (size : Z) : Prop :=
  align = true /\ Forall (fun b => blk_fits true (block_size size) b = false) fl /\
  exists l1 b, bs = l1 ++ [b] /\ b_st b = BFree /\ 0 < align_offset (b_addr b) < 36.

Lemma alloc_spec s bs fl size align :
  heap_ok s bs fl -> 0 <= size < 2 ^ 31 -> hp_end s + size + 8192 + 64 <= 2 ^ 32 - 4096 ->
  (exists p s', alloc junk size align s = Ok (p, s') /\ allocated size align bs p s') \/
  (alloc junk size align s = Stop Panic /\ alloc_stuck bs fl align size).
Proof.
  intros Hok Hs Hend. assert (Hst := proj1 Hok). destruct (block_size_spec size Hs) as (B1 & B2 & B3).
  unfold alloc. cbv zeta. mgo. mrun (fl_first _ _ _ Hst).
  destruct (find_fit_spec s bs align (block_size size) (list_fuel s) [] fl Hst (fl_fuel _ _ _ Hst))
    as [[E Hall]|(g1 & b & g2 & -> & E & Hfit & Hall)]; mrun E.
  - destruct (extend_hand s bs fl align (block_size size) Hok) as (s1 & h & E1 & Hh & Hcase); [lia|done|lia|].
    mrun E1.
    destruct (decide (align = true /\ 0 < align_offset (b_addr h) < 36)) as [[-> Hbad]|Hgood].
    + right. destruct Hcase as [Hc|(l1 & b & -> & Hb & Hab)]; [lia|].
      destruct Hh as (k1 & k2 & fl' & Hst' & _). split.
      * apply bind_stop. by eapply align_block_panics.
      * split_and!; [done|done|]. exists l1, b. by rewrite <- Hab.
    + left. apply (carve_spec s s1 bs h size align Hh Hs). intros ->.
      assert (Hin : exists bs' fl', heap_st s1 bs' fl' /\ h ∈ bs').
      { destruct Hh as (k1 & k2 & fl' & Hst' & _). exists (k1 ++ h :: k2), fl'. split; [done|set_solver]. }
      destruct Hin as (bs' & fl' & Hst' & Hin). destruct (blk_range _ _ _ _ Hst' Hin) as (R1 & R2 & R3 & R4 & R5 & R6 & R7).
      destruct (align_offset_spec (b_addr h)) as (O1 & _ & _); [hlia|hlia|]. lia.
  - left. destruct (take_free s bs _ b align (block_size size) Hok) as (s1 & E1 & Hh & Hoff);
      [set_solver|lia|done|]. rewrite bind_assoc. mrun E1. mgo.
    apply (carve_spec s s1 bs (set_st BHand b) size align Hh Hs Hoff).
Qed.

(** Growing moves the end by whole pages and asks for exactly those. *)
Lemma sbrk_grown s inc r s' :
  end_ok (hp_end s) -> 0 < inc -> hp_end s + inc <= 2 ^ 32 - 4096 -> sbrk inc s = Ok (r, s') ->
  grown s s' /\ hp_end s' < hp_end s + inc + 4096.
Proof.
  intros [He1 He2] Hi Hb. destruct (align_addr_spec (hp_end s + inc)) as (A1 & A2 & A3); [hlia|].
  unfold sbrk. mgo. cbv zeta. rewrite (u32_small (hp_end s + inc)) by hlia. rewrite u32_small by hlia.
  unfold page_call_log, set_end. mgo. intros E. injection E as _ <-. simpl.
  set (ne := align_addr (hp_end s + inc)) in *. rewrite !shiftr_div by lia. change (2 ^ 12) with 4096.
  assert (Hd : (ne - hp_end s) mod 4096 = 0) by (rewrite Zminus_mod, A2, He2; done).
  pose proof (Z.div_mod (ne - hp_end s) 4096 ltac:(lia)) as Hdm.
  split; [|simpl; lia]. split; [done|]. exists ((ne - hp_end s) / 4096). simpl. split_and!; [lia|lia|]. destruct (Z.eqb_spec ((ne - hp_end s) / 4096) 0); [lia|done].
Qed.

Lemma extend_grown s align size h s' :
  end_ok (hp_end s) -> 0 < size -> hp_end s + size + 4096 <= 2 ^ 32 - 4096 ->
  extend junk align size s = Ok (h, s') -> grown s s' /\ hp_end s' < hp_end s + size + 8192.
Proof.
  intros He Hs Hb. unfold extend. mgo. cbv zeta. assert (HB : 0 < HEAP_BASE) by done.
  intros (f & s1 & E1 & (u & s2 & E2 & (r & s3 & E3 & E)%bind_inv)%bind_inv)%bind_inv.
  destruct (quiet_get_ftr _ _ _ _ E1) as [H1 _], (quiet_asserth _ _ _ _ E2) as [H2 _].
  assert (Hu : 0 < u32 (size + (if align then 0x1000 else 0)) <= size + 4096).
  { destruct He. destruct align; rewrite u32_small by hlia; lia. }
  destruct (sbrk_grown s2 _ _ _ ltac:(by rewrite H2, H1) (proj1 Hu) ltac:(rewrite H2, H1; lia) E3) as [G Gb].
  match type of E with ?c s3 = _ => assert (Hq : quiet c) by quiet end. destruct (Hq _ _ _ E) as [Hq1 Hq2].
  split; [|rewrite H2, H1 in Gb; lia]. eapply grown_quiet; [exact Hq|exact E|].
  by eapply grown_quiet_l, grown_quiet_l; [|exact E1| |exact E2|exact G]; eauto with quiet.
Qed.

Lemma alloc_grown s bs fl size align p s' :
  heap_st s bs fl -> 0 <= size < 2 ^ 31 -> hp_end s + size + 8192 + 64 <= 2 ^ 32 - 4096 ->
  alloc junk size align s = Ok (p, s') -> grown s s' /\ hp_end s' <= hp_end s + size + 8192 + 64.
Proof.
  intros (_ & He & _) Hs Hb. destruct (block_size_spec size Hs) as (B1 & B2 & B3).
  unfold alloc. cbv zeta. mgo.
  intros (l & s1 & E1 & (fo & s2 & E2 & (h & s3 & E3 & E)%bind_inv)%bind_inv)%bind_inv.
  destruct (quiet_hdr_next _ _ _ _ E1) as [H1 _], (quiet_find_fit _ _ _ _ _ _ _ E2) as [H2 _].
  match type of E with ?c s3 = _ => assert (Hq : quiet c) by quiet end. destruct (Hq _ _ _ E) as [Hq1 Hq2].
  assert (G : grown s2 s3 /\ hp_end s3 <= hp_end s2 + size + 8192 + 64).
  { destruct fo as [a|].
    - assert (Hr : quiet (hdr_remove (LNode a);;; ret a)) by quiet. destruct (Hr _ _ _ E3) as (H3 & H3' & H3'').
      split; [|lia]. split; [done|]. exists 0. rewrite H3, H3', app_nil_r. split_and!; [lia|lia|done].
    - destruct (extend_grown s2 align (block_size size) h s3) as [? ?]; [by rewrite H2, H1|lia|rewrite H2, H1; lia|done|].
      split; [done|lia]. }
  destruct G as [G ?]. split; [|rewrite Hq1; lia]. eapply grown_quiet; [exact Hq|exact E|].
  by eapply grown_quiet_l, grown_quiet_l; [|exact E1| |exact E2|exact G]; eauto with quiet.
Qed.

(** C8: [alloc] keeps the heap well formed (boundary tags, sorted and complete
    free list, no two neighbouring free blocks) and returns a pointer,
    4-byte aligned and page aligned on demand, to the payload of a block that
    was not in use, is large enough and becomes used; every other used block
    is left alone.  The end of the heap moves up by whole pages, and exactly
    those are asked for.  The only failure is the halt described by
    [alloc_stuck]. *)
Theorem heap_alloc_correct s bs fl size align :
  heap_ok s bs fl -> 0 <= size < 2 ^ 31 -> hp_end s + size + 8192 + 64 <= 2 ^ 32 - 4096 ->
  (exists p s', alloc junk size align s = Ok (p, s') /\ allocated size align bs p s' /\ grown s s') \/
  (alloc junk size align s = Stop Panic /\ alloc_stuck bs fl align size).
Proof.
  intros Hok Hs He. destruct (alloc_spec s bs fl size align Hok Hs He) as [(p & s' & E & Ha)|?]; [left|by right].
  exists p, s'. split_and!; [done|done|]. by apply (alloc_grown s bs fl size align p s' (proj1 Hok)).
Qed.

End heap_ops.
