(* ===== verification/HeapFree.v ===== *)
(** * Releasing heap blocks

    [free] coalesces the block with its free neighbours, gives pages at the end
    of the heap back, and puts what is left on the free list.  Then the
    theorems about sequences of heap operations. *)

From S2P Require Import Prelude Dll LinkedList MemLayout Heap HeapSpec HeapOps.
From stdpp Require Import gmap list sorting.
#[local] Open Scope Z_scope.

Section heap_free.
Variable junk : link nptr.

Lemma list_snoc_case {A} (l : list A) : l = [] \/ exists l' x, l = l' ++ [x].
Proof.
  destruct l as [|y l]; [by left|]. right.
  destruct (exists_last (l := y :: l)) as (l' & x & ->); [done|]. by exists l', x.
Qed.

(** While it is being merged, a block's header has its size and its footer
    carries the magic, but the two need not point at each other. *)
Definition raw_tags (s : heap) (b : blk) : Prop :=
  (exists u, hp_hdr s !! b_addr b = Some (Hdr HEAP_HEADER_MAGIC (b_size b) u)) /\
  (exists x, hp_ftr s !! b_foot b = Some (Ftr HEAP_FOOTER_MAGIC x)) /\
  is_Some (hp_links s !! b_ptr b).

Lemma used_to_raw s l1 b l2 fl :
  heap_st s (l1 ++ b :: l2) fl -> b_st b = BUsed ->
  heap_st s (l1 ++ set_st BRaw b :: l2) fl /\ raw_tags s (set_st BRaw b).
Proof.
  intros Hst Hb. assert (Hin : b ∈ l1 ++ b :: l2) by set_solver.
  destruct (blk_range _ _ _ _ Hst Hin) as (R1 & R2 & R3 & R4 & R5 & R6 & R7).
  destruct (blk_tags _ _ _ _ Hst Hin ltac:(by rewrite Hb)) as [Th Tf].
  split.
  - apply (heap_st_replace1 s s l1 b [set_st BRaw b] l2 fl Hst); try done.
    + by rewrite Hb.
    + by repeat constructor.
    + by apply Forall_singleton.
    + by apply Forall_singleton.
  - split_and!; [by eexists|by eexists|]. destruct Hst as (_ & _ & _ & Hl & _).
    rewrite Forall_forall in Hl. apply (Hl b Hin). by rewrite Hb.
Qed.

(** The neighbours on the free list are never null. *)
Lemma fl_prev s bs fl b :
  heap_st s bs fl -> b ∈ fl -> exists q, hdr_prev (b_ptr b) s = Ok (q, s) /\ q <> null.
Proof.
  intros Hst Hb. apply list_elem_of_split in Hb as (g1 & g2 & ->).
  assert (Hring : ring (hp_links s) LNil (b_ptr <$> g1 ++ b :: g2)) by apply Hst.
  rewrite fmap_app in Hring.
  pose proof (ring_prev _ _ _ (b_ptr <$> b :: g2) (b_ptr b) Hring eq_refl) as Hp.
  destruct (last (LNil :: (b_ptr <$> g1))) as [q|] eqn:El; [|by apply last_None in El].
  exists q. split; [by apply prevof_run|]. intros ->.
  apply last_Some_elem_of in El. apply elem_of_cons in El as [|El]; [done|].
  apply list_elem_of_fmap in El as (c & Hc & Hin). injection Hc as Hc.
  destruct (free_in _ _ _ c Hst) as [Hcin _]; [set_solver|].
  destruct (blk_range _ _ _ _ Hst Hcin) as (R1 & _). hlia.
Qed.

(** The two neighbours in memory. *)
Lemma tiles_right s l1 b l2 fl :
  heap_st s (l1 ++ b :: l2) fl ->
  match l2 with [] => b_addr b + b_size b = hp_end s | r :: _ => b_addr b + b_size b = b_addr r end.
Proof.
  intros (Ht & _). apply tiles_app in Ht as (m & _ & Hab & _ & _ & Ht).
  destruct l2; simpl in Ht; [lia|]. destruct Ht as [-> _]. lia.
Qed.

Lemma tiles_left s l1 r b l2 fl :
  heap_st s ((l1 ++ [r]) ++ b :: l2) fl -> b_addr r + b_size r = b_addr b.
Proof.
  intros (Ht & _). rewrite <- app_assoc in Ht. apply tiles_app in Ht as (m & _ & Hab & _ & _ & Ht).
  simpl in Ht. destruct Ht as [-> _]. lia.
Qed.

Lemma free_listed s bs fl r : heap_st s bs fl -> r ∈ bs -> b_st r = BFree -> r ∈ fl.
Proof.
  intros Hst Hin Hf. assert (Hperm : fl ≡ₚ free_of bs) by apply Hst. rewrite Hperm. unfold free_of. by apply list_elem_of_filter.
Qed.

(** The tags of [b] are stretched over its right neighbour [r], which has left
    the free list. *)
Lemma absorb_right s l1 b r l2 fl' lk u :
  heap_st (with_links lk s) (l1 ++ b :: set_st BHand r :: l2) fl' -> b_st b = BRaw ->
  hp_hdr s !! b_addr b = Some (Hdr HEAP_HEADER_MAGIC (b_size b) u) ->
  (exists x, hp_ftr s !! b_foot r = Some (Ftr HEAP_FOOTER_MAGIC x)) -> is_Some (lk !! b_ptr b) ->
  let b' := Blk (b_addr b) (b_size b + b_size r) BRaw in
  let s1 := with_hdr (<[b_addr b := Hdr HEAP_HEADER_MAGIC (b_size b + b_size r) u]> (hp_hdr s)) s in
  let s2 := with_hdr (<[b_addr r := Hdr HEAP_HEADER_RM_MAGIC (b_size r) false]> (hp_hdr s1)) (with_links lk s1) in
  heap_st s2 (l1 ++ b' :: l2) fl' /\ raw_tags s2 b'.
Proof.
  intros Hst Hb Th [x Rf] Tl b' s1 s2. pose proof (tiles_right _ _ _ _ _ Hst) as Hr. cbn in Hr.
  destruct (blk_range _ _ _ b Hst ltac:(set_solver)) as (R1 & R2 & R3 & R4 & R5 & R6 & R7).
  destruct (blk_range _ _ _ (set_st BHand r) Hst ltac:(set_solver)) as (Q1 & Q2 & Q3 & Q4 & Q5 & _). cbn in Q1, Q2, Q3, Q4, Q5.
  split.
  - apply (heap_st_replace (with_links lk s) s2 l1 [b; set_st BHand r] [b'] l2 fl'
             (b_addr b) (b_addr b + b_size b + b_size r) (b_addr b + b_size b + b_size r)); try done.
    + destruct Hst as (Ht & _). apply tiles_app in Ht as (m & Ht1 & Hab & _). by subst m.
    + simpl. split_and!; try done; try hlia. by apply mod4_add.
    + destruct Hst as (Ht & _). apply tiles_app in Ht as (m & Ht1 & Hab & _ & _ & _ & _ & _ & Ht2). by subst m.
    + apply Hst.
    + repeat constructor; [by rewrite Hb|done].
    + by repeat constructor.
    + intros y Hy. simpl. rewrite !lookup_insert_ne by hlia. done.
    + by right.
    + by apply Forall_singleton.
    + by apply Forall_singleton.
  - split_and!.
    + exists u. simpl. rewrite lookup_insert_ne, lookup_insert_eq by hlia. done.
    + exists x. unfold b_foot. simpl.
      replace (b_addr b + (b_size b + b_size r) - sizeof_footer) with (b_foot r) by (unfold b_foot; lia). exact Rf.
    + exact Tl.
Qed.

(** A state change that touches only the range of a block keeps the rest. *)
Lemma merge_right_spec s l1 b l2 fl :
  heap_st s (l1 ++ b :: l2) fl -> b_st b = BRaw -> raw_tags s b -> Forall settled l2 ->
  exists s' fl' b' l2', merge_right (b_addr b) (b_foot b) s = Ok (b_foot b', s') /\
    heap_st s' (l1 ++ b' :: l2') fl' /\ b_st b' = BRaw /\ raw_tags s' b' /\ b_addr b' = b_addr b /\
    (l2' = l2 /\ match l2 with [] => True | r :: _ => b_st r = BUsed end \/
     exists r, l2 = r :: l2' /\ b_st r = BFree).
Proof.
  intros Hst Hb ((u & Th) & (x & Tf) & Tl) S2. pose proof (tiles_right _ _ _ _ _ Hst) as Hr.
  assert (Hin : b ∈ l1 ++ b :: l2) by set_solver.
  destruct (blk_range _ _ _ _ Hst Hin) as (R1 & R2 & R3 & R4 & R5 & R6 & R7).
  unfold merge_right. mgo. mrun (get_hdr_run _ _ _ Th). cbv zeta. cbn [h_size].
  rewrite (u32_small (b_addr b + b_size b)) by hlia.
  destruct l2 as [|r l2].
  { rewrite Hr, Z.ltb_irrefl. exists s, fl, b, []. split_and!; try done; [|by left].
    split_and!; [by eexists|by eexists|done]. }
  rewrite Hr. assert (Hinr : r ∈ l1 ++ b :: r :: l2) by set_solver.
  destruct (blk_range _ _ _ _ Hst Hinr) as (Q1 & Q2 & Q3 & Q4 & Q5 & _).
  apply Forall_cons in S2 as [Sr S2].
  destruct (blk_tags _ _ _ _ Hst Hinr (settled_raw _ Sr)) as [Rh Rf].
  destruct (Z.ltb_spec (b_addr r) (hp_end s)); [|lia].
  mrun (get_hdr_run _ _ _ Rh). cbn [h_magic h_size h_used]. rewrite Z.eqb_refl.
  rewrite (u32_small (b_addr r + b_size r - sizeof_footer)) by hlia. fold (b_foot r).
  assert (Hlr : is_Some (hp_links s !! b_ptr r)).
  { destruct Hst as (_ & _ & _ & Hl & _). rewrite Forall_forall in Hl. apply (Hl r Hinr). by apply settled_raw. }
  destruct Sr as [Hu|Hf].
  - exists s, fl, b, (r :: l2).
    split; [|split_and!; try done; [split_and!; [by eexists|by eexists|done]|by left]].
    destruct Hlr as [c Hc]. change (LNode (b_addr r)) with (b_ptr r).
    rewrite (bind_ok _ _ _ _ _ (prevof_run s (b_ptr r) (prev c) ltac:(unfold prevof; by rewrite Hc))).
    destruct (negb _); [|done]. mrun (get_ftr_run _ _ _ Rf). cbn [f_magic f_header].
    rewrite !Z.eqb_refl. unfold b_flag. rewrite Hu. done.
  - destruct (fl_prev _ _ _ _ Hst (free_listed _ _ _ _ Hst Hinr Hf)) as (q & Eq & Hq). change (LNode (b_addr r)) with (b_ptr r).
    mrun Eq. rewrite bool_decide_eq_false_2 by done. cbn [negb].
    mrun (get_ftr_run _ _ _ Rf). cbn [f_magic f_header]. rewrite !Z.eqb_refl. unfold b_flag. rewrite Hf.
    cbn [andb negb]. rewrite (u32_small (b_size b + b_size r)) by hlia.
    mrun (set_hsize_run _ _ (b_size b + b_size r) _ Th). cbn [h_magic h_used].
    replace (l1 ++ b :: r :: l2) with ((l1 ++ [b]) ++ r :: l2) in Hst by (by rewrite <- app_assoc).
    destruct (hdr_remove_spec s _ r l2 fl Hst Hf) as (lk & fl' & Er & Hst1 & Hdom).
    set (s1 := with_hdr _ s). mrun (hdr_remove_links _ s s1 lk eq_refl Er).
    assert (Rh2 : hp_hdr (with_links lk s1) !! b_addr r = Some (Hdr HEAP_HEADER_MAGIC (b_size r) false)).
    { simpl. rewrite lookup_insert_ne by hlia. rewrite Rh. unfold b_flag. by rewrite Hf. }
    mrun (set_hmagic_run _ _ HEAP_HEADER_RM_MAGIC _ Rh2). cbn [h_size h_used].
    rewrite <- app_assoc in Hst1. simpl in Hst1.
    destruct (absorb_right s l1 b r l2 fl' lk u Hst1 Hb Th (ex_intro _ _ Rf) (Hdom _ Tl)) as [Hst2 Ht2].
    eexists _, fl', _, l2. split; [|split; [exact Hst2|split; [done|split; [exact Ht2|split; [done|right; by exists r]]]]].
    unfold b_foot, ret. simpl. do 2 f_equal. lia.
Qed.

(** Likewise for a left neighbour, whose tags are stretched over [b]. *)
Lemma absorb_left s l0 r b l2 fl' lk :
  heap_st (with_links lk s) (l0 ++ set_st BHand r :: b :: l2) fl' -> b_st b = BRaw -> is_Some (lk !! b_ptr r) ->
  (exists x, hp_ftr s !! b_foot b = Some (Ftr HEAP_FOOTER_MAGIC x)) ->
  let b' := Blk (b_addr r) (b_size r + b_size b) BRaw in
  forall u v, let s1 := with_hdr (<[b_addr r := Hdr HEAP_HEADER_MAGIC (b_size r + b_size b) u]> (hp_hdr (with_links lk s))) (with_links lk s) in
  let s2 := with_ftr (<[b_foot r := v]> (hp_ftr s1)) s1 in
  heap_st s2 (l0 ++ b' :: l2) fl' /\ raw_tags s2 b'.
Proof.
  intros Hst Hb Tl [x Tf] b' u v s1 s2. pose proof (tiles_right _ _ _ _ _ Hst) as Hr. cbn in Hr.
  destruct (blk_range _ _ _ b Hst ltac:(set_solver)) as (R1 & R2 & R3 & R4 & R5 & R6 & R7).
  destruct (blk_range _ _ _ (set_st BHand r) Hst ltac:(set_solver)) as (Q1 & Q2 & Q3 & Q4 & Q5 & _). cbn in Q1, Q2, Q3, Q4, Q5.
  split.
  - apply (heap_st_replace (with_links lk s) s2 l0 [set_st BHand r; b] [b'] l2 fl'
             (b_addr r) (b_addr b + b_size b) (b_addr b + b_size b)); try done.
    + destruct Hst as (Ht & _). apply tiles_app in Ht as (m & Ht1 & Hab & _). by subst m.
    + simpl. split_and!; try done; hlia.
    + simpl. split_and!; try done; try hlia. by apply mod4_add.
    + destruct Hst as (Ht & _). apply tiles_app in Ht as (m & Ht1 & Hab & _ & _ & _ & _ & _ & Ht2).
      simpl in *. subst m. rewrite Hr in Ht2. done.
    + apply Hst.
    + repeat constructor; [done|by rewrite Hb].
    + by repeat constructor.
    + intros y Hy. simpl. rewrite !lookup_insert_ne by hlia. done.
    + intros y Hy. simpl. rewrite lookup_insert_ne by (unfold b_foot; hlia). done.
    + by right.
    + by apply Forall_singleton.
    + by apply Forall_singleton.
  - split_and!.
    + exists u. simpl. by rewrite lookup_insert_eq.
    + exists x. unfold b_foot. simpl. rewrite lookup_insert_ne by (unfold b_foot; lia).
      replace (b_addr r + (b_size r + b_size b) - sizeof_footer) with (b_foot b) by (unfold b_foot; lia). done.
    + exact Tl.
Qed.

Lemma merge_left_spec s l1 b l2 fl :
  heap_st s (l1 ++ b :: l2) fl -> b_st b = BRaw -> raw_tags s b -> Forall settled l1 ->
  exists s' fl' b' l1', merge_left (b_addr b) s = Ok (b_addr b', s') /\
    heap_st s' (l1' ++ b' :: l2) fl' /\ b_st b' = BRaw /\ raw_tags s' b' /\ b_foot b' = b_foot b /\
    (l1' = l1 /\ match last l1 with None => True | Some r => b_st r = BUsed end \/
     exists r, l1 = l1' ++ [r] /\ b_st r = BFree).
Proof.
  intros Hst Hb (Th & Tf & Tl) S1. assert (Hin : b ∈ l1 ++ b :: l2) by set_solver.
  destruct (blk_range _ _ _ _ Hst Hin) as (R1 & R2 & R3 & R4 & R5 & R6 & R7).
  unfold merge_left. cbv zeta. rewrite (u32_small (HEAP_BASE + MIN_TOTAL)) by hlia.
  destruct (list_snoc_case l1) as [->|(l0 & r & ->)].
  { destruct (Z.leb_spec (HEAP_BASE + MIN_TOTAL) (b_addr b)) as [Hle|_].
    - destruct Hst as (Ht & _). simpl in Ht. hlia.
    - exists s, fl, b, []. split_and!; try done. by left. }
  pose proof (tiles_left _ _ _ _ _ _ Hst) as Hr. assert (Hinr : r ∈ (l0 ++ [r]) ++ b :: l2) by set_solver.
  destruct (blk_range _ _ _ _ Hst Hinr) as (Q1 & Q2 & Q3 & Q4 & Q5 & _).
  apply Forall_app in S1 as [S0 Sr]. rewrite Forall_singleton in Sr.
  destruct (blk_tags _ _ _ _ Hst Hinr (settled_raw _ Sr)) as [Rh Rf].
  destruct (Z.leb_spec (HEAP_BASE + MIN_TOTAL) (b_addr b)) as [_|Hlt]; [|hlia].
  rewrite (u32_small (b_addr b - sizeof_footer)) by hlia.
  replace (b_addr b - sizeof_footer) with (b_foot r) by (unfold b_foot; lia).
  mrun (get_ftr_run _ _ _ Rf). cbn [f_magic f_header]. rewrite Z.eqb_refl.
  mrun (get_hdr_run _ _ _ Rh). cbn [h_magic h_size h_used]. rewrite Z.eqb_refl. unfold b_flag.
  destruct Sr as [Hu|Hf].
  { rewrite Hu. cbn [andb negb]. exists s, fl, b, (l0 ++ [r]). split_and!; try done.
    left. by rewrite last_snoc. }
  rewrite Hf. cbn [andb negb].
  destruct (fl_prev _ _ _ _ Hst (free_listed _ _ _ _ Hst Hinr Hf)) as (q & Eq & Hq). change (LNode (b_addr r)) with (b_ptr r).
  mrun Eq. rewrite bool_decide_eq_false_2 by done. rewrite (u32_small (b_addr r + b_size r)) by hlia.
  rewrite Hr, Z.eqb_refl. cbn [andb negb]. rewrite <- app_assoc in Hst.
  destruct (hdr_remove_spec s l0 r ([b] ++ l2) fl Hst Hf) as (lk & fl' & Er & Hst1 & Hdom). mrun Er.
  destruct Th as [u Th]. mrun (get_hdr_run (b_addr b) _ (with_links lk s) Th). cbn [h_size].
  rewrite (u32_small (b_size r + b_size b)) by hlia.
  mrun (set_hsize_run (b_addr r) _ (b_size r + b_size b) (with_links lk s) Rh). cbn [h_magic h_used].
  rewrite (bind_ok _ _ _ _ _ (put_ftr_run _ _ _)).
  assert (Hlr : is_Some (lk !! b_ptr r)).
  { apply Hdom. destruct Hst as (_ & _ & _ & Hl & _). rewrite Forall_forall in Hl. apply (Hl r); [set_solver|by rewrite Hf]. }
  edestruct (absorb_left s l0 r b l2 fl' lk Hst1 Hb Hlr Tf) as [Hst2 Ht2].
  eexists _, fl', _, l0. split; [|split; [exact Hst2|split; [done|split; [exact Ht2|split; [unfold b_foot; simpl; lia|right; by exists r]]]]].
  done.
Qed.

(** ** Releasing pages *)

Lemma srel_loop_run (k : nat) i e s fuel :
  e = i + 4096 * Z.of_nat k -> 0 <= i -> e <= 2 ^ 32 - 4096 -> (k <= fuel)%nat ->
  srel_loop fuel i e s =
    Ok (tt, Heap (hp_links s) (hp_hdr s) (hp_ftr s) (hp_end s) (hp_online s)
              (hp_calls s ++ ((fun j => ReleasePage (i + 4096 * Z.of_nat j)) <$> seq 0 k))).
Proof.
  revert i s fuel. induction k as [|k IH]; intros i s fuel He Hi Hb Hf; destruct fuel as [|fuel]; cbn [srel_loop].
  - destruct (Z.ltb_spec i e); [lia|]. simpl. rewrite app_nil_r. by destruct s.
  - destruct (Z.ltb_spec i e); [lia|]. simpl. rewrite app_nil_r. by destruct s.
  - lia.
  - destruct (Z.ltb_spec i e); [|lia]. unfold page_call_log at 1. mgo.
    rewrite (u32_small (i + 4096)) by lia. rewrite IH by lia. simpl. rewrite <- app_assoc. simpl.
    do 5 f_equal; [f_equal; lia|]. rewrite <- fmap_S_seq, <- list_fmap_compose. apply list_fmap_ext.
    intros ? j _. simpl. f_equal. lia.
Qed.

(** Shrinking to a page boundary [ne] below the end. *)
Lemma srel_run s dec ne :
  end_ok (hp_end s) -> ne = hp_end s - dec -> 0 <= ne <= hp_end s -> ne mod 4096 = 0 ->
  exists cs, srel dec s = Ok (dec, Heap (hp_links s) (hp_hdr s) (hp_ftr s) ne (hp_online s) (hp_calls s ++ cs)) /\
    exists k : nat, hp_end s = ne + 4096 * Z.of_nat k /\
      cs = (fun j => ReleasePage (ne + 4096 * Z.of_nat j)) <$> seq 0 k.
Proof.
  intros [He1 He2] Hne Hr Hm. unfold srel. mgo. cbv zeta.
  rewrite (u32_small (hp_end s - dec)) by hlia. rewrite <- Hne, align_addr_id by (try done; hlia).
  rewrite (u32_small (hp_end s - ne)) by hlia.
  assert (Hd : (hp_end s - ne) mod 4096 = 0) by (rewrite Zminus_mod, He2, Hm; done).
  pose proof (Z.div_mod (hp_end s - ne) 4096 ltac:(lia)) as Hdm.
  set (k := Z.to_nat ((hp_end s - ne) / 4096)).
  assert (Hk : hp_end s = ne + 4096 * Z.of_nat k).
  { subst k. rewrite Z2Nat.id by (apply Z.div_pos; lia). lia. }
  assert (E := srel_loop_run k ne (hp_end s) s (Z.to_nat ((hp_end s - ne) / 4096 + 1)) Hk
                 ltac:(lia) ltac:(hlia) ltac:(unfold k; lia)).
  eexists. split; [|by exists k]. mrun E.
  unfold set_end. mgo. unfold ret. simpl. do 2 f_equal. lia.
Qed.

(** Where the part that is given back starts when the header is not on a page
    boundary: far enough behind it for a block of the least size. *)
Lemma release_start a : HEAP_BASE <= a -> a <= 2 ^ 32 - 2 ^ 20 -> a mod 4 = 0 ->
  let o := align_offset a in
  let st := u32 (u32 (a + sizeof_header) + o) in
  let start := if o <? MIN_BLOCK_SIZE + sizeof_footer then u32 (st + 0x1000) else st in
  exists d, start = a + d /\ 36 <= d <= 8212 /\ d mod 4 = 0 /\ start mod 4096 = 0.
Proof.
  intros H1 H2 H4 o st start. destruct (align_offset_spec a) as (O1 & O2 & O3); [hlia|hlia|].
  pose proof (align_offset_mod4 a ltac:(hlia) ltac:(hlia) H4) as O4. fold o in O1, O2, O3, O4.
  assert (Est : st = a + sizeof_header + o) by (unfold st; rewrite (u32_small (a + sizeof_header)), u32_small by hlia; lia).
  unfold start. rewrite Est. destruct (Z.ltb_spec o (MIN_BLOCK_SIZE + sizeof_footer)).
  - exists (20 + o + 4096). rewrite u32_small by hlia. unfold sizeof_header in *. split_and!; try hlia.
    + apply mod4_add; [by apply mod4_add|done].
    + rewrite <- (Z.mod_add _ (-1)) by lia. rewrite <- O2. f_equal. lia.
  - exists (20 + o). unfold sizeof_header in *. split_and!; try hlia. by apply mod4_add.
Qed.

(** The last block is cut off at the new end of the heap. *)
Lemma cut_last s l1 b fl d u (calls : list page_call) :
  heap_st s (l1 ++ [b]) fl -> b_st b = BRaw -> hp_end s = b_addr b + b_size b ->
  36 <= d <= b_size b -> d mod 4 = 0 -> (b_addr b + d) mod 4096 = 0 -> HEAP_BASE + HEAP_INIT_SIZE < b_addr b ->
  is_Some (hp_links s !! b_ptr b) ->
  let b' := Blk (b_addr b) d BRaw in
  let s1 := Heap (hp_links s) (hp_hdr s) (hp_ftr s) (b_addr b + d) (hp_online s) calls in
  let s2 := with_hdr (<[b_addr b := Hdr HEAP_HEADER_MAGIC d u]> (hp_hdr s)) s1 in
  let s3 := with_ftr (<[b_addr b + d - sizeof_footer := Ftr HEAP_FOOTER_MAGIC (b_addr b)]> (hp_ftr s)) s2 in
  heap_st s3 (l1 ++ [b']) fl /\ raw_tags s3 b'.
Proof.
  intros Hst Hb Hend Hd Hd4 Hs4 Habove Tl b' s1 s2 s3.
  destruct (blk_range _ _ _ b Hst ltac:(set_solver)) as (R1 & R2 & R3 & R4 & R5 & R6 & R7). assert (He : end_ok (hp_end s)) by apply Hst.
  split.
  - apply (heap_st_replace s s3 l1 [b] [b'] [] fl (b_addr b) (hp_end s) (b_addr b + d)); try done.
    + destruct Hst as (Ht & _). apply tiles_app in Ht as (m & Ht1 & Hab & _). by subst m.
    + simpl. split_and!; try done; hlia.
    + split; [simpl; hlia|done].
    + repeat constructor. by rewrite Hb.
    + by repeat constructor.
    + intros y [Hy|[_ ?]]; [|done]. simpl. by rewrite lookup_insert_ne by hlia.
    + intros y [Hy|[_ ?]]; [|done]. simpl. by rewrite lookup_insert_ne by hlia.
    + by left.
    + by apply Forall_singleton.
    + by apply Forall_singleton.
  - split_and!; [| |done].
    + exists u. simpl. by rewrite lookup_insert_eq.
    + exists (b_addr b). unfold b_foot. simpl. by rewrite lookup_insert_eq.
Qed.

Lemma release_spec s l1 b l2 fl :
  heap_st s (l1 ++ b :: l2) fl -> b_st b = BRaw -> raw_tags s b ->
  (exists s', release (b_addr b) (b_foot b) s = Ok (None, s') /\ l2 = [] /\ heap_st s' l1 fl /\ shrunk s s') \/
  (exists s' b', release (b_addr b) (b_foot b) s = Ok (Some (b_foot b'), s') /\
     heap_st s' (l1 ++ b' :: l2) fl /\ b_st b' = BRaw /\ raw_tags s' b' /\ b_addr b' = b_addr b /\ shrunk s s').
Proof.
  intros Hst Hb Htags. assert (Hin : b ∈ l1 ++ b :: l2) by set_solver.
  destruct (blk_range _ _ _ _ Hst Hin) as (R1 & R2 & R3 & R4 & R5 & R6 & R7).
  pose proof (tiles_right _ _ _ _ _ Hst) as Hr. assert (He : end_ok (hp_end s)) by apply Hst.
  assert (Hsame : exists s' b', (Ok (Some (b_foot b), s) : outcome (option Z * heap)) = Ok (Some (b_foot b'), s') /\
     heap_st s' (l1 ++ b' :: l2) fl /\ b_st b' = BRaw /\ raw_tags s' b' /\ b_addr b' = b_addr b /\ shrunk s s').
  { exists s, b. split_and!; try done. apply shrunk_refl. }
  destruct Htags as ((u & Th) & (x & Tf) & Tl).
  unfold release. mgo. mrun (get_hdr_run _ _ _ Th). cbn [h_size].
  replace (u32 (b_foot b + sizeof_footer)) with (b_addr b + b_size b) by (unfold b_foot; rewrite u32_small by hlia; lia).
  destruct (Z.eqb_spec (hp_end s) (b_addr b + b_size b)) as [Hend|Hne]; [|right; done].
  destruct (Z.leb_spec MIN_SREL_SIZE (b_size b)) as [Hbig|]; [|right; done].
  destruct (Z.ltb_spec (HEAP_BASE + HEAP_INIT_SIZE) (b_addr b)) as [Habove|]; [|right; done].
  cbn [andb]. assert (l2 = []) as ->.
  { destruct l2 as [|r l2]; [done|]. exfalso.
    assert (Hinr : r ∈ l1 ++ b :: r :: l2) by set_solver.
    destruct (blk_range _ _ _ _ Hst Hinr) as (_ & Q2 & Q3 & _). lia. }
  assert (Htl : tiles HEAP_BASE l1 (b_addr b)).
  { destruct Hst as (Ht & _). apply tiles_app in Ht as (m & Ht1 & Hab & _). by subst m. }
  change MIN_SREL_SIZE with 1048576 in *.
  change 0xFFF with (2 ^ 12 - 1). rewrite land_low by lia. change (2 ^ 12) with 4096.
  destruct (Z.eqb_spec (b_addr b mod 4096) 0) as [Hal|Hnal]; cbn [negb].
  - left. destruct (srel_run s (b_size b) (b_addr b) He) as (cs & E & k & Hk & ->); [lia|hlia|done|]. mrun E.
    eexists. split; [done|]. split; [done|]. split; [|by split; [|exists k]].
    rewrite <- (app_nil_r l1). apply (heap_st_replace s _ l1 [b] [] [] fl (b_addr b) (hp_end s) (b_addr b)); try done.
    + split; [simpl; hlia|done].
    + repeat constructor. by rewrite Hb.
    + by left.
  - destruct (release_start (b_addr b)) as (d & Hsd & Hd & Hd4 & Hs4); [hlia|hlia|done|]. cbv zeta in *.
    set (start := if _ <? _ then _ else _) in *. clearbody start. subst start.
    rewrite (u32_small (hp_end s - (b_addr b + d))) by hlia.
    destruct (Z.leb_spec 1048576 (hp_end s - (b_addr b + d))) as [Hrel|]; [|right; done].
    right. destruct (srel_run s (hp_end s - (b_addr b + d)) (b_addr b + d) He) as (cs & E & k & Hk & ->); [lia|hlia|done|]. mrun E. mgo.
    set (s1 := Heap _ _ _ _ _ _). cbn [hp_end s1]. rewrite (u32_small (b_addr b + d - b_addr b)) by hlia.
    replace (b_addr b + d - b_addr b) with d by lia.
    mrun (set_hsize_run (b_addr b) _ d s1 Th). cbn [h_magic h_used].
    rewrite (u32_small (b_addr b + d - sizeof_footer)) by hlia. rewrite (bind_ok _ _ _ _ _ (put_ftr_run _ _ _)).
    destruct (cut_last s l1 b fl d u (hp_calls s1)) as [Hst' Ht']; try done; [hlia|].
    eexists _, _. split; [|split; [exact Hst'|split; [done|split; [exact Ht'|split; [done|split; [done|by exists k]]]]]].
    done.
Qed.

(** ** [free] *)

(** The tags written last make the block a proper one in hand. *)
Lemma retag_spec s l1 b l2 fl :
  heap_st s (l1 ++ b :: l2) fl -> b_st b = BRaw -> raw_tags s b ->
  exists s' fl', (f <-- get_ftr (b_foot b);; put_ftr (b_foot b) (Ftr (f_magic f) (b_addr b));;;
                  set_hused (b_addr b) false;;; insert_list (b_addr b)) s = Ok (tt, s') /\
    heap_st s' (l1 ++ set_st BFree b :: l2) fl'.
Proof.
  intros Hst Hb ((u & Th) & (x & Tf) & Tl). assert (Hin : b ∈ l1 ++ b :: l2) by set_solver.
  destruct (blk_range _ _ _ _ Hst Hin) as (R1 & R2 & R3 & R4 & R5 & R6 & R7).
  mrun (get_ftr_run _ _ _ Tf). cbn [f_magic]. rewrite (bind_ok _ _ _ _ _ (put_ftr_run _ _ _)).
  set (s1 := with_ftr _ s). mrun (set_hused_run (b_addr b) _ false s1 Th). cbn [h_magic h_size].
  set (s2 := with_hdr _ s1).
  assert (Hst2 : heap_st s2 (l1 ++ [set_st BHand b] ++ l2) fl).
  { apply (heap_st_replace1 s s2 l1 b [set_st BHand b] l2 fl Hst); try done.
    - by rewrite Hb.
    - by repeat constructor.
    - intros y Hy. simpl. by rewrite lookup_insert_ne by lia.
    - intros y Hy. simpl. by rewrite lookup_insert_ne by hlia.
    - apply Forall_singleton. intros _. split; simpl; [by rewrite lookup_insert_eq|].
      change (b_foot (set_st BHand b)) with (b_foot b). by rewrite lookup_insert_eq.
    - by apply Forall_singleton. }
  destruct (insert_list_spec s2 l1 (set_st BHand b) l2 fl Hst2 eq_refl) as (lk & fl' & E & Hst3).
  by exists (with_links lk s2), fl'.
Qed.

Lemma unused_of b st : b_st b = st -> unused b = match st with BUsed => false | _ => true end.
Proof. intros <-. unfold unused, b_flag. by destruct (b_st b). Qed.

(** The left and right parts after merging are ready for a free block between. *)
Lemma coalesced_left l1 l1' :
  coalesced false l1 ->
  (l1' = l1 /\ match last l1 with None => True | Some r => b_st r = BUsed end \/
   exists r, l1 = l1' ++ [r] /\ b_st r = BFree) ->
  coalesced false l1' /\ last_unused false l1' = false.
Proof.
  intros Hc [[-> Hl]|(r & -> & Hr)].
  - split; [done|]. unfold last_unused. destruct (last l1) as [r|]; [|done]. by rewrite (unused_of _ _ Hl).
  - apply coalesced_app in Hc as [H1 H2]. simpl in H2. rewrite (unused_of _ _ Hr), andb_true_r in H2. naive_solver.
Qed.

Lemma coalesced_right pf l2 l2' :
  coalesced pf l2 ->
  (l2' = l2 /\ match l2 with [] => True | r :: _ => b_st r = BUsed end \/
   exists r, l2 = r :: l2' /\ b_st r = BFree) ->
  coalesced true l2'.
Proof.
  intros Hc [[-> Hl]|(r & -> & Hr)].
  - destruct l2 as [|r l2]; [done|]. cbn [coalesced] in *. rewrite (unused_of _ _ Hl) in *. naive_solver.
  - simpl in Hc. rewrite (unused_of _ _ Hr) in Hc. naive_solver.
Qed.

Lemma settled_left l1 l1' (P : Prop) :
  Forall settled l1 ->
  (l1' = l1 /\ P \/ exists r, l1 = l1' ++ [r] /\ b_st r = BFree) ->
  Forall settled l1' /\ used_of l1' = used_of l1.
Proof.
  intros S [[-> _]|(r & -> & Hr)]; [done|]. apply Forall_app in S as [S _]. split; [done|].
  rewrite used_of_app, (used_of_free r Hr), app_nil_r. done.
Qed.

Lemma settled_right l2 l2' (P : Prop) :
  Forall settled l2 ->
  (l2' = l2 /\ P \/ exists r, l2 = r :: l2' /\ b_st r = BFree) ->
  Forall settled l2' /\ used_of l2' = used_of l2.
Proof.
  intros S [[-> _]|(r & -> & Hr)]; [done|]. apply Forall_cons in S as [_ S]. split; [done|].
  rewrite used_of_cons_other by (by rewrite Hr). done.
Qed.

Definition freed (bs : list blk) (b : blk) (s' : heap) : Prop :=
  exists bs' fl', heap_ok s' bs' fl' /\ used_of bs ≡ₚ b :: used_of bs'.

Lemma free_spec s bs fl b :
  heap_ok s bs fl -> b ∈ bs -> b_st b = BUsed ->
  exists s', free (b_addr b + 20) s = Ok (tt, s') /\ freed bs b s' /\ shrunk s s'.
Proof.
  intros (Hst & Hset & Hco) Hin Hb.
  destruct (blk_range _ _ _ _ Hst Hin) as (R1 & R2 & R3 & R4 & R5 & R6 & R7).
  destruct (blk_tags _ _ _ _ Hst Hin ltac:(by rewrite Hb)) as [Th Tf].
  apply list_elem_of_split in Hin as (l1 & l2 & ->).
  unfold free. mgo. destruct (Z.ltb_spec (b_addr b + 20) HEAP_BASE); [lia|].
  destruct (Z.leb_spec (hp_end s) (b_addr b + 20)); [lia|]. cbn [orb]. cbv zeta.
  replace (u32 (b_addr b + 20 - sizeof_header)) with (b_addr b)
    by (unfold sizeof_header; rewrite u32_small by hlia; lia).
  mrun (get_hdr_run _ _ _ Th). cbn [h_size h_magic h_used].
  replace (u32 (b_addr b + b_size b - sizeof_footer)) with (b_foot b)
    by (unfold b_foot; rewrite u32_small by hlia; lia).
  mrun (get_ftr_run _ _ _ Tf). cbn [f_magic f_header]. rewrite !Z.eqb_refl. unfold b_flag. rewrite Hb.
  cbn [negb orb]. rewrite Forall_app, Forall_cons in Hset. destruct Hset as (S1 & _ & S2).
  apply coalesced_app in Hco as [C1 [_ C2]].
  destruct (used_to_raw _ _ _ _ _ Hst Hb) as [Hst0 T0].
  destruct (merge_right_spec s l1 (set_st BRaw b) l2 fl Hst0 eq_refl T0 S2)
    as (s1 & fl1 & b1 & l2' & E1 & Hst1 & Hb1 & T1 & Ha1 & Hr).
  change (b_foot (set_st BRaw b)) with (b_foot b) in E1. simpl in E1, Ha1. mrun E1. rewrite <- Ha1.
  destruct (merge_left_spec s1 l1 b1 l2' fl1 Hst1 Hb1 T1 S1)
    as (s2 & fl2 & b2 & l1' & E2 & Hst2 & Hb2 & T2 & Hf2 & Hl). mrun E2. rewrite <- Hf2.
  destruct (coalesced_left _ _ C1 Hl) as [D1 D2]. pose proof (coalesced_right _ _ _ C2 Hr) as D3.
  destruct (settled_left _ _ _ S1 Hl) as [V1 U1], (settled_right _ _ _ S2 Hr) as [V2 U2].
  assert (Hused : used_of (l1 ++ b :: l2) ≡ₚ b :: used_of l1' ++ used_of l2').
  { rewrite used_of_app, used_of_cons_used, U1, U2 by done. by rewrite Permutation_middle. }
  assert (Hquiet : forall x, shrunk s2 x -> shrunk s x).
  { intros x Hx. eapply shrunk_quiet_l, shrunk_quiet_l; [|exact E1| |exact E2|exact Hx]; eauto with quiet. }
  destruct (release_spec s2 l1' b2 l2' fl2 Hst2 Hb2 T2) as [(s3 & E3 & -> & Hst3 & Hsh)|(s3 & b3 & E3 & Hst3 & Hb3 & T3 & Ha3 & Hsh)].
  - mrun E3. exists s3. split; [done|]. split; [|by apply Hquiet].
    exists l1', fl2. split; [done|]. rewrite Hused. by rewrite app_nil_r.
  - mrun E3. cbv iota. rewrite <- Ha3. destruct (retag_spec s3 l1' b3 l2' fl2 Hst3 Hb3 T3) as (s4 & fl4 & E4 & Hst4).
    exists s4. split; [exact E4|]. split; [|eapply shrunk_quiet_r; [|exact E4|by apply Hquiet]; quiet]. exists (l1' ++ set_st BFree b3 :: l2'), fl4. split.
    + split; [done|]. split.
      * rewrite Forall_app, Forall_cons. split_and!; try done. by right.
      * apply coalesced_app. split; [done|]. rewrite D2. done.
    + rewrite Hused, used_of_app, used_of_cons_other by done. done.
Qed.

(** ** Initialisation *)

Definition init_blk : blk := Blk HEAP_BASE HEAP_INIT_SIZE BFree.

Lemma heap_init_ok :
  exists s, heap_init junk heap_boot = Ok (tt, s) /\ heap_ok s [init_blk] [init_blk] /\
    hp_online s = true /\ hp_end s = HEAP_BASE + HEAP_INIT_SIZE /\
    hp_calls s = [AllocPages (HEAP_BASE / 4096) (HEAP_INIT_SIZE / 4096)].
Proof.
  eexists. split; [vm_compute; reflexivity|]. split; [|done].
  split; [|split; [apply Forall_singleton; by right|done]]. unfold heap_st. split_and!.
  - done.
  - split; [vm_compute; split; discriminate|done].
  - apply Forall_singleton. intros _. split; vm_compute; reflexivity.
  - apply Forall_singleton. intros _. vm_compute. eauto.
  - split; [vm_compute; done|]. apply NoDup_cons. split; [|apply NoDup_singleton].
    by intros ?%list_elem_of_singleton.
  - done.
  - repeat constructor.
Qed.

(** ** Sequences of operations *)

(** A state of the heap and the outstanding allocations, as pointers and
    requested sizes. *)
Inductive heap_reach : heap -> list (Z * Z) -> Prop :=
| reach_init s : heap_init junk heap_boot = Ok (tt, s) -> heap_reach s []
| reach_alloc s out size align p s' :
    heap_reach s out -> 0 <= size < 2 ^ 31 -> hp_end s + size + 8192 + 64 <= 2 ^ 32 - 4096 ->
    alloc junk size align s = Ok (p, s') -> heap_reach s' ((p, size) :: out)
| reach_free s o1 p n o2 s' :
    heap_reach s (o1 ++ (p, n) :: o2) -> free p s = Ok (tt, s') -> heap_reach s' (o1 ++ o2).

Definition serves (b : blk) (o : Z * Z) : Prop := o.1 = b_addr b + 20 /\ o.1 + o.2 <= b_foot b.

Definition heap_inv (s : heap) (out : list (Z * Z)) : Prop :=
  exists bs fl ub, heap_ok s bs fl /\ used_of bs ≡ₚ ub /\ Forall2 serves ub out.

Lemma used_in bs b : b ∈ used_of bs -> b ∈ bs /\ b_st b = BUsed.
Proof. unfold used_of. rewrite list_elem_of_filter. tauto. Qed.

Lemma Forall2_perm_r {A B} (R : A -> B -> Prop) k k' :
  k ≡ₚ k' -> forall l, Forall2 R l k -> exists l', l ≡ₚ l' /\ Forall2 R l' k'.
Proof.
  induction 1 as [|b k k' _ IH|b c k|k1 k2 k3 _ IH1 _ IH2]; intros l Hf.
  - by exists l.
  - apply Forall2_cons_inv_r in Hf as (a & r & Ha & Hr & ->). destruct (IH r Hr) as (r' & Hp & Hr').
    exists (a :: r'). split; [by constructor|by constructor].
  - apply Forall2_cons_inv_r in Hf as (a & r & Ha & Hr & ->). apply Forall2_cons_inv_r in Hr as (a' & r' & Ha' & Hr & ->).
    exists (a' :: a :: r'). split; [constructor|by repeat constructor].
  - destruct (IH1 l Hf) as (l1 & Hp1 & Hf1), (IH2 l1 Hf1) as (l2 & Hp2 & Hf2). exists l2. split; [by etrans|done].
Qed.

(** The order of the outstanding allocations does not matter. *)
Lemma heap_inv_perm s out out' : out ≡ₚ out' -> heap_inv s out -> heap_inv s out'.
Proof.
  intros Hp (bs & fl & ub & Hok & Hu & Hf).
  destruct (Forall2_perm_r _ _ _ Hp _ Hf) as (ub' & Hpu & Hf').
  exists bs, fl, ub'. split_and!; [done|by rewrite Hu, Hpu|done].
Qed.

Lemma heap_inv_alloc s out size align p s' :
  heap_inv s out -> 0 <= size < 2 ^ 31 -> hp_end s + size + 8192 + 64 <= 2 ^ 32 - 4096 ->
  alloc junk size align s = Ok (p, s') -> heap_inv s' ((p, size) :: out).
Proof.
  intros (bs & fl & ub & Hok & Hp & Hf) Hs He E.
  destruct (alloc_spec junk s bs fl size align Hok Hs He) as [(p' & s1 & E1 & Ha)|[E1 _]]; [|by rewrite E in E1].
  rewrite E in E1. injection E1 as <- <-.
  destruct Ha as (bs' & fl' & b & Hok' & Hin & Hb & Hp' & Hfit & _ & _ & Hperm).
  exists bs', fl', (b :: ub). split_and!; [done|by rewrite Hperm, Hp|]. by constructor.
Qed.

Lemma heap_inv_free s out p n :
  heap_inv s ((p, n) :: out) -> exists s', free p s = Ok (tt, s') /\ heap_inv s' out /\ shrunk s s'.
Proof.
  intros (bs & fl & ub & Hok & Hp & Hf). apply Forall2_cons_inv_r in Hf as (b & u2 & [Hpb _] & Hf2 & ->). simpl in Hpb.
  assert (Hb : b ∈ used_of bs) by (rewrite Hp; apply list_elem_of_here). apply used_in in Hb as [Hin Hb].
  destruct (free_spec s bs fl b Hok Hin Hb) as (s1 & E1 & (bs' & fl' & Hok' & Hperm) & Hsh).
  rewrite <- Hpb in E1. exists s1. split; [done|]. split; [|done]. exists bs', fl', u2. split_and!; [done| |done].
  rewrite Hp in Hperm. by apply Permutation_cons_inv in Hperm.
Qed.

Lemma heap_reach_inv s out : heap_reach s out -> heap_inv s out.
Proof.
  induction 1 as [s E|s out size align p s' _ IH Hs He E|s o1 p n o2 s' _ IH E].
  - destruct heap_init_ok as (s0 & E0 & Hok & _). rewrite E in E0. injection E0 as ->.
    exists [init_blk], [init_blk], []. split_and!; [done|done|constructor].
  - by eapply heap_inv_alloc.
  - destruct (heap_inv_free s (o1 ++ o2) p n) as (s1 & E1 & Hi & _).
    { eapply heap_inv_perm; [|exact IH]. symmetry. apply Permutation_middle. }
    rewrite E in E1. by injection E1 as <-.
Qed.

(** Two different blocks of a tiling do not meet. *)
Lemma tiles_disjoint a bs e i j b c :
  tiles a bs e -> bs !! i = Some b -> bs !! j = Some c -> (i < j)%nat -> b_addr b + b_size b <= b_addr c.
Proof.
  revert a i j. induction bs as [|d bs IH]; intros a i j; [done|].
  intros (Ha & Hs & Hm & Ht) Hi Hj Hlt. destruct j as [|j]; [lia|]. simpl in Hj.
  destruct i as [|i]; simpl in Hi.
  - injection Hi as ->. destruct (tiles_in _ _ _ c Ht) as (? & _); [by eapply list_elem_of_lookup_2|]. lia.
  - eapply IH; [done|done|done|lia].
Qed.

Lemma tiles_NoDup a bs e : tiles a bs e -> NoDup bs.
Proof.
  revert a. induction bs as [|b bs IH]; intros a; [constructor|]. intros (Ha & Hs & _ & Ht).
  apply NoDup_cons. split; [|by eapply IH]. intros Hin. destruct (tiles_in _ _ _ _ Ht Hin).
  change MIN_TOTAL with 36 in Hs. lia.
Qed.

Lemma blocks_disjoint a bs e b c :
  tiles a bs e -> b ∈ bs -> c ∈ bs -> b <> c ->
  b_addr b + b_size b <= b_addr c \/ b_addr c + b_size c <= b_addr b.
Proof.
  intros Ht [i Hi]%list_elem_of_lookup_1 [j Hj]%list_elem_of_lookup_1 Hne.
  destruct (Nat.lt_trichotomy i j) as [H|[->|H]].
  - left. by eapply tiles_disjoint.
  - by simplify_eq.
  - right. by eapply tiles_disjoint.
Qed.

Lemma outstanding_disjoint s out i j p n q m :
  heap_inv s out -> i <> j -> out !! i = Some (p, n) -> out !! j = Some (q, m) ->
  p + n + 28 <= q \/ q + m + 28 <= p.
Proof.
  intros (bs & fl & ub & Hok & Hp & Hf) Hij Hi Hj.
  destruct (Forall2_lookup_r _ _ _ _ _ Hf Hi) as (b & Hbi & Hb1 & Hb2).
  destruct (Forall2_lookup_r _ _ _ _ _ Hf Hj) as (c & Hcj & Hc1 & Hc2).
  assert (Ht : tiles HEAP_BASE bs (hp_end s)) by apply Hok.
  assert (Hnd : NoDup ub).
  { rewrite <- Hp. unfold used_of. apply NoDup_filter. by eapply tiles_NoDup. }
  assert (b <> c) as Hne by (intros ->; eauto using NoDup_lookup).
  assert (Hbin : b ∈ bs /\ c ∈ bs).
  { split; eapply used_in; rewrite Hp; by eapply list_elem_of_lookup_2. }
  destruct (blocks_disjoint _ _ _ b c Ht (proj1 Hbin) (proj2 Hbin) Hne) as [Hd|Hd];
    unfold b_foot, sizeof_footer in *; simpl in *; lia.
Qed.

Lemma outstanding_free s out p n :
  heap_inv s out -> (p, n) ∈ out ->
  (HEAP_BASE + 20 <= p /\ p + n + 8 <= hp_end s) /\ exists s', free p s = Ok (tt, s').
Proof.
  intros (bs & fl & ub & Hok & Hp & Hf) [i Hi]%list_elem_of_lookup_1.
  destruct (Forall2_lookup_r _ _ _ _ _ Hf Hi) as (b & Hbi & Hb1 & Hb2). simpl in *.
  assert (Hb : b ∈ used_of bs) by (rewrite Hp; by eapply list_elem_of_lookup_2).
  apply used_in in Hb as [Hin Hb].
  destruct (blk_range _ _ _ _ (proj1 Hok) Hin) as (R1 & R2 & _). split; [unfold b_foot, sizeof_footer in Hb2; lia|].
  destruct (free_spec s bs fl b Hok Hin Hb) as (s' & E & _). exists s'. by rewrite Hb1.
Qed.

(** C3: in every state reached from boot by allocations and by releases of
    outstanding blocks, the outstanding allocations lie inside the heap, do
    not overlap (28 bytes of tags apart), and each can be released; a further
    allocation that fits the address space is served, unless it is a
    page-aligned one that finds the last block free. *)
Theorem heap_reachable_safe s out :
  heap_reach s out ->
  (forall p n, (p, n) ∈ out -> (HEAP_BASE + 20 <= p /\ p + n + 8 <= hp_end s) /\
     exists s', free p s = Ok (tt, s')) /\
  (forall i j p n q m, i <> j -> out !! i = Some (p, n) -> out !! j = Some (q, m) ->
     p + n + 28 <= q \/ q + m + 28 <= p) /\
  (forall size align, 0 <= size < 2 ^ 31 -> hp_end s + size + 8192 + 64 <= 2 ^ 32 - 4096 ->
     (exists p s', alloc junk size align s = Ok (p, s')) \/
     align = true /\ alloc junk size align s = Stop Panic).
Proof.
  intros Hr%heap_reach_inv. split_and!.
  - intros p n Hin. by eapply outstanding_free.
  - intros i j p n q m. by apply (outstanding_disjoint s out).
  - intros size align Hs He. destruct Hr as (bs & fl & ub & Hok & _).
    destruct (alloc_spec junk s bs fl size align Hok Hs He) as [(p & s' & E & _)|[E [Ha _]]]; eauto.
Qed.

(** C9: [free] of the payload pointer of a used block keeps the heap well
    formed, merges the block with its free neighbours, and takes exactly that
    block out of use; the pages above the new end, and no others, are given
    back.  A free block's pointer, or one outside the heap, halts the kernel. *)
Theorem heap_free_correct s bs fl b :
  heap_ok s bs fl -> b ∈ bs ->
  (b_st b = BUsed -> exists s', free (b_addr b + 20) s = Ok (tt, s') /\ freed bs b s' /\ shrunk s s') /\
  (b_st b = BFree -> free (b_addr b + 20) s = Stop Panic) /\
  (forall p, p < HEAP_BASE \/ hp_end s <= p -> free p s = Stop Panic).
Proof.
  intros Hok Hin. split_and!; [intros Hb; by apply (free_spec s bs fl)| |].
  - intros Hb. destruct Hok as (Hst & _).
    destruct (blk_range _ _ _ _ Hst Hin) as (R1 & R2 & R3 & R4 & R5 & R6 & R7).
    destruct (blk_tags _ _ _ _ Hst Hin ltac:(by rewrite Hb)) as [Th Tf]. unfold free. mgo.
    destruct (Z.ltb_spec (b_addr b + 20) HEAP_BASE); [lia|].
    destruct (Z.leb_spec (hp_end s) (b_addr b + 20)); [lia|]. cbn [orb]. cbv zeta.
    replace (u32 (b_addr b + 20 - sizeof_header)) with (b_addr b)
      by (unfold sizeof_header; rewrite u32_small by hlia; lia).
    mrun (get_hdr_run _ _ _ Th). cbn [h_size h_magic h_used].
    replace (u32 (b_addr b + b_size b - sizeof_footer)) with (b_foot b)
      by (unfold b_foot; rewrite u32_small by hlia; lia).
    mrun (get_ftr_run _ _ _ Tf). cbn [f_magic f_header]. rewrite !Z.eqb_refl. unfold b_flag. by rewrite Hb.
  - intros p Hp. unfold free. mgo. destruct (Z.ltb_spec p HEAP_BASE), (Z.leb_spec (hp_end s) p); done || lia.
Qed.

End heap_free.

Definition junk0 : link nptr := Link null null.

(** The state after boot and the allocations of the given sizes. *)
Fixpoint alloc_all (szs : list Z) : M heap Z :=
  match szs with
  | [] => ret 0
  | [n] => alloc junk0 n false
  | n :: r => alloc junk0 n false;;; alloc_all r
  end.

(** the halt is real: after boot and one allocation of 4028 bytes, the
    last block is free and a page-aligned allocation of one mebibyte extends
    it, although its payload starts 20 bytes short of a page. *)
Theorem aligned_alloc_can_halt :
  exists s, (heap_init junk0;;; alloc junk0 4028 false) heap_boot = Ok (HEAP_BASE + 20, s) /\
    alloc junk0 0x100000 true s = Stop Panic.
Proof. eexists. split; [vm_compute; reflexivity|]. vm_compute. reflexivity. Qed.

Lemma heap_reachable_safe_witness :
  exists s p s', heap_reach junk0 s [] /\ alloc junk0 100 false s = Ok (p, s') /\
    heap_reach junk0 s' [(p, 100)] /\ exists s'', free p s' = Ok (tt, s'').
Proof.
  destruct (heap_init_ok junk0) as (s & E & _ & _ & He & _).
  assert (Hr : heap_reach junk0 s []) by by apply reach_init.
  destruct (heap_reachable_safe junk0 s [] Hr) as (_ & _ & Ha).
  destruct (Ha 100 false) as [(p & s' & E')|[? _]]; [lia|rewrite He; vm_compute; discriminate| |done].
  exists s, p, s'. assert (Hr' : heap_reach junk0 s' [(p, 100)]).
  { eapply reach_alloc; [done|lia|rewrite He; vm_compute; discriminate|done]. }
  split_and!; [done|done|done|].
  destruct (heap_reachable_safe junk0 s' _ Hr') as (Hf & _).
  by destruct (Hf p 100 ltac:(by apply list_elem_of_singleton)) as [_ ?].
Defined.

Lemma heap_alloc_correct_witness :
  exists s p s', heap_init junk0 heap_boot = Ok (tt, s) /\ alloc junk0 5000 true s = Ok (p, s') /\
    allocated 5000 true [init_blk] p s'.
Proof.
  destruct (heap_init_ok junk0) as (s & E & Hok & _ & He & _).
  destruct (heap_alloc_correct junk0 s [init_blk] [init_blk] 5000 true Hok) as [(p & s' & E' & Ha & _)|[_ Hst]];
    [lia|rewrite He; vm_compute; discriminate|by exists s, p, s'|].
  exfalso. destruct Hst as (_ & Hall & _). apply Forall_inv in Hall. vm_compute in Hall. done.
Defined.

Lemma heap_free_correct_witness :
  exists s, heap_init junk0 heap_boot = Ok (tt, s) /\ free (HEAP_BASE + 20) s = Stop Panic /\
    free 0 s = Stop Panic.
Proof.
  destruct (heap_init_ok junk0) as (s & E & Hok & _).
  destruct (heap_free_correct s [init_blk] [init_blk] init_blk Hok) as (_ & Hf & Ho);
    [by apply list_elem_of_singleton|].
  exists s. split_and!; [done|by apply Hf|]. apply Ho. left. vm_compute. reflexivity.
Defined.
