(* ===== verification/PageDir.v ===== *)
(** * Page directories (kernel/include/paging.h, kernel/mem/paging.cpp)

    Directories and tables are objects in kernel memory, kept by address; an
    array slot that is absent from a map holds zero (or the null pointer).
    Physical memory is kept by frame, as words.  Two interfaces stand between
    this component and those it calls: the frame allocator, and the kernel
    allocator in the form used here, a page-aligned block together with its
    physical address. *)

From S2P Require Import Prelude MemLayout.
From stdpp Require Import gmap list.
#[local] Open Scope Z_scope.

(** ** Interfaces *)

(** [alloc_frames()] and [free_frames(p)] for single frames.  [fa_inv e H]: in
    state [e] the frames [H] are handed out. *)
Class FrameAlloc (F : Type) : Type := {
  fa_alloc : M F Z;
  fa_free : Z -> M F unit;
  fa_inv : F -> gset Z -> Prop;
  fa_alloc_ok : forall e H, fa_inv e H ->
    exists a e', fa_alloc e = Ok (a, e') /\
      (a = 0 /\ fa_inv e' H \/
       exists f, a = f * 4096 /\ 0 < f < 2 ^ 20 /\ f ∉ H /\ fa_inv e' ({[f]} ∪ H));
  fa_free_ok : forall e H f, fa_inv e H -> f ∈ H ->
    exists e', fa_free (f * 4096) e = Ok (tt, e') /\ fa_inv e' (H ∖ {[f]})
}.

(** [kmalloc(size, KMALLOC_ALIGN, &phys)] and [kfree]: the virtual and the
    physical address of a fresh block; the only failure is a halt. *)
Class TableAlloc (K : Type) : Type := {
  ta_alloc : M K (Z * Z);
  ta_free : Z -> M K unit;
  ta_inv : K -> gset Z -> Prop;
  ta_alloc_ok : forall k T, ta_inv k T ->
    ta_alloc k = Stop Panic \/
    exists v ph k', ta_alloc k = Ok ((v, ph), k') /\ v <> 0 /\ v ∉ T /\
      0 <= ph < 2 ^ 32 /\ ph mod 4096 = 0 /\ ta_inv k' ({[v]} ∪ T);
  ta_free_ok : forall k T v, ta_inv k T -> v ∈ T ->
    exists k', ta_free v k = Ok (tt, k') /\ ta_inv k' (T ∖ {[v]})
}.

(** ** Entries *)

Definition PAGE_PRESENT : Z := 1.
Definition PAGE_RW : Z := 2.
Definition PAGE_US : Z := 4.
Definition PAGE_WRITETHROUGH : Z := 8.
Definition PAGE_NOCACHE : Z := 16.
Definition CLONE_VM : Z := 0x00000100.

Definition e_present (v : Z) : bool := Z.testbit v 0.
Definition e_ps (v : Z) : bool := Z.testbit v 7.
Definition e_addr (v : Z) : Z := Z.shiftr v 12.
(** assignment to the 20-bit field [addr] *)
Definition with_addr (v a : Z) : Z := Z.lor (Z.land v 0xFFF) (Z.shiftl (Z.land a 0xFFFFF) 12).

Notation ptable := (gmap Z Z).
Definition pget (t : ptable) (k : Z) : Z := default 0 (t !! k).

Record pdir : Type := PDir { pd_entries : gmap Z Z; pd_tables : gmap Z Z; pd_phys : Z }.
Definition entry (d : pdir) (i : Z) : Z := default 0 (pd_entries d !! i).

Section page_dir.
Context {F K : Type} `{FrameAlloc F} `{TableAlloc K}.

Record vm : Type := Vm {
  vm_frames : F;
  vm_kmem : K;
  vm_tables : gmap Z ptable;
  vm_dirs : gmap Z pdir;
  vm_cur : Z;                    (** [cur_dir] *)
  vm_mem : gmap Z (gmap Z Z)     (** physical memory: frame, word *)
}.

(** The address of [kernel_page_dir]. *)
Variable kernel_page_dir : Z.

Definition lift_frames {A} (c : M F A) : M vm A :=
  fun s => match c (vm_frames s) with
           | Ok (a, f) => Ok (a, Vm f (vm_kmem s) (vm_tables s) (vm_dirs s) (vm_cur s) (vm_mem s))
           | Stop e => Stop e
           end.
Definition lift_kmem {A} (c : M K A) : M vm A :=
  fun s => match c (vm_kmem s) with
           | Ok (a, k) => Ok (a, Vm (vm_frames s) k (vm_tables s) (vm_dirs s) (vm_cur s) (vm_mem s))
           | Stop e => Stop e
           end.

Definition set_tables (t : gmap Z ptable) : M vm unit :=
  modify (fun s => Vm (vm_frames s) (vm_kmem s) t (vm_dirs s) (vm_cur s) (vm_mem s)).
Definition set_dirs (d : gmap Z pdir) : M vm unit :=
  modify (fun s => Vm (vm_frames s) (vm_kmem s) (vm_tables s) d (vm_cur s) (vm_mem s)).
Definition set_mem (m : gmap Z (gmap Z Z)) : M vm unit :=
  modify (fun s => Vm (vm_frames s) (vm_kmem s) (vm_tables s) (vm_dirs s) (vm_cur s) m).

Definition get_dir (d : Z) : M vm pdir := s <-- get;; deref (vm_dirs s !! d).
Definition put_dir (d : Z) (x : pdir) : M vm unit := s <-- get;; set_dirs (<[d := x]> (vm_dirs s)).
Definition get_table (t : Z) : M vm ptable := s <-- get;; deref (vm_tables s !! t).
Definition put_table (t : Z) (x : ptable) : M vm unit := s <-- get;; set_tables (<[t := x]> (vm_tables s)).

(** [page*]: a slot of a table. *)
Definition pageptr : Type := Z * Z.
Definition page_read (p : pageptr) : M vm Z := t <-- get_table p.1;; ret (pget t p.2).
Definition page_write (p : pageptr) (v : Z) : M vm unit :=
  t <-- get_table p.1;; put_table p.1 (<[p.2 := v]> t).
Definition page_write_addr (p : pageptr) (a : Z) : M vm unit :=
  v <-- page_read p;; page_write p (with_addr v a).

(** [set_page_dir] and [switch_page_dir] (which also loads [cr3]). *)
Definition set_page_dir (d : Z) : M vm unit :=
  modify (fun s => Vm (vm_frames s) (vm_kmem s) (vm_tables s) (vm_dirs s) d (vm_mem s)).
Definition switch_page_dir (d : Z) : M vm unit := set_page_dir d;;; _ <-- get_dir d;; ret tt.

(** ** Lookup and mapping *)

(** [get_page(addr, make_table, flags)], [addr] a page number; an index beyond
    the arrays of the directory is out of bounds. *)
Definition get_page (d addr : Z) (make_table : bool) (flags : Z) : M vm (option pageptr) :=
  let idx := Z.shiftr addr 10 in
  if 1024 <=? idx then halt Fault
  else
    dir <-- get_dir d;;
    match pd_tables dir !! idx with
    | Some t => ret (Some (t, Z.land addr 1023))
    | None =>
      if make_table then
        vp <-- lift_kmem ta_alloc;;
        put_table vp.1 ∅;;;
        put_dir d (PDir (<[idx := with_addr flags (Z.shiftr vp.2 12)]> (pd_entries dir))
                        (<[idx := vp.1]> (pd_tables dir)) (pd_phys dir));;;
        ret (Some (vp.1, Z.land addr 1023))
      else ret None
    end.

Definition default_flags : Z := Z.lor PAGE_PRESENT PAGE_RW.

(** The number of rounds of [for (i = start; i < start + sz; i++)] on 32-bit
    words. *)
Definition rounds (start sz : Z) : nat := Z.to_nat (u32 (start + sz) - start).

Fixpoint map_loop (n : nat) (d i addr : Z) (make_table : bool) (flags : Z) : M vm bool :=
  match n with
  | O => ret true
  | S k =>
    p <-- get_page d i make_table default_flags;;
    match p with
    | None => ret false
    | Some p =>
      page_write p flags;;;
      page_write_addr p (Z.shiftr addr 12);;;
      map_loop k d (i + 1) (u32 (addr + 4096)) make_table flags
    end
  end.
Definition map_pages (d start addr sz : Z) (make_table : bool) (flags : Z) : M vm bool :=
  map_loop (rounds start sz) d start addr make_table flags.
Definition map_block (d start addr sz : Z) (make_table : bool) (flags : Z) : M vm bool :=
  map_pages d (Z.shiftr start 12) addr (Z.shiftr sz 12) make_table flags.

(** One round of [alloc_pages]; [false] ends it. *)
Definition alloc_one (d i flags : Z) : M vm bool :=
  p <-- get_page d i false default_flags;;
  old <-- match p with
          | None => ret None
          | Some q => v <-- page_read q;; ret (if e_present v then Some (q, v) else None)
          end;;
  match old with
  | Some (q, v) =>
    page_write q (Z.lor (u32 (Z.shiftl (e_addr v) 12)) flags);;; ret true
  | None =>
    p <-- get_page d i true flags;;
    match p with
    | None => ret false
    | Some q =>
      page_write q flags;;;
      a <-- lift_frames fa_alloc;;
      page_write_addr q (Z.shiftr a 12);;;
      v <-- page_read q;;
      ret (negb (e_addr v =? 0))
    end
  end.
Fixpoint alloc_loop (n : nat) (d i flags : Z) : M vm bool :=
  match n with
  | O => ret true
  | S k => b <-- alloc_one d i flags;; if b then alloc_loop k d (i + 1) flags else ret false
  end.
Definition alloc_pages (d start sz flags : Z) : M vm bool := alloc_loop (rounds start sz) d start flags.
Definition alloc_block (d start sz flags : Z) : M vm bool :=
  alloc_pages d (Z.shiftr start 12) (Z.shiftr sz 12) flags.

Definition free_page (d addr : Z) : M vm unit :=
  p <-- get_page d (Z.shiftr addr 12) false default_flags;;
  match p with
  | None => ret tt
  | Some q =>
    v <-- page_read q;;
    if e_present v then
      lift_frames (fa_free (u32 (Z.shiftl (e_addr v) 12)));;; page_write q 0
    else ret tt
  end.

(** ** Copying physical memory *)

Definition DST_VADDR : Z := 0xffffe000.
Definition SRC_VADDR : Z := 0xfffff000.

Definition frame_words (m : gmap Z (gmap Z Z)) (f : Z) : gmap Z Z := default ∅ (m !! f).
(** [memcpyd] of [c] words from the start of one frame to the start of another. *)
Definition copy_words (c : Z) (src dst : gmap Z Z) : gmap Z Z :=
  filter (fun kv => kv.1 < c) src ∪ filter (fun kv => ~ kv.1 < c) dst.

(** for (; count > 0; page_dst->addr++, page_src->addr++): the frames that the
    two windows show. *)
Fixpoint copy_loop_phys (fuel : nat) (pd ps : pageptr) (count : Z) : M vm unit :=
  if 0 <? count then
    match fuel with
    | O => halt Fuel
    | S k =>
      let c := Z.min count 1024 in
      vd <-- page_read pd;; vs <-- page_read ps;;
      s <-- get;;
      set_mem (<[e_addr vd := copy_words c (frame_words (vm_mem s) (e_addr vs))
                                          (frame_words (vm_mem s) (e_addr vd))]> (vm_mem s));;;
      vd <-- page_read pd;; page_write pd (with_addr vd (e_addr vd + 1));;;
      vs <-- page_read ps;; page_write ps (with_addr vs (e_addr vs + 1));;;
      copy_loop_phys k pd ps (count - c)
    end
  else ret tt.

(** A window page: its old value, and the slot (made if it is missing). *)
Definition window (d vaddr : Z) : M vm (pageptr * Z) :=
  p <-- get_page d (Z.shiftr vaddr 12) false default_flags;;
  match p with
  | Some q => v <-- page_read q;; ret (q, v)
  | None =>
    p <-- get_page d (Z.shiftr vaddr 12) true default_flags;;
    match p with Some q => ret (q, 0) | None => halt Fault end
  end.

Definition memcpyd_phys_aligned (dst src count : Z) : M vm Z :=
  s <-- get;;
  let cur := vm_cur s in
  ps0 <-- get_page cur (Z.shiftr SRC_VADDR 12) false default_flags;;
  wd <-- window cur DST_VADDR;;
  ws <-- match ps0 with
         | Some q => v <-- page_read q;; ret (q, v)
         | None => w <-- window cur SRC_VADDR;; ret (w.1, 0)
         end;;
  page_write ws.1 default_flags;;; page_write wd.1 default_flags;;;
  page_write_addr wd.1 (Z.shiftr dst 12);;;
  page_write_addr ws.1 (Z.shiftr src 12);;;
  copy_loop_phys (Z.to_nat (count / 1024 + 1)) wd.1 ws.1 count;;;
  page_write wd.1 wd.2;;;
  page_write ws.1 ws.2;;;
  ret dst.

(** ** Cloning and freeing *)

Definition KERNEL_STACK_TOP : Z := REMAP_END.
Definition KERNEL_STACK_SIZE : Z := 8192.
Definition KERNEL_STACK_BOT : Z := KERNEL_STACK_TOP - KERNEL_STACK_SIZE.
Definition KERNEL_HIGHMEM_START : Z := Z.shiftr KERNEL_VIRTUAL_BASE 22.
Definition is_kstack (i : Z) : bool :=
  (Z.shiftr KERNEL_STACK_BOT 22 <=? i) && (i <=? Z.shiftr KERNEL_STACK_TOP 22).

Definition indices : list Z := seqZ 0 1024.

Fixpoint for_each {A} (f : A -> M vm unit) (l : list A) : M vm unit :=
  match l with [] => ret tt | x :: r => f x;;; for_each f r end.

(** One page of [page_table::clone]. *)
Definition clone_page (src dst i : Z) : M vm unit :=
  v <-- page_read (src, i);;
  if e_present v then
    page_write (dst, i) v;;;
    a <-- lift_frames fa_alloc;;
    asserth (negb (a =? 0));;;
    page_write_addr (dst, i) (Z.shiftr a 12);;;
    v <-- page_read (src, i);;
    memcpyd_phys_aligned a (u32 (Z.shiftl (e_addr v) 12)) 1024;;;
    ret tt
  else ret tt.

(** [page_table::clone(&phys)]: the new table and its physical address. *)
Definition table_clone (t : Z) : M vm (Z * Z) :=
  vp <-- lift_kmem ta_alloc;;
  asserth (negb (vp.1 =? 0));;;
  put_table vp.1 ∅;;;
  for_each (clone_page t vp.1) indices;;;
  ret vp.

(** [page_table::free] *)
Definition table_free (t : Z) : M vm unit :=
  for_each (fun i => v <-- page_read (t, i);;
                 if e_present v then lift_frames (fa_free (u32 (Z.shiftl (e_addr v) 12))) else ret tt)
       indices.

Definition dir_set (d i e : Z) (t : option Z) : M vm unit :=
  x <-- get_dir d;;
  put_dir d (PDir (<[i := e]> (pd_entries x))
                  (match t with Some t => <[i := t]> (pd_tables x) | None => delete i (pd_tables x) end)
                  (pd_phys x)).

(** One table of [page_dir::clone]. *)
Definition clone_entry (this d flags sbot stop i : Z) : M vm unit :=
  kd <-- get_dir kernel_page_dir;;
  me <-- get_dir this;;
  if (KERNEL_HIGHMEM_START <=? i) && negb (is_kstack i) then
    dir_set d i (entry kd i) (pd_tables kd !! i)
  else match pd_tables me !! i with
  | Some t =>
    if negb (Z.land flags CLONE_VM =? 0) && negb (is_kstack i) && negb ((sbot <=? i) && (i <=? stop)) then
      dir_set d i (entry me i) (Some t)
    else
      vp <-- table_clone t;;
      dir_set d i (with_addr (entry me i) (Z.shiftr vp.2 12)) (Some vp.1)
  | None =>
    if e_present (entry me i) && e_ps (entry me i) then
      if entry me i =? entry kd i then dir_set d i (entry kd i) (pd_tables kd !! i)
      else halt Panic
    else ret tt
  end.

Definition dir_clone (this flags sbot stop : Z) : M vm Z :=
  vp <-- lift_kmem ta_alloc;;
  asserth (negb (vp.1 =? 0));;;
  put_dir vp.1 (PDir ∅ ∅ vp.2);;;
  for_each (clone_entry this vp.1 flags sbot stop) indices;;;
  ret vp.1.

(** [tables[i]->free(); delete tables[i]; entries[i].value = 0; tables[i] = nullptr] *)
Definition drop_table (d i t : Z) : M vm unit :=
  table_free t;;;
  lift_kmem (ta_free t);;;
  s <-- get;; set_tables (delete t (vm_tables s));;;
  dir_set d i 0 None.

Definition free_tables (this : Z) (shared : option Z) : M vm unit :=
  let sh := default kernel_page_dir shared in
  for_each (fun i =>
    x <-- get_dir this;; y <-- get_dir sh;;
    match pd_tables x !! i with
    | Some t => if negb (bool_decide (pd_tables y !! i = Some t)) && negb (is_kstack i)
                then drop_table this i t else ret tt
    | None => ret tt
    end) indices.

Definition free_kstack_tables (this : Z) : M vm unit :=
  for_each (fun i =>
    x <-- get_dir this;;
    match pd_tables x !! i with Some t => drop_table this i t | None => ret tt end)
  (seqZ (Z.shiftr KERNEL_STACK_BOT 22) (Z.shiftr KERNEL_STACK_TOP 22 - Z.shiftr KERNEL_STACK_BOT 22 + 1)).

(** [~shared_page_dir] *)
Definition shared_page_dir_destroy (dir : option Z) (cloned : option Z) : M vm unit :=
  match dir with
  | None => ret tt
  | Some d =>
    free_tables d cloned;;;
    lift_kmem (ta_free d);;;
    s <-- get;; set_dirs (delete d (vm_dirs s))
  end.

(** ** The kernel's mappings at boot *)

(** [entries[i].present = rw = ps = true; user = false; addr = ...] *)
Definition map_4m (i : Z) : M vm unit :=
  kd <-- get_dir kernel_page_dir;;
  let e := entry kd i in
  let e := Z.setbit (Z.setbit (Z.setbit e 0) 1) 7 in
  let e := Z.clearbit e 2 in
  put_dir kernel_page_dir
    (PDir (<[i := with_addr e (Z.shiftr (Z.shiftl i 22 - KERNEL_VIRTUAL_BASE) 12)]> (pd_entries kd))
          (pd_tables kd) (pd_phys kd)).

(** The 4 MiB pages of the kernel, and the tables of the heap and of the
    remapped devices. *)
Definition kernel_tables : M vm unit :=
  for_each map_4m (seqZ (Z.shiftr KERNEL_VIRTUAL_BASE 22) (Z.shiftr (HEAP_BASE - KERNEL_VIRTUAL_BASE) 22));;;
  switch_page_dir kernel_page_dir;;;
  for_each (fun i => _ <-- get_page kernel_page_dir (Z.shiftl i 10) true default_flags;; ret tt)
       (seqZ (Z.shiftr HEAP_BASE 22) (1024 - Z.shiftr HEAP_BASE 22)).

End page_dir.
