(* ===== verification/PageDirSpec.v ===== *)
(** * Correctness of the page directories

    What a directory means is the function from page numbers to entries it
    induces ([pte]).  The theorems describe mapping, allocation and the cloning
    of a table by their effect on that function and on physical memory, against
    the interfaces of the frame allocator and the kernel allocator only. *)

From S2P Require Import Prelude MemLayout PageDir.
From stdpp Require Import gmap list.
#[local] Open Scope Z_scope.

(** ** Bit fields *)

Lemma lor_disjoint_add a b : Z.land a b = 0 -> Z.lor a b = a + b.
Proof. intros E. rewrite <- Z.lxor_lor by done. symmetry. by apply Z.add_nocarry_lxor. Qed.

Lemma land_shift_low v a n : 0 <= n -> Z.land (Z.land v (Z.ones n)) (Z.shiftl a n) = 0.
Proof.
  intros Hn. apply Z.bits_inj'. intros i Hi. rewrite !Z.land_spec, Z.bits_0.
  destruct (Z.lt_ge_cases i n).
  - rewrite (Z.shiftl_spec_low a n i) by lia. by rewrite andb_false_r.
  - rewrite Z.ones_spec_high by lia. by rewrite andb_false_r.
Qed.

Lemma with_addr_val v a : with_addr v a = v mod 4096 + (a mod 2 ^ 20) * 4096.
Proof.
  unfold with_addr. change 0xFFF with (Z.ones 12). change 0xFFFFF with (Z.ones 20).
  rewrite lor_disjoint_add by (by apply land_shift_low).
  rewrite !Z.land_ones, shiftl_mul by lia. done.
Qed.

Lemma e_addr_val v : e_addr v = v / 4096.
Proof. apply shiftr_div. lia. Qed.

Lemma with_addr_addr v a : 0 <= a < 2 ^ 20 -> e_addr (with_addr v a) = a.
Proof.
  intros Ha. rewrite e_addr_val, with_addr_val, Z.div_add by lia.
  rewrite Z.div_small by (apply Z.mod_pos_bound; lia). rewrite Z.mod_small by lia. lia.
Qed.

Lemma with_addr_low v a : with_addr v a mod 4096 = v mod 4096.
Proof. rewrite with_addr_val, Z.mod_add by lia. by rewrite Z.mod_mod by lia. Qed.

Lemma e_present_low v w : v mod 4096 = w mod 4096 -> e_present v = e_present w.
Proof.
  intros E. unfold e_present. rewrite <- (Z.mod_pow2_bits_low v 12 0), <- (Z.mod_pow2_bits_low w 12 0) by lia.
  change (2 ^ 12) with 4096. by rewrite E.
Qed.

Section spec.
Context {F K : Type} `{FrameAlloc F} `{TableAlloc K}.
Notation vm := (@vm F K).
Variable kernel_page_dir : Z.

(** The kernel may run out of memory. *)
Definition oom : Prop :=
  (exists (k : K) T, ta_inv k T /\ ta_alloc k = Stop Panic) \/
  (exists (e : F) X e', fa_inv e X /\ fa_alloc e = Ok (0, e')).

(** The computation returns with [Q], or halts for lack of memory. *)
Definition runs {A} (c : outcome (A * vm)) (Q : A -> vm -> Prop) : Prop :=
  match c with Ok (a, s) => Q a s | Stop Panic => oom | Stop _ => False end.

Lemma runs_bind {A B} (c : M vm A) (k : A -> M vm B) s Q R :
  runs (c s) Q -> (forall a s', Q a s' -> runs (k a s') R) -> runs (bind c k s) R.
Proof. unfold bind. destruct (c s) as [[a s']|[]]; simpl; auto; done. Qed.

Lemma runs_mono {A} (c : outcome (A * vm)) (Q R : A -> vm -> Prop) :
  runs c Q -> (forall a s, Q a s -> R a s) -> runs c R.
Proof. destruct c as [[a s]|[]]; simpl; auto. Qed.

(** ** Directories as functions *)

Definition page_of (s : vm) (d i : Z) : option Z :=
  dir ← vm_dirs s !! d; t ← pd_tables dir !! Z.shiftr i 10; tb ← vm_tables s !! t;
  Some (pget tb (Z.land i 1023)).
Definition pte (s : vm) (d i : Z) : Z := default 0 (page_of s d i).

(** The tables of a directory exist, are distinct, and are owned. *)
Definition dir_ok (s : vm) (d : Z) : Prop :=
  exists dir, vm_dirs s !! d = Some dir /\
    (forall i t, pd_tables dir !! i = Some t -> is_Some (vm_tables s !! t)) /\
    (forall i j t, pd_tables dir !! i = Some t -> pd_tables dir !! j = Some t -> i = j).

Definition vm_ok (s : vm) (X T : gset Z) : Prop :=
  fa_inv (vm_frames s) X /\ ta_inv (vm_kmem s) T /\ (forall t, is_Some (vm_tables s !! t) -> t ∈ T).

Lemma idx_split i j : 0 <= i -> 0 <= j ->
  Z.shiftr i 10 = Z.shiftr j 10 -> Z.land i 1023 = Z.land j 1023 -> i = j.
Proof.
  intros Hi Hj. change 1023 with (2 ^ 10 - 1). rewrite !land_low, !shiftr_div by lia.
  intros E1 E2. pose proof (Z.div_mod i (2 ^ 10)). pose proof (Z.div_mod j (2 ^ 10)). lia.
Qed.

Lemma idx_range i : 0 <= i < 2 ^ 20 -> 0 <= Z.shiftr i 10 < 1024.
Proof.
  intros Hi. rewrite shiftr_div by lia. split; [apply Z.div_pos; lia|]. apply Z.div_lt_upper_bound; lia.
Qed.

(** ** [get_page] *)

Definition slot (s : vm) (d i : Z) (p : pageptr) : Prop :=
  exists dir, vm_dirs s !! d = Some dir /\ pd_tables dir !! Z.shiftr i 10 = Some p.1 /\
    p.2 = Z.land i 1023 /\ is_Some (vm_tables s !! p.1).

(** Nothing but the table memory, the tables and the directories changed. *)
Definition same_rest (s s' : vm) : Prop :=
  vm_frames s' = vm_frames s /\ vm_cur s' = vm_cur s /\ vm_mem s' = vm_mem s.

Lemma get_page_found s d i mk flags p :
  0 <= i < 2 ^ 20 -> slot s d i p -> get_page d i mk flags s = Ok (Some p, s).
Proof.
  intros Hi (dir & Ed & Et & Ep & _). unfold get_page. cbv zeta.
  pose proof (idx_range i Hi). destruct (Z.leb_spec 1024 (Z.shiftr i 10)); [lia|].
  unfold get_dir. mgo. mrun (deref_some _ _ s Ed). rewrite Et, <- Ep. by destruct p.
Qed.

Lemma get_page_none s d i flags :
  0 <= i < 2 ^ 20 -> dir_ok s d -> page_of s d i = None -> get_page d i false flags s = Ok (None, s).
Proof.
  intros Hi (dir & Ed & Hex & _) Hn. unfold get_page. cbv zeta.
  pose proof (idx_range i Hi). destruct (Z.leb_spec 1024 (Z.shiftr i 10)); [lia|].
  unfold get_dir. mgo. mrun (deref_some _ _ s Ed). unfold page_of in Hn. rewrite Ed in Hn. simpl in Hn.
  destruct (pd_tables dir !! Z.shiftr i 10) as [t|] eqn:Et; [|done]. simpl in Hn.
  destruct (Hex _ _ Et) as [tb Etb]. by rewrite Etb in Hn.
Qed.

Lemma page_of_slot s d i :
  dir_ok s d -> page_of s d i = None \/ exists p, slot s d i p.
Proof.
  intros (dir & Ed & Hex & _). unfold page_of. rewrite Ed. simpl.
  destruct (pd_tables dir !! Z.shiftr i 10) as [t|] eqn:Et; [right|by left].
  exists (t, Z.land i 1023). exists dir. split_and!; try done. simpl. by eapply Hex.
Qed.

(** A missing table is made, empty, without changing what the directory maps. *)
Lemma get_page_make s d i flags X T :
  0 <= i < 2 ^ 20 -> dir_ok s d -> vm_ok s X T ->
  runs (get_page d i true flags s) (fun r s' =>
    exists p T', r = Some p /\ slot s' d i p /\ dir_ok s' d /\ vm_ok s' X T' /\
      (forall j, pte s' d j = pte s d j) /\ same_rest s s' /\
      (forall j, is_Some (page_of s d j) -> is_Some (page_of s' d j)) /\ T ⊆ T').
Proof.
  intros Hi Hd (Hf & Hk & HT). destruct (page_of_slot s d i Hd) as [Hn|[p Hp]]; cycle 1.
  { rewrite (get_page_found s d i true flags p Hi Hp). simpl. exists p, T. by split_and!. }
  destruct Hd as (dir & Ed & Hex & Hinj). unfold get_page. cbv zeta.
  pose proof (idx_range i Hi). destruct (Z.leb_spec 1024 (Z.shiftr i 10)); [lia|].
  unfold get_dir. mgo. mrun (deref_some _ _ s Ed).
  assert (Et : pd_tables dir !! Z.shiftr i 10 = None).
  { unfold page_of in Hn. rewrite Ed in Hn. simpl in Hn.
    destruct (pd_tables dir !! Z.shiftr i 10) as [t|] eqn:Et; [|done]. simpl in Hn.
    destruct (Hex _ _ Et) as [tb Etb]. by rewrite Etb in Hn. }
  rewrite Et. unfold lift_kmem at 1, bind at 1.
  destruct (ta_alloc_ok (vm_kmem s) T Hk) as [E|(v & ph & k' & E & Hv0 & HvT & _ & _ & Hk')]; rewrite E.
  { simpl. left. by exists (vm_kmem s), T. }
  unfold put_table, put_dir, set_tables, set_dirs. mgo. simpl.
  set (s' := Vm _ _ _ _ _ _).
  assert (Hvt : vm_tables s !! v = None).
  { destruct (vm_tables s !! v) eqn:Ev; [|done]. exfalso. apply HvT, HT. by rewrite Ev. }
  assert (Hpage : forall j, page_of s' d j =
            if decide (Z.shiftr j 10 = Z.shiftr i 10) then Some 0 else page_of s d j).
  { intros j. unfold page_of, s'. simpl. rewrite lookup_insert_eq, Ed. simpl.
    destruct (decide (Z.shiftr j 10 = Z.shiftr i 10)) as [Eij|Hne].
    - rewrite Eij, lookup_insert_eq. simpl. rewrite lookup_insert_eq. done.
    - rewrite lookup_insert_ne by done. destruct (pd_tables dir !! Z.shiftr j 10) as [t|] eqn:Ej; [|done]. simpl.
      rewrite lookup_insert_ne; [done|]. intros <-. destruct (Hex _ _ Ej) as [? E']. by rewrite Hvt in E'. }
  exists (v, Z.land i 1023), ({[v]} ∪ T). split_and!; try done.
  - eexists. split; [by apply lookup_insert_eq|]. simpl. rewrite !lookup_insert_eq. by split_and!.
  - eexists. split; [by apply lookup_insert_eq|]. simpl. split.
    + intros j t. destruct (decide (j = Z.shiftr i 10)) as [->|Hne].
      * rewrite lookup_insert_eq. intros [= <-]. rewrite lookup_insert_eq. eauto.
      * rewrite lookup_insert_ne by done. intros Ej. destruct (Hex _ _ Ej) as [tb Etb].
        rewrite lookup_insert_ne; [eauto|]. intros <-. by rewrite Hvt in Etb.
    + intros j k t. destruct (decide (j = Z.shiftr i 10)) as [->|Hj], (decide (k = Z.shiftr i 10)) as [->|Hk2];
        rewrite ?lookup_insert_eq, ?lookup_insert_ne by done; try done.
      * intros [= <-] Ek. destruct (Hex _ _ Ek) as [? E']. by rewrite Hvt in E'.
      * intros Ej [= <-]. destruct (Hex _ _ Ej) as [? E']. by rewrite Hvt in E'.
      * apply Hinj.
  - split; [done|]. split; [done|]. intros t. simpl. destruct (decide (t = v)) as [->|Hne]; [set_solver|].
    rewrite lookup_insert_ne by done. intros Ht%HT. set_solver.
  - intros j. unfold pte. rewrite Hpage. destruct (decide _) as [Eij|]; [|done].
    assert (page_of s d j = None) as ->; [|done]. unfold page_of. rewrite Ed. simpl. by rewrite Eij, Et.
  - intros j Hj. rewrite Hpage. destruct (decide _); [by eexists|done].
  - set_solver.
Qed.
(** ** Writing entries *)

Definition with_tables (t : gmap Z ptable) (s : vm) : vm :=
  Vm (vm_frames s) (vm_kmem s) t (vm_dirs s) (vm_cur s) (vm_mem s).

Lemma page_read_ok s d i p : slot s d i p -> page_read p s = Ok (pte s d i, s).
Proof.
  intros (dir & Ed & Et & Ep & [tb Etb]). unfold page_read, get_table. mgo.
  mrun (deref_some _ _ s Etb). unfold pte, page_of. rewrite Ed. simpl. rewrite Et. simpl. rewrite Etb, <- Ep. done.
Qed.

Lemma slot_mono s s' d i p :
  vm_dirs s' = vm_dirs s -> (forall t, is_Some (vm_tables s !! t) -> is_Some (vm_tables s' !! t)) ->
  slot s d i p -> slot s' d i p.
Proof. intros E Ht (dir & Ed & Et & Ep & Hs). exists dir. rewrite E. split_and!; auto. Qed.

Lemma dir_ok_mono s s' d :
  vm_dirs s' = vm_dirs s -> (forall t, is_Some (vm_tables s !! t) -> is_Some (vm_tables s' !! t)) ->
  dir_ok s d -> dir_ok s' d.
Proof. intros E Ht (dir & Ed & Hex & Hinj). exists dir. rewrite E. split_and!; eauto. Qed.

Lemma page_write_ok s d i p v :
  0 <= i -> slot s d i p -> dir_ok s d ->
  exists tb, let s' := with_tables (<[p.1 := tb]> (vm_tables s)) s in
    page_write p v s = Ok (tt, s') /\ slot s' d i p /\ dir_ok s' d /\
    (forall j, 0 <= j -> pte s' d j = if decide (j = i) then v else pte s d j) /\
    (forall j, is_Some (page_of s d j) -> is_Some (page_of s' d j)).
Proof.
  intros Hi Hs Hd. assert (Hs' := Hs). destruct Hs as (dir & Ed & Et & Ep & [tb Etb]).
  exists (<[p.2 := v]> tb). cbv zeta. set (s' := with_tables _ s).
  assert (Htab : forall t, is_Some (vm_tables s !! t) -> is_Some (vm_tables s' !! t)).
  { intros t Ht. simpl. destruct (decide (t = p.1)) as [->|]; [rewrite lookup_insert_eq; eauto|].
    by rewrite lookup_insert_ne. }
  destruct Hd as (dir' & Ed' & Hex & Hinj). rewrite Ed in Ed'. injection Ed' as <-.
  split_and!.
  - unfold page_write, get_table, put_table, set_tables. mgo. mrun (deref_some _ _ s Etb). mgo. done.
  - by apply (slot_mono s).
  - apply (dir_ok_mono s); [done|done|]. by exists dir.
  - intros j Hj. unfold pte, page_of. simpl. rewrite Ed. simpl.
    destruct (pd_tables dir !! Z.shiftr j 10) as [t|] eqn:Ej; simpl; cycle 1.
    { rewrite decide_False; [done|]. intros ->. by rewrite Et in Ej. }
    destruct (decide (t = p.1)) as [->|Hne].
    + rewrite lookup_insert_eq, Etb. simpl. rewrite Ep. unfold pget.
      assert (Eij : Z.shiftr j 10 = Z.shiftr i 10) by (by eapply Hinj).
      destruct (decide (j = i)) as [->|Hne]. { by rewrite lookup_insert_eq. }
      rewrite lookup_insert_ne; [done|]. intros E'. apply Hne. symmetry. by apply idx_split.
    + rewrite lookup_insert_ne by done. rewrite decide_False; [done|].
      intros ->. rewrite Et in Ej. by injection Ej.
  - intros j. unfold page_of. simpl. rewrite Ed. simpl.
    destruct (pd_tables dir !! Z.shiftr j 10) as [t|]; simpl; [|by intros []].
    destruct (decide (t = p.1)) as [->|Hne]; [rewrite lookup_insert_eq; simpl; eauto|].
    by rewrite lookup_insert_ne.
Qed.

Lemma vm_ok_tables s X T t tb :
  vm_ok s X T -> is_Some (vm_tables s !! t) -> vm_ok (with_tables (<[t := tb]> (vm_tables s)) s) X T.
Proof.
  intros (Hf & Hk & HT) Ht. split; [done|]. split; [done|]. intros t' Ht'. simpl in Ht'.
  destruct (decide (t' = t)) as [->|]; [by apply HT|]. rewrite lookup_insert_ne in Ht' by done. by apply HT.
Qed.

Lemma slot_table s d i p : slot s d i p -> is_Some (vm_tables s !! p.1).
Proof. by intros (dir & _ & _ & _ & ?). Qed.

Lemma same_rest_trans s1 s2 s3 : same_rest s1 s2 -> same_rest s2 s3 -> same_rest s1 s3.
Proof. intros (? & ? & ?) (? & ? & ?). split_and!; congruence. Qed.

Lemma same_rest_tables t s : same_rest s (with_tables t s).
Proof. done. Qed.

(** [p->value = flags; p->addr = a] *)
Lemma page_set_ok s d i p flags a X T :
  0 <= i -> slot s d i p -> dir_ok s d -> vm_ok s X T ->
  exists s', (page_write p flags;;; page_write_addr p a) s = Ok (tt, s') /\
    slot s' d i p /\ dir_ok s' d /\ vm_ok s' X T /\ same_rest s s' /\
    (forall j, 0 <= j -> pte s' d j = if decide (j = i) then with_addr flags a else pte s d j) /\
    (forall j, is_Some (page_of s d j) -> is_Some (page_of s' d j)).
Proof.
  intros Hi Hs Hd Hv. destruct (page_write_ok s d i p flags Hi Hs Hd) as (tb & E1 & Hs1 & Hd1 & Hp1 & Hm1).
  cbv zeta in *. set (s1 := with_tables _ s) in *. mrun E1. unfold page_write_addr.
  mrun (page_read_ok s1 d i p Hs1). rewrite Hp1, decide_True by done.
  destruct (page_write_ok s1 d i p (with_addr flags a) Hi Hs1 Hd1) as (tb2 & E2 & Hs2 & Hd2 & Hp2 & Hm2).
  cbv zeta in *. exists (with_tables (<[p.1 := tb2]> (vm_tables s1)) s1).
  split_and!; try done.
  - apply vm_ok_tables; [|by eapply slot_table]. apply vm_ok_tables; [done|by eapply slot_table].
  - intros j Hj. rewrite Hp2 by done. destruct (decide (j = i)); [done|]. rewrite Hp1 by done. by rewrite decide_False.
  - auto.
Qed.

(** ** [map_pages] *)

Lemma addr_entry flags a :
  0 <= flags < 4096 -> 0 <= a < 2 ^ 32 -> a mod 4096 = 0 -> with_addr flags (Z.shiftr a 12) = a + flags.
Proof.
  intros Hf Ha Hm. rewrite with_addr_val, shiftr_div by lia. change (2 ^ 12) with 4096.
  rewrite Z.mod_small by lia. rewrite Z.mod_small.
  - pose proof (Z.div_mod a 4096). lia.
  - split; [apply Z.div_pos; lia|]. apply Z.div_lt_upper_bound; lia.
Qed.

(** The entry of page [j] when [n] pages from [i] map the frames from [addr]. *)
Definition mapped_to (old : Z -> Z) (n : nat) (i addr flags j : Z) : Z :=
  if (i <=? j) && (j <? i + Z.of_nat n) then addr + (j - i) * 4096 + flags else old j.

Lemma mapped_to_step old old1 n i addr flags j :
  (forall j, 0 <= j -> old1 j = if decide (j = i) then addr + flags else old j) -> 0 <= j ->
  mapped_to old1 n (i + 1) (addr + 4096) flags j = mapped_to old (S n) i addr flags j.
Proof.
  intros Ho Hj. unfold mapped_to. rewrite Ho by done.
  destruct (decide (j = i)) as [->|Hne]; zcases; try lia.
Qed.

Lemma map_loop_make n d i addr flags X : forall s T,
  dir_ok s d -> vm_ok s X T -> 0 <= i -> i + Z.of_nat n <= 2 ^ 20 ->
  0 <= flags < 4096 -> 0 <= addr -> addr mod 4096 = 0 -> addr + Z.of_nat n * 4096 <= 2 ^ 32 ->
  runs (map_loop n d i addr true flags s) (fun b s' =>
    b = true /\ dir_ok s' d /\ (exists T', vm_ok s' X T') /\ same_rest s s' /\
    forall j, 0 <= j -> pte s' d j = mapped_to (pte s d) n i addr flags j).
Proof.
  revert i addr. induction n as [|n IH]; intros i addr s T Hd Hv Hi Hn Hf Ha Hm Hb; cbn [map_loop].
  { split; [done|]. split; [done|]. split; [by exists T|]. split; [done|].
    intros j Hj. unfold mapped_to. zcases; try done; lia. }
  eapply runs_bind; [apply (get_page_make s d i default_flags X T); [lia|done|done]|].
  intros r s1 (p & T1 & -> & Hs1 & Hd1 & Hv1 & Hp1 & Hr1 & _). cbv beta iota.
  destruct (page_set_ok s1 d i p flags (Z.shiftr addr 12) X T1 Hi Hs1 Hd1 Hv1)
    as (s2 & E2 & _ & Hd2 & Hv2 & Hr2 & Hp2 & _).
  rewrite <- bind_assoc, (bind_ok _ _ _ _ _ E2). rewrite addr_entry in Hp2 by lia.
  destruct (decide (n = 0%nat)) as [->|Hn0].
  { pose proof (same_rest_trans _ _ _ Hr1 Hr2) as Hr.
    split; [done|]. split; [done|]. split; [by exists T1|]. split; [exact Hr|].
    intros j Hj. rewrite Hp2, Hp1 by done.
    unfold mapped_to. destruct (decide (j = i)); zcases; lia. }
  rewrite (u32_small (addr + 4096)) by lia.
  eapply runs_mono; [apply (IH (i + 1) (addr + 4096) s2 T1); try done; try lia|].
  { rewrite <- (Z.mul_1_l 4096) at 1. by rewrite Z.mod_add. }
  intros b s' (-> & Hd' & HT' & Hr' & Hp'). split_and!; try done.
  - eapply same_rest_trans; [done|]. by eapply same_rest_trans.
  - intros j Hj. rewrite Hp' by done. apply mapped_to_step; [|done].
    intros k Hk. rewrite Hp2 by done. destruct (decide (k = i)); [done|]. apply Hp1.
Qed.

(** Without [make_table]: the prefix up to the first missing table is mapped. *)
Lemma map_loop_keep n d i addr flags X T : forall s,
  dir_ok s d -> vm_ok s X T -> 0 <= i -> i + Z.of_nat n <= 2 ^ 20 ->
  0 <= flags < 4096 -> 0 <= addr -> addr mod 4096 = 0 -> addr + Z.of_nat n * 4096 <= 2 ^ 32 ->
  exists b s' m, map_loop n d i addr false flags s = Ok (b, s') /\
    dir_ok s' d /\ vm_ok s' X T /\ same_rest s s' /\ (m <= n)%nat /\
    (b = true -> m = n) /\ (b = false -> page_of s d (i + Z.of_nat m) = None) /\
    forall j, 0 <= j -> pte s' d j = mapped_to (pte s d) m i addr flags j.
Proof.
  revert i addr. induction n as [|n IH]; intros i addr s Hd Hv Hi Hn Hf Ha Hm Hb; cbn [map_loop].
  { exists true, s, 0%nat. split_and!; try done. intros j Hj. unfold mapped_to. zcases; try done; lia. }
  destruct (page_of_slot s d i Hd) as [Hnone|[p Hp]].
  { mrun (get_page_none s d i default_flags ltac:(lia) Hd Hnone). exists false, s, 0%nat.
    split_and!; try done; [lia|intros _; by rewrite Z.add_0_r|].
    intros j Hj. unfold mapped_to. zcases; try done; lia. }
  mrun (get_page_found s d i false default_flags p ltac:(lia) Hp).
  destruct (page_set_ok s d i p flags (Z.shiftr addr 12) X T Hi Hp Hd Hv)
    as (s2 & E2 & _ & Hd2 & Hv2 & Hr2 & Hp2 & Hm2).
  rewrite <- bind_assoc, (bind_ok _ _ _ _ _ E2). rewrite addr_entry in Hp2 by lia.
  destruct (decide (n = 0%nat)) as [->|Hn0].
  { exists true, s2, 1%nat. split_and!; try done. intros j Hj. rewrite Hp2 by done.
    unfold mapped_to. destruct (decide (j = i)); zcases; lia. }
  rewrite (u32_small (addr + 4096)) by lia.
  destruct (IH (i + 1) (addr + 4096) s2) as (b & s' & m & E & Hd' & Hv' & Hr' & Hle & Hbt & Hbf & Hp');
    try done; try lia.
  { rewrite <- (Z.mul_1_l 4096) at 1. by rewrite Z.mod_add. }
  exists b, s', (S m). split_and!; try done; [by eapply same_rest_trans|lia|intros Hb'; f_equal; auto| |].
  - intros Hb'. specialize (Hbf Hb'). replace (i + Z.of_nat (S m)) with (i + 1 + Z.of_nat m) by lia.
    destruct (page_of s d (i + 1 + Z.of_nat m)) eqn:E1; [|done]. exfalso.
    destruct (Hm2 (i + 1 + Z.of_nat m)) as [? E3]; [by rewrite E1|]. by rewrite Hbf in E3.
  - intros j Hj. rewrite Hp' by done. by apply mapped_to_step.
Qed.

Lemma rounds_ok start sz : 0 <= start -> 0 <= sz -> start + sz <= 2 ^ 20 -> rounds start sz = Z.to_nat sz.
Proof. intros. unfold rounds. rewrite u32_small by lia. f_equal. lia. Qed.

Lemma map_pages_spec s d start addr sz flags X T :
  dir_ok s d -> vm_ok s X T -> 0 <= start -> 0 <= sz -> start + sz <= 2 ^ 20 ->
  0 <= flags < 4096 -> 0 <= addr -> addr mod 4096 = 0 -> addr + sz * 4096 <= 2 ^ 32 ->
  runs (map_pages d start addr sz true flags s) (fun b s' =>
    b = true /\ dir_ok s' d /\ (exists T', vm_ok s' X T') /\ same_rest s s' /\
    forall j, 0 <= j -> pte s' d j =
      if (start <=? j) && (j <? start + sz) then addr + (j - start) * 4096 + flags else pte s d j) /\
  (exists b s' m, map_pages d start addr sz false flags s = Ok (b, s') /\
    dir_ok s' d /\ vm_ok s' X T /\ same_rest s s' /\ 0 <= m <= sz /\
    (b = true -> m = sz) /\ (b = false -> page_of s d (start + m) = None) /\
    forall j, 0 <= j -> pte s' d j =
      if (start <=? j) && (j <? start + m) then addr + (j - start) * 4096 + flags else pte s d j).
Proof.
  intros Hd Hv Hst Hsz Hle Hf Ha Hm Hb. unfold map_pages. rewrite rounds_ok by done. split.
  - eapply runs_mono; [apply (map_loop_make (Z.to_nat sz) d start addr flags X s T); try done; lia|].
    intros b s' (-> & ? & ? & ? & Hp). split_and!; try done. intros j Hj. rewrite Hp by done.
    unfold mapped_to. by rewrite Z2Nat.id.
  - destruct (map_loop_keep (Z.to_nat sz) d start addr flags X T s) as (b & s' & m & E & ? & ? & ? & ? & Hbt & Hbf & Hp);
      try done; try lia.
    exists b, s', (Z.of_nat m). split_and!; try done; [lia|lia|intros Hb'; rewrite (Hbt Hb'); lia].
Qed.

(** C11: [map_pages] with [make_table] maps exactly the [sz] pages from [start]
    to consecutive frames with the given flags, leaves every other page's entry
    as it was, and reports success (unless memory for a table runs out);
    without [make_table] it stops at the first page that has no table, having
    mapped the pages before it, and reports failure. *)
Theorem map_pages_correct s d start addr sz flags X T :
  dir_ok s d -> vm_ok s X T -> 0 <= start -> 0 <= sz -> start + sz <= 2 ^ 20 ->
  0 <= flags < 4096 -> 0 <= addr -> addr mod 4096 = 0 -> addr + sz * 4096 <= 2 ^ 32 ->
  runs (map_pages d start addr sz true flags s) (fun b s' =>
    b = true /\ dir_ok s' d /\ (exists T', vm_ok s' X T') /\ same_rest s s' /\
    forall j, 0 <= j -> pte s' d j =
      if (start <=? j) && (j <? start + sz) then addr + (j - start) * 4096 + flags else pte s d j) /\
  (exists b s' m, map_pages d start addr sz false flags s = Ok (b, s') /\
    dir_ok s' d /\ vm_ok s' X T /\ same_rest s s' /\ 0 <= m <= sz /\
    (b = true -> m = sz) /\ (b = false -> page_of s d (start + m) = None) /\
    forall j, 0 <= j -> pte s' d j =
      if (start <=? j) && (j <? start + m) then addr + (j - start) * 4096 + flags else pte s d j).
Proof. apply map_pages_spec. Qed.

(** ** [alloc_pages] *)

Definition with_frames (f : F) (s : vm) : vm :=
  Vm f (vm_kmem s) (vm_tables s) (vm_dirs s) (vm_cur s) (vm_mem s).

Definition same_mem (s s' : vm) : Prop := vm_cur s' = vm_cur s /\ vm_mem s' = vm_mem s.

(** The entry of a page that was present already. *)
Definition reflag (v flags : Z) : Z := Z.lor (u32 (Z.shiftl (e_addr v) 12)) flags.

(** Give the slot a fresh frame. *)
Lemma alloc_slot_ok s d i p flags X T :
  0 <= i -> 0 <= flags < 4096 -> slot s d i p -> dir_ok s d -> vm_ok s X T ->
  exists b s', (page_write p flags;;; a <-- lift_frames fa_alloc;; page_write_addr p (Z.shiftr a 12);;;
                v <-- page_read p;; ret (negb (e_addr v =? 0))) s = Ok (b, s') /\
    dir_ok s' d /\ same_mem s s' /\ (forall j, 0 <= j -> j <> i -> pte s' d j = pte s d j) /\
    (forall j, is_Some (page_of s d j) -> is_Some (page_of s' d j)) /\ vm_dirs s' = vm_dirs s /\
    (b = true -> exists f, 0 < f < 2 ^ 20 /\ f ∉ X /\ vm_ok s' ({[f]} ∪ X) T /\ pte s' d i = f * 4096 + flags) /\
    (b = false -> oom /\ vm_ok s' X T /\ pte s' d i = flags).
Proof.
  intros Hi Hf Hs Hd Hv.
  destruct (page_write_ok s d i p flags Hi Hs Hd) as (tb & E1 & Hs1 & Hd1 & Hp1 & Hq1).
  cbv zeta in *. set (s1 := with_tables _ s) in *. mrun E1.
  assert (Hv1 : vm_ok s1 X T) by (apply vm_ok_tables; [done|by eapply slot_table]).
  destruct Hv1 as (Hf1 & Hk1 & HT1). destruct (fa_alloc_ok _ _ Hf1) as (a & e' & Ea & Hcase).
  assert (El : lift_frames fa_alloc s1 = Ok (a, with_frames e' s1)) by (unfold lift_frames; by rewrite Ea).
  mrun El. set (s2 := with_frames e' s1).
  assert (Hs2 : slot s2 d i p) by (by apply (slot_mono s1)).
  assert (Hd2 : dir_ok s2 d) by (by apply (dir_ok_mono s1)).
  assert (Hp2 : forall j, pte s2 d j = pte s1 d j) by done.
  unfold page_write_addr. rewrite bind_assoc. mrun (page_read_ok s2 d i p Hs2). rewrite Hp2, Hp1, decide_True by done.
  destruct (page_write_ok s2 d i p (with_addr flags (Z.shiftr a 12)) Hi Hs2 Hd2) as (tb3 & E3 & Hs3 & Hd3 & Hp3 & Hq3).
  cbv zeta in *. set (s3 := with_tables _ s2) in *. mrun E3. mrun (page_read_ok s3 d i p Hs3).
  assert (Hpi : pte s3 d i = with_addr flags (Z.shiftr a 12)) by (by rewrite Hp3, decide_True).
  eexists _, s3. split; [done|]. rewrite Hpi. split; [done|]. split; [done|]. split.
  { intros j Hj Hne. rewrite Hp3, decide_False, Hp2, Hp1, decide_False by done. done. }
  split. { intros j Hj. by apply Hq3, Hq1. }
  split; [done|].
  assert (HT3 : forall t, is_Some (vm_tables s3 !! t) -> t ∈ T).
  { intros t Ht. simpl in Ht. apply HT1. destruct (decide (t = p.1)) as [->|Hne].
    - by eapply slot_table. - by rewrite lookup_insert_ne in Ht. }
  destruct Hcase as [[-> Hinv]|(f & -> & Hfr & HfX & Hinv)].
  - change (Z.shiftr 0 12) with 0. rewrite with_addr_addr by lia.
    split; [done|]. intros _. rewrite with_addr_val. split_and!.
    + right. by exists (vm_frames s1), X, e'.
    + by split_and!.
    + rewrite Z.mod_small by lia. rewrite Zmod_0_l. lia.
  - rewrite shiftr_div by lia. change (2 ^ 12) with 4096. rewrite Z.div_mul by lia.
    rewrite with_addr_addr by lia. split.
    + intros _. exists f. split_and!; try done; try lia. rewrite with_addr_val.
      rewrite (Z.mod_small flags), (Z.mod_small f) by lia. lia.
    + destruct (Z.eqb_spec f 0); [lia|done].
Qed.

Lemma alloc_one_present s d i flags X T p :
  0 <= i < 2 ^ 20 -> slot s d i p -> dir_ok s d -> vm_ok s X T -> e_present (pte s d i) = true ->
  exists s', alloc_one d i flags s = Ok (true, s') /\ dir_ok s' d /\ vm_ok s' X T /\ same_mem s s' /\
    forall j, 0 <= j -> pte s' d j = if decide (j = i) then reflag (pte s d i) flags else pte s d j.
Proof.
  intros Hi Hs Hd Hv Hp. unfold alloc_one. mrun (get_page_found s d i false default_flags p Hi Hs).
  rewrite bind_assoc. mrun (page_read_ok s d i p Hs). rewrite Hp. mgo.
  destruct (page_write_ok s d i p (reflag (pte s d i) flags) ltac:(lia) Hs Hd) as (tb & E1 & _ & Hd1 & Hp1 & _).
  cbv zeta in *. mrun E1. eexists. split; [done|]. split; [done|].
  split; [apply vm_ok_tables; [done|by eapply slot_table]|]. by split.
Qed.

(** A page that is not mapped yet. *)
Lemma alloc_one_new s d i flags X T :
  0 <= i < 2 ^ 20 -> 0 <= flags < 4096 -> dir_ok s d -> vm_ok s X T -> e_present (pte s d i) = false ->
  runs (alloc_one d i flags s) (fun b s' =>
    dir_ok s' d /\ same_mem s s' /\ (forall j, 0 <= j -> j <> i -> pte s' d j = pte s d j) /\
    (b = true -> exists f T', 0 < f < 2 ^ 20 /\ f ∉ X /\ vm_ok s' ({[f]} ∪ X) T' /\ pte s' d i = f * 4096 + flags) /\
    (b = false -> oom /\ (exists T', vm_ok s' X T') /\ pte s' d i = flags)).
Proof.
  intros Hi Hf Hd Hv Hp. unfold alloc_one.
  assert (Hold : exists q, get_page d i false default_flags s = Ok (q, s) /\
    (match q with None => ret None
     | Some q => v <-- page_read q;; ret (if e_present v then Some (q, v) else None) end) s = Ok (None, s)).
  { destruct (page_of_slot s d i Hd) as [Hn|[p Hs]].
    - exists None. split; [by apply get_page_none|done].
    - exists (Some p). split; [by apply get_page_found|]. mrun (page_read_ok s d i p Hs). by rewrite Hp. }
  destruct Hold as (q & E1 & E2). mrun E1. mrun E2.
  eapply runs_bind; [by apply (get_page_make s d i flags X T)|].
  intros r s1 (p & T1 & -> & Hs1 & Hd1 & Hv1 & Hp1 & (Hr1 & Hr2 & Hr3) & _). cbv beta iota.
  destruct (alloc_slot_ok s1 d i p flags X T1 ltac:(lia) Hf Hs1 Hd1 Hv1) as (b & s' & E & Hd' & [Hm1 Hm2] & Ho & _ & _ & Hbt & Hbf).
  rewrite E. unfold runs, same_mem. split; [done|]. split; [split; congruence|]. split.
  { intros j Hj Hne. by rewrite Ho, Hp1. }
  split.
  - intros Hb. destruct (Hbt Hb) as (f & ? & ? & ? & ?). by exists f, T1.
  - intros Hb. destruct (Hbf Hb) as (? & ? & ?). split; [done|]. split; [by exists T1|done].
Qed.

(** What [alloc_pages] promises when it succeeds. *)
Definition allocated_pages (s s' : vm) (d i : Z) (n : nat) (flags : Z) (X X' : gset Z) : Prop :=
  X ⊆ X' /\
  (forall j, 0 <= j -> i <= j < i + Z.of_nat n -> e_present (pte s d j) = true ->
     pte s' d j = reflag (pte s d j) flags) /\
  (forall j, 0 <= j -> i <= j < i + Z.of_nat n -> e_present (pte s d j) = false ->
     exists f, 0 < f < 2 ^ 20 /\ f ∈ X' /\ f ∉ X /\ pte s' d j = f * 4096 + flags) /\
  (forall j k, 0 <= j -> 0 <= k -> i <= j < i + Z.of_nat n -> i <= k < i + Z.of_nat n -> j <> k ->
     e_present (pte s d j) = false -> e_present (pte s d k) = false -> pte s' d j <> pte s' d k) /\
  (forall j, 0 <= j -> ~ i <= j < i + Z.of_nat n -> pte s' d j = pte s d j).

Lemma alloc_loop_spec n d flags : forall i s X T,
  0 <= i -> i + Z.of_nat n <= 2 ^ 20 -> 0 <= flags < 4096 -> dir_ok s d -> vm_ok s X T ->
  runs (alloc_loop n d i flags s) (fun b s' => dir_ok s' d /\ same_mem s s' /\
    exists X' T', vm_ok s' X' T' /\
      (b = true -> allocated_pages s s' d i n flags X X') /\
      (b = false -> oom /\ exists j, i <= j < i + Z.of_nat n /\ pte s' d j = flags)).
Proof.
  induction n as [|n IH]; intros i s X T Hi Hn Hf Hd Hv; cbn [alloc_loop].
  { split; [done|]. split; [done|]. exists X, T. split; [done|]. split; [|done]. intros _.
    split_and!; try done; intros; lia. }
  destruct (e_present (pte s d i)) eqn:Epres.
  - assert (exists p, slot s d i p) as [p Hs].
    { destruct (page_of_slot s d i Hd) as [Hnone|?]; [|done]. unfold pte in Epres. by rewrite Hnone in Epres. }
    destruct (alloc_one_present s d i flags X T p ltac:(lia) Hs Hd Hv Epres) as (s1 & E1 & Hd1 & Hv1 & [Hm1 Hm2] & Hp1).
    mrun E1. eapply runs_mono; [apply (IH (i + 1) s1 X T); try done; lia|].
    intros b s' (Hd' & [Hm3 Hm4] & X' & T' & Hv' & Hbt & Hbf). split; [done|]. split; [split; congruence|].
    exists X', T'. split; [done|]. split; cycle 1.
    { intros Hb. destruct (Hbf Hb) as (? & j & ? & ?). split; [done|]. exists j. split; [lia|done]. }
    intros Hb. destruct (Hbt Hb) as (HX & A1 & A2 & A3 & A4).
    assert (Hp1' : forall j, 0 <= j -> j <> i -> pte s1 d j = pte s d j).
    { intros j Hj Hne. by rewrite Hp1, decide_False. }
    split; [done|]. split; [|split; [|split]].
    + intros j Hj Hr Hpr. destruct (decide (j = i)) as [->|Hne].
      * rewrite A4 by lia. by rewrite Hp1, decide_True by done.
      * rewrite <- Hp1' by done. apply A1; [done|lia|by rewrite Hp1'].
    + intros j Hj Hr Hpr. destruct (decide (j = i)) as [->|Hne]; [congruence|].
      apply A2; [done|lia|by rewrite Hp1'].
    + intros j k Hj Hk Hjr Hkr Hne Pj Pk.
      destruct (decide (j = i)) as [->|Hj']; [congruence|]. destruct (decide (k = i)) as [->|Hk']; [congruence|].
      apply A3; try done; try lia; by rewrite Hp1'.
    + intros j Hj Hr. rewrite A4 by lia. apply Hp1'; lia.
  - eapply runs_bind; [by apply (alloc_one_new s d i flags X T); try done; lia|].
    intros b s1 (Hd1 & [Hm1 Hm2] & Ho1 & Hbt1 & Hbf1). destruct b; cycle 1.
    { destruct (Hbf1 eq_refl) as (Hoom & [T1 Hv1] & Hp1). simpl. split; [done|]. split; [done|].
      exists X, T1. split; [done|]. split; [done|]. intros _. split; [done|]. exists i. split; [lia|done]. }
    destruct (Hbt1 eq_refl) as (f & T1 & Hfr & HfX & Hv1 & Hp1).
    eapply runs_mono; [apply (IH (i + 1) s1 ({[f]} ∪ X) T1); try done; lia|].
    intros b s' (Hd' & [Hm3 Hm4] & X' & T' & Hv' & Hbt & Hbf). split; [done|]. split; [split; congruence|].
    exists X', T'. split; [done|]. split; cycle 1.
    { intros Hb. destruct (Hbf Hb) as (? & j & ? & ?). split; [done|]. exists j. split; [lia|done]. }
    intros Hb. destruct (Hbt Hb) as (HX & A1 & A2 & A3 & A4).
    assert (HfX' : f ∈ X') by (apply HX, elem_of_union_l, elem_of_singleton; reflexivity).
    split; [intros x Hx; by apply HX, elem_of_union_r|]. split; [|split; [|split]].
    + intros j Hj Hr Hpr. destruct (decide (j = i)) as [->|Hne]; [congruence|].
      rewrite <- Ho1 by done. apply A1; [done|lia|by rewrite Ho1].
    + intros j Hj Hr Hpr. destruct (decide (j = i)) as [->|Hne].
      * exists f. split; [done|]. split; [done|]. split; [done|]. by rewrite A4 by lia.
      * destruct (A2 j Hj ltac:(lia) ltac:(by rewrite Ho1)) as (g & ? & ? & Hg & ?). exists g.
        split; [done|]. split; [done|]. split; [intros HgX; by apply Hg, elem_of_union_r|done].
    + intros j k Hj Hk Hjr Hkr Hne Pj Pk.
      assert (Hfresh : forall l, 0 <= l -> i <= l < i + Z.of_nat (S n) -> l <> i ->
                e_present (pte s d l) = false -> pte s' d l <> pte s' d i).
      { intros l Hl Hlr Hli Pl. destruct (A2 l Hl ltac:(lia) ltac:(by rewrite Ho1)) as (g & _ & _ & Hg & ->).
        rewrite (A4 i) by lia. rewrite Hp1. intros Heq. assert (g = f) as -> by lia.
        apply Hg, elem_of_union_l, elem_of_singleton; reflexivity. }
      destruct (decide (j = i)) as [->|Hj']; [intros Heq; by apply (Hfresh k)|].
      destruct (decide (k = i)) as [->|Hk']; [by apply Hfresh|].
      apply A3; try done; try lia; by rewrite Ho1.
    + intros j Hj Hr. rewrite A4 by lia. apply Ho1; lia.
Qed.

Lemma alloc_pages_spec s d start sz flags X T :
  dir_ok s d -> vm_ok s X T -> 0 <= start -> 0 <= sz -> start + sz <= 2 ^ 20 -> 0 <= flags < 4096 ->
  runs (alloc_pages d start sz flags s) (fun b s' => dir_ok s' d /\ same_mem s s' /\
    exists X' T', vm_ok s' X' T' /\
      (b = true -> allocated_pages s s' d start (Z.to_nat sz) flags X X') /\
      (b = false -> oom /\ exists j, start <= j < start + sz /\ pte s' d j = flags)).
Proof.
  intros Hd Hv Hst Hsz Hle Hf. unfold alloc_pages. rewrite rounds_ok by done.
  eapply runs_mono; [apply (alloc_loop_spec (Z.to_nat sz) d flags start s X T); try done; lia|].
  intros b s' (? & ? & X' & T' & ? & ? & Hbf). split; [done|]. split; [done|]. exists X', T'.
  split; [done|]. split; [done|]. intros Hb. destruct (Hbf Hb) as (? & j & ? & ?). split; [done|].
  exists j. split; [lia|done].
Qed.


End spec.
