(* ===== verification/PageClone.v ===== *)
(** * Cloning page tables

    [page_table::clone] gives every present page of a table a frame of its own
    with the same contents; the copy goes through two window pages at the end
    of the current address space, which are restored. *)

From S2P Require Import Prelude MemLayout PageDir PageDirSpec.
From stdpp Require Import gmap list.
#[local] Open Scope Z_scope.

Section clone.
Context {F K : Type} `{FrameAlloc F} `{TableAlloc K}.
Notation vm := (@vm F K).

(** The entry [k] of table [t]. *)
Definition tget (s : vm) (t k : Z) : Z := pget (default ∅ (vm_tables s !! t)) k.

(** The tables agree entry by entry; an absent entry is a zero one. *)
Definition tabs_eq (s s' : vm) : Prop :=
  forall t, (is_Some (vm_tables s !! t) <-> is_Some (vm_tables s' !! t)) /\
            forall k, tget s' t k = tget s t k.

#[export] Instance tabs_eq_equiv : Equivalence tabs_eq.
Proof.
  split.
  - intros s t. done.
  - intros s s' E t. destruct (E t) as [E1 E2]. split; [by rewrite E1|]. intros k. by rewrite E2.
  - intros s1 s2 s3 E E' t. destruct (E t) as [E1 E2], (E' t) as [E3 E4].
    split; [by rewrite E1|]. intros k. by rewrite E4, E2.
Qed.

Lemma pget_insert (t : ptable) k v j : pget (<[k := v]> t) j = if decide (j = k) then v else pget t j.
Proof.
  unfold pget. destruct (decide (j = k)) as [->|]; [by rewrite lookup_insert_eq|].
  by rewrite lookup_insert_ne.
Qed.

(** ** Working on one table *)

Definition with_tab (w : Z) (tb : ptable) (s : vm) : vm := with_tables (<[w := tb]> (vm_tables s)) s.

Lemma with_tab_id w tb (s : vm) : vm_tables s !! w = Some tb -> with_tab w tb s = s.
Proof. intros E. unfold with_tab, with_tables. rewrite insert_id by done. by destruct s. Qed.

Lemma read_tab w tb k (s : vm) : page_read (w, k) (with_tab w tb s) = Ok (pget tb k, with_tab w tb s).
Proof.
  unfold page_read, get_table. mgo. cbn [fst snd].
  mrun (deref_some (vm_tables (with_tab w tb s) !! w) tb (with_tab w tb s) (lookup_insert_eq _ _ _)). done.
Qed.

Lemma write_tab w tb k v (s : vm) :
  page_write (w, k) v (with_tab w tb s) = Ok (tt, with_tab w (<[k := v]> tb) s).
Proof.
  unfold page_write, get_table, put_table, set_tables. mgo. cbn [fst snd].
  mrun (deref_some (vm_tables (with_tab w tb s) !! w) tb (with_tab w tb s) (lookup_insert_eq _ _ _)). mgo.
  unfold modify, with_tab, with_tables. simpl. by rewrite insert_insert_eq.
Qed.

Lemma write_addr_tab w tb k a (s : vm) :
  page_write_addr (w, k) a (with_tab w tb s) = Ok (tt, with_tab w (<[k := with_addr (pget tb k) a]> tb) s).
Proof. unfold page_write_addr. mrun (read_tab w tb k s). by rewrite write_tab. Qed.

Definition with_memory (m : gmap Z (gmap Z Z)) (s : vm) : vm :=
  Vm (vm_frames s) (vm_kmem s) (vm_tables s) (vm_dirs s) (vm_cur s) m.

(** The windows: the table of the last 4 MiB of the current directory. *)
Definition windows (s : vm) (w : Z) : Prop :=
  exists dir, vm_dirs s !! vm_cur s = Some dir /\ pd_tables dir !! 1023 = Some w /\ is_Some (vm_tables s !! w).

Lemma window_page (s : vm) w v mk :
  windows s w -> v = DST_VADDR \/ v = SRC_VADDR ->
  get_page (vm_cur s) (Z.shiftr v 12) mk default_flags s = Ok (Some (w, Z.land (Z.shiftr v 12) 1023), s).
Proof.
  intros (dir & Ed & Et & Hs) Hv. apply (get_page_found s).
  - destruct Hv as [-> | ->]; vm_compute; split; [discriminate|done|discriminate|done].
  - exists dir. split; [done|]. split; [|done]. destruct Hv as [-> | ->]; exact Et.
Qed.

Lemma copy_loop_run (s : vm) w tb fd fs :
  e_addr (pget tb 1022) = fd -> e_addr (pget tb 1023) = fs ->
  exists tb', copy_loop_phys 2 (w, 1022) (w, 1023) 1024 (with_tab w tb s) =
    Ok (tt, with_tab w tb' (with_memory (<[fd := copy_words 1024 (frame_words (vm_mem s) fs)
                                          (frame_words (vm_mem s) fd)]> (vm_mem s)) s)) /\
    forall k, k <> 1022 -> k <> 1023 -> pget tb' k = pget tb k.
Proof.
  intros Ed Es. cbn [copy_loop_phys]. change (0 <? 1024) with true. cbv iota.
  change (Z.min 1024 1024) with 1024. change (1024 - 1024) with 0. change (0 <? 0) with false. cbv iota zeta.
  mrun (read_tab w tb 1022 s). mrun (read_tab w tb 1023 s). mgo. unfold set_mem at 1. mgo.
  rewrite Ed, Es. cbn [vm_mem with_tab with_tables]. set (m := <[fd := _]> (vm_mem s)).
  change (Vm _ _ _ _ _ m) with (with_tab w tb (with_memory m s)).
  mrun (read_tab w tb 1022 (with_memory m s)). mrun (write_tab w tb 1022 (with_addr (pget tb 1022) (e_addr (pget tb 1022) + 1)) (with_memory m s)).
  set (tb1 := <[1022 := _]> tb). mrun (read_tab w tb1 1023 (with_memory m s)).
  mrun (write_tab w tb1 1023 (with_addr (pget tb1 1023) (e_addr (pget tb1 1023) + 1)) (with_memory m s)).
  eexists. split; [done|]. intros k H1 H2. rewrite pget_insert, decide_False by done.
  unfold tb1. by rewrite pget_insert, decide_False.
Qed.

(** The copy changes one frame of physical memory and nothing else. *)
Lemma memcpyd_phys_spec (s : vm) w fd fs :
  windows s w -> 0 <= fd < 2 ^ 20 -> 0 <= fs < 2 ^ 20 ->
  exists tb, memcpyd_phys_aligned (fd * 4096) (fs * 4096) 1024 s =
    Ok (fd * 4096, with_tab w tb (with_memory (<[fd := copy_words 1024 (frame_words (vm_mem s) fs)
                                          (frame_words (vm_mem s) fd)]> (vm_mem s)) s)) /\
    forall k, pget tb k = tget s w k.
Proof.
  intros Hw Hd Hs. assert (Hw' := Hw). destruct Hw' as (dir & _ & _ & [tb0 E0]).
  unfold memcpyd_phys_aligned. mgo. cbv zeta.
  mrun (window_page s w SRC_VADDR false Hw (or_intror eq_refl)).
  unfold window at 1. rewrite bind_assoc. mrun (window_page s w DST_VADDR false Hw (or_introl eq_refl)).
  change (Z.land (Z.shiftr SRC_VADDR 12) 1023) with 1023. change (Z.land (Z.shiftr DST_VADDR 12) 1023) with 1022.
  pose proof (read_tab w tb0 1022 s) as R1. pose proof (read_tab w tb0 1023 s) as R2.
  pose proof (write_tab w tb0 1023 default_flags s) as W1. rewrite (with_tab_id w tb0 s E0) in R1, R2, W1.
  cbv beta iota. mgo. mrun R1. mgo. mrun R2. mgo. cbn [fst snd]. mrun W1.
  mrun (write_tab w (<[1023 := default_flags]> tb0) 1022 default_flags s).
  rewrite (bind_ok _ _ _ _ _ (write_addr_tab _ _ _ _ _)), (bind_ok _ _ _ _ _ (write_addr_tab _ _ _ _ _)).
  set (tb1 := <[1023 := _]> (<[1022 := _]> _)).
  assert (Hf : forall f, 0 <= f < 2 ^ 20 -> Z.shiftr (f * 4096) 12 = f).
  { intros f Hf. rewrite shiftr_div by lia. change (2 ^ 12) with 4096. by rewrite Z.div_mul by lia. }
  destruct (copy_loop_run s w tb1 fd fs) as (tb2 & E2 & Hk2).
  { unfold tb1. rewrite pget_insert, decide_False, pget_insert, decide_True by done.
    rewrite (Hf fd) by done. by apply with_addr_addr. }
  { unfold tb1. rewrite pget_insert, decide_True by done. rewrite (Hf fs) by done. by apply with_addr_addr. }
  change (Z.to_nat (1024 / 1024 + 1)) with 2%nat. mrun E2.
  rewrite (bind_ok _ _ _ _ _ (write_tab _ _ _ _ _)), (bind_ok _ _ _ _ _ (write_tab _ _ _ _ _)).
  eexists. split; [done|]. intros k. unfold tget. rewrite E0. simpl.
  rewrite !pget_insert. destruct (decide (k = 1023)) as [->|H1]; [done|].
  destruct (decide (k = 1022)) as [->|H2]; [done|]. rewrite Hk2 by done. unfold tb1.
  by rewrite !pget_insert, !decide_False by done.
Qed.

Lemma with_tab_eq (s : vm) w tb m :
  is_Some (vm_tables s !! w) -> (forall k, pget tb k = tget s w k) -> tabs_eq s (with_tab w tb (with_memory m s)).
Proof.
  intros Hw Hk t. unfold tget. simpl. destruct (decide (t = w)) as [->|Hne].
  - rewrite lookup_insert_eq. split; [split; eauto|]. intros k. simpl. apply Hk.
  - by rewrite lookup_insert_ne by done.
Qed.

(** ** Cloning one page *)

Definition table_in (s : vm) (t : Z) : Prop := is_Some (vm_tables s !! t).

(** The parts of the state that cloning a table leaves alone. *)
Definition same_dirs (s s' : vm) : Prop :=
  vm_dirs s' = vm_dirs s /\ vm_cur s' = vm_cur s /\ vm_kmem s' = vm_kmem s /\
  forall t, table_in s t <-> table_in s' t.

Lemma same_dirs_trans s1 s2 s3 : same_dirs s1 s2 -> same_dirs s2 s3 -> same_dirs s1 s3.
Proof.
  intros (? & ? & ? & E1) (? & ? & ? & E2). split_and!; try congruence. intros t. by rewrite E1.
Qed.

Lemma windows_same s s' w : same_dirs s s' -> windows s w -> windows s' w.
Proof.
  intros (E1 & E2 & _ & E3) (dir & Ed & Et & Hw). exists dir. rewrite E1, E2. split_and!; try done. by apply E3.
Qed.

Lemma page_read_tget s t i : table_in s t -> page_read (t, i) s = Ok (tget s t i, s).
Proof.
  intros [tb E]. unfold page_read, get_table. mgo. cbn [fst snd]. mrun (deref_some _ _ s E).
  unfold tget. by rewrite E.
Qed.

Lemma page_write_tget s t i v :
  table_in s t -> exists s', page_write (t, i) v s = Ok (tt, s') /\ same_dirs s s' /\
    vm_frames s' = vm_frames s /\ vm_mem s' = vm_mem s /\
    forall x k, tget s' x k = if decide (x = t /\ k = i) then v else tget s x k.
Proof.
  intros [tb E]. pose proof (write_tab t tb i v s) as Hw. rewrite (with_tab_id t tb s E) in Hw.
  exists (with_tab t (<[i := v]> tb) s). split; [done|]. split; [unfold same_dirs; split_and!; try done|split_and!; try done].
  - intros x. unfold table_in. simpl. destruct (decide (x = t)) as [->|Hne].
    + rewrite lookup_insert_eq, E. split; eauto.
    + by rewrite lookup_insert_ne.
  - intros x k. unfold tget. simpl. destruct (decide (x = t)) as [->|Hne].
    + rewrite lookup_insert_eq, E. simpl. rewrite pget_insert.
      destruct (decide (k = i)), (decide (t = t /\ k = i)); naive_solver.
    + rewrite lookup_insert_ne by done. by rewrite decide_False by naive_solver.
Qed.

Lemma copy_words_low c (src dst : gmap Z Z) k : k < c -> copy_words c src dst !! k = src !! k.
Proof.
  intros Hk. unfold copy_words. rewrite lookup_union.
  assert (E : filter (fun kv : Z * Z => ~ kv.1 < c) dst !! k = None).
  { apply map_lookup_filter_None. right. intros x _. simpl. lia. }
  rewrite E. destruct (src !! k) as [x|] eqn:Ex.
  - assert (E2 : filter (fun kv : Z * Z => kv.1 < c) src !! k = Some x).
    { by apply map_lookup_filter_Some. } by rewrite E2.
  - assert (E2 : filter (fun kv : Z * Z => kv.1 < c) src !! k = None).
    { apply map_lookup_filter_None. by left. } by rewrite E2.
Qed.

Lemma frame_words_insert (m : gmap Z (gmap Z Z)) f x g :
  frame_words (<[f := x]> m) g = if decide (g = f) then x else frame_words m g.
Proof.
  unfold frame_words. destruct (decide (g = f)) as [->|]; [by rewrite lookup_insert_eq|].
  by rewrite lookup_insert_ne.
Qed.

(** The same words in the 4 KiB of two frames. *)
Definition same_words (m m' : gmap Z (gmap Z Z)) (f g : Z) : Prop :=
  forall k, k < 1024 -> frame_words m' f !! k = frame_words m g !! k.

Definition src_ok (s : vm) (t : Z) (X : gset Z) : Prop :=
  forall i, 0 <= tget s t i < 2 ^ 32 /\ (e_present (tget s t i) = true -> e_addr (tget s t i) ∈ X).

(** What cloning the pages [ids] of table [t] into table [v] does. *)
Definition cloned (s s' : vm) (t v : Z) (ids : list Z) (X X' : gset Z) : Prop :=
  X ⊆ X' /\
  (forall i, i ∈ ids -> e_present (tget s t i) = true -> exists f, f ∈ X' /\ f ∉ X /\ 0 < f < 2 ^ 20 /\
     tget s' v i = with_addr (tget s t i) f /\ same_words (vm_mem s) (vm_mem s') f (e_addr (tget s t i))) /\
  (forall i, i ∉ ids \/ e_present (tget s t i) = false -> tget s' v i = tget s v i) /\
  (forall x k, x <> v -> tget s' x k = tget s x k) /\
  (forall f, f ∈ X -> frame_words (vm_mem s') f = frame_words (vm_mem s) f) /\
  (forall i j, i ∈ ids -> j ∈ ids -> i <> j -> e_present (tget s t i) = true -> e_present (tget s t j) = true ->
     e_addr (tget s' v i) <> e_addr (tget s' v j)) /\
  (forall f, f ∈ X' -> f ∈ X \/ exists i, i ∈ ids /\ e_present (tget s t i) = true /\ e_addr (tget s' v i) = f).

Lemma cloned_refl s t v ids X :
  (forall i, i ∈ ids -> e_present (tget s t i) = false) ->
  (forall i j, i ∈ ids -> j ∈ ids -> i = j) -> cloned s s t v ids X X.
Proof.
  intros Hn Hu. split; [done|]. split; [intros i Hi; by rewrite (Hn i Hi)|].
  split; [done|]. split; [done|]. split; [done|]. split; [|by left].
  intros i j Hi Hj Hne. by destruct Hne; apply Hu.
Qed.

Lemma clone_page_spec s t v w i X :
  windows s w -> table_in s t -> table_in s v -> t <> v -> w <> v ->
  src_ok s t X -> fa_inv (vm_frames s) X ->
  runs (clone_page t v i s) (fun _ s' => same_dirs s s' /\
    exists X', fa_inv (vm_frames s') X' /\ cloned s s' t v [i] X X').
Proof.
  intros Hw Ht Hv Htv Hwv Hsrc Hf. destruct (Hsrc i) as [Hr HX].
  unfold clone_page. mrun (page_read_tget s t i Ht).
  destruct (e_present (tget s t i)) eqn:Ep; cycle 1.
  { simpl. split; [done|]. exists X. split; [done|]. apply cloned_refl; [by intros j ->%list_elem_of_singleton|].
    by intros j k ->%list_elem_of_singleton ->%list_elem_of_singleton. }
  destruct (page_write_tget s v i (tget s t i) Hv) as (s1 & E1 & D1 & F1 & M1 & P1). mrun E1.
  destruct (fa_alloc_ok (vm_frames s1) X ltac:(by rewrite F1)) as (a & e' & Ea & Hcase).
  assert (El : lift_frames fa_alloc s1 = Ok (a, with_frames e' s1)) by (unfold lift_frames; by rewrite Ea).
  mrun El. set (s2 := with_frames e' s1).
  destruct Hcase as [[-> _]|(f & -> & Hfr & HfX & Hinv)].
  { rewrite (bind_stop _ _ s2 Panic); [|done]. simpl. right. exists (vm_frames s1), X, e'. split; [by rewrite F1|done]. }
  destruct (Z.eqb_spec (f * 4096) 0); [lia|]. rewrite (bind_ok (asserth true) _ _ _ _ eq_refl).
  assert (D2 : same_dirs s s2) by exact D1. assert (P2 : forall x k, tget s2 x k = tget s1 x k) by done.
  assert (Hv2 : table_in s2 v) by (by apply D2). unfold page_write_addr. rewrite bind_assoc.
  mrun (page_read_tget s2 v i Hv2). rewrite P2, P1, decide_True by done.
  rewrite shiftr_div by lia. change (2 ^ 12) with 4096. rewrite Z.div_mul by lia.
  destruct (page_write_tget s2 v i (with_addr (tget s t i) f) Hv2) as (s3 & E3 & D3 & F3 & M3 & P3). mrun E3.
  pose proof (same_dirs_trans _ _ _ D2 D3) as D03.
  assert (P03 : forall x k, tget s3 x k = if decide (x = v /\ k = i) then with_addr (tget s t i) f else tget s x k).
  { intros x k. rewrite P3, P2, P1. by destruct (decide (x = v /\ k = i)). }
  mrun (page_read_tget s3 t i ltac:(by apply D03)). rewrite P03, decide_False by naive_solver.
  assert (Haddr : 0 <= e_addr (tget s t i) < 2 ^ 20).
  { rewrite e_addr_val. split; [apply Z.div_pos; lia|]. apply Z.div_lt_upper_bound; lia. }
  rewrite shiftl_mul by lia. change (2 ^ 12) with 4096. rewrite u32_small by lia.
  destruct (memcpyd_phys_spec s3 w f (e_addr (tget s t i)) (windows_same _ _ _ D03 Hw) ltac:(lia) Haddr)
    as (tb & E4 & Hk). mrun E4. set (s4 := with_tab w tb _).
  assert (Hw3 : table_in s3 w) by (apply D03; by destruct Hw as (? & _ & _ & ?)).
  assert (Heq : tabs_eq s3 s4) by (by apply with_tab_eq).
  assert (D4 : same_dirs s s4).
  { eapply same_dirs_trans; [exact D03|]. split_and!; try done. intros x. apply Heq. }
  assert (P4 : forall x k, tget s4 x k = if decide (x = v /\ k = i) then with_addr (tget s t i) f else tget s x k).
  { intros x k. rewrite (proj2 (Heq x)). apply P03. }
  assert (Mem : forall g, frame_words (vm_mem s4) g =
    if decide (g = f) then copy_words 1024 (frame_words (vm_mem s) (e_addr (tget s t i))) (frame_words (vm_mem s) f)
    else frame_words (vm_mem s) g).
  { intros g. assert (EM : vm_mem s3 = vm_mem s) by (rewrite M3; exact M1).
    change (vm_mem s4) with (<[f := copy_words 1024 (frame_words (vm_mem s3) (e_addr (tget s t i)))
                                          (frame_words (vm_mem s3) f)]> (vm_mem s3)).
    by rewrite frame_words_insert, EM. }
  simpl. split; [done|]. exists ({[f]} ∪ X). split; [by simpl; rewrite F3|]. split_and!.
  - set_solver.
  - intros j ->%list_elem_of_singleton _. exists f. split_and!; try lia; [set_solver|done| |].
    + by rewrite P4, decide_True.
    + intros k Hk4. rewrite Mem, decide_True by done. by apply copy_words_low.
  - intros j Hj. rewrite P4, decide_False; [done|]. intros [_ ->]. destruct Hj as [Hj|Hj]; [|congruence].
    by apply Hj, list_elem_of_singleton.
  - intros x k Hx. rewrite P4, decide_False by naive_solver. done.
  - intros g Hg. rewrite Mem, decide_False; [done|]. intros ->. done.
  - intros j k ->%list_elem_of_singleton ->%list_elem_of_singleton. done.
  - intros g [->%elem_of_singleton|Hg]%elem_of_union; [right|by left]. exists i.
    split; [by apply list_elem_of_singleton|]. split; [done|]. rewrite P4, decide_True by done. apply with_addr_addr. lia.
Qed.

Lemma clone_pages_spec t v w ids : forall s X,
  NoDup ids -> windows s w -> table_in s t -> table_in s v -> t <> v -> w <> v ->
  src_ok s t X -> fa_inv (vm_frames s) X ->
  runs (for_each (clone_page t v) ids s) (fun _ s' => same_dirs s s' /\
    exists X', fa_inv (vm_frames s') X' /\ cloned s s' t v ids X X').
Proof.
  induction ids as [|i ids IH]; intros s X Hnd Hw Ht Hv Htv Hwv Hsrc Hf; cbn [for_each].
  { simpl. split; [done|]. exists X. split; [done|].
    apply cloned_refl; [by intros j ?%elem_of_nil|by intros j k ?%elem_of_nil]. }
  apply NoDup_cons in Hnd as [Hni Hnd].
  eapply runs_bind; [by apply (clone_page_spec s t v w i X)|].
  intros _ s1 (D1 & X1 & Hf1 & HX1 & A1 & A2 & A3 & A4 & _ & A6).
  assert (Psrc : forall j, tget s1 t j = tget s t j) by (intros j; by apply A3).
  eapply runs_mono; [apply (IH s1 X1); try done|].
  - by eapply windows_same.
  - by apply D1.
  - by apply D1.
  - intros j. rewrite Psrc. split; [apply Hsrc|]. intros Hp. apply HX1. by apply Hsrc.
  - intros _ s' (D2 & X2 & Hf2 & HX2 & B1 & B2 & B3 & B4 & B5 & B6).
    split; [by eapply same_dirs_trans|]. exists X2. split; [done|].
    assert (Hnew : forall j, j ∈ ids -> e_present (tget s t j) = true -> exists f, f ∈ X2 /\ f ∉ X1 /\ 0 < f < 2 ^ 20 /\
       tget s' v j = with_addr (tget s t j) f /\ same_words (vm_mem s) (vm_mem s') f (e_addr (tget s t j))).
    { intros j Hj Hp. destruct (B1 j Hj ltac:(by rewrite Psrc)) as (f & ? & ? & ? & E & Hm).
      rewrite Psrc in E, Hm. exists f. split_and!; try done; try lia. intros k Hk. rewrite (Hm k Hk).
      rewrite A4; [done|]. by apply Hsrc. }
    assert (Hhd : e_present (tget s t i) = true -> exists f, f ∈ X1 /\ f ∉ X /\ 0 < f < 2 ^ 20 /\
       tget s' v i = with_addr (tget s t i) f /\ same_words (vm_mem s) (vm_mem s') f (e_addr (tget s t i))).
    { intros Hp. destruct (A1 i ltac:(by apply list_elem_of_singleton) Hp) as (f & ? & ? & ? & E & Hm).
      exists f. split_and!; try done; try lia.
      - rewrite B2 by (by left). done.
      - intros k Hk. rewrite B4 by done. by apply Hm. }
    split_and!.
    + set_solver.
    + intros j [->|Hj]%elem_of_cons Hp.
      * destruct (Hhd Hp) as (f & ? & ? & ? & ? & ?). exists f. split_and!; try done; try lia. set_solver.
      * destruct (Hnew j Hj Hp) as (f & ? & ? & ? & ? & ?). exists f. split_and!; try done; try lia. set_solver.
    + intros j Hj. rewrite B2, A2; [done| |].
      * destruct Hj as [Hj|Hj]; [left|by right]. rewrite list_elem_of_singleton. set_solver.
      * rewrite Psrc. destruct Hj as [Hj|Hj]; [left; set_solver|by right].
    + intros x k Hx. by rewrite B3, A3.
    + intros f HfX. rewrite B4, A4 by set_solver. done.
    + assert (Hne : forall j, j ∈ ids -> e_present (tget s t i) = true -> e_present (tget s t j) = true ->
               e_addr (tget s' v i) <> e_addr (tget s' v j)).
      { intros j Hj Hpi Hpj. destruct (Hhd Hpi) as (f & ? & _ & ? & -> & _), (Hnew j Hj Hpj) as (g & _ & ? & ? & -> & _).
        rewrite !with_addr_addr by lia. intros ->. done. }
      intros j k [->|Hj]%elem_of_cons [->|Hk]%elem_of_cons Hjk Hpj Hpk; [done|by apply Hne| |].
      * intros E. by apply (Hne j).
      * apply B5; try done; by rewrite Psrc.
    + intros f Hf'. destruct (B6 f Hf') as [Hf1'|(j & Hj & Hp & Ej)]; cycle 1.
      { right. exists j. rewrite Psrc in Hp. split_and!; [by apply list_elem_of_further|done|done]. }
      destruct (A6 f Hf1') as [?|(j & ->%list_elem_of_singleton & Hp & Ej)]; [by left|right].
      exists i. split_and!; [apply list_elem_of_here|done|]. rewrite B2 by (by left). done.
Qed.

Lemma table_clone_spec s t w X T :
  vm_ok s X T -> windows s w -> table_in s t -> src_ok s t X ->
  runs (table_clone t s) (fun vp s' =>
    vp.1 ∉ T /\ table_in s' vp.1 /\ vm_dirs s' = vm_dirs s /\ vm_cur s' = vm_cur s /\
    exists X', vm_ok s' X' ({[vp.1]} ∪ T) /\ X ⊆ X' /\
    (forall i, 0 <= i < 1024 ->
       if e_present (tget s t i) then
         exists f, f ∈ X' /\ f ∉ X /\ tget s' vp.1 i = with_addr (tget s t i) f /\
           e_addr (tget s' vp.1 i) = f /\ same_words (vm_mem s) (vm_mem s') f (e_addr (tget s t i))
       else tget s' vp.1 i = 0) /\
    (forall i j, 0 <= i < 1024 -> 0 <= j < 1024 -> i <> j -> e_present (tget s t i) = true ->
       e_present (tget s t j) = true -> e_addr (tget s' vp.1 i) <> e_addr (tget s' vp.1 j)) /\
    (forall x k, x <> vp.1 -> tget s' x k = tget s x k) /\
    (forall f, f ∈ X -> frame_words (vm_mem s') f = frame_words (vm_mem s) f) /\
    (forall x, table_in s' x <-> x = vp.1 \/ table_in s x) /\
    (forall f, f ∈ X' -> f ∈ X \/ exists i, 0 <= i < 1024 /\ e_present (tget s t i) = true /\ e_addr (tget s' vp.1 i) = f)).
Proof.
  intros (Hf & Hk & HT) Hw Ht Hsrc. unfold table_clone, lift_kmem at 1, bind at 1.
  destruct (ta_alloc_ok (vm_kmem s) T Hk) as [E|(v & ph & k' & E & Hv0 & HvT & _ & _ & Hk')]; rewrite E.
  { simpl. left. by exists (vm_kmem s), T. }
  cbn [fst snd]. destruct (Z.eqb_spec v 0); [lia|]. rewrite (bind_ok (asserth true) _ _ _ _ eq_refl).
  unfold put_table, set_tables. mgo. set (s1 := Vm _ _ _ _ _ _).
  assert (Htv : t <> v) by (intros ->; by apply HvT, HT).
  assert (Hwv : w <> v) by (intros ->; apply HvT, HT; by destruct Hw as (? & _ & _ & ?)).
  assert (P1 : forall x k, x <> v -> tget s1 x k = tget s x k).
  { intros x k Hx. unfold tget. simpl. by rewrite lookup_insert_ne. }
  assert (Pv : forall k, tget s1 v k = 0) by (intros k; unfold tget; simpl; by rewrite lookup_insert_eq).
  assert (Htab : forall x, table_in s1 x <-> x = v \/ table_in s x).
  { intros x. unfold table_in. simpl. destruct (decide (x = v)) as [->|Hne].
    - rewrite lookup_insert_eq. split; eauto.
    - rewrite lookup_insert_ne by done. naive_solver. }
  eapply runs_bind; [apply (clone_pages_spec t v w indices s1 X); try done|].
  - apply NoDup_seqZ.
  - destruct Hw as (dir & Ed & Et & Hs). exists dir. split_and!; try done. apply Htab. by right.
  - apply Htab. by right.
  - apply Htab. by left.
  - intros i. rewrite P1 by done. apply Hsrc.
  - intros _ s' ((D1 & D2 & D3 & D4) & X' & Hf' & HX & A1 & A2 & A3 & A4 & A5 & A6). simpl.
    assert (Hidx : forall i, 0 <= i < 1024 -> i ∈ indices) by (intros i Hi; apply elem_of_seqZ; lia).
    split; [done|]. split; [by apply D4, Htab; left|]. split; [done|]. split; [done|]. exists X'. split.
    { split; [done|]. rewrite D3. split; [done|]. intros x Hx. apply D4, Htab in Hx as [->|Hx]; [set_solver|].
      apply HT in Hx. set_solver. }
    split; [done|]. split; [|split; [|split]].
    + intros i Hi. destruct (e_present (tget s t i)) eqn:Ep.
      * destruct (A1 i (Hidx i Hi)) as (f & ? & ? & Hfr & E1 & Hm); [by rewrite P1|]. rewrite P1 in E1, Hm by done.
        exists f. split_and!; try done. rewrite E1. apply with_addr_addr. lia.
      * rewrite A2; [apply Pv|]. right. by rewrite P1.
    + intros i j Hi Hj Hne Hpi Hpj. apply A5; auto; by rewrite P1.
    + intros x k Hx. by rewrite A3, P1.
    + split; [done|]. split; [intros x; rewrite <- Htab; first [apply D4|symmetry; apply D4]|].
      intros f Hf1. destruct (A6 f Hf1) as [?|(i & Hi%elem_of_seqZ & Hp & Ei)]; [by left|right].
      exists i. rewrite P1 in Hp by done. split; [lia|done].
Qed.

(** cloning a page table gives a new table in which every present page of
    the original has the same flags and a frame of its own, one that nobody
    held before, with the same 1024 words; pages that are not present are
    zero; the original table, every other table and every frame held before
    keep their contents.  No frame is taken for anything else.  It halts only
    for lack of memory. *)
Theorem table_clone_correct s t w X T :
  vm_ok s X T -> windows s w -> table_in s t -> src_ok s t X ->
  runs (table_clone t s) (fun vp s' =>
    vp.1 ∉ T /\ table_in s' vp.1 /\ vm_dirs s' = vm_dirs s /\ vm_cur s' = vm_cur s /\
    exists X', vm_ok s' X' ({[vp.1]} ∪ T) /\ X ⊆ X' /\
    (forall i, 0 <= i < 1024 ->
       if e_present (tget s t i) then
         exists f, f ∈ X' /\ f ∉ X /\ tget s' vp.1 i = with_addr (tget s t i) f /\
           e_addr (tget s' vp.1 i) = f /\ same_words (vm_mem s) (vm_mem s') f (e_addr (tget s t i))
       else tget s' vp.1 i = 0) /\
    (forall i j, 0 <= i < 1024 -> 0 <= j < 1024 -> i <> j -> e_present (tget s t i) = true ->
       e_present (tget s t j) = true -> e_addr (tget s' vp.1 i) <> e_addr (tget s' vp.1 j)) /\
    (forall x k, x <> vp.1 -> tget s' x k = tget s x k) /\
    (forall f, f ∈ X -> frame_words (vm_mem s') f = frame_words (vm_mem s) f) /\
    (forall x, table_in s' x <-> x = vp.1 \/ table_in s x) /\
    (forall f, f ∈ X' -> f ∈ X \/ exists i, 0 <= i < 1024 /\ e_present (tget s t i) = true /\ e_addr (tget s' vp.1 i) = f)).
Proof. apply table_clone_spec. Qed.

End clone.
