(* ===== verification/PageEnv.v ===== *)
(** * The page directories' environment

    The buddy allocator implements the frame interface of the page
    directories; with it, and a supply of page-aligned blocks for the tables,
    the theorems about directories apply to concrete states. *)

From S2P Require Import Prelude MemLayout Buddy BuddySpec PageDir PageDirSpec PageClone.
From stdpp Require Import gmap list.
#[local] Open Scope Z_scope.

(** ** The frame allocator *)

Definition buddy_held (s : frames) (X : gset Z) : Prop :=
  exists fl al, buddy_inv s fl al /\ forall f, f ∈ X <-> al !! f = Some 0.

Lemma order0_ok : order_ok 0.
Proof. ord_lia. Qed.

Lemma buddy_alloc_law s X :
  buddy_held s X ->
  exists a s', alloc_frames 0 s = Ok (a, s') /\
    (a = 0 /\ buddy_held s' X \/
     exists f, a = f * 4096 /\ 0 < f < 2 ^ 20 /\ f ∉ X /\ buddy_held s' ({[f]} ∪ X)).
Proof.
  intros (fl & al & Hinv & HX).
  destruct (alloc_frames_spec s fl al 0 Hinv order0_ok) as [(idx & s' & fl' & E & Hb & Hal & Hinv' & _)|[E _]].
  - exists (idx * PAGE_SIZE), s'. split; [done|]. right. exists idx. destruct Hb as (Hpos & _ & Hle).
    assert (Hn : npages s < 2 ^ 20 + 1).
    { unfold npages, PAGE_SHIFT. rewrite shiftr_div by lia. destruct Hinv as [Hi _].
      pose proof (i_mem _ _ _ _ Hi). assert (fs_mem s / 2 ^ 12 < 2 ^ 20); [|lia].
      apply Z.div_lt_upper_bound; lia. }
    split_and!; [done|done|change (2 ^ 0) with 1 in Hle; lia| |].
    + rewrite HX, Hal. done.
    + exists fl', (<[idx := 0]> al). split; [done|]. intros f. rewrite elem_of_union, elem_of_singleton, HX.
      destruct (decide (f = idx)) as [->|Hne]; [rewrite lookup_insert_eq; tauto|].
      rewrite lookup_insert_ne by done. tauto.
  - exists 0, s. split; [done|]. left. split; [done|]. by exists fl, al.
Qed.

Lemma buddy_free_law s X f :
  buddy_held s X -> f ∈ X ->
  exists s', (free_frames (f * 4096);;; ret tt) s = Ok (tt, s') /\ buddy_held s' (X ∖ {[f]}).
Proof.
  intros (fl & al & Hinv & HX) Hf. apply HX in Hf.
  destruct (free_frames_spec s fl al f 0 Hinv Hf) as (r & s' & fl' & E & Hinv' & _).
  change PAGE_SIZE with 4096 in E. exists s'. mrun E. split; [done|]. exists fl', (delete f al). split; [done|].
  intros g. rewrite elem_of_difference, elem_of_singleton, HX. destruct (decide (g = f)) as [->|Hne].
  - rewrite lookup_delete_eq. naive_solver.
  - rewrite lookup_delete_ne by done. tauto.
Qed.

#[export] Instance buddy_frame_alloc : FrameAlloc frames := {
  fa_alloc := alloc_frames 0;
  fa_free := fun p => free_frames p;;; ret tt;
  fa_inv := buddy_held;
  fa_alloc_ok := buddy_alloc_law;
  fa_free_ok := buddy_free_law
}.

(** ** A supply of blocks for tables *)

Definition supply : Type := list (Z * Z).
Definition supply_alloc : M supply (Z * Z) :=
  fun k => match k with [] => Stop Panic | p :: r => Ok (p, r) end.
Definition supply_free (v : Z) : M supply unit := ret tt.
Definition supply_inv (k : supply) (T : gset Z) : Prop :=
  NoDup k.*1 /\ Forall (fun p => p.1 <> 0 /\ p.1 ∉ T /\ 0 <= p.2 < 2 ^ 32 /\ p.2 mod 4096 = 0) k.

Lemma supply_alloc_law k T :
  supply_inv k T ->
  supply_alloc k = Stop Panic \/
  exists v ph k', supply_alloc k = Ok ((v, ph), k') /\ v <> 0 /\ v ∉ T /\
    0 <= ph < 2 ^ 32 /\ ph mod 4096 = 0 /\ supply_inv k' ({[v]} ∪ T).
Proof.
  destruct k as [|[v ph] k]; [by left|]. intros [Hnd Hall]. right. exists v, ph, k. split; [done|].
  apply Forall_cons in Hall as [(? & ? & ? & ?) Hall]. simpl in *. apply NoDup_cons in Hnd as [Hni Hnd].
  split_and!; try done; try lia. split; [done|]. rewrite Forall_forall in *. intros p Hp.
  destruct (Hall p Hp) as (? & ? & ? & ?). split_and!; try done; try lia.
  rewrite elem_of_union, elem_of_singleton. intros [E|?]; [|done]. apply Hni. rewrite <- E.
  apply list_elem_of_fmap. by exists p.
Qed.

Lemma supply_free_law k T v :
  supply_inv k T -> v ∈ T -> exists k', supply_free v k = Ok (tt, k') /\ supply_inv k' (T ∖ {[v]}).
Proof.
  intros [Hnd Hall] _. exists k. split; [done|]. split; [done|]. eapply Forall_impl; [exact Hall|].
  intros p (? & ? & ? & ?). split_and!; try done; try lia. set_solver.
Qed.

#[export] Instance supply_table_alloc : TableAlloc supply := {
  ta_alloc := supply_alloc;
  ta_free := supply_free;
  ta_inv := supply_inv;
  ta_alloc_ok := supply_alloc_law;
  ta_free_ok := supply_free_law
}.

(** ** Concrete states *)

Definition supply0 : supply := [(0x10000, 0x20000); (0x11000, 0x21000); (0x12000, 0x22000)].

(** A directory at 16 whose last table (the window) is the table at 50. *)
Definition vm_with (fr : frames) (tabs : gmap Z (gmap Z Z)) : @vm frames supply :=
  Vm fr supply0 tabs {[ 16 := PDir ∅ {[ 1023 := 50 ]} 0 ]} 16 ∅.

Lemma supply0_inv : supply_inv supply0 {[ 50; 60 ]}.
Proof.
  split; [vm_compute; repeat constructor; set_solver|].
  repeat constructor; simpl; try lia; set_solver.
Qed.

Lemma boot_held : buddy_held boot_state ∅.
Proof.
  destruct boot_state_inv as (fl & Hinv & _). exists fl, ∅. split; [done|]. intros f.
  rewrite lookup_empty. set_solver.
Qed.

Lemma vm_with_ok fr tabs X :
  buddy_held fr X -> (forall t, is_Some (tabs !! t) -> t = 50 \/ t = 60) ->
  vm_ok (vm_with fr tabs) X {[ 50; 60 ]}.
Proof. intros Hf Ht. split; [done|]. split; [apply supply0_inv|]. intros t Hs. apply Ht in Hs. set_solver. Qed.

Definition tabs0 : gmap Z (gmap Z Z) := {[ 50 := ∅ ]}.

Lemma tabs0_dom t : is_Some (tabs0 !! t) -> t = 50 \/ t = 60.
Proof. intros [x Hx]. unfold tabs0 in Hx. apply lookup_singleton_Some in Hx. naive_solver. Qed.

Lemma dir16_ok fr tabs : is_Some (tabs !! 50) -> dir_ok (vm_with fr tabs) 16.
Proof.
  intros H50. exists (PDir ∅ {[ 1023 := 50 ]} 0). split; [done|]. simpl. split.
  - intros i t E. apply lookup_singleton_Some in E as [_ <-]. done.
  - intros i j t E1 E2. apply lookup_singleton_Some in E1 as [<- _]. by apply lookup_singleton_Some in E2 as [<- _].
Qed.

Lemma map_pages_correct_witness :
  runs (map_pages 16 5 0x7000 2 true 3 (vm_with boot_state tabs0)) (fun b s' =>
    b = true /\ pte s' 16 6 = 0x8003).
Proof.
  destruct (map_pages_correct (vm_with boot_state tabs0) 16 5 0x7000 2 3 ∅ {[ 50; 60 ]}) as [Hr _].
  - by apply dir16_ok.
  - apply vm_with_ok; [apply boot_held|apply tabs0_dom].
  - lia.
  - lia.
  - lia.
  - lia.
  - lia.
  - reflexivity.
  - lia.
  - eapply runs_mono; [exact Hr|]. intros b s' (-> & _ & _ & _ & Hp). split; [done|]. by rewrite Hp.
Defined.


(** After boot a frame can be had. *)
Lemma boot_frame : exists f e, 0 < f < 2 ^ 20 /\ buddy_held e {[ f ]}.
Proof.
  destruct boot_state_inv as (fl & Hinv & Hfree).
  destruct (alloc_frames_spec boot_state fl ∅ 0 Hinv order0_ok) as [(idx & s' & fl' & E & Hb & Hal & Hinv' & _)|[_ Hnone]].
  - exists idx, s'. destruct (buddy_alloc_law boot_state ∅ boot_held) as (a & s1 & E1 & Hc).
    rewrite E in E1. injection E1 as <- <-. destruct Hc as [[Hz _]|(f & Hf & Hr & _ & Hh)].
    + destruct Hb as (Hpos & _). unfold PAGE_SIZE in Hz. lia.
    + assert (f = idx) as -> by (unfold PAGE_SIZE in Hf; lia). split; [done|].
      rewrite (right_id_L ∅ (∪)) in Hh. exact Hh.
  - exfalso. assert (Hj : free_frame fl 2048) by (apply Hfree; lia).
    destruct Hj as (x & i & Hx & Hi & _). rewrite Hnone in Hi by ord_lia. by apply elem_of_nil in Hi.
Qed.

(** A table whose page 7 is present in frame [f]. *)
Definition tabs1 (f : Z) : gmap Z (gmap Z Z) := {[ 50 := ∅; 60 := {[ 7 := f * 4096 + 3 ]} ]}.

Lemma tabs1_get f i e : tget (vm_with e (tabs1 f)) 60 i = if decide (i = 7) then f * 4096 + 3 else 0.
Proof.
  unfold tget, tabs1. simpl. rewrite lookup_insert_ne, lookup_singleton_eq by done. simpl. unfold pget.
  destruct (decide (i = 7)) as [->|Hne]; [by rewrite lookup_singleton_eq|by rewrite lookup_singleton_ne].
Qed.

Lemma table_clone_correct_witness :
  exists f e, buddy_held e {[ f ]} /\
    runs (table_clone 60 (vm_with e (tabs1 f))) (fun vp s' => e_addr (tget s' vp.1 7) <> f).
Proof.
  destruct boot_frame as (f & e & Hf & He). exists f, e. split; [done|].
  assert (Hp : forall v, v = f * 4096 + 3 -> e_present v = true /\ e_addr v = f).
  { intros v ->. split.
    - rewrite (e_present_low _ 3); [done|]. rewrite Z.add_comm, Z.mod_add by lia. done.
    - rewrite e_addr_val. symmetry. apply (Z.div_unique _ _ _ 3); lia. }
  pose proof (table_clone_correct (vm_with e (tabs1 f)) 60 50 {[ f ]} {[ 50; 60 ]}) as Hr.
  eapply runs_mono; [apply Hr|]; clear Hr.
  - apply vm_with_ok; [done|]. intros t [x Hx]. unfold tabs1 in Hx.
    apply lookup_insert_Some in Hx as [[<- _]|[_ Hx]]; [by left|]. apply lookup_singleton_Some in Hx as [<- _]. by right.
  - eexists. split; [reflexivity|]. split; [reflexivity|]. unfold tabs1. simpl. rewrite lookup_insert_eq. eauto.
  - unfold table_in, tabs1. simpl. rewrite lookup_insert_ne, lookup_singleton_eq by done. eauto.
  - intros i. rewrite tabs1_get. destruct (decide (i = 7)) as [->|Hne]; [|split; [lia|done]].
    split; [lia|]. intros _. destruct (Hp _ eq_refl) as [_ ->]. set_solver.
  - intros [v ph] s' (_ & _ & _ & _ & X' & _ & _ & Hi & _). specialize (Hi 7 ltac:(lia)).
    rewrite tabs1_get, decide_True in Hi by done. destruct (Hp _ eq_refl) as [Hpr _]. rewrite Hpr in Hi.
    destruct Hi as (g & _ & Hg & _ & -> & _). set_solver.
Defined.
