(* ===== verification/HeapPages.v ===== *)
(** * The kernel heap on the kernel's pages

    [sbrk] and [srel] of kernel/mem/heap.cpp call the kernel page directory;
    Heap.v lists those calls and this file carries them out, on the directories
    and over the frame allocator.  In every state the heap can reach while
    frames last, each of its pages is mapped to a frame of its own. *)

From S2P Require Import Prelude Dll LinkedList MemLayout Heap HeapSpec HeapOps HeapFree.
From S2P Require Import Buddy BuddySpec PageDir PageDirSpec PageClone PageEnv.
From stdpp Require Import gmap list.
#[local] Open Scope Z_scope.

Section heap_pages.
Context {F K : Type} `{FrameAlloc F} `{TableAlloc K}.
Notation vm := (@vm F K).
Variable kernel_page_dir : Z.
Variable junk : link nptr.

(** ** The calls *)

(** [alloc_pages] with its default flags, its result ignored; the body of the
    loop of [srel], which does not check the page it gets. *)
Definition page_call_run (c : page_call) : M vm unit :=
  match c with
  | AllocPages page n => _ <-- alloc_pages kernel_page_dir page n default_flags;; ret tt
  | ReleasePage i =>
    p <-- get_page kernel_page_dir (Z.shiftr i 12) false default_flags;;
    q <-- deref p;;
    v <-- page_read q;;
    lift_frames (fa_free (u32 (Z.shiftl (e_addr v) 12)));;;
    page_write q 0
  end.
Fixpoint page_calls_run (cs : list page_call) : M vm unit :=
  match cs with [] => ret tt | c :: r => page_call_run c;;; page_calls_run r end.

Record kheap : Type := Kheap { kh_heap : heap; kh_vm : vm }.

(** An operation of the heap with the calls it makes.  The heap's tags and the
    page directory are disjoint parts of the state, so the calls can follow. *)
Definition on_pages {A} (c : M heap A) : M kheap A :=
  fun s => match c (kh_heap s) with
           | Stop e => Stop e
           | Ok (a, h) =>
             match page_calls_run (drop (length (hp_calls (kh_heap s))) (hp_calls h)) (kh_vm s) with
             | Ok (_, v) => Ok (a, Kheap h v)
             | Stop e => Stop e
             end
           end.

Definition kheap_init : M kheap unit := on_pages (heap_init junk).
Definition kheap_alloc (size : Z) (align : bool) : M kheap Z := on_pages (alloc junk size align).
Definition kheap_free (p : Z) : M kheap unit := on_pages (free p).

(** ** Backing *)

Notation kd := kernel_page_dir.

Definition heap_page (j : Z) : Prop := HEAP_BASE / 4096 <= j < HEAP_END / 4096.

(** Exactly the pages [P] of the heap's range are mapped, writable, each to a
    frame of its own that does not belong to the frames [X0] held elsewhere,
    and no other frames are held. *)
Definition backed (X0 : gset Z) (P : Z -> Prop) (v : vm) : Prop :=
  dir_ok v kd /\ (forall j, heap_page j -> is_Some (page_of v kd j)) /\
  (exists X T, vm_ok v X T /\
     forall f, f ∈ X <-> f ∈ X0 \/ exists j, P j /\ e_addr (pte v kd j) = f) /\
  (forall j, P j -> heap_page j /\ exists f, 0 < f < 2 ^ 20 /\ f ∉ X0 /\ pte v kd j = f * 4096 + 3) /\
  (forall j k, P j -> P k -> pte v kd j = pte v kd k -> j = k) /\
  (forall j, heap_page j -> ~ P j -> e_present (pte v kd j) = false).

(** No page outside the heap's range, no directory and no memory changed. *)
Definition kept (v v' : vm) : Prop :=
  same_mem v v' /\ vm_dirs v' = vm_dirs v /\ forall j, 0 <= j -> ~ heap_page j -> pte v' kd j = pte v kd j.

Lemma kept_refl v : kept v v.
Proof. done. Qed.
Lemma kept_trans v1 v2 v3 : kept v1 v2 -> kept v2 v3 -> kept v1 v3.
Proof. intros ([? ?] & ? & K1) ([? ?] & ? & K2). split; [split; congruence|]. split; [congruence|]. intros j Hj Hn. by rewrite K2, K1. Qed.

Lemma heap_page_range j : heap_page j -> 0 <= j < 2 ^ 20.
Proof. unfold heap_page. change (HEAP_BASE / 4096) with 851968. change (HEAP_END / 4096) with 983040. lia. Qed.

#[global] Instance backed_proper X0 : Proper (pointwise_relation Z iff ==> eq ==> iff) (backed X0).
Proof.
  assert (Hhalf : forall P Q v, (forall j, P j <-> Q j) -> backed X0 P v -> backed X0 Q v).
  { intros P Q v E (Hd & Hs & (X & T & Hv & HX) & Hp & Hi & Hn). split_and!; [done|done| | | |].
    - exists X, T. split; [done|]. intros f. rewrite HX. setoid_rewrite E. done.
    - intros j Hj. by apply Hp, E.
    - intros j k Hj Hk. apply Hi; by apply E.
    - intros j Hj Hq. apply Hn; [done|]. by rewrite E. }
  intros P Q E v ? <-. split; apply Hhalf; [done|]. intros j. by rewrite (E j).
Qed.

Lemma entry3 f : 0 <= f < 2 ^ 20 -> e_addr (f * 4096 + 3) = f /\ e_present (f * 4096 + 3) = true.
Proof.
  intros Hf. split.
  - rewrite e_addr_val. symmetry. apply (Z.div_unique _ _ _ 3); lia.
  - rewrite (e_present_low _ 3); [done|]. rewrite Z.add_comm, Z.mod_add by lia. done.
Qed.

Lemma heap_slot (v : vm) j :
  dir_ok v kd -> (forall k, heap_page k -> is_Some (page_of v kd k)) -> heap_page j -> exists p, slot v kd j p.
Proof. intros Hd Hs Hj. destruct (page_of_slot v kd j Hd) as [E|?]; [|done]. destruct (Hs j Hj). congruence. Qed.

(** A page of the heap gets a frame; when there is none it maps frame 0. *)
Lemma backed_add X0 P v i :
  backed X0 P v -> heap_page i -> ~ P i ->
  exists b v', alloc_one kd i default_flags v = Ok (b, v') /\ kept v v' /\
    (b = true -> backed X0 (fun j => P j \/ j = i) v') /\
    (b = false -> oom (F := F) (K := K) /\ pte v' kd i = 3).
Proof.
  intros (Hd & Hs & (X & T & Hv & HX) & Hp & Hi & Hn) Hpg HPi. pose proof (heap_page_range i Hpg) as Hr.
  destruct (heap_slot v i Hd Hs Hpg) as [p Hsl]. unfold alloc_one.
  mrun (get_page_found v kd i false default_flags p Hr Hsl). rewrite bind_assoc.
  mrun (page_read_ok v kd i p Hsl). rewrite (Hn i Hpg HPi). mgo.
  mrun (get_page_found v kd i true default_flags p Hr Hsl).
  destruct (alloc_slot_ok v kd i p default_flags X T ltac:(lia) ltac:(vm_compute; split; congruence) Hsl Hd Hv)
    as (b & v' & E & Hd' & Hm & Ho & Hq & Hdd & Hbt & Hbf).
  exists b, v'. split; [exact E|]. split.
  { split; [done|]. split; [done|]. intros j Hj Hnj. apply Ho; [done|]. by intros ->. }
  assert (HoP : forall j, P j -> pte v' kd j = pte v kd j).
  { intros j Hj. destruct (Hp j Hj) as [Hpj _]. apply heap_page_range in Hpj. apply Ho; [lia|]. by intros ->. }
  split; cycle 1.
  { intros Hb. by destruct (Hbf Hb) as (? & _ & ->). }
  intros Hb. destruct (Hbt Hb) as (f & Hf & HfX & Hv' & Epi). change default_flags with 3 in Epi.
  destruct (entry3 f ltac:(lia)) as [Ef _].
  assert (HfX0 : f ∉ X0) by (intros ?; apply HfX, HX; by left).
  split_and!.
  - done.
  - intros j Hj. by apply Hq, Hs.
  - exists ({[f]} ∪ X), T. split; [done|]. intros g. rewrite elem_of_union, elem_of_singleton, HX. split.
    + intros [->|[?|(j & Hj & Ej)]]; [right; exists i; rewrite Epi; auto|by left|].
      right. exists j. rewrite HoP by done. auto.
    + intros [?|(j & [Hj| ->] & Ej)]; [auto| |rewrite Epi in Ej; left; congruence].
      right. right. exists j. rewrite HoP in Ej by done. auto.
  - intros j [Hj| ->]; [rewrite HoP by done; by apply Hp|]. split; [done|]. by exists f.
  - assert (Hfresh : forall j, P j -> pte v' kd j <> pte v' kd i).
    { intros j Hj Ej. rewrite HoP, Epi in Ej by done. apply HfX, HX. right. exists j. by rewrite Ej. }
    intros j k [Hj| ->] [Hk| ->] Ej; [|by destruct (Hfresh j)|by destruct (Hfresh k)|done].
    rewrite !HoP in Ej by done. by apply Hi.
  - intros j Hj Hnj. rewrite Ho; [apply Hn|apply heap_page_range in Hj; lia|]; tauto.
Qed.

(** A page of the heap is given back. *)
Lemma backed_del X0 P v i :
  backed X0 P v -> P i ->
  exists v', page_call_run (ReleasePage (4096 * i)) v = Ok (tt, v') /\ kept v v' /\
    backed X0 (fun j => P j /\ j <> i) v'.
Proof.
  intros (Hd & Hs & (X & T & (Hf & Hk & HT) & HX) & Hp & Hi & Hn) HPi. destruct (Hp i HPi) as (Hpg & f & Hfr & HfX0 & Epi).
  pose proof (heap_page_range i Hpg) as Hr. destruct (heap_slot v i Hd Hs Hpg) as [p Hsl].
  destruct (entry3 f ltac:(lia)) as [Ef _].
  assert (HfX : f ∈ X) by (apply HX; right; exists i; by rewrite Epi).
  cbn [page_call_run]. rewrite (shiftr_div (4096 * i)), Z.mul_comm by lia. change (2 ^ 12) with 4096. rewrite Z.div_mul by lia.
  mrun (get_page_found v kd i false default_flags p Hr Hsl). mrun (deref_some (Some p) p v eq_refl).
  mrun (page_read_ok v kd i p Hsl). rewrite Epi, Ef, shiftl_mul by lia. change (2 ^ 12) with 4096. rewrite u32_small by lia.
  destruct (fa_free_ok _ _ f Hf HfX) as (e' & Ee & Hf').
  assert (El : lift_frames (fa_free (f * 4096)) v = Ok (tt, with_frames e' v)) by (unfold lift_frames; by rewrite Ee).
  mrun El. set (v1 := with_frames e' v).
  destruct (page_write_ok v1 kd i p 0 ltac:(lia)) as (tb & E & _ & Hd' & Ho & Hq); [by apply (slot_mono v)|by apply (dir_ok_mono v)|].
  cbv zeta in *. eexists. split; [exact E|]. set (v' := with_tables _ v1) in *.
  assert (Ho' : forall j, 0 <= j -> j <> i -> pte v' kd j = pte v kd j) by (intros j Hj Hne; by rewrite Ho, decide_False).
  split. { split; [done|]. split; [done|]. intros j Hj Hnj. apply Ho'; [done|]. by intros ->. }
  assert (HoP : forall j, P j /\ j <> i -> pte v' kd j = pte v kd j).
  { intros j [Hj Hne]. destruct (Hp j Hj) as [Hpj _]. apply heap_page_range in Hpj. apply Ho'; [lia|done]. }
  split_and!.
  - done.
  - intros j Hj. apply Hq. by apply Hs.
  - exists (X ∖ {[f]}), T. split.
    { split; [done|]. split; [done|]. intros t Ht. apply HT. simpl in Ht.
      destruct (decide (t = p.1)) as [->|]; [by eapply slot_table|by rewrite lookup_insert_ne in Ht]. }
    intros g. rewrite elem_of_difference, elem_of_singleton, HX. split.
    + intros [[?|(j & Hj & Ej)] Hg]; [by left|]. right. exists j. assert (j <> i) by (intros ->; rewrite Epi in Ej; congruence).
      rewrite HoP by done. done.
    + intros [?|(j & Hj & Ej)]; [split; [by left|by intros ->]|]. rewrite HoP in Ej by done. split; [right; exists j; naive_solver|].
      intros ->. destruct Hj as [Hj Hne]. apply Hne, Hi; [done|done|].
      destruct (Hp j Hj) as (_ & g & Hg & _ & Eg). rewrite Epi, Eg. rewrite Eg in Ej.
      destruct (entry3 g ltac:(lia)) as [Eg' _]. lia.
  - intros j Hj. rewrite HoP by done. by apply Hp, Hj.
  - intros j k Hj Hl. rewrite !HoP by done. apply Hi; [apply Hj|apply Hl].
  - intros j Hj Hnj. destruct (decide (j = i)) as [->|Hne]; [by rewrite Ho, decide_True by lia|].
    rewrite Ho' by (try done; apply heap_page_range in Hj; lia). apply Hn; tauto.
Qed.

(** ** Growing and shrinking *)

Definition in_heap (e j : Z) : Prop := HEAP_BASE / 4096 <= j < e / 4096.

Lemma grow_pages X0 n : forall i v,
  HEAP_BASE / 4096 <= i -> i + Z.of_nat n <= HEAP_END / 4096 ->
  backed X0 (fun j => HEAP_BASE / 4096 <= j < i) v ->
  exists b v', alloc_loop n kd i default_flags v = Ok (b, v') /\ kept v v' /\
    (b = true -> backed X0 (fun j => HEAP_BASE / 4096 <= j < i + Z.of_nat n) v') /\
    (b = false -> oom (F := F) (K := K) /\ exists j, i <= j < i + Z.of_nat n /\ pte v' kd j = 3).
Proof.
  induction n as [|n IH]; intros i v Hi Hn Hb; cbn [alloc_loop].
  { exists true, v. split_and!; [done|apply kept_refl| |done]. intros _. by replace (i + Z.of_nat 0) with i by lia. }
  destruct (backed_add X0 _ v i Hb) as (b & v1 & E1 & K1 & Hbt & Hbf); [unfold heap_page; lia|lia|].
  mrun E1. destruct b; cycle 1.
  { exists false, v1. split_and!; [done|done|done|]. intros _. destruct (Hbf eq_refl). split; [done|]. exists i. split; [lia|done]. }
  destruct (IH (i + 1) v1 ltac:(lia) ltac:(lia)) as (b & v' & E & K2 & Ht & Hf).
  { assert (Eq : pointwise_relation Z iff (fun j => HEAP_BASE / 4096 <= j < i + 1) (fun j => HEAP_BASE / 4096 <= j < i \/ j = i))
      by (intros j; lia). rewrite Eq. by apply Hbt. }
  exists b, v'. split_and!; [exact E|by eapply kept_trans| |].
  - intros E'. specialize (Ht E'). by replace (i + 1 + Z.of_nat n) with (i + Z.of_nat (S n)) in Ht by lia.
  - intros E'. destruct (Hf E') as (? & j & ? & ?). split; [done|]. exists j. split; [lia|done].
Qed.

Lemma release_pages X0 n : forall i P v,
  backed X0 P v -> (forall j, i <= j < i + Z.of_nat n -> P j) ->
  exists v', page_calls_run ((fun j => ReleasePage (4096 * i + 4096 * Z.of_nat j)) <$> seq 0 n) v = Ok (tt, v') /\
    kept v v' /\ backed X0 (fun j => P j /\ ~ i <= j < i + Z.of_nat n) v'.
Proof.
  induction n as [|n IH]; intros i P v Hb HP; cbn [page_calls_run seq fmap list_fmap].
  { exists v. split_and!; [done|apply kept_refl|].
    assert (Eq : pointwise_relation Z iff (fun j => P j /\ ~ i <= j < i + Z.of_nat 0) P) by (intros j; split; [tauto|split; [done|lia]]).
    by rewrite Eq. }
  replace (4096 * i + 4096 * Z.of_nat 0) with (4096 * i) by lia.
  destruct (backed_del X0 P v i Hb ltac:(apply HP; lia)) as (v1 & E1 & K1 & Hb1). mrun E1.
  destruct (IH (i + 1) _ v1 Hb1) as (v' & E & K2 & Hb'); [intros j Hj; split; [apply HP|]; lia|].
  exists v'. split_and!; [|by eapply kept_trans|].
  - rewrite <- E. f_equal. rewrite <- fmap_S_seq, <- list_fmap_compose. apply list_fmap_ext.
    intros ? j _. simpl. f_equal. lia.
  - assert (Eq : pointwise_relation Z iff (fun j => P j /\ ~ i <= j < i + Z.of_nat (S n))
                   (fun j => (P j /\ j <> i) /\ ~ i + 1 <= j < i + 1 + Z.of_nat n)).
    { intros j. split; [intros [? ?]|intros [[? ?] ?]]; split_and!; try done; lia. }
    by rewrite Eq.
Qed.

Lemma drop_calls (c d : list page_call) : drop (length c) (c ++ d) = d.
Proof. by rewrite drop_app_length. Qed.

Lemma alloc_call X0 i k v :
  HEAP_BASE / 4096 <= i -> 0 <= k -> i + k <= HEAP_END / 4096 -> backed X0 (fun j => HEAP_BASE / 4096 <= j < i) v ->
  exists v', page_call_run (AllocPages i k) v = Ok (tt, v') /\ kept v v' /\
    (backed X0 (fun j => HEAP_BASE / 4096 <= j < i + k) v' \/
     oom (F := F) (K := K) /\ exists j, i <= j < i + k /\ pte v' kd j = 3).
Proof.
  intros Hi Hk Hn Hb. assert (HB : HEAP_BASE / 4096 = 851968) by done. assert (HE : HEAP_END / 4096 = 983040) by done.
  destruct (grow_pages X0 (Z.to_nat k) i v Hi ltac:(lia) Hb) as (b & v' & E & K1 & Ht & Hf).
  rewrite Z2Nat.id in Ht, Hf by done. exists v'. split; [|split; [done|]].
  - cbn [page_call_run]. unfold alloc_pages. rewrite rounds_ok by lia. mrun E. done.
  - destruct b; [left; by apply Ht|right; by apply Hf].
Qed.

(** The calls of an operation that grew the heap. *)
Lemma heap_grows X0 h h' v :
  end_ok (hp_end h) -> hp_end h' <= HEAP_END -> grown h h' -> backed X0 (in_heap (hp_end h)) v ->
  exists v', page_calls_run (drop (length (hp_calls h)) (hp_calls h')) v = Ok (tt, v') /\ kept v v' /\
    (backed X0 (in_heap (hp_end h')) v' \/
     oom (F := F) (K := K) /\ exists j, in_heap (hp_end h') j /\ pte v' kd j = 3).
Proof.
  intros [He1 He2] He' (_ & k & Hk & Ee & Ec) Hb. rewrite Ec, drop_calls.
  pose proof (Z.div_mod (hp_end h) 4096 ltac:(lia)) as Hdm.
  assert (Ed : hp_end h' / 4096 = hp_end h / 4096 + k).
  { rewrite Ee, (Z.mul_comm 4096), Z.div_add by lia. done. }
  destruct (Z.eqb_spec k 0) as [->|Hk0].
  { exists v. split_and!; [done|apply kept_refl|]. left. unfold in_heap. rewrite Ed. by rewrite Z.add_0_r. }
  assert (HB : HEAP_BASE = 851968 * 4096) by done. assert (HE : HEAP_END = 983040 * 4096) by done.
  unfold HEAP_INIT_SIZE in He1. rewrite HE in He'.
  destruct (alloc_call X0 (hp_end h / 4096) k v) as (v' & E & K1 & Hc); [|done| |done|].
  - rewrite HB, Z.div_mul by lia. lia.
  - rewrite HE, Z.div_mul by lia. lia.
  - exists v'. split; [|split; [done|]]; [cbn [page_calls_run]; by mrun E|].
    unfold in_heap. rewrite Ed. destruct Hc as [?|(? & j & Hj & Ej)]; [by left|right]. split; [done|]. exists j.
    split; [|done]. rewrite HB, Z.div_mul by lia. lia.
Qed.

(** The calls of an operation that shrank it. *)
Lemma heap_shrinks X0 h h' v :
  end_ok (hp_end h') -> shrunk h h' -> backed X0 (in_heap (hp_end h)) v ->
  exists v', page_calls_run (drop (length (hp_calls h)) (hp_calls h')) v = Ok (tt, v') /\ kept v v' /\
    backed X0 (in_heap (hp_end h')) v'.
Proof.
  intros [He1 He2] (_ & k & Ee & Ec) Hb. rewrite Ec, drop_calls.
  pose proof (Z.div_mod (hp_end h') 4096 ltac:(lia)) as Hdm.
  assert (Ed : hp_end h / 4096 = hp_end h' / 4096 + Z.of_nat k).
  { rewrite Ee, (Z.mul_comm 4096), Z.div_add by lia. done. }
  unfold HEAP_INIT_SIZE in He1. change HEAP_BASE with (851968 * 4096) in He1.
  assert (HB : HEAP_BASE / 4096 = 851968) by done.
  destruct (release_pages X0 k (hp_end h' / 4096) _ v Hb) as (v' & E & K1 & Hb').
  { intros j Hj. unfold in_heap. lia. }
  exists v'. split_and!; [|done|].
  - rewrite <- E. f_equal. apply list_fmap_ext. intros ? j _. simpl. f_equal. lia.
  - assert (Eq : pointwise_relation Z iff (in_heap (hp_end h'))
                   (fun j => in_heap (hp_end h) j /\ ~ hp_end h' / 4096 <= j < hp_end h' / 4096 + Z.of_nat k)).
    { intros j. unfold in_heap. lia. }
    by rewrite Eq.
Qed.

(** ** Sequences of operations *)

(** No page of the heap had to do without a frame. *)
Definition fed (s : kheap) : Prop := forall j, in_heap (hp_end (kh_heap s)) j -> pte (kh_vm s) kd j <> 3.

(** A heap started on the pages [v0], and the outstanding allocations. *)
Inductive kheap_reach (v0 : vm) : kheap -> list (Z * Z) -> Prop :=
| kreach_init s : kheap_init (Kheap heap_boot v0) = Ok (tt, s) -> fed s -> kheap_reach v0 s []
| kreach_alloc s out size align p s' :
    kheap_reach v0 s out -> 0 <= size -> hp_end (kh_heap s) + size + 8192 + 64 <= HEAP_END ->
    kheap_alloc size align s = Ok (p, s') -> fed s' -> kheap_reach v0 s' ((p, size) :: out)
| kreach_free s o1 p n o2 s' :
    kheap_reach v0 s (o1 ++ (p, n) :: o2) -> kheap_free p s = Ok (tt, s') -> kheap_reach v0 s' (o1 ++ o2).

Lemma on_pages_inv {A} (c : M heap A) s a s' :
  on_pages c s = Ok (a, s') ->
  c (kh_heap s) = Ok (a, kh_heap s') /\
  page_calls_run (drop (length (hp_calls (kh_heap s))) (hp_calls (kh_heap s'))) (kh_vm s) = Ok (tt, kh_vm s').
Proof.
  unfold on_pages. destruct (c (kh_heap s)) as [[b h]|]; [|done].
  destruct (page_calls_run _ _) as [[[] v]|] eqn:E; [|done]. intros Eq. by injection Eq as <- <-.
Qed.

Lemma on_pages_ok {A} (c : M heap A) s a h v :
  c (kh_heap s) = Ok (a, h) ->
  page_calls_run (drop (length (hp_calls (kh_heap s))) (hp_calls h)) (kh_vm s) = Ok (tt, v) ->
  on_pages c s = Ok (a, Kheap h v).
Proof. intros E1 E2. unfold on_pages. by rewrite E1, E2. Qed.

Lemma heap_inv_end h out : heap_inv h out -> end_ok (hp_end h).
Proof. intros (bs & fl & ub & ((_ & ? & _) & _) & _). done. Qed.

Lemma backed_fed X0 s : backed X0 (in_heap (hp_end (kh_heap s))) (kh_vm s) -> fed s.
Proof. intros (_ & _ & _ & Hp & _) j Hj. destruct (Hp j Hj) as (_ & f & ? & _ & ->). lia. Qed.

Lemma kheap_init_spec X0 v0 :
  backed X0 (fun _ => False) v0 ->
  exists s, kheap_init (Kheap heap_boot v0) = Ok (tt, s) /\ kept v0 (kh_vm s) /\ heap_inv (kh_heap s) [] /\ hp_online (kh_heap s) = true /\
    (backed X0 (in_heap (hp_end (kh_heap s))) (kh_vm s) \/ oom (F := F) (K := K) /\ ~ fed s).
Proof.
  intros Hb. destruct (heap_init_ok junk) as (h & E & _ & Hon & He & Hc).
  assert (Hi := heap_reach_inv junk h [] (reach_init junk h E)).
  destruct (alloc_call X0 (HEAP_BASE / 4096) (HEAP_INIT_SIZE / 4096) v0) as (v & Ev & K1 & Hcase); [done|done|done| |].
  { assert (Eq : pointwise_relation Z iff (fun j => HEAP_BASE / 4096 <= j < HEAP_BASE / 4096) (fun _ => False)) by (intros j; lia).
    by rewrite Eq. }
  exists (Kheap h v). split; [|split; [done|split; [done|split; [done|]]]].
  - apply on_pages_ok; [done|]. cbn [kh_heap kh_vm]. rewrite Hc. cbn [hp_calls heap_boot length drop page_calls_run]. by mrun Ev.
  - unfold fed. cbn [kh_heap kh_vm]. rewrite He. destruct Hcase as [?|(? & j & Hj & Ej)]; [by left|right].
    split; [done|]. intros Hfed. by apply (Hfed j).
Qed.

Lemma kheap_alloc_spec X0 s out size align :
  heap_inv (kh_heap s) out -> backed X0 (in_heap (hp_end (kh_heap s))) (kh_vm s) ->
  0 <= size -> hp_end (kh_heap s) + size + 8192 + 64 <= HEAP_END ->
  (exists p s', kheap_alloc size align s = Ok (p, s') /\ kept (kh_vm s) (kh_vm s') /\
     (backed X0 (in_heap (hp_end (kh_heap s'))) (kh_vm s') \/ oom (F := F) (K := K) /\ ~ fed s')) \/
  align = true /\ kheap_alloc size align s = Stop Panic.
Proof.
  intros Hi Hb Hs He. pose proof (heap_inv_end _ _ Hi) as Hend. destruct Hi as (bs & fl & ub & Hok & _).
  assert (HE : HEAP_END = 983040 * 4096) by done. assert (HB : HEAP_BASE = 851968 * 4096) by done.
  assert (Hs' : 0 <= size < 2 ^ 31) by (destruct Hend as [? _]; unfold HEAP_INIT_SIZE in *; lia).
  destruct (alloc_spec junk _ bs fl size align Hok Hs' ltac:(lia)) as [(p & h & E & _)|[E [Ha _]]]; cycle 1.
  { right. split; [done|]. unfold kheap_alloc, on_pages. by rewrite E. }
  destruct (alloc_grown junk _ bs fl size align p h (proj1 Hok) Hs' ltac:(lia) E) as [Hg Hle].
  destruct (heap_grows X0 _ h (kh_vm s) Hend ltac:(lia) Hg Hb) as (v & Ev & K1 & Hcase).
  left. exists p, (Kheap h v). split; [by apply on_pages_ok|]. split; [done|].
  destruct Hcase as [?|(? & j & Hj & Ej)]; [by left|right]. split; [done|]. intros Hfed. by apply (Hfed j).
Qed.

Lemma kheap_free_spec X0 s out p n :
  heap_inv (kh_heap s) out -> (p, n) ∈ out -> backed X0 (in_heap (hp_end (kh_heap s))) (kh_vm s) ->
  exists s', kheap_free p s = Ok (tt, s') /\ kept (kh_vm s) (kh_vm s') /\
    backed X0 (in_heap (hp_end (kh_heap s'))) (kh_vm s').
Proof.
  intros (bs & fl & ub & Hok & Hp & Hf) [i Hi]%list_elem_of_lookup_1 Hb.
  destruct (Forall2_lookup_r _ _ _ _ _ Hf Hi) as (b & Hbi & Hb1 & Hb2). simpl in Hb1.
  assert (Hub : b ∈ used_of bs) by (rewrite Hp; by eapply list_elem_of_lookup_2). apply used_in in Hub as [Hin Hst].
  destruct (free_spec _ bs fl b Hok Hin Hst) as (h & E & (bs' & fl' & Hok' & _) & Hsh).
  destruct (heap_shrinks X0 (kh_heap s) h (kh_vm s) ltac:(apply Hok') Hsh Hb) as (v & Ev & K1 & Hb').
  exists (Kheap h v). split; [|done]. rewrite Hb1. by apply on_pages_ok.
Qed.

Lemma kheap_heap v0 s out : kheap_reach v0 s out -> heap_reach junk (kh_heap s) out.
Proof.
  induction 1 as [s E _|s out size align p s' _ IH Hs He E _|s o1 p n o2 s' _ IH E]; apply on_pages_inv in E as [E _].
  - by apply reach_init.
  - destruct (heap_inv_end _ _ (heap_reach_inv junk _ _ IH)) as [Hb _].
    change HEAP_END with 4026531840 in He. change (HEAP_BASE + HEAP_INIT_SIZE) with 3490709504 in Hb.
    eapply reach_alloc; [exact IH|lia|lia|exact E].
  - by eapply reach_free.
Qed.

Lemma kheap_backed X0 v0 s out :
  backed X0 (fun _ => False) v0 -> kheap_reach v0 s out ->
  backed X0 (in_heap (hp_end (kh_heap s))) (kh_vm s) /\ kept v0 (kh_vm s).
Proof.
  intros Hv0. induction 1 as [s E Hfed|s out size align p s' Hr IH Hs He E Hfed|s o1 p n o2 s' Hr IH E].
  - destruct (kheap_init_spec X0 v0 Hv0) as (s1 & E1 & K1 & _ & _ & Hc). rewrite E in E1. injection E1 as <-.
    split; [|done]. by destruct Hc as [?|[_ []]].
  - destruct IH as [Hb K0]. pose proof (heap_reach_inv junk _ _ (kheap_heap _ _ _ Hr)) as Hi.
    destruct (kheap_alloc_spec X0 s out size align Hi Hb Hs He) as [(q & s1 & E1 & K1 & Hc)|[_ E1]]; rewrite E in E1; [|done].
    injection E1 as <- <-. split; [by destruct Hc as [?|[_ []]]|by eapply kept_trans].
  - destruct IH as [Hb K0]. pose proof (heap_reach_inv junk _ _ (kheap_heap _ _ _ Hr)) as Hi.
    destruct (kheap_free_spec X0 s _ p n Hi ltac:(set_solver) Hb) as (s1 & E1 & K1 & Hb'). rewrite E in E1. injection E1 as <-.
    split; [done|by eapply kept_trans].
Qed.

(** C10: the heap's memory is real.  Started on a kernel directory with tables
    for its range and no page of it mapped, the heap keeps, through every
    sequence of allocations and releases in which no frame request failed, all
    pages below its end mapped, writable, to frames that nobody else holds and
    no two to the same one; all frames above the frames held at the start are
    accounted for by those pages, and no other page or memory changes.  So
    every byte of an outstanding allocation is mapped; releasing it succeeds;
    and a further allocation within the heap's range is served, except for the
    halt of page-aligned ones, and loses the guarantee only when frames run
    out. *)
Theorem heap_pages_backed X0 v0 s out :
  backed X0 (fun _ => False) v0 -> kheap_reach v0 s out ->
  backed X0 (in_heap (hp_end (kh_heap s))) (kh_vm s) /\ kept v0 (kh_vm s) /\
  (forall p n a, (p, n) ∈ out -> p <= a < p + n ->
     exists f, 0 < f < 2 ^ 20 /\ f ∉ X0 /\ pte (kh_vm s) kd (a / 4096) = f * 4096 + 3) /\
  (forall p n, (p, n) ∈ out -> exists s', kheap_free p s = Ok (tt, s') /\
     backed X0 (in_heap (hp_end (kh_heap s'))) (kh_vm s')) /\
  (forall size align, 0 <= size -> hp_end (kh_heap s) + size + 8192 + 64 <= HEAP_END ->
     (exists p s', kheap_alloc size align s = Ok (p, s') /\
        (backed X0 (in_heap (hp_end (kh_heap s'))) (kh_vm s') \/ oom (F := F) (K := K) /\ ~ fed s')) \/
     align = true /\ kheap_alloc size align s = Stop Panic).
Proof.
  intros Hv0 Hr. destruct (kheap_backed X0 v0 s out Hv0 Hr) as [Hb K0].
  pose proof (heap_reach_inv junk _ _ (kheap_heap _ _ _ Hr)) as Hi. split; [done|]. split; [done|]. split; [|split].
  - intros p n a Hin Ha. destruct (outstanding_free _ _ p n Hi Hin) as [[Hlo Hhi] _].
    destruct (heap_inv_end _ _ Hi) as [_ Hm]. destruct Hb as (_ & _ & _ & Hp & _). apply Hp. split.
    + apply Z.div_le_mono; lia.
    + pose proof (Z.div_mod (hp_end (kh_heap s)) 4096 ltac:(lia)). apply Z.div_lt_upper_bound; lia.
  - intros p n Hin. destruct (kheap_free_spec X0 s out p n Hi Hin Hb) as (s' & ? & _ & ?). by exists s'.
  - intros size align Hs He. destruct (kheap_alloc_spec X0 s out size align Hi Hb Hs He) as [(p & s' & ? & _ & ?)|?]; [left|by right].
    by exists p, s'.
Qed.
End heap_pages.

(** ** A heap on concrete pages *)

(** The kernel directory at 16, with the tables that [paging::init] makes for
    the heap's range. *)
Definition heap_tables : gmap Z Z := list_to_map ((fun i => (i, 2000 + i)) <$> seqZ 832 128).
Definition heap_tabs : gmap Z (gmap Z Z) := list_to_map ((fun i => (2000 + i, ∅)) <$> seqZ 832 128).
Definition heap_T : gset Z := list_to_set ((fun i => 2000 + i) <$> seqZ 832 128).
Definition vm_heap (e : frames) : @vm frames supply :=
  Vm e supply0 heap_tabs {[ 16 := PDir ∅ heap_tables 0 ]} 16 ∅.
Notation kheap0 := (kheap (F := frames) (K := supply)).

Definition fedb (s : kheap0) : bool :=
  forallb (fun j => negb (pte (kh_vm s) 16 j =? 3))
    (seqZ (HEAP_BASE / 4096) (hp_end (kh_heap s) / 4096 - HEAP_BASE / 4096)).

Lemma fedb_fed (s : kheap0) : fedb s = true -> fed 16 s.
Proof.
  unfold fedb. rewrite forallb_forall. intros Hall j [Hj1 Hj2]. specialize (Hall j).
  apply Z.eqb_neq, negb_true_iff, Hall, list_elem_of_In, elem_of_seqZ. lia.
Qed.

Lemma heap_tables_dom i t : heap_tables !! i = Some t -> t = 2000 + i /\ 832 <= i < 960.
Proof.
  intros Ht. apply elem_of_list_to_map_2, list_elem_of_fmap in Ht as (k & [= -> ->] & Hk%elem_of_seqZ). lia.
Qed.

Lemma heap_tables_in i : 832 <= i < 960 -> heap_tables !! i = Some (2000 + i) /\ heap_tabs !! (2000 + i) = Some ∅.
Proof.
  intros Hi. split; apply elem_of_list_to_map_1.
  - rewrite <- list_fmap_compose. apply NoDup_fmap_2; [|apply NoDup_seqZ]. by intros ? ? ?.
  - apply list_elem_of_fmap. exists i. split; [done|]. apply elem_of_seqZ. lia.
  - rewrite <- list_fmap_compose. apply NoDup_fmap_2; [|apply NoDup_seqZ]. intros a b E. simpl in E. lia.
  - apply list_elem_of_fmap. exists i. split; [done|]. apply elem_of_seqZ. lia.
Qed.

Lemma vm_heap_backed e X : buddy_held e X -> backed 16 X (fun _ => False) (vm_heap e).
Proof.
  intros He.
  assert (Hpg : forall j, heap_page j -> page_of (vm_heap e) 16 j = Some 0).
  { intros j Hj. unfold heap_page in Hj. change (HEAP_BASE / 4096) with (832 * 1024) in Hj. change (HEAP_END / 4096) with (960 * 1024) in Hj.
    destruct (heap_tables_in (Z.shiftr j 10)) as [E1 E2].
    { rewrite shiftr_div by lia. change (2 ^ 10) with 1024. split; [apply Z.div_le_lower_bound; lia|apply Z.div_lt_upper_bound; lia]. }
    unfold page_of, vm_heap. cbn [vm_dirs vm_tables]. rewrite lookup_singleton_eq. cbn [mbind option_bind pd_tables].
    rewrite E1. cbn [mbind option_bind]. rewrite E2. done. }
  split_and!; try done.
  - exists (PDir ∅ heap_tables 0). split; [done|]. cbn [pd_tables]. split.
    + intros i t [-> Hi]%heap_tables_dom. destruct (heap_tables_in i Hi) as [_ E]. cbn [vm_heap vm_tables]. eauto.
    + intros i j t [E1 _]%heap_tables_dom [E2 _]%heap_tables_dom. lia.
  - intros j Hj. rewrite Hpg by done. eauto.
  - exists X, heap_T. split; [|intros f; split; [auto|naive_solver]]. split; [done|]. split.
    + split; [vm_compute; repeat constructor; set_solver|].
      assert (Hn : forall x, 0x10000 <= x -> x ∉ heap_T).
      { intros x Hx (i & -> & Hi%elem_of_seqZ)%elem_of_list_to_set%list_elem_of_fmap. lia. }
      unfold vm_heap, supply0. cbn [vm_kmem].
      repeat apply Forall_cons_2; [..|apply Forall_nil_2]; cbn [fst snd]; (split; [done|]); (split; [by apply Hn|done]).
    + intros t [x Ht]. apply elem_of_list_to_set. apply elem_of_list_to_map_2, list_elem_of_fmap in Ht as (k & [= -> ->] & Hk).
      apply list_elem_of_fmap. by exists k.
  - intros j Hj _. unfold pte. by rewrite Hpg.
Qed.

(** Start-up and an allocation that makes the heap grow. *)
Lemma grow_runs :
  match kheap_init 16 HeapFree.junk0 (Kheap heap_boot (vm_heap boot_state)) with
  | Ok (_, s) =>
    match kheap_alloc 16 HeapFree.junk0 3000000 false s with
    | Ok (p, s') => p = HEAP_BASE + 20 /\ fedb s = true /\ fedb s' = true /\
        hp_end (kh_heap s) = HEAP_BASE + 0x100000 /\ hp_end (kh_heap s') = HEAP_BASE + 0x3dd000
    | Stop _ => False
    end
  | Stop _ => False
  end.
Proof. vm_compute. repeat split. Qed.

Lemma heap_pages_backed_witness :
  exists s p, kheap_reach 16 HeapFree.junk0 (vm_heap boot_state) s [(p, 3000000)] /\
    exists f, 0 < f < 2 ^ 20 /\ pte (kh_vm s) 16 ((p + 2999999) / 4096) = f * 4096 + 3.
Proof.
  pose proof grow_runs as Hrun.
  destruct (kheap_init 16 HeapFree.junk0 (Kheap heap_boot (vm_heap boot_state))) as [[[] s]|] eqn:E1; [|destruct Hrun].
  destruct (kheap_alloc 16 HeapFree.junk0 3000000 false s) as [[p s']|] eqn:E2; [|destruct Hrun].
  destruct Hrun as (Hp & Hf & Hf' & He & _).
  assert (Hr : kheap_reach 16 HeapFree.junk0 (vm_heap boot_state) s' [(p, 3000000)]).
  { eapply kreach_alloc; [apply (kreach_init _ _ _ s E1), fedb_fed, Hf|lia| |exact E2|apply fedb_fed, Hf'].
    rewrite He. vm_compute. discriminate. }
  exists s', p. split; [exact Hr|].
  destruct (heap_pages_backed 16 HeapFree.junk0 ∅ (vm_heap boot_state) s' [(p, 3000000)]
              (vm_heap_backed boot_state ∅ boot_held) Hr) as (_ & _ & Hmap & _).
  destruct (Hmap p 3000000 (p + 2999999)) as (f & Hfr & _ & Ef); [apply list_elem_of_here|lia|].
  exists f. split; [exact Hfr|exact Ef].
Defined.

(** With 64 frames left the heap starts all the same: [alloc_pages] fails, its
    result is ignored, and a page of the heap is mapped to frame 0. *)
Lemma heap_ignores_exhaustion :
  match kheap_init 16 HeapFree.junk0 (Kheap heap_boot (vm_heap (final_state (buddy_init BuddySpec.junk0 (2 ^ 22) 960)))) with
  | Ok (_, s) => hp_online (kh_heap s) = true /\ pte (kh_vm s) 16 (HEAP_BASE / 4096 + 64) = 3
  | Stop _ => False
  end.
Proof. vm_compute. split; reflexivity. Qed.

(** Nothing keeps the heap below [HEAP_END], where the remapped devices are. *)
Lemma heap_overruns_limit :
  match (heap_init HeapFree.junk0;;; alloc HeapFree.junk0 0x20000000 false) heap_boot with
  | Ok (_, s) => HEAP_END < hp_end s
  | Stop _ => False
  end.
Proof. vm_compute. reflexivity. Qed.
