(* ===== verification/DirClone.v ===== *)
(** * Cloning an address space

    [page_dir::clone] (kernel/mem/paging.cpp), which a new process starts with:
    the kernel's tables are shared, the others are linked when the address
    space is to be shared and copied otherwise.  A copied table refers to new
    frames with the old contents, and what existed before is left alone. *)

From S2P Require Import Prelude MemLayout Buddy BuddySpec PageDir PageDirSpec PageClone PageEnv.
From stdpp Require Import gmap list.
#[local] Open Scope Z_scope.

Section dir_clone.
Context {F K : Type} `{FrameAlloc F} `{TableAlloc K}.
Notation vm := (@vm F K).
Variable kernel_page_dir : Z.
Notation kd := kernel_page_dir.

(** The tables of the kernel, which every directory shares. *)
Definition shared_kernel (i : Z) : bool := (KERNEL_HIGHMEM_START <=? i) && negb (is_kstack i).
(** The tables that [CLONE_VM] links: all but the kernel stack's and those of
    the process's own stack. *)
Definition linked (flags sbot stop i : Z) : bool :=
  negb (Z.land flags CLONE_VM =? 0) && negb (is_kstack i) && negb ((sbot <=? i) && (i <=? stop)).

(** Table [v] of [s] is a copy of table [t] of [s0]: the same flags, and frames
    of [X] that are not in [X0], with the same words. *)
Definition table_copy (s0 s : vm) (t v : Z) (X0 X : gset Z) : Prop :=
  forall k, 0 <= k < 1024 ->
    if e_present (tget s0 t k) then
      exists f, f ∈ X /\ f ∉ X0 /\ tget s v k = with_addr (tget s0 t k) f /\ e_addr (tget s v k) = f /\
        same_words (vm_mem s0) (vm_mem s) f (e_addr (tget s0 t k))
    else tget s v k = 0.

Section run.
(** The state before, the source directory, and what exists there. *)
Variables (s0 : vm) (this flags sbot stop w nd : Z) (me kdir : pdir) (X0 T0 : gset Z).

Definition private (i : Z) : Prop := shared_kernel i = false /\ linked flags sbot stop i = false.

(** What slot [i] of the new directory [D] holds. *)
Definition slot_cloned (s : vm) (D : pdir) (X : gset Z) (i : Z) : Prop :=
  if shared_kernel i then entry D i = entry kdir i /\ pd_tables D !! i = pd_tables kdir !! i
  else match pd_tables me !! i with
  | Some t =>
    if linked flags sbot stop i then entry D i = entry me i /\ pd_tables D !! i = Some t
    else exists v ph, pd_tables D !! i = Some v /\ v ∉ T0 /\ table_in s v /\
           entry D i = with_addr (entry me i) ph /\ table_copy s0 s t v X0 X
  | None =>
    if e_present (entry me i) && e_ps (entry me i) then
      entry D i = entry kdir i /\ pd_tables D !! i = pd_tables kdir !! i
    else entry D i = 0 /\ pd_tables D !! i = None
  end.

(** No frame is mapped twice by the copied tables. *)
Definition frames_private (s : vm) (D : pdir) : Prop :=
  forall i j u v k l, is_Some (pd_tables me !! i) -> is_Some (pd_tables me !! j) -> private i -> private j ->
    pd_tables D !! i = Some u -> pd_tables D !! j = Some v -> 0 <= k < 1024 -> 0 <= l < 1024 ->
    e_present (tget s u k) = true -> e_present (tget s v l) = true ->
    e_addr (tget s u k) = e_addr (tget s v l) -> i = j /\ k = l.

(** The frames taken are those of the copied pages. *)
Definition accounted (s : vm) (D : pdir) (X : gset Z) : Prop :=
  forall f, f ∈ X -> f ∈ X0 \/ exists i u k, is_Some (pd_tables me !! i) /\ private i /\ pd_tables D !! i = Some u /\
    0 <= k < 1024 /\ e_present (tget s u k) = true /\ e_addr (tget s u k) = f.

(** The tables taken are the new directory and the copies, one per slot. *)
Definition tables_accounted (s : vm) (D : pdir) (T : gset Z) : Prop :=
  (nd ∈ T /\ ~ table_in s nd) /\
  (forall t, t ∈ T -> t ∈ T0 \/ t = nd \/ exists i, is_Some (pd_tables me !! i) /\ private i /\ pd_tables D !! i = Some t) /\
  (forall i j t, is_Some (pd_tables me !! i) -> is_Some (pd_tables me !! j) -> private i -> private j ->
     pd_tables D !! i = Some t -> pd_tables D !! j = Some t -> i = j).

(** The tables and the frames there were are as they were. *)
Definition undisturbed (s : vm) : Prop :=
  (forall x, table_in s0 x -> table_in s x) /\ (forall x k, x ∈ T0 -> tget s x k = tget s0 x k) /\
  (forall f, f ∈ X0 -> frame_words (vm_mem s) f = frame_words (vm_mem s0) f).

(** The loop has dealt with the slots [P]. *)
Definition clone_st (P : list Z) (s : vm) (D : pdir) (X T : gset Z) : Prop :=
  (vm_ok s X T /\ T0 ⊆ T /\ nd ∈ T /\ X0 ⊆ X) /\
  (vm_cur s = vm_cur s0 /\ vm_dirs s = <[nd := D]> (vm_dirs s0)) /\ undisturbed s /\
  (forall i, i ∈ P -> slot_cloned s D X i) /\
  (forall i, i ∉ P -> entry D i = 0 /\ pd_tables D !! i = None) /\ frames_private s D.

Hypothesis Hthis : vm_dirs s0 !! this = Some me.
Hypothesis Hkd : vm_dirs s0 !! kd = Some kdir.
Hypothesis Hok : vm_ok s0 X0 T0.
Hypothesis Hw : windows s0 w.
Hypothesis Hdirs : forall d, is_Some (vm_dirs s0 !! d) -> d ∈ T0.
Hypothesis Hnd : nd ∉ T0.
Hypothesis Htabs : forall i t, pd_tables me !! i = Some t -> table_in s0 t /\ src_ok s0 t X0.
Hypothesis Hbig : forall i, shared_kernel i = false -> pd_tables me !! i = None ->
  e_present (entry me i) && e_ps (entry me i) = true -> entry me i = entry kdir i.

Lemma in_T0 x : table_in s0 x -> x ∈ T0.
Proof. apply Hok. Qed.

Lemma clone_st_dirs P s D X T d :
  clone_st P s D X T -> d <> nd -> vm_dirs s !! d = vm_dirs s0 !! d.
Proof. intros (_ & [_ ->] & _) Hd. by rewrite lookup_insert_ne. Qed.

Lemma dir_not_nd d x : vm_dirs s0 !! d = Some x -> d <> nd.
Proof. intros Hd ->. apply Hnd, Hdirs. by rewrite Hd. Qed.

Lemma private_in P s D X T i u :
  clone_st P s D X T -> is_Some (pd_tables me !! i) -> private i -> pd_tables D !! i = Some u -> u ∈ T.
Proof.
  intros ((Hv & _) & _ & _ & Hdone & Hrest & _) [t Et] [Ps Pl] Eu.
  destruct (decide (i ∈ P)) as [HP|HP]; [|by destruct (Hrest i HP); congruence].
  specialize (Hdone i HP). unfold slot_cloned in Hdone. rewrite Ps, Et, Pl in Hdone.
  destruct Hdone as (v & ph & Ev & _ & Hv1 & _). apply Hv. by simplify_eq.
Qed.

Lemma clone_st_windows P s D X T : clone_st P s D X T -> windows s w.
Proof.
  intros Hst. destruct Hw as (dir & Ed & Et & Hs). exists dir. assert (Hst' := Hst).
  destruct Hst' as (_ & [-> _] & (Ht & _) & _).
  rewrite (clone_st_dirs _ _ _ _ _ _ Hst) by (by eapply dir_not_nd). split_and!; [done|done|by apply Ht].
Qed.

(** Slots of the directory, and pointwise changes. *)
Lemma entry_insert D i e t j :
  entry (PDir (<[i := e]> (pd_entries D)) t (pd_phys D)) j = if decide (j = i) then e else entry D j.
Proof.
  unfold entry. simpl. destruct (decide (j = i)) as [->|]; [by rewrite lookup_insert_eq|by rewrite lookup_insert_ne].
Qed.

Definition set_tab (i : Z) (t : option Z) (m : gmap Z Z) : gmap Z Z :=
  match t with Some t => <[i := t]> m | None => delete i m end.
Lemma set_tab_lookup i t m j : set_tab i t m !! j = if decide (j = i) then t else m !! j.
Proof.
  destruct t; simpl; destruct (decide (j = i)) as [->|];
    rewrite ?lookup_insert_eq, ?lookup_delete_eq, ?lookup_insert_ne, ?lookup_delete_ne by done; done.
Qed.

Definition dir_upd (D : pdir) (i e : Z) (t : option Z) : pdir :=
  PDir (<[i := e]> (pd_entries D)) (set_tab i t (pd_tables D)) (pd_phys D).

Definition with_dir (D : pdir) (s : vm) : vm :=
  Vm (vm_frames s) (vm_kmem s) (vm_tables s) (<[nd := D]> (vm_dirs s)) (vm_cur s) (vm_mem s).

Lemma dir_set_run s D i e t :
  vm_dirs s !! nd = Some D -> dir_set nd i e t s = Ok (tt, with_dir (dir_upd D i e t) s).
Proof. intros E. unfold dir_set, get_dir, put_dir, set_dirs. mgo. mrun (deref_some _ _ s E). mgo. by destruct t. Qed.

(** Setting slot [i] once its contents are what they should be. *)
Lemma clone_st_set P s D X T i e t :
  clone_st P s D X T -> i ∉ P -> slot_cloned s (dir_upd D i e t) X i ->
  (forall j u v k l, is_Some (pd_tables me !! i) -> is_Some (pd_tables me !! j) -> private i -> private j ->
     t = Some u -> (if decide (j = i) then t else pd_tables D !! j) = Some v -> 0 <= k < 1024 -> 0 <= l < 1024 ->
     e_present (tget s u k) = true -> e_present (tget s v l) = true ->
     e_addr (tget s u k) = e_addr (tget s v l) -> i = j /\ k = l) ->
  runs (dir_set nd i e t s) (fun _ s' => s' = with_dir (dir_upd D i e t) s /\ clone_st (i :: P) s' (dir_upd D i e t) X T).
Proof.
  intros (Hv & [Hc Hd] & Hu & Hdone & Hrest & Hpr) Hi Hs Hnew.
  rewrite (dir_set_run s D) by (rewrite Hd; apply lookup_insert_eq). simpl. split; [done|].
  assert (He : forall j, j <> i -> entry (dir_upd D i e t) j = entry D j /\ pd_tables (dir_upd D i e t) !! j = pd_tables D !! j).
  { intros j Hj. unfold dir_upd. rewrite entry_insert, decide_False by done. simpl.
    by rewrite set_tab_lookup, decide_False. }
  split_and!; try done; try apply Hv; try apply Hu.
  - simpl. rewrite Hd. by rewrite insert_insert_eq.
  - intros j [->|Hj]%elem_of_cons; [exact Hs|]. assert (Hne : j <> i) by (by intros ->).
    destruct (He j Hne) as [E1 E2]. unfold slot_cloned. rewrite E1, E2. by apply Hdone.
  - intros j Hj. destruct (He j) as [-> ->]; [set_solver|]. apply Hrest. set_solver.
  - intros a b u v k l Ma Mb Pa Pb Ea Eb Hk Hl Qa Qb Eq. simpl in Ea, Eb. rewrite set_tab_lookup in Ea, Eb.
    destruct (decide (a = i)) as [->|Hai]; [by apply (Hnew b u v k l)|].
    destruct (decide (b = i)) as [->|Hbi]; cycle 1.
    { by apply (Hpr a b u v k l). }
    destruct (Hnew a v u l k Mb Ma Pb Pa Eb) as [? ?]; try done. by rewrite decide_False.
Qed.

Lemma accounted_set P s D X T i e t :
  clone_st P s D X T -> i ∉ P -> accounted s D X -> accounted (with_dir (dir_upd D i e t) s) (dir_upd D i e t) X.
Proof.
  intros (_ & _ & _ & _ & Hrest & _) Hi Ha f Hf. destruct (Ha f Hf) as [?|(j & u & k & Mj & Pj & Eu & Hk)]; [by left|right].
  exists j, u, k. split_and!; try done; try apply Hk. simpl. rewrite set_tab_lookup, decide_False; [done|].
  intros ->. destruct (Hrest i Hi). congruence.
Qed.

Lemma tables_accounted_set P s s' D X T i e t (T' : gset Z) :
  clone_st P s D X T -> i ∉ P -> tables_accounted s D T -> T ⊆ T' -> ~ table_in s' nd ->
  (forall x, x ∈ T' -> x ∈ T \/ t = Some x /\ is_Some (pd_tables me !! i) /\ private i) ->
  (is_Some (pd_tables me !! i) -> private i -> forall x, t = Some x -> x ∉ T) ->
  tables_accounted s' (dir_upd D i e t) T'.
Proof.
  intros Hst Hi ([HnT _] & Ha & Hu) HT Htn Hnew Hfr. assert (Hrest : pd_tables D !! i = None) by (destruct Hst as (_ & _ & _ & _ & Hr & _); by apply Hr).
  assert (Hl : forall j, pd_tables (dir_upd D i e t) !! j = if decide (j = i) then t else pd_tables D !! j)
    by (intros j; apply set_tab_lookup). split; [split; [by apply HT|done]|]. split.
  - intros x Hx. destruct (Hnew x Hx) as [Hx'|(-> & Mi & Pi)].
    + destruct (Ha x Hx') as [?|[?|(j & Mj & Pj & Ej)]]; [by left|by right; left|right; right]. exists j.
      split; [done|]. split; [done|]. rewrite Hl, decide_False; [done|]. intros ->. congruence.
    + right; right. exists i. split; [done|]. split; [done|]. by rewrite Hl, decide_True.
  - intros a b x Ma Mb Pa Pb. rewrite !Hl. destruct (decide (a = i)) as [->|Ha'], (decide (b = i)) as [->|Hb']; [done| | |by apply Hu].
    + intros Et Eb. destruct (Hfr Ma Pa x Et). by eapply (private_in P s D X T b).
    + intros Ea Et. destruct (Hfr Mb Pb x Et). by eapply (private_in P s D X T a).
Qed.

(** The state may grow in between. *)
Lemma table_copy_more s s' t v X X' :
  table_copy s0 s t v X0 X -> X ⊆ X' -> (forall k, tget s' v k = tget s v k) ->
  (forall f, f ∈ X -> frame_words (vm_mem s') f = frame_words (vm_mem s) f) -> table_copy s0 s' t v X0 X'.
Proof.
  intros Hc HX Hg Hm k Hk. specialize (Hc k Hk). destruct (e_present (tget s0 t k)); [|by rewrite Hg].
  destruct Hc as (f & Hf & Hf0 & E1 & E2 & Hs). exists f. rewrite Hg. split_and!; [by apply HX|done|done|done|].
  intros j Hj. rewrite Hm by done. by apply Hs.
Qed.

Lemma clone_st_more P s s' D X X' T T' :
  clone_st P s D X T -> vm_dirs s' = vm_dirs s -> vm_cur s' = vm_cur s -> vm_ok s' X' T' -> T ⊆ T' -> X ⊆ X' ->
  (forall x, table_in s x -> table_in s' x) -> (forall x k, x ∈ T -> tget s' x k = tget s x k) ->
  (forall f, f ∈ X -> frame_words (vm_mem s') f = frame_words (vm_mem s) f) -> clone_st P s' D X' T'.
Proof.
  intros Hst Ed Ec Hv' HTT HXX Ht Hg Hm. assert (Htab := fun i u => private_in P s D X T i u Hst).
  destruct Hst as ((Hv & HT & HndT & HX) & [Hc Hd] & (U1 & U2 & U3) & Hdone & Hrest & Hpr).
  assert (Hin : forall x, table_in s x -> x ∈ T) by apply Hv.
  split; [split_and!; [done|by etrans|by apply HTT|by etrans]|]. split; [split; congruence|].
  split. { split; [auto|]. split; [intros x k Hx; rewrite Hg by (by apply HT); auto|intros f Hf; rewrite Hm by (by apply HX); auto]. }
  split; [|split; [done|]].
  - intros i Hi. specialize (Hdone i Hi). unfold slot_cloned in *. destruct (shared_kernel i); [done|].
    destruct (pd_tables me !! i) as [t|]; [|done]. destruct (linked flags sbot stop i); [done|].
    destruct Hdone as (v & ph & ? & ? & Hv1 & ? & Hcp). exists v, ph. split_and!; try done; [by apply Ht|].
    eapply table_copy_more; [exact Hcp|done| |done]. intros k. by apply Hg, Hin.
  - intros i j u v k l Mi Mj Pi Pj Ei Ej Hk Hl. rewrite !Hg by eauto. eauto.
Qed.

(** A table copied for slot [i] uses frames that no other copied table has. *)
Lemma fresh_frames P s s' D X X' T t v i :
  clone_st P s D X T -> clone_st P s' D X' ({[v]} ∪ T) -> pd_tables me !! i = Some t ->
  (forall k, 0 <= k < 1024 -> if e_present (tget s t k) then exists f, f ∉ X /\ e_addr (tget s' v k) = f else tget s' v k = 0) ->
  (forall k l, 0 <= k < 1024 -> 0 <= l < 1024 -> k <> l -> e_present (tget s t k) = true ->
     e_present (tget s t l) = true -> e_addr (tget s' v k) <> e_addr (tget s' v l)) ->
  (forall x k, x ∈ T -> tget s' x k = tget s x k) ->
  forall j u v' k l, is_Some (pd_tables me !! i) -> is_Some (pd_tables me !! j) -> private i -> private j ->
     Some v = Some u -> (if decide (j = i) then Some v else pd_tables D !! j) = Some v' -> 0 <= k < 1024 -> 0 <= l < 1024 ->
     e_present (tget s' u k) = true -> e_present (tget s' v' l) = true ->
     e_addr (tget s' u k) = e_addr (tget s' v' l) -> i = j /\ k = l.
Proof.
  intros Hst Hst' Et Hnew Hdist Hg j u v' k l _ [t' Et'] Pi Pj [= <-] Ev' Hk Hl Qk Ql Eq.
  assert (Hsrc : forall k, 0 <= k < 1024 -> e_present (tget s' v k) = true -> e_present (tget s t k) = true).
  { intros k' Hk' Q. specialize (Hnew k' Hk'). destruct (e_present (tget s t k')); [done|]. by rewrite Hnew in Q. }
  destruct (decide (j = i)) as [->|Hji].
  - injection Ev' as <-. split; [done|]. destruct (decide (k = l)) as [|Hkl]; [done|]. exfalso.
    eapply (Hdist k l); eauto.
  - exfalso. destruct Hst as ((Hv & _) & _ & _ & Hdone & Hrest & _).
    destruct (decide (j ∈ P)) as [HP|HP]; [|by destruct (Hrest j HP); congruence].
    specialize (Hdone j HP). unfold slot_cloned in Hdone. destruct Pj as [Ps Pl]. rewrite Ps, Et', Pl in Hdone.
    destruct Hdone as (v2 & ph & Ev2 & _ & Hin & _ & Hcp). assert (v2 = v') as -> by congruence. assert (HvT : v' ∈ T) by (by apply Hv).
    specialize (Hcp l Hl). specialize (Hnew k Hk). rewrite (Hsrc k Hk Qk) in Hnew. destruct Hnew as (f & HfX & Ef).
    rewrite (Hg v' l HvT) in Ql, Eq. destruct (e_present (tget s0 t' l)); [|by rewrite Hcp in Ql].
    destruct Hcp as (g & HgX & _ & _ & Eg & _). apply HfX. congruence.
Qed.

Lemma clone_entry_spec P s D X T i :
  clone_st P s D X T -> accounted s D X /\ tables_accounted s D T -> i ∉ P ->
  runs (clone_entry kd this nd flags sbot stop i s) (fun _ s' =>
    exists D' X' T', clone_st (i :: P) s' D' X' T' /\ accounted s' D' X' /\ tables_accounted s' D' T').
Proof.
  intros Hst [Hac Hta] Hi. unfold clone_entry, get_dir. mgo.
  assert (Ek : vm_dirs s !! kd = Some kdir) by (rewrite (clone_st_dirs _ _ _ _ _ _ Hst); [done|by eapply dir_not_nd]).
  assert (Em : vm_dirs s !! this = Some me) by (rewrite (clone_st_dirs _ _ _ _ _ _ Hst); [done|by eapply dir_not_nd]).
  mrun (deref_some _ _ s Ek). mgo. mrun (deref_some _ _ s Em). fold (shared_kernel i) (linked flags sbot stop i).
  assert (Hset : forall e t, slot_cloned s (dir_upd D i e t) X i -> (is_Some (pd_tables me !! i) -> ~ private i) ->
            runs (dir_set nd i e t s) (fun _ s' => exists D' X' T', clone_st (i :: P) s' D' X' T' /\ accounted s' D' X' /\ tables_accounted s' D' T')).
  { intros e t Hsl Hnp. eapply runs_mono; [eapply clone_st_set; [exact Hst|done|exact Hsl|]|].
    - intros j u v k l Mi _ Pi. by destruct (Hnp Mi).
    - intros _ s' [-> ?]. exists (dir_upd D i e t), X, T. split; [done|]. split; [by eapply accounted_set|].
      eapply tables_accounted_set; [exact Hst|done|done|done|apply Hta|by left|]. intros Mi Pi. by destruct (Hnp Mi). }
  assert (Hup : forall D e t, entry (dir_upd D i e t) i = e /\ pd_tables (dir_upd D i e t) !! i = t).
  { intros D1 e t. unfold dir_upd. rewrite entry_insert, decide_True by done. simpl. by rewrite set_tab_lookup, decide_True. }
  destruct (shared_kernel i) eqn:Esh.
  { eapply Hset; [|by intros _ [? _]; congruence]. unfold slot_cloned. rewrite Esh. apply Hup. }
  destruct (pd_tables me !! i) as [t|] eqn:Et; cycle 1.
  { destruct (e_present (entry me i) && e_ps (entry me i)) eqn:Eb; cycle 1.
    - simpl. exists D, X, T. split; [|by split]. destruct Hst as (H1 & H2 & H3 & Hdone & Hrest & Hpr).
      split_and!; try done; try apply H1; try apply H2; try apply H3.
      + intros j [->|Hj]%elem_of_cons; [|by apply Hdone]. unfold slot_cloned. rewrite Esh, Et, Eb. by apply Hrest.
      + intros j Hj. apply Hrest. set_solver.
    - rewrite (Hbig i Esh Et Eb), Z.eqb_refl. eapply Hset; [|by intros []].
      unfold slot_cloned. rewrite Esh, Et, Eb. apply Hup. }
  destruct (linked flags sbot stop i) eqn:El.
  { eapply Hset; [|by intros _ [_ ?]; congruence]. unfold slot_cloned. rewrite Esh, Et, El. apply Hup. }
  destruct (Htabs i t Et) as [Hin Hsrc]. assert (HtT := in_T0 t Hin).
  assert (Hst' := Hst). destruct Hst' as ((Hv & HTT & _ & HXX) & _ & (U1 & U2 & U3) & _).
  eapply runs_bind; [apply (table_clone_spec s t w X T Hv (clone_st_windows _ _ _ _ _ Hst) (U1 t Hin))|].
  { intros k. rewrite U2 by done. split; [apply Hsrc|]. intros Q. by apply HXX, Hsrc. }
  intros [v ph] s1 (HvT & Hv1 & Ed & Ec & X1 & Hok1 & HX1 & Hcopy & Hdist & Hother & Hmem & Htin & Hacc). cbn [fst snd] in *.
  assert (Hg : forall x k, x ∈ T -> tget s1 x k = tget s x k) by (intros x k Hx; apply Hother; by intros ->).
  assert (Hst1 : clone_st P s1 D X1 ({[v]} ∪ T)) by (by eapply clone_st_more; [exact Hst|..]; try done; [apply union_subseteq_r|intros x Hx; apply Htin; by right]).
  eapply runs_mono; [eapply clone_st_set; [exact Hst1|done| |]|].
  - unfold slot_cloned. rewrite Esh, Et, El. exists v, (Z.shiftr ph 12). destruct (Hup D (with_addr (entry me i) (Z.shiftr ph 12)) (Some v)) as [-> ->].
    split_and!; try done; [set_solver|]. intros k Hk. specialize (Hcopy k Hk). rewrite U2 in Hcopy by done.
    destruct (e_present (tget s0 t k)) eqn:Ep; [|done]. destruct (Hsrc k) as [_ HinX].
    destruct Hcopy as (f & ? & ? & ? & ? & Hs). exists f. split_and!; try done; [set_solver|].
    intros j Hj. rewrite Hs by done. by rewrite U3 by auto.
  - eapply (fresh_frames P s s1 D X X1 T t v i); try done.
    intros k Hk. specialize (Hcopy k Hk). destruct (e_present (tget s t k)); [|done].
    destruct Hcopy as (f & _ & ? & _ & ? & _). by exists f.
  - intros _ s' [-> ?]. eexists _, X1, ({[v]} ∪ T). split; [done|]. split; cycle 1.
    { eapply (tables_accounted_set P s _ D X T); [exact Hst|done|done|set_solver| | |by intros _ _ x [= <-]].
      { intros Hn. apply Htin in Hn as [Hn|Hn]; [|by apply (proj2 (proj1 Hta))]. apply HvT. rewrite <- Hn. apply Hta. }
      intros x [->%elem_of_singleton|?]%elem_of_union; [right|by left]. split; [done|]. split; [by rewrite Et|by split]. }
    intros f Hf1.
    assert (HnP : pd_tables D !! i = None) by (destruct Hst as (_ & _ & _ & _ & Hrest & _); by apply Hrest).
    destruct (Hacc f Hf1) as [Hf2|(k & Hk & Hp & Efk)].
    + destruct (Hac f Hf2) as [?|(j & u & k & Mj & Pj & Eu & Hk & Hp & Efk)]; [by left|right].
      assert (HuT := private_in _ _ _ _ _ _ _ Hst Mj Pj Eu).
      exists j, u, k. assert (Etg : tget (with_dir (dir_upd D i (with_addr (entry me i) (Z.shiftr ph 12)) (Some v)) s1) u k = tget s u k)
        by (by apply Hg).
      rewrite Etg. split_and!; try done; try lia; try apply Pj. simpl. rewrite lookup_insert_ne; [done|]. intros ->. congruence.
    + right. exists i, v, k. assert (Etg : tget (with_dir (dir_upd D i (with_addr (entry me i) (Z.shiftr ph 12)) (Some v)) s1) v k = tget s1 v k) by done.
      rewrite Etg. split_and!; try done; try lia; [simpl; by rewrite lookup_insert_eq|].
      specialize (Hcopy k Hk). rewrite Hp in Hcopy. destruct Hcopy as (g & _ & _ & E1 & _).
      rewrite E1, <- Hp. apply e_present_low, with_addr_low.
Qed.

Lemma clone_loop ids : forall P s D X T,
  clone_st P s D X T -> accounted s D X /\ tables_accounted s D T -> NoDup ids -> (forall i, i ∈ ids -> i ∉ P) ->
  runs (for_each (clone_entry kd this nd flags sbot stop) ids s) (fun _ s' =>
    exists P' D' X' T', clone_st P' s' D' X' T' /\ (accounted s' D' X' /\ tables_accounted s' D' T') /\ forall i, i ∈ P' <-> i ∈ ids \/ i ∈ P).
Proof.
  induction ids as [|i ids IH]; intros P s D X T Hst Hac Hnd' Hni; cbn [for_each].
  { exists P, D, X, T. split; [done|]. split; [done|]. intros i. split; [by right|]. by intros [?%elem_of_nil|?]. }
  apply NoDup_cons in Hnd' as [Hi Hnd'].
  eapply runs_bind; [eapply clone_entry_spec; [exact Hst|exact Hac|apply Hni, list_elem_of_here]|].
  intros _ s1 (D1 & X1 & T1 & Hst1 & Hac1). eapply runs_mono; [apply (IH _ s1 D1 X1 T1 Hst1 Hac1 Hnd')|].
  - intros j Hj [->|HP]%elem_of_cons; [done|]. by apply (Hni j); [apply list_elem_of_further|].
  - intros _ s' (P' & D' & X' & T' & Hst' & Hac' & Hin). exists P', D', X', T'. split; [done|]. split; [done|].
    intros j. rewrite Hin, !elem_of_cons. tauto.
Qed.
End run.

Lemma dir_clone_spec s this flags sbot stop w me kdir X T :
  vm_ok s X T -> windows s w -> vm_dirs s !! this = Some me -> vm_dirs s !! kd = Some kdir ->
  (forall d, is_Some (vm_dirs s !! d) -> d ∈ T) ->
  (forall i t, pd_tables me !! i = Some t -> table_in s t /\ src_ok s t X) ->
  (forall i, shared_kernel i = false -> pd_tables me !! i = None ->
     e_present (entry me i) && e_ps (entry me i) = true -> entry me i = entry kdir i) ->
  runs (dir_clone kd this flags sbot stop s) (fun nd s' => nd ∉ T /\ vm_cur s' = vm_cur s /\
    exists D X' T', vm_dirs s' = <[nd := D]> (vm_dirs s) /\ vm_ok s' X' T' /\ T ⊆ T' /\ X ⊆ X' /\
      undisturbed s X T s' /\
      (forall i, 0 <= i < 1024 -> slot_cloned s flags sbot stop me kdir X T s' D X' i) /\
      (forall i, ~ 0 <= i < 1024 -> pd_tables D !! i = None) /\
      frames_private flags sbot stop me s' D /\ accounted flags sbot stop me X s' D X' /\
      tables_accounted flags sbot stop nd me T s' D T').
Proof.
  intros Hok Hw Hthis Hkd Hdirs Htabs Hbig. assert (Hok' := Hok). destruct Hok' as (Hf & Hk & HT).
  unfold dir_clone, lift_kmem at 1, bind at 1.
  destruct (ta_alloc_ok (vm_kmem s) T Hk) as [E|(nd & ph & k' & E & Hv0 & HvT & _ & _ & Hk')]; rewrite E.
  { simpl. left. by exists (vm_kmem s), T. }
  cbn [fst snd]. destruct (Z.eqb_spec nd 0); [lia|]. rewrite (bind_ok (asserth true) _ _ _ _ eq_refl).
  unfold put_dir at 1, set_dirs. mgo. set (s1 := Vm _ _ _ _ _ _).
  assert (Hst : clone_st s flags sbot stop nd me kdir X T [] s1 (PDir ∅ ∅ ph) X ({[nd]} ∪ T)).
  { split; [split_and!; [|set_solver|set_solver|done]|].
    - split; [done|]. split; [done|]. intros t Ht. apply elem_of_union_r, HT, Ht.
    - split; [done|]. split; [done|]. split; [by intros i ?%elem_of_nil|]. split; [done|].
      intros i j u v k l _ _ _ _ Eu. cbn [pd_tables] in Eu. by apply lookup_empty_Some in Eu. }
  eapply runs_bind.
  { apply (clone_loop s this flags sbot stop w nd me kdir X T Hthis Hkd Hok Hw Hdirs HvT Htabs Hbig indices [] s1 _ _ _ Hst).
    - split; [intros f Hf'; by left|]. split; [split; [set_solver|]; intros Hn; by apply HvT, HT|]. split; [intros t Ht; apply elem_of_union in Ht as [->%elem_of_singleton|?]; tauto|].
      intros i j t _ _ _ _ Ei. cbn [pd_tables] in Ei. by apply lookup_empty_Some in Ei.
    - apply NoDup_seqZ.
    - by intros i _ ?%elem_of_nil. }
  intros _ s' (P & D & X' & T' & ((Hv' & HTT & _ & HXX) & [Hc Hd] & Hu & Hdone & Hrest & Hpr) & [Hac Hta] & HP). simpl.
  split; [done|]. split; [done|]. exists D, X', T'. split_and!; try done; try apply Hu; try apply Hta.
  - intros i Hi. apply Hdone, HP. left. apply elem_of_seqZ. lia.
  - intros i Hi. apply Hrest. rewrite HP. intros [Hj%elem_of_seqZ|Hj%elem_of_nil]; [lia|done].
Qed.

(** The address space [this], with directory [me], next to the
    kernel's, and what exists in memory: frames [X], tables [T]. *)
Record space_ok (v : vm) (this w : Z) (me kdir : pdir) (X T : gset Z) : Prop := {
  so_vm : vm_ok v X T;
  so_windows : windows v w;
  so_this : vm_dirs v !! this = Some me;
  so_kernel : vm_dirs v !! kd = Some kdir;
  so_dirs : forall d, is_Some (vm_dirs v !! d) -> d ∈ T;
  so_tables : forall i t, pd_tables me !! i = Some t -> table_in v t /\ src_ok v t X;
  so_big : forall i, shared_kernel i = false -> pd_tables me !! i = None ->
    e_present (entry me i) && e_ps (entry me i) = true -> entry me i = entry kdir i
}.

End dir_clone.

(** ** A process's directory, cloned *)

(** The directory at 16 with a user table at 60 and the windows' table at 50. *)
Definition user_dir : pdir := PDir ∅ {[ 0 := 60; 1023 := 50 ]} 0.
Definition vm_user (e : frames) (f : Z) : @vm frames supply :=
  Vm e supply0 (tabs1 f) {[ 16 := user_dir ]} 16 ∅.

Lemma user_tables i t : pd_tables user_dir !! i = Some t -> t = 60 \/ t = 50.
Proof.
  unfold user_dir. cbn [pd_tables]. intros [[_ <-]|[_ Ht]]%lookup_insert_Some; [by left|].
  apply lookup_singleton_Some in Ht as [_ <-]. by right.
Qed.

Lemma user_page f : 0 < f < 2 ^ 20 -> e_present (f * 4096 + 3) = true /\ e_addr (f * 4096 + 3) = f.
Proof.
  intros Hf. split.
  - rewrite (e_present_low _ 3); [reflexivity|]. rewrite Z.add_comm, Z.mod_add by lia. reflexivity.
  - rewrite e_addr_val. symmetry. apply (Z.div_unique _ _ _ 3); lia.
Qed.
Lemma user_windows e f i : tget (vm_user e f) 50 i = 0.
Proof. unfold tget. cbn [vm_tables vm_user]. unfold tabs1. rewrite lookup_insert_eq. reflexivity. Qed.
Lemma user_entries e f i : tget (vm_user e f) 60 i = if decide (i = 7) then f * 4096 + 3 else 0.
Proof.
  unfold tget. cbn [vm_tables vm_user]. unfold tabs1. rewrite lookup_insert_ne, lookup_singleton_eq by lia. simpl. unfold pget.
  destruct (decide (i = 7)) as [->|Hne]; [rewrite lookup_singleton_eq; reflexivity|rewrite lookup_singleton_ne by congruence; reflexivity].
Qed.

Lemma vm_user_space e f : 0 < f < 2 ^ 20 -> buddy_held e {[ f ]} ->
  space_ok 16 (vm_user e f) 16 50 user_dir user_dir {[ f ]} {[ 16; 50; 60 ]}.
Proof.
  intros Hf He. assert (Hp := user_page f Hf).
  assert (H50 : tabs1 f !! 50 = Some ∅) by (apply lookup_insert_eq).
  assert (H60 : tabs1 f !! 60 = Some {[ 7 := f * 4096 + 3 ]}) by (unfold tabs1; rewrite lookup_insert_ne by lia; apply lookup_singleton_eq).
  constructor.
  - split; [exact He|]. split.
    + split; [vm_compute; repeat constructor; set_solver|]. repeat constructor; simpl; try lia; set_solver.
    + intros t [x Ht]. unfold vm_user, tabs1 in Ht. cbn [vm_tables] in Ht.
      apply lookup_insert_Some in Ht as [[<- _]|[_ [<- _]%lookup_singleton_Some]]; set_solver.
  - exists user_dir. split; [reflexivity|]. split; [reflexivity|]. cbn [vm_tables vm_user]. rewrite H50. eauto.
  - reflexivity.
  - reflexivity.
  - intros d [x Hd]. cbn [vm_dirs vm_user] in Hd. apply lookup_singleton_Some in Hd as [<- _]. set_solver.
  - intros i t Ht. destruct (user_tables i t Ht) as [-> | ->].
    + split; [unfold table_in; cbn [vm_tables vm_user]; rewrite H60; eauto|]. intros k. rewrite user_entries.
      destruct (decide (k = 7)); [|split; [lia|discriminate]]. split; [lia|]. intros _. rewrite (proj2 Hp). set_solver.
    + split; [unfold table_in; cbn [vm_tables vm_user]; rewrite H50; eauto|]. intros k. rewrite user_windows. split; [lia|discriminate].
  - intros i _ _ Hb. discriminate.
Qed.

