(* ===== verification/DirFree.v ===== *)
(** * Destroying an address space

    [page_table::free], [page_dir::free_tables], [page_dir::free_kstack_tables]
    and [~shared_page_dir] (kernel/mem/paging.cpp, kernel/include/paging.h): the
    tables that a directory does not share are released with the frames of
    their pages.  Together with DirClone.v: an address space that is cloned and
    destroyed leaves memory as it was. *)

From S2P Require Import Prelude MemLayout Buddy BuddySpec PageDir PageDirSpec PageClone PageEnv DirClone.
From stdpp Require Import gmap list.
#[local] Open Scope Z_scope.

Section dir_free.
Context {F K : Type} `{FrameAlloc F} `{TableAlloc K}.
Notation vm := (@vm F K).
Variable kernel_page_dir : Z.
Notation kd := kernel_page_dir.

Definition with_frames (f : F) (s : vm) : vm := Vm f (vm_kmem s) (vm_tables s) (vm_dirs s) (vm_cur s) (vm_mem s).

(** ** One table *)

(** The pages [ids] of table [t] that are present have frames of [X], no two the
    same. *)
Definition owns (s : vm) (t : Z) (ids : list Z) (X : gset Z) : Prop :=
  (forall k, k ∈ ids -> e_present (tget s t k) = true -> 0 <= tget s t k < 2 ^ 32 /\ e_addr (tget s t k) ∈ X) /\
  (forall k l, k ∈ ids -> l ∈ ids -> e_present (tget s t k) = true -> e_present (tget s t l) = true ->
     e_addr (tget s t k) = e_addr (tget s t l) -> k = l).
(** [f] is the frame of one of them. *)
Definition maps (s : vm) (t : Z) (ids : list Z) (f : Z) : Prop :=
  exists k, k ∈ ids /\ e_present (tget s t k) = true /\ e_addr (tget s t k) = f.

Lemma frame_address v : 0 <= v < 2 ^ 32 -> u32 (Z.shiftl (e_addr v) 12) = e_addr v * 4096.
Proof.
  intros Hv. rewrite e_addr_val, shiftl_mul by lia. change (2 ^ 12) with 4096. apply u32_small.
  pose proof (Z.div_pos v 4096 ltac:(lia) ltac:(lia)). pose proof (Z.mul_div_le v 4096 ltac:(lia)). lia.
Qed.

Lemma table_free_loop t ids : forall (s : vm) X,
  table_in s t -> owns s t ids X -> fa_inv (vm_frames s) X -> NoDup ids ->
  exists f X', for_each (fun i => v <-- page_read (t, i);;
      if e_present v then lift_frames (fa_free (u32 (Z.shiftl (e_addr v) 12))) else ret tt) ids s = Ok (tt, with_frames f s) /\
    fa_inv f X' /\ forall g, g ∈ X' <-> g ∈ X /\ ~ maps s t ids g.
Proof.
  induction ids as [|i ids IH]; intros s X Ht [Ho Hd] Hf Hnd; cbn [for_each].
  { exists (vm_frames s), X. split; [by destruct s|]. split; [done|]. intros g. split; [|tauto]. intros Hg. split; [done|].
    by intros (k & ?%elem_of_nil & _). }
  apply NoDup_cons in Hnd as [Hi Hnd]. mgo. mrun (page_read_tget s t i Ht).
  assert (Hin : forall k, k ∈ ids -> k ∈ i :: ids) by (intros k; apply list_elem_of_further).
  destruct (e_present (tget s t i)) eqn:Ep; cycle 1.
  { mgo. destruct (IH s X Ht) as (f & X' & Hrun & Hinv & HX); [split; eauto|done|done|].
    exists f, X'. split; [done|]. split; [done|].
    intros g. rewrite HX. split; intros [Hg Hn]; (split; [done|]); intros (k & Hk & Hp & E); apply Hn; exists k.
    - apply elem_of_cons in Hk as [->|Hk]; [congruence|done].
    - split; [by apply Hin|done]. }
  destruct (Ho i (list_elem_of_here _ _) Ep) as [Hv HiX]. rewrite frame_address by done.
  destruct (fa_free_ok (vm_frames s) X _ Hf HiX) as (f1 & Hfree & Hf1).
  assert (R1 : lift_frames (fa_free (e_addr (tget s t i) * 4096)) s = Ok (tt, with_frames f1 s)) by (unfold lift_frames; by rewrite Hfree).
  mrun R1. destruct (IH (with_frames f1 s) (X ∖ {[e_addr (tget s t i)]})) as (f & X' & Hrun & Hinv & HX); [done| |done|done|].
  { split; [|by intros k l Hk Hl; apply Hd; apply Hin]. intros k Hk Hp. destruct (Ho k (Hin k Hk) Hp) as [? ?]. split; [done|].
    apply elem_of_difference. split; [done|]. rewrite elem_of_singleton. intros E.
    rewrite <- (Hd k i) in Hi; eauto using list_elem_of_here. }
  exists f, X'. split; [exact Hrun|]. split; [done|]. intros g. rewrite HX, elem_of_difference, elem_of_singleton. split.
  - intros [[Hg Hne] Hn]. split; [done|]. intros (k & [->|Hk]%elem_of_cons & Hp & E); [congruence|]. apply Hn. by exists k.
  - intros [Hg Hn]. split; [split; [done|]|].
    + intros ->. apply Hn. exists i. split; [apply list_elem_of_here|done].
    + intros (k & Hk & Hp & E). apply Hn. exists k. split; [by apply Hin|done].
Qed.

Lemma table_free_spec (s : vm) t X : table_in s t -> owns s t indices X -> fa_inv (vm_frames s) X ->
  exists f X', table_free t s = Ok (tt, with_frames f s) /\ fa_inv f X' /\ forall g, g ∈ X' <-> g ∈ X /\ ~ maps s t indices g.
Proof. intros Ht Ho Hf. apply table_free_loop; try done. apply NoDup_seqZ. Qed.

(** ** The tables of a directory *)

Section run.
(** Directory [this] is [D0] in the state [s0]; table [t] in slot [i] is to be
    dropped when [sel i t]. *)
Variables (s0 : vm) (this : Z) (D0 : pdir) (X0 T0 : gset Z) (sel : Z -> Z -> bool).

Definition chosen (i t : Z) : Prop := pd_tables D0 !! i = Some t /\ sel i t = true.
Definition drops (P : list Z) (t : Z) : Prop := exists i, i ∈ P /\ chosen i t.

(** The tables to be dropped are different, and so are their frames. *)
Record separate : Prop := {
  se_own : forall i t, chosen i t -> t ∈ T0 /\ table_in s0 t /\ owns s0 t indices X0;
  se_tables : forall i j t, chosen i t -> chosen j t -> i = j;
  se_frames : forall i j u v f, chosen i u -> chosen j v -> maps s0 u indices f -> maps s0 v indices f -> i = j
}.

(** The slots [P] have been dealt with. *)
Record freed (P : list Z) (s : vm) (D : pdir) (X T : gset Z) : Prop := {
  fr_dirs : vm_dirs s = <[this := D]> (vm_dirs s0);
  fr_cur : vm_cur s = vm_cur s0;
  fr_mem : vm_mem s = vm_mem s0;
  fr_gone : forall i t, i ∈ P -> chosen i t -> pd_tables D !! i = None /\ entry D i = 0;
  fr_kept : forall i, (forall t, i ∈ P -> ~ chosen i t) -> pd_tables D !! i = pd_tables D0 !! i /\ entry D i = entry D0 i;
  fr_tables : forall t, ~ drops P t -> vm_tables s !! t = vm_tables s0 !! t;
  fr_dropped : forall t, drops P t -> vm_tables s !! t = None;
  fr_frames : fa_inv (vm_frames s) X;
  fr_X : forall f, f ∈ X <-> f ∈ X0 /\ ~ exists t, drops P t /\ maps s0 t indices f;
  fr_kmem : ta_inv (vm_kmem s) T;
  fr_T : forall t, t ∈ T <-> t ∈ T0 /\ ~ drops P t
}.

Lemma freed_start : vm_dirs s0 !! this = Some D0 -> vm_ok s0 X0 T0 -> freed [] s0 D0 X0 T0.
Proof.
  intros Hd (Hf & Hk & _). assert (Hno : forall t, ~ drops [] t) by (by intros t (i & ?%elem_of_nil & _)).
  constructor; try done.
  - by rewrite insert_id.
  - by intros i t ?%elem_of_nil.
  - by intros t ?%Hno.
  - intros f. split; [|tauto]. intros Hf'. split; [done|]. by intros (t & ?%Hno & _).
  - intros t. split; [|tauto]. intros Ht. by split; [|apply Hno].
Qed.

Lemma freed_iff P P' s D X T :
  (forall i t, chosen i t -> i ∈ P <-> i ∈ P') -> freed P s D X T -> freed P' s D X T.
Proof.
  intros HP [F1 F2 F3 F4 F5 F6 F7 F8 F9 F10 F11].
  assert (Hd : forall t, drops P' t <-> drops P t).
  { intros t. split; intros (i & Hi & Hc); exists i; (split; [|done]); by apply (HP i t). }
  constructor; try done.
  - intros i t Hi Hc. apply (F4 i t); [|done]. by apply (HP i t).
  - intros i Hi. apply F5. intros t Ht Hc. apply (Hi t); [|done]. by apply (HP i t).
  - intros t. rewrite Hd. apply F6.
  - intros t. rewrite Hd. apply F7.
  - intros f. rewrite F9. by setoid_rewrite Hd.
  - intros t. rewrite F11. by rewrite Hd.
Qed.

Hypothesis Hsep : separate.

Lemma drop_step P s D X T i t :
  freed P s D X T -> i ∉ P -> chosen i t ->
  exists s' D' X' T', drop_table this i t s = Ok (tt, s') /\ freed (i :: P) s' D' X' T'.
Proof.
  intros [F1 F2 F3 F4 F5 F6 F7 F8 F9 F10 F11] Hi Hc. destruct (se_own Hsep i t Hc) as (HtT & Htin & [Ho Hd]).
  assert (Hnd : ~ drops P t) by (intros (j & Hj & Hcj); by rewrite (se_tables Hsep i j t Hc Hcj) in Hi).
  assert (Hd' : forall u, drops (i :: P) u <-> u = t \/ drops P u).
  { intros u. split.
    - intros (j & [->|Hj]%elem_of_cons & Hcj); [left|right; by exists j]. destruct Hc, Hcj. congruence.
    - intros [->|(j & Hj & Hcj)]; [exists i|exists j]; (split; [|done]); [apply list_elem_of_here|by apply list_elem_of_further]. }
  assert (Hg : forall k, tget s t k = tget s0 t k) by (intros k; unfold tget; by rewrite F6).
  assert (Hm : forall f, maps s t indices f <-> maps s0 t indices f) by (intros f; unfold maps; by setoid_rewrite Hg).
  destruct (table_free_spec s t X) as (f1 & X1 & R1 & Hf1 & HX1); [unfold table_in; by rewrite F6| |done|].
  { split; intros k; rewrite Hg; [|intros l; rewrite Hg; apply Hd]. intros Hk Hp. destruct (Ho k Hk Hp) as [? HX]. split; [done|].
    apply F9. split; [done|]. intros (u & (j & Hj & Hcj) & Hmu).
    rewrite <- (se_frames Hsep i j t u (e_addr (tget s0 t k)) Hc Hcj) in Hj; [done| |done]. by exists k. }
  unfold drop_table. mrun R1. set (s1 := with_frames f1 s).
  destruct (ta_free_ok (vm_kmem s) T t F10) as (k' & Hfree & Hk'); [by apply F11|].
  assert (R2 : lift_kmem (ta_free t) s1 = Ok (tt, Vm f1 k' (vm_tables s) (vm_dirs s) (vm_cur s) (vm_mem s))) by (unfold lift_kmem; cbn; by rewrite Hfree).
  mrun R2. unfold set_tables. mgo. cbn [vm_frames vm_kmem vm_tables vm_dirs vm_cur vm_mem].
  rewrite (dir_set_run this _ D) by (cbn; by rewrite F1, lookup_insert_eq).
  eexists _, (dir_upd D i 0 None), X1, (T ∖ {[t]}). split; [reflexivity|].
  assert (He : forall j, entry (dir_upd D i 0 None) j = (if decide (j = i) then 0 else entry D j) /\
      pd_tables (dir_upd D i 0 None) !! j = if decide (j = i) then None else pd_tables D !! j).
  { intros j. split; [apply entry_insert|apply (set_tab_lookup i None)]. }
  constructor; cbn [with_dir vm_frames vm_kmem vm_tables vm_dirs vm_cur vm_mem]; try done.
  - by rewrite F1, insert_insert_eq.
  - intros j u Hj Hcj. destruct (He j) as [-> ->]. case_decide as Hji; [done|].
    apply elem_of_cons in Hj as [?|Hj]; [done|]. by apply (F4 j u).
  - intros j Hj. assert (Hji : j <> i) by (intros ->; apply (Hj t); [apply list_elem_of_here|done]).
    destruct (He j) as [-> ->]. rewrite decide_False by done. rewrite decide_False by done. apply F5. intros u Hu.
    apply Hj. by apply list_elem_of_further.
  - intros u Hu. rewrite Hd' in Hu. rewrite lookup_delete_ne by (intros <-; tauto). apply F6. tauto.
  - intros u Hu. apply Hd' in Hu as [->|Hu]; [apply lookup_delete_eq|].
    destruct (decide (u = t)) as [->|]; [apply lookup_delete_eq|]. rewrite lookup_delete_ne by done. by apply F7.
  - intros f. rewrite HX1, F9, Hm. setoid_rewrite Hd'. naive_solver.
  - intros u. rewrite elem_of_difference, elem_of_singleton, F11, Hd'. tauto.
Qed.

(** One round of the loops: the slot is dropped when it is to be. *)
Definition drop_round (i : Z) (D : pdir) : M vm unit :=
  match pd_tables D !! i with Some t => if sel i t then drop_table this i t else ret tt | None => ret tt end.

(** Slots that are visited again are empty. *)
Lemma drop_loop (f : Z -> M vm unit) ids P0 :
  (forall i s D P X T, i ∈ ids -> freed P s D X T -> P0 ⊆ P -> f i s = drop_round i D s) ->
  forall P s D X T, freed P s D X T -> P0 ⊆ P ->
  exists s' D' X' T', for_each f ids s = Ok (tt, s') /\ freed (ids ++ P) s' D' X' T'.
Proof.
  induction ids as [|i ids IH]; intros Hf P s D X T Hs HP; cbn [for_each].
  { by exists s, D, X, T. }
  assert (Hskip : (forall t, chosen i t -> i ∈ P) -> freed (i :: P) s D X T).
  { intros Hc. eapply freed_iff; [|exact Hs]. intros j u Hj. rewrite elem_of_cons. split; [by right|]. intros [->|?]; [by apply (Hc u)|done]. }
  assert (Hstep : exists s1 D1 X1 T1, f i s = Ok (tt, s1) /\ freed (i :: P) s1 D1 X1 T1).
  { rewrite (Hf i s D P X T ltac:(apply list_elem_of_here) Hs HP). unfold drop_round.
    destruct (pd_tables D !! i) as [t|] eqn:Et; [destruct (sel i t) eqn:Es|].
    - assert (Hi : i ∉ P). { intros Hi. destruct (fr_kept _ _ _ _ _ Hs i) as [E _].
        - intros u _ Hu. destruct (fr_gone _ _ _ _ _ Hs i u Hi Hu). congruence.
        - destruct (fr_gone _ _ _ _ _ Hs i t Hi); [|congruence]. split; [congruence|done]. }
      destruct (fr_kept _ _ _ _ _ Hs i ltac:(by intros u HP')) as [E _]. eapply drop_step; [exact Hs|done|]. split; [congruence|done].
    - exists s, D, X, T. split; [done|]. apply Hskip. intros u [Eu Su]. destruct (decide (i ∈ P)) as [|Hi]; [done|].
      destruct (fr_kept _ _ _ _ _ Hs i ltac:(by intros u' HP')) as [E _]. congruence.
    - exists s, D, X, T. split; [done|]. apply Hskip. intros u [Eu Su]. destruct (decide (i ∈ P)) as [|Hi]; [done|].
      destruct (fr_kept _ _ _ _ _ Hs i ltac:(by intros u' HP')) as [E _]. congruence. }
  destruct Hstep as (s1 & D1 & X1 & T1 & R1 & H1). mrun R1.
  destruct (IH (fun j s D P X T Hj => Hf j s D P X T (list_elem_of_further _ _ _ Hj)) (i :: P) s1 D1 X1 T1 H1) as (s2 & D2 & X2 & T2 & R2 & H2).
  { intros j Hj. apply list_elem_of_further. by apply HP. }
  exists s2, D2, X2, T2. split; [exact R2|]. eapply freed_iff; [|exact H2]. intros j u _. cbn. rewrite elem_of_cons, !elem_of_app, elem_of_cons. tauto.
Qed.
End run.

(** ** The two loops of the source *)

(** The slots of the kernel's stack. *)
Definition kstack_slots : list Z :=
  seqZ (Z.shiftr KERNEL_STACK_BOT 22) (Z.shiftr KERNEL_STACK_TOP 22 - Z.shiftr KERNEL_STACK_BOT 22 + 1).
Lemma kstack_slots_spec i : i ∈ kstack_slots <-> is_kstack i = true.
Proof. unfold kstack_slots, is_kstack. rewrite elem_of_seqZ, andb_true_iff, !Z.leb_le. lia. Qed.

Lemma kstack_range i : is_kstack i = true -> 0 <= i < 1024.
Proof.
  unfold is_kstack. change (Z.shiftr KERNEL_STACK_BOT 22) with 1023. change (Z.shiftr KERNEL_STACK_TOP 22) with 1023.
  rewrite andb_true_iff, !Z.leb_le. lia.
Qed.

(** What destroying a directory drops, when it shares tables with [Y]: the
    kernel's stack and what [Y] does not have. *)
Definition unshared (Y : pdir) (i t : Z) : bool := is_kstack i || negb (bool_decide (pd_tables Y !! i = Some t)).

Lemma dir_run (s : vm) d D : vm_dirs s !! d = Some D -> get_dir d s = Ok (D, s).
Proof. intros E. unfold get_dir. mgo. by rewrite E. Qed.

Lemma free_kstack_spec (s0 : vm) this D0 X0 T0 Y :
  vm_dirs s0 !! this = Some D0 -> vm_ok s0 X0 T0 -> separate s0 D0 X0 T0 (unshared Y) ->
  exists s D X T, free_kstack_tables this s0 = Ok (tt, s) /\ freed s0 this D0 X0 T0 (unshared Y) kstack_slots s D X T.
Proof.
  intros Hd Hok Hsep. unfold free_kstack_tables. fold kstack_slots.
  destruct (drop_loop s0 this D0 X0 T0 (unshared Y) Hsep (fun i => x <-- get_dir this;;
      match pd_tables x !! i with Some t => drop_table this i t | None => ret tt end) kstack_slots [])
    with (P := @nil Z) (s := s0) (D := D0) (X := X0) (T := T0) as (s & D & X & T & Hrun & Hfr); [|by apply freed_start|done|].
  - intros i s D P X T Hi Hs _. apply kstack_slots_spec in Hi.
    mrun (dir_run s this D ltac:(by rewrite (fr_dirs _ _ _ _ _ _ _ _ _ _ _ Hs), lookup_insert_eq)).
    unfold drop_round, unshared. by rewrite Hi.
  - rewrite app_nil_r in Hfr. by exists s, D, X, T.
Qed.

Lemma free_tables_spec (s0 : vm) this D0 X0 T0 Y shared s D X T :
  vm_dirs s0 !! default kd shared = Some Y -> default kd shared <> this ->
  separate s0 D0 X0 T0 (unshared Y) -> freed s0 this D0 X0 T0 (unshared Y) kstack_slots s D X T ->
  exists s' D' X' T', free_tables kd this shared s = Ok (tt, s') /\
    freed s0 this D0 X0 T0 (unshared Y) (indices ++ kstack_slots) s' D' X' T'.
Proof.
  intros HY Hne Hsep Hfr. unfold free_tables.
  eapply (drop_loop s0 this D0 X0 T0 (unshared Y) Hsep _ indices kstack_slots); [|exact Hfr|done].
  intros i s1 D1 P X1 T1 Hi Hs HP.
  mrun (dir_run s1 this D1 ltac:(by rewrite (fr_dirs _ _ _ _ _ _ _ _ _ _ _ Hs), lookup_insert_eq)).
  mrun (dir_run s1 (default kd shared) Y ltac:(by rewrite (fr_dirs _ _ _ _ _ _ _ _ _ _ _ Hs), lookup_insert_ne)).
  unfold drop_round, unshared. destruct (pd_tables D1 !! i) as [t|] eqn:Et; [|done].
  destruct (is_kstack i) eqn:Ek; cbn [orb negb]; [|by rewrite andb_true_r].
  exfalso. assert (HiP : i ∈ P) by (by apply HP, kstack_slots_spec).
  assert (Hc : forall u, pd_tables D0 !! i = Some u -> chosen D0 (unshared Y) i u) by (intros u Hu; split; [done|]; unfold unshared; by rewrite Ek).
  destruct (pd_tables D0 !! i) as [u|] eqn:Eu.
  - destruct (fr_gone _ _ _ _ _ _ _ _ _ _ _ Hs i u HiP (Hc u eq_refl)). congruence.
  - destruct (fr_kept _ _ _ _ _ _ _ _ _ _ _ Hs i) as [E _]; [by intros t' _ [? _]; congruence|congruence].
Qed.

(** The end of an address space: the kernel's stack goes when its process
    exits, the rest with the last reference. *)
Definition destroy (d : Z) (shared : option Z) : M vm unit :=
  free_kstack_tables d;;; shared_page_dir_destroy kd (Some d) shared.

(** [s] without the directory [this] and the tables and frames it has for
    itself. *)
Record destroyed (s0 s : vm) (this : Z) (D0 Y : pdir) (X0 T0 X T : gset Z) : Prop := {
  de_dirs : vm_dirs s = delete this (vm_dirs s0);
  de_cur : vm_cur s = vm_cur s0;
  de_mem : vm_mem s = vm_mem s0;
  de_tables : forall t, ~ drops D0 (unshared Y) indices t -> vm_tables s !! t = vm_tables s0 !! t;
  de_frames : forall f, f ∈ X <-> f ∈ X0 /\ ~ exists t, drops D0 (unshared Y) indices t /\ maps s0 t indices f;
  de_objects : forall t, t ∈ T <-> t ∈ T0 /\ ~ drops D0 (unshared Y) indices t /\ t <> this;
  de_ok : vm_ok s X T
}.

Lemma destroy_spec (s0 : vm) this D0 X0 T0 Y shared :
  vm_dirs s0 !! this = Some D0 -> vm_ok s0 X0 T0 -> separate s0 D0 X0 T0 (unshared Y) ->
  vm_dirs s0 !! default kd shared = Some Y -> default kd shared <> this ->
  this ∈ T0 -> ~ table_in s0 this ->
  exists s X T, destroy this shared s0 = Ok (tt, s) /\ destroyed s0 s this D0 Y X0 T0 X T.
Proof.
  intros Hd Hok Hsep HY Hne HT Hnt. unfold destroy.
  destruct (free_kstack_spec s0 this D0 X0 T0 Y Hd Hok Hsep) as (s1 & D1 & X1 & T1 & R1 & F1). mrun R1.
  destruct (free_tables_spec s0 this D0 X0 T0 Y shared s1 D1 X1 T1 HY Hne Hsep F1) as (s2 & D2 & X2 & T2 & R2 & F2).
  unfold shared_page_dir_destroy. mrun R2.
  assert (Hall : forall i t, chosen D0 (unshared Y) i t -> i ∈ indices ++ kstack_slots <-> i ∈ indices).
  { intros i t _. rewrite elem_of_app, kstack_slots_spec. split; [|by left]. intros [?|Hi]; [done|]. apply elem_of_seqZ. apply kstack_range in Hi. lia. }
  apply (freed_iff _ _ _ _ _ _ _ _ _ _ _ _ Hall) in F2. destruct F2 as [G1 G2 G3 G4 G5 G6 G7 G8 G9 G10 G11].
  assert (Hthis : ~ drops D0 (unshared Y) indices this).
  { intros (i & _ & Hc). destruct (se_own _ _ _ _ _ Hsep i this Hc) as (_ & ? & _). done. }
  destruct (ta_free_ok (vm_kmem s2) T2 this G10) as (k' & Hfree & Hk'); [by apply G11|].
  assert (R3 : lift_kmem (ta_free this) s2 = Ok (tt, Vm (vm_frames s2) k' (vm_tables s2) (vm_dirs s2) (vm_cur s2) (vm_mem s2)))
    by (unfold lift_kmem; by rewrite Hfree).
  mrun R3. mgo. eexists _, X2, (T2 ∖ {[this]}). split; [reflexivity|].
  assert (HT' : forall t, t ∈ T2 ∖ {[this]} <-> t ∈ T0 /\ ~ drops D0 (unshared Y) indices t /\ t <> this).
  { intros t. rewrite elem_of_difference, elem_of_singleton, G11. tauto. }
  constructor; cbn [vm_dirs vm_cur vm_mem vm_tables]; try done.
  - rewrite G1. by rewrite delete_insert_eq.
  - split; [done|]. split; [done|]. intros t [x Ht]. cbn [vm_tables] in Ht. apply HT'.
    assert (Hn : ~ drops D0 (unshared Y) indices t) by (intros Hdr; rewrite (G7 t Hdr) in Ht; done).
    rewrite (G6 t Hn) in Ht. destruct Hok as (_ & _ & Hin). split_and!; [by apply Hin; exists x|done|].
    intros ->. apply Hnt. by exists x.
Qed.

(** ** Cloning and destroying *)

Section roundtrip.
(** The state before, the source directory [me], and what exists there. *)
Variables (s0 : vm) (this flags sbot stop w : Z) (me kdir : pdir) (X0 T0 : gset Z).
Hypothesis Hspace : space_ok kd s0 this w me kdir X0 T0.
(** The kernel's tables are the same in every directory, and exist. *)
Hypothesis Hkernel : forall i, shared_kernel i = true \/ pd_tables me !! i = None /\ e_present (entry me i) && e_ps (entry me i) = true ->
  pd_tables me !! i = pd_tables kdir !! i.
Hypothesis Hkin : forall i t, pd_tables kdir !! i = Some t -> t ∈ T0.

(** The directory the clone shares tables with: [cloned_dir], or the kernel's. *)
Definition share_with : option Z := if negb (Z.land flags CLONE_VM =? 0) then Some this else None.
Definition share_dir : pdir := if negb (Z.land flags CLONE_VM =? 0) then me else kdir.

(** The state after the clone, and the new directory. *)
Variables (s1 : vm) (nd : Z) (D : pdir) (X1 T1 : gset Z).
Hypothesis Hok : vm_ok s1 X1 T1.
Hypothesis HT1 : T0 ⊆ T1 /\ X0 ⊆ X1.
Hypothesis Hslots : forall i, 0 <= i < 1024 -> slot_cloned s0 flags sbot stop me kdir X0 T0 s1 D X1 i.
Hypothesis Houts : forall i, ~ 0 <= i < 1024 -> pd_tables D !! i = None.
Hypothesis Hpriv : frames_private flags sbot stop me s1 D.
Hypothesis Hacc : accounted flags sbot stop me X0 s1 D X1.
Hypothesis Htacc : tables_accounted flags sbot stop nd me T0 s1 D T1.

Notation mine := (private flags sbot stop).
Notation picked := (chosen D (unshared share_dir)).

(** What is dropped are the copies: the tables of the slots that are neither
    the kernel's nor linked. *)
Lemma picked_private i t : picked i t -> is_Some (pd_tables me !! i) /\ mine i /\ 0 <= i < 1024.
Proof.
  intros [Et Hsel]. destruct (decide (0 <= i < 1024)) as [Hi|Hi]; [|rewrite Houts in Et; done].
  specialize (Hslots i Hi). unfold slot_cloned in Hslots. unfold unshared, share_dir in Hsel.
  destruct (shared_kernel i) eqn:Esh.
  { exfalso. assert (Hk : is_kstack i = false) by (unfold shared_kernel in Esh; destruct (is_kstack i); [by rewrite andb_false_r in Esh|done]).
    rewrite Hk in Hsel. cbn [orb] in Hsel. apply negb_true_iff, bool_decide_eq_false in Hsel.
    destruct Hslots as [_ E]. pose proof (Hkernel i (or_introl Esh)) as E'. destruct (negb (Z.land flags CLONE_VM =? 0)); congruence. }
  destruct (pd_tables me !! i) as [u|] eqn:Eu; cycle 1.
  { exfalso. destruct (e_present (entry me i) && e_ps (entry me i)) eqn:Eb; destruct Hslots as [_ E]; [|congruence].
    pose proof (Hkernel i (or_intror (conj Eu Eb))). congruence. }
  destruct (linked flags sbot stop i) eqn:El; cycle 1.
  { split; [done|]. split; [|done]. by split. }
  exfalso. unfold linked in El. apply andb_true_iff in El as [El _]. apply andb_true_iff in El as [El Hk].
  rewrite El in Hsel. apply negb_true_iff in Hk. rewrite Hk in Hsel. cbn [orb] in Hsel.
  apply negb_true_iff, bool_decide_eq_false in Hsel. destruct Hslots as [_ E]. congruence.
Qed.

(** The copy in such a slot. *)
Lemma mine_copy i t : is_Some (pd_tables me !! i) -> mine i -> 0 <= i < 1024 -> pd_tables D !! i = Some t ->
  exists u, pd_tables me !! i = Some u /\ t ∉ T0 /\ table_in s1 t /\ table_copy s0 s1 u t X0 X1.
Proof.
  intros [u Eu] [Ps Pl] Hi Et. specialize (Hslots i Hi). unfold slot_cloned in Hslots. rewrite Ps, Eu, Pl in Hslots.
  destruct Hslots as (v & ph & Ev & HvT & Hin & _ & Hcp). assert (v = t) as -> by congruence. by exists u.
Qed.

Lemma mine_picked i t : is_Some (pd_tables me !! i) -> mine i -> pd_tables D !! i = Some t -> picked i t.
Proof.
  intros Mi Pi Et. split; [done|]. assert (Hi : 0 <= i < 1024) by (destruct (decide (0 <= i < 1024)); [done|rewrite Houts in Et; done]).
  destruct (mine_copy i t Mi Pi Hi Et) as (u & Eu & HtT & _). unfold unshared, share_dir.
  apply orb_true_iff. right. apply negb_true_iff, bool_decide_eq_false. intros E. apply HtT.
  destruct (negb (Z.land flags CLONE_VM =? 0)); [|by apply (Hkin i)].
  destruct Hspace as [(_ & _ & Hin) _ _ _ _ Htabs _]. apply Hin. by apply (Htabs i t).
Qed.

Lemma copy_present u t k : table_copy s0 s1 u t X0 X1 -> 0 <= k < 1024 -> e_present (tget s1 t k) = true ->
  0 <= tget s1 t k < 2 ^ 32 /\ e_addr (tget s1 t k) ∈ X1 /\ e_addr (tget s1 t k) ∉ X0.
Proof.
  intros Hcp Hk Hp. specialize (Hcp k Hk). destruct (e_present (tget s0 u k)); [|by rewrite Hcp in Hp].
  destruct Hcp as (f & Hf & Hf0 & E1 & E2 & _). split; [|by rewrite E2]. rewrite E1, with_addr_val.
  pose proof (Z.mod_pos_bound (tget s0 u k) 4096 ltac:(lia)). pose proof (Z.mod_pos_bound f (2 ^ 20) ltac:(lia)). lia.
Qed.

Lemma clone_separate : separate s1 D X1 T1 (unshared share_dir).
Proof.
  assert (Hidx : forall k, k ∈ indices <-> 0 <= k < 1024) by (intros k; unfold indices; rewrite elem_of_seqZ; lia).
  constructor.
  - intros i t Hc. destruct (picked_private i t Hc) as (Mi & Pi & Hi).
    destruct (mine_copy i t Mi Pi Hi (proj1 Hc)) as (u & Eu & HtT & Hin & Hcp).
    split; [by apply Hok|]. split; [done|]. split.
    + intros k Hk Hp. destruct (copy_present u t k Hcp ltac:(by apply Hidx) Hp) as (? & ? & _). done.
    + intros k l Hk Hl Hpk Hpl E. by apply (Hpriv i i t t k l); try apply Hc; try apply Hidx.
  - intros i j t Hi Hj. destruct (picked_private i t Hi) as (Mi & Pi & _), (picked_private j t Hj) as (Mj & Pj & _).
    destruct Htacc as (_ & _ & Hu). apply (Hu i j t); try done; [apply Hi|apply Hj].
  - intros i j u v f Hi Hj (k & Hk & Hpk & Ek) (l & Hl & Hpl & El).
    destruct (picked_private i u Hi) as (Mi & Pi & _), (picked_private j v Hj) as (Mj & Pj & _).
    apply (Hpriv i j u v k l); try done; try (by apply Hidx); [apply Hi|apply Hj|congruence].
Qed.

(** Nothing of the clone is left. *)
Lemma destroyed_back s2 X2 T2 :
  nd ∉ T0 -> destroyed s1 s2 nd D share_dir X1 T1 X2 T2 -> X2 = X0 /\ T2 = T0.
Proof.
  intros Hnd [_ _ _ _ Hf Ho _].
  assert (Hidx : forall k, k ∈ indices <-> 0 <= k < 1024) by (intros k; unfold indices; rewrite elem_of_seqZ; lia).
  assert (Hdr : forall t, drops D (unshared share_dir) indices t -> exists i u, picked i t /\ is_Some (pd_tables me !! i) /\ t ∉ T0 /\ table_copy s0 s1 u t X0 X1).
  { intros t (i & _ & Hc). destruct (picked_private i t Hc) as (Mi & Pi & Hi).
    destruct (mine_copy i t Mi Pi Hi (proj1 Hc)) as (u & _ & HtT & _ & Hcp). by exists i, u. }
  assert (Hpk : forall i t, is_Some (pd_tables me !! i) -> mine i -> pd_tables D !! i = Some t -> drops D (unshared share_dir) indices t).
  { intros i t Mi Pi Et. assert (Hc := mine_picked i t Mi Pi Et). exists i. split; [|done]. apply Hidx. by apply (picked_private i t). }
  split; apply set_eq; intros x.
  - rewrite Hf. split.
    + intros [Hx Hn]. destruct (Hacc x Hx) as [?|(i & u & k & Mi & Pi & Eu & Hk & Hp & E)]; [done|]. exfalso. apply Hn.
      exists u. split; [by apply (Hpk i)|]. exists k. split; [by apply Hidx|done].
    + intros Hx. split; [by apply HT1|]. intros (t & Ht & (k & Hk & Hp & E)). destruct (Hdr t Ht) as (i & u & _ & _ & _ & Hcp).
      destruct (copy_present u t k Hcp ltac:(by apply Hidx) Hp) as (_ & _ & Hn). congruence.
  - rewrite Ho. split.
    + intros (Hx & Hn & Hne). destruct Htacc as (_ & Ha & _). destruct (Ha x Hx) as [?|[?|(i & Mi & Pi & Ei)]]; [done|done|].
      exfalso. by apply Hn, (Hpk i).
    + intros Hx. split; [by apply HT1|]. split; [|by intros ->]. intros Ht. by destruct (Hdr x Ht) as (_ & _ & _ & _ & ? & _).
Qed.
End roundtrip.

Lemma clone_destroy_spec (s : vm) this flags sbot stop w me kdir X T :
  space_ok kd s this w me kdir X T ->
  (forall i, shared_kernel i = true \/ pd_tables me !! i = None /\ e_present (entry me i) && e_ps (entry me i) = true ->
     pd_tables me !! i = pd_tables kdir !! i) ->
  (forall i t, pd_tables kdir !! i = Some t -> t ∈ T) ->
  runs ((nd <-- dir_clone kd this flags sbot stop;; destroy nd (share_with this flags)) s) (fun _ s' =>
    vm_ok s' X T /\ vm_dirs s' = vm_dirs s /\ vm_cur s' = vm_cur s /\ undisturbed s X T s').
Proof.
  intros Hsp Hkernel Hkin. assert (Hsp' := Hsp). destruct Hsp' as [V1 V2 V3 V4 V5 V6 V7].
  eapply runs_bind; [apply (dir_clone_spec kd s this flags sbot stop w me kdir X T V1 V2 V3 V4 V5 V6 V7)|].
  intros nd s1 (Hnd & Hc & D & X1 & T1 & W1 & W2 & W3 & W4 & (U1 & U2 & U3) & W6 & W7 & W8 & W9 & W10).
  assert (Hdir : forall d x, vm_dirs s !! d = Some x -> vm_dirs s1 !! d = Some x /\ d <> nd).
  { intros d x Ed. assert (d <> nd) by (intros ->; apply Hnd, V5; by rewrite Ed). split; [|done]. rewrite W1. by rewrite lookup_insert_ne. }
  assert (Hsep : separate s1 D X1 T1 (unshared (share_dir flags me kdir))) by (eapply clone_separate; eassumption).
  assert (HY : vm_dirs s1 !! default kd (share_with this flags) = Some (share_dir flags me kdir) /\ default kd (share_with this flags) <> nd).
  { unfold share_with, share_dir. destruct (negb (Z.land flags CLONE_VM =? 0)); by apply Hdir. }
  destruct (destroy_spec s1 nd D X1 T1 (share_dir flags me kdir) (share_with this flags)) as (s2 & X2 & T2 & Hrun & Hde);
    [by rewrite W1, lookup_insert_eq|exact W2|exact Hsep|apply HY|apply HY|apply W10|apply W10|].
  rewrite Hrun. cbn [runs].
  assert (X2 = X /\ T2 = T) as [-> ->] by (eapply destroyed_back; [exact Hsp|exact Hkernel|exact Hkin|exact (conj W3 W4)|eassumption..]).
  destruct Hde as [D1 D2 D3 D4 _ D6 D7]. split; [exact D7|]. split.
  { rewrite D1, W1, delete_insert_id; [done|]. destruct (vm_dirs s !! nd) eqn:E; [|done]. exfalso. by apply Hnd, V5; rewrite E. }
  split; [congruence|].
  assert (Hkeep : forall t, t ∈ T -> vm_tables s2 !! t = vm_tables s1 !! t) by (intros t Ht; apply D4; by apply D6 in Ht as (_ & ? & _)).
  split; [|split].
  - intros x Hx. unfold table_in. rewrite Hkeep by (by apply V1). by apply U1.
  - intros x k Hx. unfold tget. rewrite Hkeep by done. by apply U2.
  - intros f Hf. rewrite D3. by apply U3.
Qed.

End dir_free.

