(* ===== verification/Memory.v ===== *)
(** * The kernel memory manager (kernel/include/memory.h, kernel/mem/memory.cpp)

    [kmalloc] and [kfree] over the heap and, before it is online, over a
    placement address; [remap], which maps device memory after the heap; and
    the [brk] system call over a process's page directory. *)

From S2P Require Import Prelude LinkedList Dll MemLayout Heap HeapSpec HeapOps Buddy BuddySpec PageDir PageDirSpec PageClone PageEnv.
From stdpp Require Import gmap list.
#[local] Open Scope Z_scope.

(** ** kmalloc *)

Definition KMALLOC_ALIGN : Z := 1.
Definition KMALLOC_ZERO : Z := 2.

(** The placement address, the heap, and the byte ranges [kmalloc] has
    cleared, in order. *)
Record kmem : Type := Kmem { km_placement : Z; km_heap : heap; km_zeroed : list (Z * Z) }.

Definition get_placement_addr : M kmem Z := s <-- get;; ret (km_placement s).
Definition set_placement (a : Z) : M kmem unit := modify (fun s => Kmem a (km_heap s) (km_zeroed s)).
Definition lift_heap {A} (c : M heap A) : M kmem A :=
  fun s => match c (km_heap s) with
           | Ok (a, h) => Ok (a, Kmem (km_placement s) h (km_zeroed s))
           | Stop e => Stop e
           end.
(** [memset(p, 0, n)] or [memsetd(p, 0, n / 4)]: [n] bytes from [p]. *)
Definition log_zero (p n : Z) : M kmem unit :=
  modify (fun s => Kmem (km_placement s) (km_heap s) (km_zeroed s ++ [(p, n)])).

Section kmalloc.
Variable junk : link nptr.
(** The entry of a kernel page, null when it has no table
    ([kernel_page_dir.get_page]). *)
Variable kernel_page : Z -> option Z.

(** [kmalloc(sz, flags, phys_addr)]: the pointer, and what is stored through
    [phys_addr] when it is not null. *)
Definition kmalloc (sz flags : Z) (want_phys : bool) : M kmem (Z * option Z) :=
  let align := negb (Z.land flags KMALLOC_ALIGN =? 0) in
  let zero := negb (Z.land flags KMALLOC_ZERO =? 0) in
  s <-- get;;
  r <-- (if hp_online (km_heap s) then
           ptr <-- lift_heap (alloc junk sz align);;
           if want_phys then
             match kernel_page (Z.shiftr ptr 12) with
             | None => halt Panic
             | Some v => ret (ptr, Some (u32 (u32 (Z.shiftl (e_addr v) 12) + Z.land ptr 0xFFF)))
             end
           else ret (ptr, None)
         else
           (if align then set_placement (align_addr (km_placement s)) else ret tt);;;
           ptr <-- get_placement_addr;;
           set_placement (u32 (ptr + sz));;;
           ret (ptr, if want_phys then Some (u32 (ptr - KERNEL_VIRTUAL_BASE)) else None));;
  (if zero then
     if Z.land sz 3 =? 0 then log_zero r.1 (4 * Z.shiftr sz 2) else log_zero r.1 sz
   else ret tt);;;
  ret r.

Definition kfree (p : Z) : M kmem unit :=
  s <-- get;; if hp_online (km_heap s) then lift_heap (free p) else ret tt.

(** The C entry points. *)
Definition malloc (sz : Z) : M kmem Z := r <-- kmalloc sz 0 false;; ret r.1.
Definition c_free (p : Z) : M kmem unit := kfree p.

Lemma mul4_shift sz : 0 <= sz -> Z.land sz 3 = 0 -> 4 * Z.shiftr sz 2 = sz.
Proof.
  intros Hs E. change 3 with (2 ^ 2 - 1) in E. rewrite land_low in E by lia. rewrite shiftr_div by lia.
  change (2 ^ 2) with 4 in *. pose proof (Z.div_mod sz 4). lia.
Qed.

(** The tail of [kmalloc]: exactly the requested bytes are cleared. *)
Lemma kmalloc_zero sz (zero : bool) (r : Z * option Z) s :
  0 <= sz ->
  ((if zero then if Z.land sz 3 =? 0 then log_zero r.1 (4 * Z.shiftr sz 2) else log_zero r.1 sz else ret tt);;;
   ret r) s = Ok (r, Kmem (km_placement s) (km_heap s) (km_zeroed s ++ if zero then [(r.1, sz)] else [])).
Proof.
  intros Hs. destruct zero; cycle 1.
  { mgo. rewrite app_nil_r. by destruct s. }
  destruct (Z.eqb_spec (Z.land sz 3) 0) as [E|_]; [rewrite mul4_shift by done|]; reflexivity.
Qed.

(** [kmalloc] before the heap is online hands out consecutive bytes from the
    placement address (rounded up to a page on demand); once it is online, it
    returns what the heap returns, with the heap's guarantees, or halts where
    the heap does.  With [KMALLOC_ZERO] exactly the requested bytes are
    cleared. *)
Theorem kmalloc_correct s sz flags bs fl :
  0 <= sz < 2 ^ 31 ->
  let align := negb (Z.land flags KMALLOC_ALIGN =? 0) in
  let zeroed p := if negb (Z.land flags KMALLOC_ZERO =? 0) then [(p, sz)] else [] in
  (hp_online (km_heap s) = false -> 0 <= km_placement s -> km_placement s + sz + 4096 <= 2 ^ 32 ->
   exists p s', kmalloc sz flags false s = Ok ((p, None), s') /\
     km_placement s <= p < km_placement s + 4096 /\ (align = true -> p mod 4096 = 0) /\
     (align = false -> p = km_placement s) /\ km_placement s' = u32 (p + sz) /\
     km_heap s' = km_heap s /\ km_zeroed s' = km_zeroed s ++ zeroed p) /\
  (hp_online (km_heap s) = true -> heap_ok (km_heap s) bs fl ->
   hp_end (km_heap s) + sz + 8192 + 64 <= 2 ^ 32 - 4096 ->
   (exists p s', kmalloc sz flags false s = Ok ((p, None), s') /\
      allocated sz align bs p (km_heap s') /\ km_zeroed s' = km_zeroed s ++ zeroed p) \/
   (kmalloc sz flags false s = Stop Panic /\ alloc_stuck bs fl align sz)).
Proof.
  intros Hs align zeroed. unfold kmalloc. fold align. cbv zeta. split.
  - intros Hoff Hp Hb. mgo. rewrite Hoff. destruct align eqn:Ea.
    + unfold set_placement, get_placement_addr. mgo. cbn [km_placement km_heap km_zeroed].
      destruct (align_addr_spec (km_placement s)) as (A1 & A2 & _); [lia|].
      eexists _, _. rewrite kmalloc_zero by lia. split; [reflexivity|]. cbn [fst km_placement km_heap km_zeroed].
      split_and!; try done; lia.
    + unfold set_placement, get_placement_addr. mgo. cbn [km_placement km_heap km_zeroed].
      eexists _, _. rewrite kmalloc_zero by lia. split; [reflexivity|]. cbn [fst km_placement km_heap km_zeroed].
      split_and!; try done; lia.
  - intros Hon Hok Hend. mgo. rewrite Hon.
    destruct (alloc_spec junk (km_heap s) bs fl sz align Hok ltac:(lia) Hend) as [(p & h' & E & Ha)|[E Hst]].
    + left. assert (El : lift_heap (alloc junk sz align) s = Ok (p, Kmem (km_placement s) h' (km_zeroed s)))
        by (unfold lift_heap; by rewrite E).
      mgo. mrun El. mgo. eexists p, _. rewrite kmalloc_zero by lia. split; [reflexivity|]. by split.
    + right. split; [|done]. mgo. apply bind_stop. unfold lift_heap. by rewrite E.
Qed.
End kmalloc.

Lemma kmalloc_correct_witness :
  exists p s', kmalloc (Link null null) (fun _ => None) 100 3 false (Kmem 0xC0100010 heap_boot []) = Ok ((p, None), s') /\
    p mod 4096 = 0 /\ km_zeroed s' = [(p, 100)].
Proof.
  destruct (kmalloc_correct (Link null null) (fun _ => None) (Kmem 0xC0100010 heap_boot []) 100 3 [] []) as [H _]; [lia|].
  destruct H as (p & s' & E & _ & Ha & _ & _ & _ & Hz); [reflexivity|simpl; lia|simpl; lia|].
  exists p, s'. split; [exact E|]. split; [by apply Ha|exact Hz].
Defined.

Section vm_clients.
Context {F K : Type} `{FrameAlloc F} `{TableAlloc K}.
Notation vm := (@vm F K).
Variable kernel_page_dir : Z.

(** ** remap

    [curpos] is the function's static variable. *)
Record remap_st : Type := Remap { rm_curpos : Z; rm_vm : vm }.

Definition remap_boot (v : vm) : remap_st := Remap HEAP_END v.

Definition lift_vm {A} (c : M vm A) : M remap_st A :=
  fun s => match c (rm_vm s) with
           | Ok (a, v) => Ok (a, Remap (rm_curpos s) v)
           | Stop e => Stop e
           end.

Definition remap_flags (cache : bool) : Z :=
  Z.lor (Z.lor PAGE_PRESENT PAGE_RW) (if cache then 0 else Z.lor PAGE_WRITETHROUGH PAGE_NOCACHE).

(** [None] is the null result. *)
Definition remap (phys_addr sz : Z) (cache : bool) : M remap_st (option Z) :=
  if cache && (u32 (phys_addr + sz) <? KERNEL_IDMAP_SIZE) then
    ret (Some (u32 (phys_addr + KERNEL_VIRTUAL_BASE)))
  else if phys_addr <? KERNEL_IDMAP_SIZE then ret None
  else
    let sz := u32 (sz + Z.land phys_addr 0xFFF) in
    let phys_addr := Z.land phys_addr 0xFFFFF000 in
    let sz := align_addr sz in
    s <-- get;;
    if u32 (REMAP_END - rm_curpos s) <=? sz then ret None
    else
      ok <-- lift_vm (map_block kernel_page_dir (rm_curpos s) phys_addr sz false (remap_flags cache));;
      if ok then
        modify (fun s => Remap (u32 (rm_curpos s + sz)) (rm_vm s));;; ret (Some (rm_curpos s))
      else ret None.

(** ** brk *)

Record brk_st : Type := Brk {
  bk_start : Z; bk_end : Z; bk_stack_bot : Z;
  bk_dir : Z;                       (** the process's page directory *)
  bk_vm : vm
}.

Definition lift_brk {A} (c : M vm A) : M brk_st A :=
  fun s => match c (bk_vm s) with
           | Ok (a, v) => Ok (a, Brk (bk_start s) (bk_end s) (bk_stack_bot s) (bk_dir s) v)
           | Stop e => Stop e
           end.

Definition page_floor (a : Z) : Z := Z.land a 0xFFFFF000.

(** for (a = start; a < end; a += PAGE_SIZE) free_page(a); [n] rounds. *)
Fixpoint free_loop (n : nat) (d a e : Z) : M vm unit :=
  if a <? e then
    match n with
    | O => halt Fuel
    | S k => free_page d a;;; free_loop k d (u32 (a + 4096)) e
    end
  else ret tt.

Definition brk (addr : Z) : M brk_st Z :=
  p <-- get;;
  if (addr <? bk_start p) || (bk_stack_bot p <=? addr) || (addr =? bk_end p) then ret (bk_end p)
  else
    ok <-- (if bk_end p <? addr then
              let vstart := page_floor (bk_end p) in
              let vend := align_addr addr in
              lift_brk (alloc_block (bk_dir p) vstart (u32 (vend - vstart))
                          (Z.lor (Z.lor PAGE_PRESENT PAGE_US) PAGE_RW))
            else
              let vstart := page_floor addr in
              let vend := align_addr (bk_end p) in
              lift_brk (free_loop (Z.to_nat ((vend - vstart) / 4096 + 1)) (bk_dir p) vstart vend);;; ret true);;
    if ok then
      modify (fun p => Brk (bk_start p) addr (bk_stack_bot p) (bk_dir p) (bk_vm p));;;
      lift_brk (switch_page_dir (bk_dir p));;;
      ret addr
    else ret (bk_end p).

(** *** Ranges in pages *)

Lemma page_floor_spec a :
  0 <= a < 2 ^ 32 -> page_floor a <= a < page_floor a + 4096 /\ page_floor a mod 4096 = 0 /\ 0 <= page_floor a.
Proof.
  intros Ha. unfold page_floor. change 0xFFFFF000 with (2 ^ 32 - 2 ^ 12). rewrite land_high by lia.
  change (2 ^ 12) with 4096. pose proof (Z.mod_pos_bound a 4096). pose proof (Z.div_mod a 4096).
  split; [lia|]. split; [|pose proof (Z.div_pos a 4096); lia].
  replace (a - a mod 4096) with (a / 4096 * 4096) by lia. by apply Z.mod_mul.
Qed.

Lemma page_index a : a mod 4096 = 0 -> 0 <= a -> Z.shiftr a 12 * 4096 = a.
Proof. intros Hm Ha. rewrite shiftr_div by lia. change (2 ^ 12) with 4096. pose proof (Z.div_mod a 4096). lia. Qed.

(** The pages that cover the bytes from [lo] to [hi]. *)
Definition page_in (lo hi j : Z) : Prop := page_floor lo <= j * 4096 < align_addr hi.

(** growing the break with [brk] gives every page between the old and the
    new break a mapping: those that had none, a frame of its own that nobody
    held, user-accessible and writable; other pages are unchanged, the break
    becomes [addr] and [addr] is returned.  When memory runs out, the old
    break is kept and returned. *)
Theorem brk_grow_correct s addr X T :
  dir_ok (bk_vm s) (bk_dir s) -> vm_ok (bk_vm s) X T ->
  0 <= bk_start s -> bk_start s <= addr -> 0 <= bk_end s < addr -> addr < bk_stack_bot s ->
  bk_stack_bot s <= 2 ^ 32 - 4096 ->
  match brk addr s with
  | Stop Panic => @oom F K _ _
  | Stop _ => False
  | Ok (r, s') =>
    (r = bk_end s /\ bk_end s' = bk_end s /\ @oom F K _ _) \/
    (r = addr /\ bk_end s' = addr /\ exists X',
       X ⊆ X' /\
       (forall j, 0 <= j -> page_in (bk_end s) addr j -> e_present (pte (bk_vm s) (bk_dir s) j) = false ->
          exists f, 0 < f < 2 ^ 20 /\ f ∈ X' /\ f ∉ X /\ pte (bk_vm s') (bk_dir s) j = f * 4096 + 7) /\
       (forall j, 0 <= j -> page_in (bk_end s) addr j -> e_present (pte (bk_vm s) (bk_dir s) j) = true ->
          pte (bk_vm s') (bk_dir s) j = reflag (pte (bk_vm s) (bk_dir s) j) 7) /\
       (forall j, 0 <= j -> ~ page_in (bk_end s) addr j ->
          pte (bk_vm s') (bk_dir s) j = pte (bk_vm s) (bk_dir s) j))
  end.
Proof.
  intros Hd Hv Hs0 Hs He Hst Hsb. unfold brk. mgo.
  destruct (Z.ltb_spec addr (bk_start s)); [lia|]. destruct (Z.leb_spec (bk_stack_bot s) addr); [lia|].
  destruct (Z.eqb_spec addr (bk_end s)); [lia|]. cbn [orb]. destruct (Z.ltb_spec (bk_end s) addr); [|lia].
  cbv zeta. change (Z.lor (Z.lor PAGE_PRESENT PAGE_US) PAGE_RW) with 7.
  destruct (page_floor_spec (bk_end s)) as (F1 & F2 & F3); [lia|].
  destruct (align_addr_spec addr) as (A1 & A2 & A3); [lia|].
  set (vs := page_floor (bk_end s)) in *. set (ve := align_addr addr) in *.
  rewrite (u32_small (ve - vs)) by lia. unfold alloc_block.
  pose proof (page_index vs F2 F3) as Ivs.
  assert (Hdm : (ve - vs) mod 4096 = 0) by (rewrite Zminus_mod, A2, F2; done).
  pose proof (page_index (ve - vs) Hdm ltac:(lia)) as Isz.
  set (cnt := Z.shiftr (ve - vs) 12) in *. set (st := Z.shiftr vs 12) in *.
  assert (Hr := alloc_pages_spec (bk_vm s) (bk_dir s) st cnt 7 X T Hd Hv ltac:(lia) ltac:(lia) ltac:(lia) ltac:(lia)).
  unfold lift_brk at 1, bind at 1. unfold runs in Hr.
  destruct (alloc_pages (bk_dir s) st cnt 7 (bk_vm s)) as [[b v']|[]]; try done.
  destruct Hr as (Hd' & _ & X' & T' & Hv' & Hbt & Hbf). destruct b; cycle 1.
  { left. destruct (Hbf eq_refl) as [Ho _]. done. }
  destruct (Hbt eq_refl) as (HX & P1 & P2 & _ & P4).
  unfold modify, bind at 1. destruct Hd' as (dir & Ed & _).
  assert (Esw : lift_brk (switch_page_dir (bk_dir s)) (Brk (bk_start s) addr (bk_stack_bot s) (bk_dir s) v') =
    Ok (tt, Brk (bk_start s) addr (bk_stack_bot s) (bk_dir s)
              (Vm (vm_frames v') (vm_kmem v') (vm_tables v') (vm_dirs v') (bk_dir s) (vm_mem v')))).
  { unfold lift_brk, switch_page_dir, set_page_dir. cbn [bk_vm]. mgo. unfold get_dir. mgo.
    rewrite (bind_ok _ _ _ _ _ (deref_some _ _ _ Ed)). done. }
  cbn [bk_start bk_stack_bot bk_dir bk_vm]. rewrite (bind_ok _ _ _ _ _ Esw). right. split; [done|]. split; [done|].
  assert (Hpte : forall j, pte (Vm (vm_frames v') (vm_kmem v') (vm_tables v') (vm_dirs v') (bk_dir s) (vm_mem v')) (bk_dir s) j = pte v' (bk_dir s) j) by done.
  cbn [bk_vm]. assert (Hin : forall j, page_in (bk_end s) addr j <-> st <= j < st + Z.of_nat (Z.to_nat cnt)).
  { intros j. unfold page_in. fold vs ve. lia. }
  exists X'. split; [done|]. split_and!; intros j Hj Hpi.
  - intros Hpr. apply Hin in Hpi. rewrite Hpte. by apply P2.
  - intros Hpr. apply Hin in Hpi. rewrite Hpte. by apply P1.
  - rewrite Hin in Hpi. rewrite Hpte. by apply P4.
Qed.

(** [free_page] of a mapped page gives its frame back and clears the entry. *)
Lemma free_page_spec (s : vm) d a f X T :
  dir_ok s d -> vm_ok s X T -> 0 <= a < 2 ^ 32 -> pte s d (Z.shiftr a 12) = f * 4096 + 7 ->
  f ∈ X -> 0 < f < 2 ^ 20 ->
  exists s', free_page d a s = Ok (tt, s') /\ dir_ok s' d /\ vm_ok s' (X ∖ {[f]}) T /\
    forall j, 0 <= j -> pte s' d j = if decide (j = Z.shiftr a 12) then 0 else pte s d j.
Proof.
  intros Hd Hv Ha Hp Hf Hfr. set (i := Z.shiftr a 12) in *.
  assert (Hi : 0 <= i < 2 ^ 20).
  { subst i. rewrite shiftr_div by lia. split; [apply Z.div_pos; lia|]. apply Z.div_lt_upper_bound; lia. }
  assert (exists q, slot s d i q) as [q Hq].
  { destruct (page_of_slot s d i Hd) as [Hn|?]; [|done]. unfold pte in Hp. rewrite Hn in Hp. simpl in Hp. lia. }
  unfold free_page. fold i. mrun (get_page_found s d i false default_flags q Hi Hq).
  mrun (page_read_ok s d i q Hq). rewrite Hp.
  rewrite (e_present_low _ 7) by (rewrite Z.add_comm, Z.mod_add by lia; done). change (e_present 7) with true. cbv iota.
  assert (Hea : e_addr (f * 4096 + 7) = f) by (rewrite e_addr_val; symmetry; apply (Z.div_unique _ _ _ 7); lia).
  rewrite Hea, shiftl_mul by lia. change (2 ^ 12) with 4096. rewrite u32_small by lia.
  destruct Hv as (Hfi & Hk & HT). destruct (fa_free_ok _ _ f Hfi Hf) as (e' & Ef & Hfi').
  assert (El : lift_frames (fa_free (f * 4096)) s = Ok (tt, with_frames e' s)) by (unfold lift_frames; by rewrite Ef).
  mrun El. destruct (page_write_ok (with_frames e' s) d i q 0) as (tb & E1 & Hs1 & Hd1 & Hp1 & _); [lia|done|done|].
  cbv zeta in *. eexists. split; [exact E1|]. split; [done|]. split.
  - apply (vm_ok_tables (with_frames e' s)); [|by eapply slot_table]. by split_and!.
  - intros j Hj. rewrite Hp1 by done. done.
Qed.

(** shrinking the break with [brk] frees whole pages from the one that
    contains the new break on: when the new break is not on a page boundary,
    the page that holds the bytes just below it, which the process still owns,
    loses its frame. *)
Theorem brk_shrink_frees_live_page s addr X T f :
  dir_ok (bk_vm s) (bk_dir s) -> vm_ok (bk_vm s) X T ->
  0 <= bk_start s <= page_floor addr -> page_floor addr < addr -> addr < bk_end s ->
  align_addr (bk_end s) = page_floor addr + 4096 -> bk_end s <= 2 ^ 32 - 4096 -> addr < bk_stack_bot s ->
  pte (bk_vm s) (bk_dir s) (Z.shiftr addr 12) = f * 4096 + 7 -> f ∈ X -> 0 < f < 2 ^ 20 ->
  exists s', brk addr s = Ok (addr, s') /\ bk_end s' = addr /\
    pte (bk_vm s') (bk_dir s) (Z.shiftr (addr - 1) 12) = 0 /\ bk_start s <= addr - 1 < bk_end s'.
Proof.
  intros Hd Hv Hst Hfl He Hal Hb Hsb Hp Hf Hfr.
  destruct (page_floor_spec addr) as (F1 & F2 & F3); [lia|].
  assert (Hsh : forall x, page_floor addr <= x < page_floor addr + 4096 -> Z.shiftr x 12 = page_floor addr / 4096).
  { intros x Hx. rewrite shiftr_div by lia. change (2 ^ 12) with 4096.
    symmetry. apply (Z.div_unique x 4096 _ (x - page_floor addr)); [lia|].
    pose proof (Z.div_mod (page_floor addr) 4096). lia. }
  rewrite (Hsh addr) in Hp by lia.
  unfold brk. mgo. destruct (Z.ltb_spec addr (bk_start s)); [lia|].
  destruct (Z.leb_spec (bk_stack_bot s) addr); [lia|].
  destruct (Z.eqb_spec addr (bk_end s)); [lia|]. cbn [orb]. destruct (Z.ltb_spec (bk_end s) addr); [lia|].
  cbv zeta. rewrite Hal. set (pf := page_floor addr) in *.
  destruct (free_page_spec (bk_vm s) (bk_dir s) pf f X T Hd Hv ltac:(lia)) as (v1 & E1 & Hd1 & _ & Hp1);
    [by rewrite Hsh by lia|done|done|].
  assert (El : free_loop (Z.to_nat ((pf + 4096 - pf) / 4096 + 1)) (bk_dir s) pf (pf + 4096) (bk_vm s) = Ok (tt, v1)).
  { replace (Z.to_nat ((pf + 4096 - pf) / 4096 + 1)) with 2%nat
      by (replace (pf + 4096 - pf) with 4096 by lia; reflexivity).
    cbn [free_loop]. destruct (Z.ltb_spec pf (pf + 4096)); [|lia]. mrun E1.
    rewrite u32_small by lia. by rewrite Z.ltb_irrefl. }
  unfold lift_brk at 1, bind at 1 2. rewrite El. unfold modify, ret at 1, bind at 1. destruct Hd1 as (dir & Ed & _).
  assert (Esw : lift_brk (switch_page_dir (bk_dir s)) (Brk (bk_start s) addr (bk_stack_bot s) (bk_dir s) v1) =
    Ok (tt, Brk (bk_start s) addr (bk_stack_bot s) (bk_dir s)
              (Vm (vm_frames v1) (vm_kmem v1) (vm_tables v1) (vm_dirs v1) (bk_dir s) (vm_mem v1)))).
  { unfold lift_brk, switch_page_dir, set_page_dir. cbn [bk_vm]. mgo. unfold get_dir. mgo.
    rewrite (bind_ok _ _ _ _ _ (deref_some _ _ _ Ed)). done. }
  cbn [bk_start bk_stack_bot bk_dir bk_vm]. rewrite (bind_ok _ _ _ _ _ Esw).
  eexists. split; [reflexivity|]. split; [done|]. cbn [bk_vm bk_end]. split; [|lia].
  change (pte v1 (bk_dir s) (Z.shiftr (addr - 1) 12) = 0). rewrite (Hsh (addr - 1)) by lia.
  rewrite Hp1 by (apply Z.div_pos; lia). by rewrite (Hsh pf), decide_True by lia.
Qed.

(** The length of the mapping: the offset in the first page included, rounded
    up to pages. *)
Definition remap_len (phys_addr sz : Z) : Z := align_addr (sz + phys_addr mod 4096).

(** an uncached [remap] of device memory takes the next free range of the
    remap area: it returns the current position, which advances by the length
    in whole pages and stays below [REMAP_END], and maps that range to the
    physical pages that hold the device memory; other pages are unchanged.
    The pointer returned is that of the page, without the offset of
    [phys_addr] in it. *)
Theorem remap_correct s phys_addr sz X T :
  let d := kernel_page_dir in
  let len := remap_len phys_addr sz in
  dir_ok (rm_vm s) d -> vm_ok (rm_vm s) X T ->
  HEAP_END <= rm_curpos s -> rm_curpos s mod 4096 = 0 -> rm_curpos s + len < REMAP_END ->
  KERNEL_IDMAP_SIZE <= phys_addr -> 0 < sz -> page_floor phys_addr + len <= 2 ^ 32 -> sz < 2 ^ 31 ->
  phys_addr < 2 ^ 32 ->
  (forall j, Z.shiftr HEAP_END 12 <= j < 2 ^ 20 -> page_of (rm_vm s) d j <> None) ->
  exists s', remap phys_addr sz false s = Ok (Some (rm_curpos s), s') /\
    rm_curpos s' = rm_curpos s + len /\ sz <= len /\ len mod 4096 = 0 /\
    forall j, 0 <= j -> pte (rm_vm s') d j =
      if (rm_curpos s <=? j * 4096) && (j * 4096 <? rm_curpos s + len)
      then page_floor phys_addr + (j * 4096 - rm_curpos s) + 27 else pte (rm_vm s) d j.
Proof.
  intros d len Hd Hv Hcur Hcm Hfit Hph Hsz Hpl Hsz2 Hph2 Htab. subst d. unfold remap. cbn [andb].
  unfold HEAP_END, HEAP_BASE, REMAP_END, KERNEL_IDMAP_SIZE, KERNEL_VIRTUAL_BASE in *.
  destruct (page_floor_spec phys_addr) as (F1 & F2 & F3); [lia|].
  destruct (Z.ltb_spec phys_addr 0x10000000); [lia|]. cbv zeta.
  change 0xFFF with (2 ^ 12 - 1). rewrite land_low by lia. change (2 ^ 12) with 4096.
  pose proof (Z.mod_pos_bound phys_addr 4096 ltac:(lia)) as Hoff.
  rewrite (u32_small (sz + _)) by lia. fold (page_floor phys_addr). fold (remap_len phys_addr sz). fold len.
  destruct (align_addr_spec (sz + phys_addr mod 4096)) as (A1 & A2 & _); [lia|]. fold (remap_len phys_addr sz) in A1, A2.
  fold len in A1, A2. mgo. rewrite (u32_small (0xffffc000 - rm_curpos s)) by lia.
  destruct (Z.leb_spec (0xffffc000 - rm_curpos s) len); [lia|]. unfold map_block.
  pose proof (page_index (rm_curpos s) Hcm ltac:(lia)) as I1. pose proof (page_index len A2 ltac:(lia)) as I2.
  change (remap_flags false) with 27.
  destruct (map_pages_spec (rm_vm s) kernel_page_dir (Z.shiftr (rm_curpos s) 12) (page_floor phys_addr) (Z.shiftr len 12) 27 X T)
    as [_ (b & v' & m & E & _ & _ & _ & Hm & Hbt & Hbf & Hp)]; try done; try lia.
  destruct b; cycle 1.
  { exfalso. destruct (decide (m = Z.shiftr len 12)) as [->|Hne].
    - apply (Htab (Z.shiftr (rm_curpos s) 12 + Z.shiftr len 12)); [|by apply Hbf].
      change (Z.shiftr (0xC0000000 + 0x10000000 + 0x20000000) 12) with 0xF0000. lia.
    - apply (Htab (Z.shiftr (rm_curpos s) 12 + m)); [|by apply Hbf].
      change (Z.shiftr (0xC0000000 + 0x10000000 + 0x20000000) 12) with 0xF0000. lia. }
  specialize (Hbt eq_refl). subst m. unfold lift_vm, bind at 1. rewrite E. mgo.
  eexists. split; [reflexivity|]. cbn [rm_curpos rm_vm]. rewrite u32_small by lia. split_and!; try done; try lia.
  intros j Hj. rewrite Hp by done.
  destruct (Z.leb_spec (Z.shiftr (rm_curpos s) 12) j), (Z.ltb_spec j (Z.shiftr (rm_curpos s) 12 + Z.shiftr len 12)),
    (Z.leb_spec (rm_curpos s) (j * 4096)), (Z.ltb_spec (j * 4096) (rm_curpos s + len)); simpl; try lia.
Qed.

End vm_clients.

(** ** Concrete runs *)

Definition brk_with (e : frames) (tabs : gmap Z (gmap Z Z)) (bend : Z) : brk_st (F := frames) (K := supply) :=
  Brk 0x1000 bend 0x100000 16 (vm_with e tabs).

Lemma brk_grow_correct_witness :
  match brk 0x3800 (brk_with boot_state tabs0 0x1800) with
  | Ok (r, s') => r = 0x1800 \/ r = 0x3800
  | Stop e => e = Panic
  end.
Proof.
  pose proof (brk_grow_correct (brk_with boot_state tabs0 0x1800) 0x3800 ∅ {[ 50; 60 ]}) as H.
  specialize (H ltac:(by apply dir16_ok) ltac:(apply vm_with_ok; [apply boot_held|apply tabs0_dom])
    ltac:(simpl; lia) ltac:(simpl; lia) ltac:(simpl; lia) ltac:(simpl; lia) ltac:(simpl; lia)).
  destruct (brk 0x3800 _) as [[r s']|[]]; [|reflexivity|destruct H|destruct H].
  destruct H as [[-> _]|[-> _]]; [left|right]; reflexivity.
Defined.

(** A directory whose table 0 (the table at 60) maps page 2 to frame [f]. *)
Definition vm_low (e : frames) (f : Z) : @vm frames supply :=
  Vm e supply0 {[ 50 := ∅; 60 := {[ 2 := f * 4096 + 7 ]} ]}
    {[ 16 := PDir ∅ {[ 0 := 60; 1023 := 50 ]} 0 ]} 16 ∅.

Lemma vm_low_ok e f : buddy_held e {[ f ]} ->
  dir_ok (vm_low e f) 16 /\ vm_ok (vm_low e f) {[ f ]} {[ 50; 60 ]} /\ pte (vm_low e f) 16 2 = f * 4096 + 7.
Proof.
  intros He. split_and!.
  - assert (Ht : forall i t, ({[ 0 := 60; 1023 := 50 ]} : gmap Z Z) !! i = Some t ->
                 i = 0 /\ t = 60 \/ i = 1023 /\ t = 50).
    { intros i t E. apply lookup_insert_Some in E as [[<- <-]|[_ E]]; [by left|].
      apply lookup_singleton_Some in E as [<- <-]. by right. }
    eexists. split; [reflexivity|]. cbn [pd_tables]. split.
    + intros i t [[_ ->]|[_ ->]]%Ht; vm_compute; eauto.
    + intros i j t [[-> ->]|[-> ->]]%Ht [[-> E]|[-> E]]%Ht; done.
  - split; [done|]. split; [apply supply0_inv|]. intros t [x Hx]. simpl in Hx.
    apply lookup_insert_Some in Hx as [[<- _]|[_ Hx]]; [set_solver|].
    apply lookup_singleton_Some in Hx as [<- _]. set_solver.
  - reflexivity.
Qed.

Lemma brk_shrink_frees_live_page_witness :
  exists e f s', buddy_held e {[ f ]} /\
    brk 0x2800 (Brk 0x2000 0x2900 0x100000 16 (vm_low e f)) = Ok (0x2800, s') /\
    pte (bk_vm s') 16 2 = 0.
Proof.
  destruct boot_frame as (f & e & Hf & He). destruct (vm_low_ok e f He) as (Hd & Hv & Hp).
  destruct (brk_shrink_frees_live_page (Brk 0x2000 0x2900 0x100000 16 (vm_low e f)) 0x2800 {[ f ]} {[ 50; 60 ]} f)
    as (s' & E & _ & Hz & _).
  - exact Hd.
  - exact Hv.
  - vm_compute. split; discriminate.
  - vm_compute. reflexivity.
  - vm_compute. reflexivity.
  - vm_compute. reflexivity.
  - vm_compute. discriminate.
  - vm_compute. reflexivity.
  - exact Hp.
  - set_solver.
  - exact Hf.
  - exists e, f, s'. split_and!; [exact He|exact E|exact Hz].
Defined.

(** A kernel directory with every table of the remap area. *)
Definition remap_tables : gmap Z Z := list_to_map ((fun i => (i, 2000 + i)) <$> seqZ 960 64).
Definition remap_tabs : gmap Z (gmap Z Z) := list_to_map ((fun i => (2000 + i, ∅)) <$> seqZ 960 64).
Definition remap_T : gset Z := list_to_set ((fun i => 2000 + i) <$> seqZ 960 64).
Definition vm_kernel : @vm frames supply :=
  Vm boot_state [] remap_tabs {[ 16 := PDir ∅ remap_tables 0 ]} 16 ∅.

Lemma remap_tables_at i t : remap_tables !! i = Some t <-> 960 <= i < 1024 /\ t = 2000 + i.
Proof.
  unfold remap_tables. rewrite <- elem_of_list_to_map.
  - rewrite list_elem_of_fmap. split.
    + intros (j & [= -> ->] & Hj%elem_of_seqZ). lia.
    + intros [Hi ->]. exists i. split; [done|]. apply elem_of_seqZ. lia.
  - rewrite <- list_fmap_compose. apply NoDup_fmap_2; [intros ? ? ?; done|apply NoDup_seqZ].
Qed.

Lemma remap_tabs_at t : is_Some (remap_tabs !! t) <-> 2960 <= t < 3024.
Proof.
  unfold remap_tabs. split.
  - intros [x Hx]. apply elem_of_list_to_map_2, list_elem_of_fmap in Hx as (i & [= -> _] & Hi%elem_of_seqZ). lia.
  - intros Ht. exists ∅. apply elem_of_list_to_map.
    + rewrite <- list_fmap_compose. apply NoDup_fmap_2; [intros ? ? ?; simpl in *; lia|apply NoDup_seqZ].
    + apply list_elem_of_fmap. exists (t - 2000). split; [f_equal; lia|]. apply elem_of_seqZ. lia.
Qed.

Lemma vm_kernel_ok : dir_ok vm_kernel 16 /\ vm_ok vm_kernel ∅ remap_T.
Proof.
  split.
  - exists (PDir ∅ remap_tables 0). split; [reflexivity|]. cbn [pd_tables]. split.
    + intros i t [Hi ->]%remap_tables_at. apply remap_tabs_at. lia.
    + intros i j t [Hi ->]%remap_tables_at [Hj E]%remap_tables_at. lia.
  - split; [apply boot_held|]. split; [split; [constructor|constructor]|].
    intros t Ht%remap_tabs_at. unfold remap_T. apply elem_of_list_to_set, list_elem_of_fmap.
    exists (t - 2000). split; [lia|]. apply elem_of_seqZ. lia.
Qed.

Lemma remap_correct_witness :
  exists s', remap 16 0xFEBF1010 0x100 false (remap_boot vm_kernel) = Ok (Some HEAP_END, s') /\
    rm_curpos s' = HEAP_END + 4096.
Proof.
  destruct vm_kernel_ok as [Hd Hv].
  destruct (remap_correct 16 (remap_boot vm_kernel) 0xFEBF1010 0x100 ∅ remap_T) as (s' & E & Hc & _).
  - exact Hd.
  - exact Hv.
  - simpl. lia.
  - reflexivity.
  - vm_compute. reflexivity.
  - vm_compute. discriminate.
  - lia.
  - vm_compute. discriminate.
  - lia.
  - lia.
  - intros j Hj. change (Z.shiftr HEAP_END 12) with 0xF0000 in Hj. unfold page_of. cbn [remap_boot rm_vm vm_dirs vm_kernel].
    rewrite lookup_singleton_eq. cbn [mbind option_bind pd_tables vm_tables].
    assert (Hi : remap_tables !! Z.shiftr j 10 = Some (2000 + Z.shiftr j 10)).
    { apply remap_tables_at. split; [|done]. rewrite shiftr_div by lia. change (2 ^ 10) with 1024.
      split; [apply Z.div_le_lower_bound; lia|apply Z.div_lt_upper_bound; lia]. }
    rewrite Hi. cbn [mbind option_bind].
    destruct (proj2 (remap_tabs_at (2000 + Z.shiftr j 10))) as [x Hx].
    { apply remap_tables_at in Hi as [? _]. lia. }
    intros En. change (vm_tables vm_kernel) with remap_tabs in En. rewrite Hx in En. discriminate.
  - exists s'. split; [exact E|exact Hc].
Defined.
