(* ===== verification/UserPtr.v ===== *)
(** * Pointers passed by user programs (kernel/include/lib/userptr.h)

    [user_ptr<T>] wraps an address that a system call received.  The checks
    look the page up in the current directory; [page_entry] gives the entry of
    a page number there, nothing when it has no table ([page_dir::get_page]).
    The copies run on the byte memory of the string primitives. *)

From S2P Require Import Prelude MemLayout StringLib PageDir PageDirSpec.
From stdpp Require Import gmap list.
#[local] Open Scope Z_scope.

Definition e_rw (v : Z) : bool := Z.testbit v 1.
Definition e_user (v : Z) : bool := Z.testbit v 2.

(** The pointer itself: comparisons, stepping, conversion to bool. *)
Definition up_eqb (p q : Z) : bool := p =? q.
Definition up_ltb (p q : Z) : bool := p <? q.
Definition up_leb (p q : Z) : bool := p <=? q.
Definition up_inc (sizeofT p : Z) : Z := u32 (p + sizeofT).
Definition up_dec (sizeofT p : Z) : Z := u32 (p - sizeofT).
Definition up_bool (p : Z) : bool := negb (p =? 0).
Definition get_raw (p : Z) : Z := p.

Section user_ptr.
Variable page_entry : Z -> option Z.

Definition check_ptr (ptr : Z) (write : bool) : bool :=
  match page_entry (Z.shiftr ptr 12) with
  | None => false
  | Some v => e_present v && e_user v && (negb write || e_rw v)
  end.

(** The two overloads of [get()]; 0 is the null pointer. *)
Definition up_get_const (p : Z) : Z := if check_ptr p false then p else 0.
Definition up_get (p : Z) : Z := if check_ptr p true then p else 0.

(** for (loc = start; loc < endloc; loc += PAGE_SIZE); an address space has
    2^20 pages, the fuel; [loc] wraps at 32 bits. *)
Fixpoint check_loop (fuel : nat) (loc endloc : Z) (write : bool) : outcome bool :=
  if loc <? endloc then
    match fuel with
    | O => Stop Fuel
    | S k => if check_ptr loc write then check_loop k (u32 (loc + 4096)) endloc write else Ok false
    end
  else Ok true.

Definition check_region (fuel : nat) (start end_ : Z) (write : bool) : outcome bool :=
  check_loop fuel start (align_addr end_) write.

(** [copy_from] and [copy_to] fall off their end after the copy: no value is
    returned there ([None]). *)
Definition up_copy (fuel : nat) (ptr : Z) (write : bool) (dest src n : Z) : M mach (option bool) :=
  if n =? 0 then ret (Some true)
  else
    match check_region fuel ptr (u32 (ptr + n)) write with
    | Stop e => halt e
    | Ok false => ret (Some false)
    | Ok true =>
      (if negb (Z.land n 3 =? 0) then memcpyd dest src (n / 4) else memcpy dest src n);;; ret None
    end.
Definition copy_from (fuel : nat) (ptr src n : Z) : M mach (option bool) := up_copy fuel ptr true ptr src n.
Definition copy_to (fuel : nat) (ptr dest n : Z) : M mach (option bool) := up_copy fuel ptr false dest ptr n.

(** ** What the check means *)

Definition page_accessible (write : bool) (i : Z) : Prop :=
  exists v, page_entry i = Some v /\ e_present v = true /\ e_user v = true /\ (write = true -> e_rw v = true).

Lemma check_ptr_iff p write : check_ptr p write = true <-> page_accessible write (Z.shiftr p 12).
Proof.
  unfold check_ptr, page_accessible. destruct (page_entry (Z.shiftr p 12)) as [v|].
  - rewrite !andb_true_iff, orb_true_iff, negb_true_iff. split.
    + intros [[? ?] ?]. exists v. split_and!; try done. intros ->. naive_solver.
    + intros (? & [= <-] & ? & ? & Hw). split_and!; try done. destruct write; [right; auto|by left].
  - split; [done|]. by intros (? & ? & _).
Qed.

Lemma page_step loc : 0 <= loc -> Z.shiftr (loc + 4096) 12 = Z.shiftr loc 12 + 1.
Proof.
  intros. rewrite !shiftr_div by lia. change (2 ^ 12) with 4096.
  replace (loc + 4096) with (loc + 1 * 4096) by lia. by rewrite Z.div_add.
Qed.

Lemma check_loop_spec (n : nat) fuel loc endloc write :
  0 <= loc -> endloc <= 2 ^ 32 - 4096 -> endloc mod 4096 = 0 -> 0 <= endloc ->
  Z.of_nat n = Z.max 0 (endloc / 4096 - Z.shiftr loc 12) -> (n <= fuel)%nat ->
  exists b, check_loop fuel loc endloc write = Ok b /\
    (b = true <-> forall i, Z.shiftr loc 12 <= i < endloc / 4096 -> page_accessible write i).
Proof.
  revert fuel loc. induction n as [|n IH]; intros fuel loc Hl He Hm He0 Hn Hf.
  - assert (Hge : endloc <= loc).
    { rewrite shiftr_div in Hn by lia. change (2 ^ 12) with 4096 in Hn.
      pose proof (Z.div_mod loc 4096). pose proof (Z.mod_pos_bound loc 4096). pose proof (Z.div_mod endloc 4096). lia. }
    exists true. split; [|split; [intros _ i Hi; lia|done]].
    destruct fuel; cbn [check_loop]; by destruct (Z.ltb_spec loc endloc); [lia|].
  - assert (Hlt : loc < endloc).
    { rewrite shiftr_div in Hn by lia. change (2 ^ 12) with 4096 in Hn.
      pose proof (Z.div_mod loc 4096). pose proof (Z.mod_pos_bound loc 4096). pose proof (Z.div_mod endloc 4096). lia. }
    destruct fuel as [|fuel]; [lia|]. cbn [check_loop]. destruct (Z.ltb_spec loc endloc); [|lia].
    destruct (check_ptr loc write) eqn:Ec.
    + rewrite u32_small by lia. destruct (IH fuel (loc + 4096)) as (b & E & Hb); try lia.
      { rewrite page_step by lia. lia. }
      exists b. split; [done|]. rewrite Hb, page_step by lia. apply check_ptr_iff in Ec. split.
      * intros Hall i Hi. destruct (decide (i = Z.shiftr loc 12)) as [->|]; [done|]. apply Hall. lia.
      * intros Hall i Hi. apply Hall. lia.
    + exists false. split; [done|]. split; [done|]. intros Hall. exfalso.
      assert (Ht : check_ptr loc write = true) by (apply check_ptr_iff, Hall; lia). congruence.
Qed.

Lemma check_region_spec start end_ write :
  0 <= start < end_ -> end_ <= 2 ^ 32 - 4096 ->
  exists b, check_region (Z.to_nat (2 ^ 20)) start end_ write = Ok b /\
    (b = true <-> forall a, start <= a < end_ -> page_accessible write (Z.shiftr a 12)).
Proof.
  intros Hs He. unfold check_region. destruct (align_addr_spec end_) as (A1 & A2 & A3); [lia|].
  assert (Hq : align_addr end_ = align_addr end_ / 4096 * 4096) by (pose proof (Z.div_mod (align_addr end_) 4096); lia).
  assert (Hs0 : 0 <= Z.shiftr start 12) by (apply Z.shiftr_nonneg; lia).
  destruct (check_loop_spec (Z.to_nat (Z.max 0 (align_addr end_ / 4096 - Z.shiftr start 12)))
              (Z.to_nat (2 ^ 20)) start (align_addr end_) write) as (b & E & Hb); try lia.
  exists b. split; [done|]. rewrite Hb. split; intros Hall.
  - intros a Ha. apply Hall. rewrite !shiftr_div by lia. change (2 ^ 12) with 4096. split.
    + apply Z.div_le_mono; lia.
    + apply Z.div_lt_upper_bound; lia.
  - intros i Hi. rewrite shiftr_div in Hi, Hs0 by lia. change (2 ^ 12) with 4096 in *.
    pose proof (Z.div_mod start 4096). pose proof (Z.mod_pos_bound start 4096).
    replace i with (Z.shiftr (Z.max start (i * 4096)) 12).
    + apply Hall. lia.
    + rewrite shiftr_div by lia. change (2 ^ 12) with 4096. symmetry.
      apply (Z.div_unique _ _ _ (Z.max start (i * 4096) - i * 4096)); lia.
Qed.


(** a region that ends in the last page of the address space passes the
    check whatever the page directory says: the rounded-up end wraps to 0. *)
Theorem check_region_wraps start end_ write :
  0 <= start -> 2 ^ 32 - 4096 < end_ < 2 ^ 32 ->
  check_region (Z.to_nat (2 ^ 20)) start end_ write = Ok true.
Proof.
  intros Hs He. unfold check_region. assert (align_addr end_ = 0) as ->.
  { unfold align_addr. change 0xFFFFF000 with (2 ^ 32 - 2 ^ 12). change 0xFFF with (2 ^ 12 - 1).
    rewrite land_low, land_high by lia. change (2 ^ 12) with 4096.
    assert (Hm : end_ mod 4096 = end_ - (2 ^ 32 - 4096)).
    { symmetry. apply (Z.mod_unique _ _ (2 ^ 20 - 1)); lia. }
    rewrite Hm. destruct (Z.eqb_spec (end_ - (2 ^ 32 - 4096)) 0); [lia|].
    replace (end_ - (end_ - (2 ^ 32 - 4096)) + 4096) with (2 ^ 32) by lia. reflexivity. }
  destruct (Z.to_nat (2 ^ 20)) as [|k]; cbn [check_loop]; destruct (Z.ltb_spec start 0); done || lia.
Qed.

(** a copy of a byte count that is not a multiple of four copies only the
    whole words: the last [n mod 4] bytes of the destination keep their old
    contents; and neither a full nor a short copy returns a value. *)
Theorem copy_to_drops_tail s ptr dest n :
  0 < n -> n mod 4 <> 0 -> 0 <= ptr -> ptr + n <= 2 ^ 32 - 4096 -> 0 <= dest -> dest + n <= 2 ^ 32 ->
  dest + n <= ptr \/ ptr + n <= dest ->
  mapped (m_mem s) ptr n -> mapped (m_mem s) dest n ->
  (forall a, ptr <= a < ptr + n -> page_accessible false (Z.shiftr a 12)) ->
  exists s', copy_to (Z.to_nat (2 ^ 20)) ptr dest n s = Ok (None, s') /\
    (forall k, dest <= k < dest + n / 4 * 4 -> m_mem s' !! k = m_mem s !! (ptr + (k - dest))) /\
    (forall k, dest + n / 4 * 4 <= k < dest + n -> m_mem s' !! k = m_mem s !! k).
Proof.
  intros Hn Hm4 Hp Hpn Hd Hdn Hov Hms Hmd Hacc. unfold copy_to, up_copy.
  destruct (Z.eqb_spec n 0); [lia|]. rewrite (u32_small (ptr + n)) by lia.
  assert (E : check_region (Z.to_nat (2 ^ 20)) ptr (ptr + n) false = Ok true).
  { destruct (check_region_spec ptr (ptr + n) false) as (b & E & Hb); [lia|lia|].
    rewrite E. f_equal. by apply Hb. }
  rewrite E. change 3 with (2 ^ 2 - 1). rewrite land_low by lia. change (2 ^ 2) with 4.
  destruct (Z.eqb_spec (n mod 4) 0); [lia|]. cbn [negb]. unfold memcpyd, set_df. mgo.
  pose proof (Z.div_mod n 4). pose proof (Z.mod_pos_bound n 4).
  assert (Hw : Z.of_nat (Z.to_nat (n / 4) * 4) = n / 4 * 4) by (pose proof (Z.div_pos n 4); lia).
  destruct (rep_movs_up 4 (Z.to_nat (n / 4)) (Mach (m_mem s) false) dest ptr) as (m' & E' & Hc);
    try done; try lia; rewrite ?Hw; try lia; try (apply (mapped_sub _ ptr n); [exact Hms|lia|lia]);
    try (apply (mapped_sub _ dest n); [exact Hmd|lia|lia]).
  mrun E'. eexists. split; [done|]. cbn [m_mem with_mem]. rewrite Hw in Hc. cbn [m_mem] in Hc.
  split; intros k Hk; rewrite Hc; zcases; try done; lia.
Qed.
End user_ptr.

(** ** Concrete checks *)

Definition entry_user (i : Z) : option Z := if i =? 1 then Some 0x5007 else None.


Lemma check_region_wraps_witness :
  check_region entry_user (Z.to_nat (2 ^ 20)) 0xC0000000 0xFFFFFFFF true = Ok true /\
  entry_user (Z.shiftr 0xC0000000 12) = None.
Proof. split; [apply (check_region_wraps entry_user 0xC0000000 0xFFFFFFFF true); lia|reflexivity]. Defined.

Definition mem_copy : mach := Mach (list_to_map ((fun i => (Z.of_nat i, 7)) <$> seq 0x1800 32)) false.

Lemma mem_copy_mapped a : 0x1800 <= a -> a + 7 <= 0x1820 -> mapped (m_mem mem_copy) a 7.
Proof.
  intros Ha Hb i Hi. exists 7. unfold mem_copy. cbn [m_mem]. apply elem_of_list_to_map.
  - rewrite <- list_fmap_compose. apply NoDup_fmap_2; [intros ? ? ?; simpl in *; lia|apply NoDup_seq].
  - apply list_elem_of_fmap. exists (Z.to_nat (a + i)). split; [f_equal; lia|]. apply elem_of_seq. lia.
Qed.

Lemma copy_to_drops_tail_witness :
  exists s', copy_to entry_user (Z.to_nat (2 ^ 20)) 0x1800 0x1810 7 mem_copy = Ok (None, s').
Proof.
  destruct (copy_to_drops_tail entry_user mem_copy 0x1800 0x1810 7) as (s' & E & _).
  - lia.
  - vm_compute. discriminate.
  - lia.
  - lia.
  - lia.
  - lia.
  - lia.
  - apply mem_copy_mapped; lia.
  - apply mem_copy_mapped; lia.
  - intros a Ha. exists 0x5007. split; [|done]. unfold entry_user. rewrite shiftr_div by lia.
    replace (a / 2 ^ 12) with 1 by (apply (Z.div_unique _ _ _ (a - 4096)); lia). reflexivity.
  - exists s'. exact E.
Defined.
