(* ===== verification/RbTree.v ===== *)
(** * The red-black tree container (include/lib/rbtree.h)

    Nodes are kept by address; leaves and the root's parent are the sentinel
    node [nil], whose parent pointer the deletion writes to.  The macros that
    expand to the two mirror images of a rotation or of a fix-up step are
    definitions with a direction argument.  The address of a new node is an
    argument of the operations that allocate; a fuel of the number of nodes
    bounds every loop, since each follows a path of the tree.  The scheduler's
    run queues and the process list are such trees. *)

From S2P Require Import Prelude.
From stdpp Require Import gmap list.
#[local] Open Scope Z_scope.

Inductive color : Type := Red | Black.
Inductive dir : Type := L | R.
#[export] Instance color_eq_dec : EqDecision color.
Proof. solve_decision. Defined.
#[export] Instance dir_eq_dec : EqDecision dir.
Proof. solve_decision. Defined.

Definition opp (d : dir) : dir := match d with L => R | R => L end.
Definition is_red (c : color) : bool := match c with Red => true | Black => false end.

Section rbtree.
Context {T : Type}.
(** [operator<] and [operator==] of the keys *)
Variable ltb eqb : T -> T -> bool.

Record rbnode : Type := RNode { rn_key : T; rn_color : color; rn_l : Z; rn_r : Z; rn_p : Z }.

Record rb : Type := Rb { rb_nodes : gmap Z rbnode; rb_nil : Z; rb_root : Z; rb_sz : Z }.

Definition child (d : dir) (n : rbnode) : Z := match d with L => rn_l n | R => rn_r n end.
Definition with_child (d : dir) (c : Z) (n : rbnode) : rbnode :=
  match d with
  | L => RNode (rn_key n) (rn_color n) c (rn_r n) (rn_p n)
  | R => RNode (rn_key n) (rn_color n) (rn_l n) c (rn_p n)
  end.
Definition with_color (c : color) (n : rbnode) : rbnode := RNode (rn_key n) c (rn_l n) (rn_r n) (rn_p n).
Definition with_parent (p : Z) (n : rbnode) : rbnode := RNode (rn_key n) (rn_color n) (rn_l n) (rn_r n) p.

(** ** Field accesses *)

Definition node_at (x : Z) : M rb rbnode := s <-- get;; deref (rb_nodes s !! x).
Definition upd_node (x : Z) (f : rbnode -> rbnode) : M rb unit :=
  n <-- node_at x;;
  modify (fun s => Rb (<[x := f n]> (rb_nodes s)) (rb_nil s) (rb_root s) (rb_sz s)).
Definition set_root (x : Z) : M rb unit :=
  modify (fun s => Rb (rb_nodes s) (rb_nil s) x (rb_sz s)).
Definition get_nil : M rb Z := s <-- get;; ret (rb_nil s).
Definition get_root : M rb Z := s <-- get;; ret (rb_root s).
Definition add_sz (d : Z) : M rb unit :=
  modify (fun s => Rb (rb_nodes s) (rb_nil s) (rb_root s) (u32 (rb_sz s + d))).
Definition get_child (d : dir) (x : Z) : M rb Z := n <-- node_at x;; ret (child d n).
Definition get_p (x : Z) : M rb Z := n <-- node_at x;; ret (rn_p n).
Definition get_color (x : Z) : M rb color := n <-- node_at x;; ret (rn_color n).
Definition get_key (x : Z) : M rb T := n <-- node_at x;; ret (rn_key n).
Definition set_child (d : dir) (x c : Z) : M rb unit := upd_node x (with_child d c).
Definition set_color (x : Z) (c : color) : M rb unit := upd_node x (with_color c).
Definition set_p (x p : Z) : M rb unit := upd_node x (with_parent p).

Definition tree_fuel : M rb nat := s <-- get;; ret (S (size (rb_nodes s))).

(** ** Walking *)

(** [node::min] (direction [L]) and [node::max] (direction [R]) *)
Fixpoint extreme_loop (fuel : nat) (d : dir) (x y : Z) : M rb Z :=
  match fuel with
  | O => halt Fuel
  | S k =>
    nil <-- get_nil;;
    if x =? nil then ret y else z <-- get_child d x;; extreme_loop k d z x
  end.
Definition extreme (d : dir) (x : Z) : M rb Z :=
  f <-- tree_fuel;; nil <-- get_nil;; extreme_loop f d x nil.
Definition node_min : Z -> M rb Z := extreme L.
Definition node_max : Z -> M rb Z := extreme R.

(** while (y != nil && x == y->r) (direction [R] for [succ], [L] for [pred]) *)
Fixpoint climb_loop (fuel : nat) (d : dir) (x y : Z) : M rb Z :=
  match fuel with
  | O => halt Fuel
  | S k =>
    nil <-- get_nil;;
    if y =? nil then ret y
    else c <-- get_child d y;;
         if x =? c then y' <-- get_p y;; climb_loop k d y y' else ret y
  end.
Definition neighbour (d : dir) (x : Z) : M rb Z :=
  nil <-- get_nil;;
  if x =? nil then ret nil
  else
    c <-- get_child d x;;
    if negb (c =? nil) then extreme (opp d) c
    else f <-- tree_fuel;; y <-- get_p x;; climb_loop f d x y.
Definition node_succ : Z -> M rb Z := neighbour R.
Definition node_pred : Z -> M rb Z := neighbour L.

(** The descent of [lower_bound] and [upper_bound]. *)
Fixpoint bound_loop (fuel : nat) (x y : Z) (k : T) : M rb (Z * Z) :=
  match fuel with
  | O => halt Fuel
  | S f =>
    nil <-- get_nil;;
    if x =? nil then ret (x, y)
    else xk <-- get_key x;;
         if eqb xk k then ret (x, y)
         else x' <-- get_child (if ltb k xk then L else R) x;; bound_loop f x' x k
  end.
Definition node_lower_bound (x : Z) (k : T) : M rb Z :=
  f <-- tree_fuel;; nil <-- get_nil;;
  xy <-- bound_loop f x nil k;;
  ret (if xy.1 =? nil then xy.2 else xy.1).
Definition node_upper_bound (x : Z) (k : T) : M rb Z :=
  f <-- tree_fuel;; nil <-- get_nil;;
  xy <-- bound_loop f x nil k;;
  if xy.1 =? nil then ret xy.2 else node_succ xy.1.

(** [find]: while (x != nil && x->key != k) x = x->key < k ? x->r : x->l.
    The template compares a key with any type: [hit] and [less] are the
    comparisons with the searched one. *)
Fixpoint rb_find_loop (hit less : T -> bool) (fuel : nat) (x : Z) : M rb Z :=
  match fuel with
  | O => halt Fuel
  | S f =>
    nil <-- get_nil;;
    if x =? nil then ret x
    else xk <-- get_key x;;
         if hit xk then ret x
         else x' <-- get_child (if less xk then R else L) x;; rb_find_loop hit less f x'
  end.
Definition rb_find_by (hit less : T -> bool) : M rb Z :=
  f <-- tree_fuel;; x <-- get_root;; rb_find_loop hit less f x.
Definition rb_find (k : T) : M rb Z := rb_find_by (fun x => eqb x k) (fun x => ltb x k).
Definition rb_contains (k : T) : M rb bool := x <-- rb_find k;; nil <-- get_nil;; ret (negb (x =? nil)).
Definition rb_begin : M rb Z := x <-- get_root;; node_min x.
Definition rb_end : M rb Z := get_nil.
Definition rb_min : M rb Z := x <-- get_root;; node_min x.
Definition rb_max : M rb Z := x <-- get_root;; node_max x.
Definition rb_lower_bound (k : T) : M rb Z := x <-- get_root;; node_lower_bound x k.
Definition rb_upper_bound (k : T) : M rb Z := x <-- get_root;; node_upper_bound x k.

(** ** Rotations

    [_l_rotate] is [rb_rotate L], [_r_rotate] is [rb_rotate R]. *)
Definition rb_rotate (a : dir) (x : Z) : M rb unit :=
  let b := opp a in
  nil <-- get_nil;;
  y <-- get_child b x;;
  ya <-- get_child a y;;
  set_child b x ya;;;
  (if negb (ya =? nil) then set_p ya x else ret tt);;;
  xp <-- get_p x;;
  set_p y xp;;;
  (if xp =? nil then set_root y
   else xpl <-- get_child L xp;;
        if x =? xpl then set_child L xp y else set_child R xp y);;;
  set_child a y x;;;
  set_p x y.

(** ** Insertion *)

(** One round for a parent on side [b] of the grandparent; the macro's [a] is
    the uncle's side. *)
Definition insert_fix_dir (a : dir) (z : Z) : M rb Z :=
  let b := opp a in
  zp <-- get_p z;;
  zpp <-- get_p zp;;
  y <-- get_child a zpp;;
  yc <-- get_color y;;
  if is_red yc then
    set_color zp Black;;; set_color y Black;;; set_color zpp Red;;;
    ret z
  else
    zpa <-- get_child a zp;;
    z <-- (if z =? zpa then rb_rotate b zp;;; ret zp else ret z);;
    zp <-- get_p z;;
    set_color zp Black;;;
    zpp <-- get_p zp;;
    set_color zpp Red;;;
    rb_rotate a zpp;;;
    ret z.

(** while (z->p->color == RED) *)
Fixpoint insert_fixup (fuel : nat) (z : Z) : M rb unit :=
  match fuel with
  | O => halt Fuel
  | S k =>
    zp <-- get_p z;;
    c <-- get_color zp;;
    if is_red c then
      zpp <-- get_p zp;;
      zppl <-- get_child L zpp;;
      z <-- (if zp =? zppl then insert_fix_dir R z else insert_fix_dir L z);;
      insert_fixup k z
    else root <-- get_root;; set_color root Black
  end.

(** The descent of [insert]: the node with key [k], or the parent to be. *)
Fixpoint insert_loop (fuel : nat) (x y : Z) (k : T) : M rb (Z + Z) :=
  match fuel with
  | O => halt Fuel
  | S f =>
    nil <-- get_nil;;
    if x =? nil then ret (inr y)
    else xk <-- get_key x;;
         if eqb k xk then ret (inl x)
         else x' <-- get_child (if ltb k xk then L else R) x;; insert_loop f x' x k
  end.

(** [insert(k)]; [a] is the address of the node that is allocated first, and
    is lost when the key is there already. *)
Definition rb_insert (a : Z) (k : T) : M rb Z :=
  nil <-- get_nil;;
  modify (fun s => Rb (<[a := RNode k Red nil nil 0]> (rb_nodes s)) (rb_nil s) (rb_root s) (rb_sz s));;;
  f <-- tree_fuel;;
  x <-- get_root;;
  r <-- insert_loop f x nil k;;
  match r with
  | inl x => ret x
  | inr y =>
    set_p a y;;;
    (if y =? nil then set_root a
     else yk <-- get_key y;; if ltb k yk then set_child L y a else set_child R y a);;;
    insert_fixup f a;;;
    add_sz 1;;;
    ret a
  end.

(** ** Deletion *)

Definition transplant (u v : Z) : M rb unit :=
  nil <-- get_nil;;
  up <-- get_p u;;
  (if up =? nil then set_root v
   else upl <-- get_child L up;;
        if u =? upl then set_child L up v else set_child R up v);;;
  up <-- get_p u;;
  set_p v up.

(** One round for a node on side [b]; the macro's [a] is its sibling's side. *)
Definition remove_fix_dir (a : dir) (x : Z) : M rb Z :=
  let b := opp a in
  xp <-- get_p x;;
  w <-- get_child a xp;;
  wc <-- get_color w;;
  w <-- (if is_red wc then
           set_color w Black;;; set_color xp Red;;; rb_rotate b xp;;;
           xp <-- get_p x;; get_child a xp
         else ret w);;
  wl <-- get_child L w;; wlc <-- get_color wl;;
  wr <-- get_child R w;; wrc <-- get_color wr;;
  if negb (is_red wlc) && negb (is_red wrc) then
    set_color w Red;;; get_p x
  else
    wa <-- get_child a w;; wac <-- get_color wa;;
    w <-- (if negb (is_red wac) then
             wb <-- get_child b w;; set_color wb Black;;; set_color w Red;;; rb_rotate a w;;;
             xp <-- get_p x;; get_child a xp
           else ret w);;
    xp <-- get_p x;; xpc <-- get_color xp;;
    set_color w xpc;;;
    set_color xp Black;;;
    wa <-- get_child a w;; set_color wa Black;;;
    rb_rotate b xp;;;
    get_root.

(** while (x != root && x->color == BLACK) *)
Fixpoint remove_fixup (fuel : nat) (x : Z) : M rb unit :=
  match fuel with
  | O => halt Fuel
  | S k =>
    root <-- get_root;;
    c <-- get_color x;;
    if negb (x =? root) && negb (is_red c) then
      xp <-- get_p x;;
      xpl <-- get_child L xp;;
      x <-- (if x =? xpl then remove_fix_dir R x else remove_fix_dir L x);;
      remove_fixup k x
    else set_color x Black
  end.

Definition delete_node (x : Z) : M rb unit :=
  modify (fun s => Rb (delete x (rb_nodes s)) (rb_nil s) (rb_root s) (rb_sz s)).

Definition rb_erase (z : Z) : M rb unit :=
  nil <-- get_nil;;
  if (z =? nil) || (z =? 0) then ret tt
  else
    zl <-- get_child L z;; zr <-- get_child R z;; zc <-- get_color z;;
    xc <-- (if zl =? nil then transplant z zr;;; ret (zr, zc)
            else if zr =? nil then transplant z zl;;; ret (zl, zc)
            else
              y <-- node_min zr;;
              yc <-- get_color y;;
              x <-- get_child R y;;
              yp <-- get_p y;;
              (if yp =? z then set_p x y
               else
                 yr <-- get_child R y;; transplant y yr;;;
                 zr <-- get_child R z;; set_child R y zr;;;
                 yr <-- get_child R y;; set_p yr y);;;
              transplant z y;;;
              zl <-- get_child L z;; set_child L y zl;;;
              yl <-- get_child L y;; set_p yl y;;;
              zc <-- get_color z;; set_color y zc;;;
              ret (x, yc));;
    f <-- tree_fuel;;
    (if negb (is_red xc.2) then remove_fixup f xc.1 else ret tt);;;
    delete_node z;;;
    add_sz (-1).

(** ** Construction and destruction

    [sz] is not initialised by the constructor: [junk_sz]. *)
Definition rb_new (nil : Z) (k : T) (junk_sz : Z) : rb :=
  Rb {[ nil := RNode k Black nil nil nil ]} nil nil junk_sz.

(** [~node]: the children first *)
Fixpoint delete_tree (fuel : nat) (x : Z) : M rb unit :=
  match fuel with
  | O => halt Fuel
  | S k =>
    nil <-- get_nil;;
    l <-- get_child L x;; r <-- get_child R x;;
    (if negb (l =? 0) && negb (l =? nil) then delete_tree k l else ret tt);;;
    (if negb (r =? 0) && negb (r =? nil) then delete_tree k r else ret tt);;;
    delete_node x
  end.
Definition rb_destroy : M rb unit :=
  root <-- get_root;; nil <-- get_nil;; f <-- tree_fuel;;
  if root =? 0 then ret tt
  else delete_tree f root;;; (if nil =? root then ret tt else delete_node nil).

(** ** Iterators

    A [const_iterator] is a node pointer: [++] and [--] are [node_succ] and
    [node_pred], [*] is the key, and [nil()] tests for the null pointer and
    the sentinel. *)
Definition iter_incr : Z -> M rb Z := node_succ.
Definition iter_decr : Z -> M rb Z := node_pred.
Definition iter_key : Z -> M rb T := get_key.
Definition iter_nil (n : Z) : M rb bool := nil <-- get_nil;; ret ((n =? 0) || (n =? nil)).

Definition rb_size : M rb Z := s <-- get;; ret (rb_sz s).
Definition rb_empty : M rb bool := s <-- get;; ret (rb_sz s =? 0).

End rbtree.
