(* ===== verification/RbTreeSpec.v ===== *)
(** * The red-black tree as an ordered set

    A tree of nodes, or a tree seen from one of its subtrees (a zipper), is
    represented in the node store; rotations, recolouring and insertion are
    described on it.  The order of the keys is what they preserve. *)

From S2P Require Import Prelude RbTree.
From stdpp Require Import gmap list.
#[local] Open Scope Z_scope.

Section spec.
Context {T : Type}.
Notation rbnode := (@rbnode T).
Notation rb := (@rb T).

Inductive tree : Type := Leaf | Node (c : color) (l : tree) (a : Z) (k : T) (r : tree).

(** [t] on side [d], [u] on the other. *)
Definition mkn (d : dir) (c : color) (t : tree) (a : Z) (k : T) (u : tree) : tree :=
  match d with L => Node c t a k u | R => Node c u a k t end.
Definition mkrn (d : dir) (k : T) (c : color) (x y p : Z) : rbnode :=
  match d with L => RNode k c x y p | R => RNode k c y x p end.

Variable nil : Z.

Definition ptr (t : tree) : Z := match t with Leaf => nil | Node _ _ a _ _ => a end.
Fixpoint addrs (t : tree) : list Z :=
  match t with Leaf => [] | Node _ l a _ r => a :: addrs l ++ addrs r end.
(** The nodes and their keys, in order. *)
Fixpoint elts (t : tree) : list (Z * T) :=
  match t with Leaf => [] | Node _ l a k r => elts l ++ (a, k) :: elts r end.

Fixpoint tree_at (m : gmap Z rbnode) (p : Z) (t : tree) : Prop :=
  match t with
  | Leaf => True
  | Node c l a k r =>
    m !! a = Some (RNode k c (ptr l) (ptr r) p) /\ tree_at m a l /\ tree_at m a r
  end.

(** A node above the hole, which is on side [f_d]. *)
Record frame : Type := Fr { f_d : dir; f_c : color; f_a : Z; f_k : T; f_sib : tree }.
Definition ctx : Type := list frame.

Definition plug1 (f : frame) (t : tree) : tree := mkn (f_d f) (f_c f) t (f_a f) (f_k f) (f_sib f).
Fixpoint plug (c : ctx) (t : tree) : tree :=
  match c with [] => t | f :: r => plug r (plug1 f t) end.
Definition cptr (c : ctx) : Z := match c with [] => nil | f :: _ => f_a f end.
Fixpoint caddrs (c : ctx) : list Z :=
  match c with [] => [] | f :: r => f_a f :: addrs (f_sib f) ++ caddrs r end.

Fixpoint ctx_at (m : gmap Z rbnode) (x : Z) (c : ctx) : Prop :=
  match c with
  | [] => True
  | f :: r => m !! f_a f = Some (mkrn (f_d f) (f_k f) (f_c f) x (ptr (f_sib f)) (cptr r)) /\
              tree_at m (f_a f) (f_sib f) /\ ctx_at m (f_a f) r
  end.
Fixpoint croot (x : Z) (c : ctx) : Z := match c with [] => x | f :: r => croot (f_a f) r end.

(** The store holds the zipper: [t] in the context [c]. *)
Record rep (s : rb) (c : ctx) (t : tree) : Prop := {
  r_nil : rb_nil s = nil;
  r_root : rb_root s = croot (ptr t) c;
  r_tree : tree_at (rb_nodes s) (cptr c) t;
  r_ctx : ctx_at (rb_nodes s) (ptr t) c;
  r_nodup : NoDup (nil :: addrs t ++ caddrs c);
  r_sent : exists n, rb_nodes s !! nil = Some n /\ rn_color n = Black
}.

(** ** Frame lemmas *)

Lemma tree_at_ext m m' p t :
  (forall a, a ∈ addrs t -> m' !! a = m !! a) -> tree_at m p t -> tree_at m' p t.
Proof.
  revert p. induction t as [|c l IHl a k r IHr]; intros p He; [done|]. cbn [tree_at addrs] in *.
  intros (E & Hl & Hr). split_and!.
  - rewrite He; [done|]. apply elem_of_cons. by left.
  - apply IHl; [|done]. intros b Hb. apply He, elem_of_cons. right. apply elem_of_app. by left.
  - apply IHr; [|done]. intros b Hb. apply He, elem_of_cons. right. apply elem_of_app. by right.
Qed.

Lemma ctx_at_ext m m' x c :
  (forall a, a ∈ caddrs c -> m' !! a = m !! a) -> ctx_at m x c -> ctx_at m' x c.
Proof.
  revert x. induction c as [|f c IH]; intros x He; [done|]. cbn [ctx_at caddrs] in *.
  intros (E & Ht & Hc). split_and!.
  - rewrite He; [done|]. apply elem_of_cons. by left.
  - eapply tree_at_ext; [|done]. intros b Hb. apply He, elem_of_cons. right. apply elem_of_app. by left.
  - apply IH; [|done]. intros b Hb. apply He, elem_of_cons. right. apply elem_of_app. by right.
Qed.

Lemma tree_at_dom m p t a : tree_at m p t -> a ∈ addrs t -> is_Some (m !! a).
Proof.
  revert p. induction t as [|c l IHl b k r IHr]; intros p Ht Ha; cbn [addrs tree_at] in *.
  - by apply elem_of_nil in Ha.
  - destruct Ht as (E & Hl & Hr). apply elem_of_cons in Ha as [->|Ha]; [by eexists|].
    apply elem_of_app in Ha as [Ha|Ha]; eauto.
Qed.

(** A subtree under another parent. *)
Lemma tree_at_reparent m m' p p' t :
  (forall a, a ∈ addrs t -> m' !! a = if a =? ptr t then with_parent p' <$> m !! a else m !! a) ->
  NoDup (addrs t) -> tree_at m p t -> tree_at m' p' t.
Proof.
  destruct t as [|c l a k r]; [done|]. cbn [tree_at addrs ptr]. intros He Hnd (E & Hl & Hr).
  apply NoDup_cons in Hnd as [Hna Hnd].
  assert (Hne : forall b, b ∈ addrs l ++ addrs r -> m' !! b = m !! b).
  { intros b Hb. rewrite He by (apply elem_of_cons; by right).
    destruct (Z.eqb_spec b a) as [->|]; [done|reflexivity]. }
  split_and!.
  - rewrite He by (apply elem_of_cons; by left). by rewrite Z.eqb_refl, E.
  - eapply tree_at_ext; [|exact Hl]. intros b Hb. apply Hne, elem_of_app. by left.
  - eapply tree_at_ext; [|exact Hr]. intros b Hb. apply Hne, elem_of_app. by right.
Qed.

(** ** Moving the focus *)

Lemma mkn_addrs d c t a k u : addrs (mkn d c t a k u) ≡ₚ a :: addrs t ++ addrs u.
Proof. destruct d; simpl; [done|]. by rewrite (Permutation_app_comm (addrs t)). Qed.

Lemma mkn_at m p d c t a k u :
  tree_at m p (mkn d c t a k u) <->
  m !! a = Some (mkrn d k c (ptr t) (ptr u) p) /\ tree_at m a t /\ tree_at m a u.
Proof. destruct d; simpl; naive_solver. Qed.

Lemma mkn_ptr d c t a k u : ptr (mkn d c t a k u) = a.
Proof. by destruct d. Qed.

Lemma mkn_opp d c t a k u : mkn (opp d) c t a k u = mkn d c u a k t.
Proof. by destruct d. Qed.

Lemma plug1_addrs f t c : addrs (plug1 f t) ++ caddrs c ≡ₚ addrs t ++ caddrs (f :: c).
Proof.
  unfold plug1. rewrite mkn_addrs. cbn [caddrs]. rewrite <- Permutation_middle. cbn [app].
  by rewrite <- app_assoc.
Qed.

Lemma rep_up s f c t : rep s (f :: c) t <-> rep s c (plug1 f t).
Proof.
  pose proof (plug1_addrs f t c) as HP.
  split; intros [H1 H2 H3 H4 H5 H6]; constructor; try done;
    unfold plug1 in *; rewrite ?mkn_ptr, ?mkn_at in *; cbn [croot ctx_at cptr] in *; try naive_solver.
  - by rewrite HP.
  - by rewrite <- HP.
Qed.

(** ** Single steps *)

Definition with_nodes (m : gmap Z rbnode) (s : rb) : rb := Rb m (rb_nil s) (rb_root s) (rb_sz s).

Lemma node_at_ok (s : rb) x n : rb_nodes s !! x = Some n -> node_at x s = Ok (n, s).
Proof. intros E. unfold node_at. mgo. by rewrite E. Qed.

Lemma get_nil_ok (s : rb) : get_nil s = Ok (rb_nil s, s).
Proof. done. Qed.

Lemma get_child_ok d (s : rb) x n : rb_nodes s !! x = Some n -> get_child d x s = Ok (child d n, s).
Proof. intros E. unfold get_child. by mrun (node_at_ok _ _ _ E). Qed.
Lemma get_p_ok (s : rb) x n : rb_nodes s !! x = Some n -> get_p x s = Ok (rn_p n, s).
Proof. intros E. unfold get_p. by mrun (node_at_ok _ _ _ E). Qed.
Lemma get_color_ok (s : rb) x n : rb_nodes s !! x = Some n -> get_color x s = Ok (rn_color n, s).
Proof. intros E. unfold get_color. by mrun (node_at_ok _ _ _ E). Qed.
Lemma get_key_ok (s : rb) x n : rb_nodes s !! x = Some n -> get_key x s = Ok (rn_key n, s).
Proof. intros E. unfold get_key. by mrun (node_at_ok _ _ _ E). Qed.
Lemma upd_node_ok (s : rb) x f n :
  rb_nodes s !! x = Some n -> upd_node x f s = Ok (tt, with_nodes (<[x := f n]> (rb_nodes s)) s).
Proof. intros E. unfold upd_node. by mrun (node_at_ok _ _ _ E). Qed.

Lemma child_mkrn d k c x y p : child d (mkrn d k c x y p) = x /\ child (opp d) (mkrn d k c x y p) = y.
Proof. by destruct d. Qed.
Lemma mkrn_opp d k c x y p : mkrn (opp d) k c x y p = mkrn d k c y x p.
Proof. by destruct d. Qed.
Lemma with_child_mkrn d k c x y p z :
  with_child d z (mkrn d k c x y p) = mkrn d k c z y p /\
  with_child (opp d) z (mkrn d k c x y p) = mkrn d k c x z p.
Proof. by destruct d. Qed.
Lemma with_parent_mkrn d k c x y p z : with_parent z (mkrn d k c x y p) = mkrn d k c x y z.
Proof. by destruct d. Qed.
Lemma with_color_mkrn d k c x y p z : with_color z (mkrn d k c x y p) = mkrn d k z x y p.
Proof. by destruct d. Qed.
Lemma mkrn_fields d k c x y p :
  rn_key (mkrn d k c x y p) = k /\ rn_color (mkrn d k c x y p) = c /\ rn_p (mkrn d k c x y p) = p.
Proof. by destruct d. Qed.

(** ** Rotation *)

(** The child of [p] that was [u] becomes [v]; without a parent the root does. *)
Definition relink (u v : Z) (n : rbnode) : rbnode := if u =? child L n then with_child L v n else with_child R v n.

Lemma relink_parent (s : rb) u v p : rb_nil s = nil -> (p <> nil -> is_Some (rb_nodes s !! p)) ->
  exists s', (if p =? nil then set_root v
     else upl <-- get_child L p;; if u =? upl then set_child L p v else set_child R p v) s = Ok (tt, s') /\
    rb_nil s' = nil /\ rb_sz s' = rb_sz s /\ rb_root s' = (if p =? nil then v else rb_root s) /\
    forall z, rb_nodes s' !! z = if z =? nil then rb_nodes s !! z
      else if z =? p then relink u v <$> rb_nodes s !! z else rb_nodes s !! z.
Proof.
  intros Hnil Hp. destruct (Z.eqb_spec p nil) as [->|Hpn].
  - eexists. split; [done|]. do 3 (split; [done|]). intros z. cbn. by zcases.
  - destruct (Hp Hpn) as [np Ep]. mrun (get_child_ok L _ _ _ Ep). unfold set_child.
    exists (with_nodes (<[p := relink u v np]> (rb_nodes s)) s). unfold relink.
    split; [destruct (u =? child L np); by apply upd_node_ok|]. do 3 (split; [done|]). intros z. cbn [rb_nodes with_nodes].
    rewrite lookup_insert. case_decide as Ez; [subst z; rewrite Ep, Z.eqb_refl, (proj2 (Z.eqb_neq _ _) Hpn); done|].
    rewrite (proj2 (Z.eqb_neq z p)) by congruence. by destruct (z =? nil).
Qed.

Lemma rotate_run a (s : rb) x y k c k' c' pA pB pC p :
  rb_nil s = nil ->
  rb_nodes s !! x = Some (mkrn a k c pA y p) ->
  rb_nodes s !! y = Some (mkrn a k' c' pB pC x) ->
  x <> y -> x <> nil -> y <> nil -> pB <> x -> pB <> y -> p <> x -> p <> y ->
  (pB <> nil -> is_Some (rb_nodes s !! pB)) -> (pB = nil \/ pB <> p) ->
  (p <> nil -> exists d np, rb_nodes s !! p = Some np /\ child d np = x /\ child (opp d) np <> x) ->
  exists s', rb_rotate a x s = Ok (tt, s') /\ rb_nil s' = nil /\ rb_sz s' = rb_sz s /\
    rb_root s' = (if p =? nil then y else rb_root s) /\
    forall z, rb_nodes s' !! z =
      if z =? x then Some (mkrn a k c pA pB y)
      else if z =? y then Some (mkrn a k' c' x pC p)
      else if z =? nil then rb_nodes s !! z
      else if z =? p then (fun n => if x =? child L n then with_child L y n else with_child R y n) <$> rb_nodes s !! z
      else if z =? pB then with_parent x <$> rb_nodes s !! z
      else rb_nodes s !! z.
Proof.
  intros Hnil Ex Ey Hxy Hx Hy HBx HBy Hpx Hpy HB HBp Hp. unfold rb_rotate.
  mrun (get_nil_ok s). mrun (get_child_ok (opp a) _ _ _ Ex). rewrite (proj2 (child_mkrn _ _ _ _ _ _)).
  mrun (get_child_ok a _ _ _ Ey). rewrite (proj1 (child_mkrn _ _ _ _ _ _)), Hnil.
  unfold set_child at 1. mrun (upd_node_ok _ _ (with_child (opp a) pB) _ Ex).
  rewrite (proj2 (with_child_mkrn _ _ _ _ _ _ _)).
  set (s1 := with_nodes _ s).
  assert (HC2 : exists s2, (if negb (pB =? nil) then set_p pB x else ret tt) s1 = Ok (tt, s2) /\
    rb_nil s2 = nil /\ rb_root s2 = rb_root s /\ rb_sz s2 = rb_sz s /\
    forall z, rb_nodes s2 !! z = if z =? x then Some (mkrn a k c pA pB p)
      else if z =? nil then rb_nodes s !! z
      else if z =? pB then with_parent x <$> rb_nodes s !! z else rb_nodes s !! z).
  { destruct (Z.eqb_spec pB nil) as [->|HBn]; cbn [negb].
    - exists s1. split; [done|]. do 3 (split; [done|]). intros z. cbn.
      rewrite lookup_insert. case_decide; zcases; try congruence; done.
    - destruct (HB HBn) as [nB EB].
      assert (EB1 : rb_nodes s1 !! pB = Some nB) by (cbn; by rewrite lookup_insert_ne).
      exists (with_nodes (<[pB := with_parent x nB]> (rb_nodes s1)) s1).
      split; [apply (upd_node_ok _ _ (with_parent x) _ EB1)|]. do 3 (split; [done|]). intros z. cbn.
      rewrite !lookup_insert. repeat case_decide; zcases; subst; try congruence.
      by rewrite EB. }
  destruct HC2 as (s2 & Hr2 & Hn2 & Hro2 & Hs2 & HL2). mrun Hr2. clear Hr2.
  assert (Ex2 : rb_nodes s2 !! x = Some (mkrn a k c pA pB p)) by (by rewrite HL2, Z.eqb_refl).
  mrun (get_p_ok _ _ _ Ex2). rewrite (proj2 (proj2 (mkrn_fields _ _ _ _ _ _))).
  assert (Ey2 : rb_nodes s2 !! y = Some (mkrn a k' c' pB pC x))
    by (rewrite HL2; zcases; congruence).
  mrun (upd_node_ok _ _ (with_parent p) _ Ey2). rewrite with_parent_mkrn.
  set (s3 := with_nodes _ s2).
  destruct (relink_parent s3 x y p Hn2) as (s4 & Hr4 & Hn4 & Hs4 & Hro4 & HL4).
  { intros Hpn. destruct (Hp Hpn) as (d & np & Ep & _). exists np. unfold s3. cbn [rb_nodes with_nodes].
    rewrite lookup_insert_ne by done. rewrite HL2. zcases; try congruence; destruct HBp; congruence. }
  change (rb_sz s3) with (rb_sz s2) in Hs4. change (rb_root s3) with (rb_root s2) in Hro4. rewrite Hs2 in Hs4. rewrite Hro2 in Hro4. unfold relink in HL4.
  mrun Hr4. clear Hr4.
  assert (HL4' : forall z, rb_nodes s4 !! z = if z =? y then Some (mkrn a k' c' pB pC p)
      else if z =? x then Some (mkrn a k c pA pB p)
      else if z =? nil then rb_nodes s !! z
      else if z =? p then (fun n => if x =? child L n then with_child L y n else with_child R y n) <$> rb_nodes s !! z
      else if z =? pB then with_parent x <$> rb_nodes s !! z
      else rb_nodes s !! z).
  { intros z. rewrite HL4. cbn [s3 rb_nodes with_nodes]. rewrite lookup_insert, HL2.
    case_decide; zcases; subst; try congruence; destruct HBp; congruence. }
  clear HL4 HL2.
  assert (Ey4 : rb_nodes s4 !! y = Some (mkrn a k' c' pB pC p)) by (by rewrite HL4', Z.eqb_refl).
  unfold set_child. mrun (upd_node_ok _ _ (with_child a x) _ Ey4). rewrite (proj1 (with_child_mkrn _ _ _ _ _ _ _)).
  set (s5 := with_nodes _ s4).
  assert (Ex5 : rb_nodes s5 !! x = Some (mkrn a k c pA pB p)).
  { cbn. rewrite lookup_insert_ne by congruence. rewrite HL4'. zcases; congruence. }
  unfold set_p. rewrite (upd_node_ok _ _ (with_parent y) _ Ex5). rewrite with_parent_mkrn.
  eexists. split; [done|]. do 3 (split; [done|]). intros z. cbn [s5 rb_nodes with_nodes].
  rewrite !lookup_insert, HL4'. repeat case_decide; zcases; subst; congruence.
Qed.

Lemma ptr_in t : (t = Leaf /\ ptr t = nil) \/ ptr t ∈ addrs t.
Proof. destruct t; [by left|right]. cbn. apply elem_of_cons. by left. Qed.

(** What the links of a zipper's hole amount to: the frame's child is the
    hole and its other child is not. *)
Lemma ctx_parent m x c : ctx_at m x c -> x ∉ caddrs c -> x <> nil -> c <> [] ->
  exists d np, m !! cptr c = Some np /\ child d np = x /\ child (opp d) np <> x.
Proof.
  destruct c as [|f c]; [done|]. intros (E & Ht & Hc) Hx Hxn _.
  exists (f_d f). eexists. split; [exact E|]. split; [apply child_mkrn|].
  rewrite (proj2 (child_mkrn _ _ _ _ _ _)).
  destruct (ptr_in (f_sib f)) as [[_ ->]|Hin]; [done|].
  intros Heq. apply Hx. cbn [caddrs]. apply elem_of_cons. right. apply elem_of_app. left. by rewrite <- Heq.
Qed.

(** Replacing the child of the frame around the hole. *)
Lemma ctx_at_replace m m' x y c :
  ctx_at m x c -> NoDup (caddrs c) -> x ∉ caddrs c -> x <> nil ->
  (forall z, z ∈ caddrs c ->
     m' !! z = if z =? cptr c
               then (fun n => if x =? child L n then with_child L y n else with_child R y n) <$> m !! z
               else m !! z) ->
  ctx_at m' y c.
Proof.
  destruct c as [|f c]; [done|]. intros (E & Ht & Hc) Hnd Hx Hxn Hm. cbn [cptr caddrs ctx_at] in *.
  apply NoDup_cons in Hnd as [Hfa Hnd].
  assert (Hm' : forall z, z ∈ addrs (f_sib f) ++ caddrs c -> m' !! z = m !! z).
  { intros z Hz. rewrite Hm by (apply elem_of_cons; by right).
    destruct (Z.eqb_spec z (f_a f)) as [->|]; [done|reflexivity]. }
  split_and!.
  - rewrite Hm by (apply elem_of_cons; by left). rewrite Z.eqb_refl, E. cbn. f_equal.
    assert (ptr (f_sib f) <> x).
    { destruct (ptr_in (f_sib f)) as [[_ ->]|Hin]; [done|]. intros <-.
      apply Hx, elem_of_cons. right. apply elem_of_app. by left. }
    destruct (f_d f); cbn; [by rewrite Z.eqb_refl|]. by rewrite (proj2 (Z.eqb_neq _ _)) by congruence.
  - eapply tree_at_ext; [|exact Ht]. intros z Hz. apply Hm', elem_of_app. by left.
  - eapply ctx_at_ext; [|exact Hc]. intros z Hz. apply Hm', elem_of_app. by right.
Qed.

Lemma rotate_spec a (s : rb) c0 x k c A y k' c' B C :
  rep s c0 (mkn a c A x k (mkn a c' B y k' C)) ->
  exists s', rb_rotate a x s = Ok (tt, s') /\ rep s' c0 (mkn a c' (mkn a c A x k B) y k' C) /\
    (rb_sz s', rb_nodes s' !! nil) = (rb_sz s, rb_nodes s !! nil).
Proof.
  intros [Hnil Hroot Ht Hc Hnd (nn & En & Hblack)].
  rewrite mkn_ptr in *. rewrite !mkn_at, mkn_ptr in Ht. destruct Ht as (Ex & HA & Ey & HB & HC).
  assert (Hnd' : NoDup (nil :: x :: y :: addrs A ++ addrs B ++ addrs C ++ caddrs c0)).
  { eapply NoDup_Permutation_proper; [|exact Hnd]. rewrite !mkn_addrs. cbn [app]. do 2 f_equiv.
    rewrite <- !app_assoc. cbn [app]. rewrite <- app_assoc. apply Permutation_middle. }
  apply NoDup_cons in Hnd' as [N0 Hnd']. apply NoDup_cons in Hnd' as [N1 Hnd']. apply NoDup_cons in Hnd' as [N2 Hnd'].
  apply NoDup_app in Hnd' as (NA & NA' & Hnd'). apply NoDup_app in Hnd' as (NB & NB' & Hnd').
  apply NoDup_app in Hnd' as (NC & NC' & Ncx).
  assert (Hxy : x <> y /\ x <> nil /\ y <> nil) by set_solver.
  assert (FA : forall z, z ∈ addrs A -> z <> nil /\ z <> x /\ z <> y /\ z ∉ addrs B /\ z ∉ caddrs c0) by set_solver.
  assert (FB : forall z, z ∈ addrs B -> z <> nil /\ z <> x /\ z <> y /\ z ∉ caddrs c0) by set_solver.
  assert (FC : forall z, z ∈ addrs C -> z <> nil /\ z <> x /\ z <> y /\ z ∉ addrs B /\ z ∉ caddrs c0) by set_solver.
  assert (FX : forall z, z ∈ caddrs c0 -> z <> nil /\ z <> x /\ z <> y /\ z ∉ addrs B) by set_solver.
  assert (HpB : ptr B = nil \/ ptr B ∈ addrs B) by (destruct (ptr_in B) as [[_ ?]|?]; auto).
  clear N0 N1 N2 NA' NB' NC'. destruct Hxy as (Hxy & Hxn & Hyn).
  assert (Hcp : c0 = [] /\ cptr c0 = nil \/ c0 <> [] /\ cptr c0 ∈ caddrs c0).
  { destruct c0; [by left|right]. split; [done|]. cbn. apply elem_of_cons. by left. }
  assert (HpB' : ptr B <> x /\ ptr B <> y /\ (ptr B = nil \/ ptr B <> cptr c0)).
  { destruct HpB as [->|HpB]; [split_and!; [congruence..|by left]|].
    destruct (FB _ HpB) as (? & ? & ? & ?). split_and!; try done. right. intros E.
    destruct Hcp as [[_ ?]|[_ ?]]; congruence. }
  assert (Hcp' : cptr c0 <> x /\ cptr c0 <> y).
  { destruct Hcp as [[_ ->]|[_ Hin]]; [split; congruence|]. by destruct (FX _ Hin) as (? & ? & ? & ?). }
  destruct HpB' as (HBx & HBy & HBp), Hcp' as [Hcx Hcy].
  destruct (rotate_run a s x y k c k' c' (ptr A) (ptr B) (ptr C) (cptr c0)) as (s' & Hrun & Hn' & Hsz & Hro & HL); try done.
  { intros HBn. destruct HpB as [?|HpB]; [congruence|]. eapply tree_at_dom; [exact HB|done]. }
  { intros Hcn. destruct Hcp as [[_ ?]|[Hc0 _]]; [congruence|].
    eapply ctx_parent; [exact Hc| |done|done]. intros Hin. by destruct (FX _ Hin) as (? & ? & ? & ?). }
  exists s'. split; [done|]. split; [|rewrite Hsz, HL; f_equal; zcases; congruence]. constructor.
  - done.
  - rewrite mkn_ptr, Hro, Hroot. destruct Hcp as [[-> ->]|[Hc0 Hin]]; cbn.
    + by rewrite Z.eqb_refl.
    + rewrite (proj2 (Z.eqb_neq _ _)); [by destruct c0|]. by destruct (FX _ Hin).
  - rewrite !mkn_at, mkn_ptr, !HL, !Z.eqb_refl. split; [|split; [split; [done|split]|]].
    + by rewrite (proj2 (Z.eqb_neq y x)) by congruence.
    + eapply tree_at_ext; [|exact HA]. intros z Hz. destruct (FA _ Hz) as (? & ? & ? & ? & ?).
      rewrite HL. destruct Hcp as [[_ Hcp]|[_ Hcp]], HpB as [Hb|Hb]; zcases; congruence.
    + eapply tree_at_reparent; [|exact NB|exact HB]. intros z Hz. destruct (FB _ Hz) as (? & ? & ? & ?).
      rewrite HL. destruct Hcp as [[_ Hcp]|[_ Hcp]]; zcases; congruence.
    + eapply tree_at_ext; [|exact HC]. intros z Hz. destruct (FC _ Hz) as (? & ? & ? & ? & ?).
      rewrite HL. destruct Hcp as [[_ Hcp]|[_ Hcp]], HpB as [Hb|Hb]; zcases; congruence.
  - rewrite mkn_ptr. eapply ctx_at_replace; [exact Hc|done| |done|].
    { intros Hin. by destruct (FX _ Hin) as (? & ? & ? & ?). }
    intros z Hz. destruct (FX _ Hz) as (? & ? & ? & ?).
    rewrite HL. destruct HpB as [Hb|Hb]; zcases; congruence.
  - eapply NoDup_Permutation_proper; [|exact Hnd]. rewrite !mkn_addrs. f_equiv. f_equiv. cbn [app].
    rewrite Permutation_swap, <- app_assoc. f_equiv. by rewrite <- Permutation_middle.
  - exists nn. rewrite HL. split; [|done]. zcases; congruence.
Qed.

(** ** Recolouring *)

Lemma set_color_spec (s : rb) c c0 c1 l a k r :
  rep s c (Node c0 l a k r) ->
  exists s', set_color a c1 s = Ok (tt, s') /\ rep s' c (Node c1 l a k r) /\
    (rb_sz s', rb_nodes s' !! nil) = (rb_sz s, rb_nodes s !! nil).
Proof.
  intros [Hnil Hroot (E & Hl & Hr) Hc Hnd (nn & En & Hb)].
  eexists. split; [by apply upd_node_ok|].
  cbn [addrs app] in Hnd. apply NoDup_cons in Hnd as Hnd'. destruct Hnd' as [Hn1 Hnd'].
  apply NoDup_cons in Hnd' as [Ha _]. split; cycle 1.
  { cbn. f_equal. apply lookup_insert_ne. intros ->. apply Hn1, elem_of_cons. by left. }
  assert (Hne : forall z, z ∈ (addrs l ++ addrs r) ++ caddrs c ->
    <[a := with_color c1 (RNode k c0 (ptr l) (ptr r) (cptr c))]> (rb_nodes s) !! z = rb_nodes s !! z).
  { intros z Hz. apply lookup_insert_ne. by intros ->. }
  constructor; try done; cbn [rb_nodes with_nodes].
  - split; [by rewrite lookup_insert_eq|].
    split; (eapply tree_at_ext; [|eassumption]); intros z Hz; apply Hne; rewrite !elem_of_app; auto.
  - eapply ctx_at_ext; [|exact Hc]. intros z Hz. apply Hne. rewrite !elem_of_app. auto.
  - exists nn. rewrite lookup_insert_ne; [done|]. intros ->. apply Hn1, elem_of_cons. by left.
Qed.

Lemma set_color_mkn d (s : rb) c c0 c1 l a k r :
  rep s c (mkn d c0 l a k r) ->
  exists s', set_color a c1 s = Ok (tt, s') /\ rep s' c (mkn d c1 l a k r) /\
    (rb_sz s', rb_nodes s' !! nil) = (rb_sz s, rb_nodes s !! nil).
Proof. destruct d; apply set_color_spec. Qed.

Lemma set_color_frame d (s : rb) c c0 c1 a k u t :
  rep s (Fr d c0 a k u :: c) t ->
  exists s', set_color a c1 s = Ok (tt, s') /\ rep s' (Fr d c1 a k u :: c) t /\
    (rb_sz s', rb_nodes s' !! nil) = (rb_sz s, rb_nodes s !! nil).
Proof. rewrite rep_up. intros (s' & ? & ? & ?)%(set_color_mkn _ _ _ _ c1). exists s'. by rewrite rep_up. Qed.

(** The focus moves to the sibling. *)
Lemma rep_other (s : rb) d c0 a k t u c : rep s (Fr d c0 a k u :: c) t <-> rep s (Fr (opp d) c0 a k t :: c) u.
Proof. rewrite !rep_up. unfold plug1. cbn. by rewrite mkn_opp. Qed.

Lemma rep_plug (s : rb) c t : rep s c t <-> rep s [] (plug c t).
Proof. revert t. induction c as [|f c IH]; intros t; [done|]. by rewrite rep_up, IH. Qed.

(** What the store says of the nodes of a zipper. *)
Lemma rep_node d (s : rb) c c0 l a k r :
  rep s c (mkn d c0 l a k r) -> rb_nodes s !! a = Some (mkrn d k c0 (ptr l) (ptr r) (cptr c)).
Proof. intros [_ _ Ht _ _ _]. by apply mkn_at in Ht as (? & ? & ?). Qed.

Lemma rep_frame (s : rb) f c t :
  rep s (f :: c) t -> rb_nodes s !! f_a f = Some (mkrn (f_d f) (f_k f) (f_c f) (ptr t) (ptr (f_sib f)) (cptr c)).
Proof. intros [_ _ _ Hc _ _]. by destruct Hc as (? & ? & ?). Qed.

Lemma rep_nodup_ptr (s : rb) d c0 a k u c t :
  rep s (Fr d c0 a k u :: c) t -> t <> Leaf -> ptr t <> ptr u /\ ptr t <> nil /\ a <> nil.
Proof.
  intros [_ _ _ _ Hnd _] Ht. cbn [caddrs f_a f_sib] in Hnd.
  destruct (ptr_in t) as [[? _]|Hin]; [done|].
  apply NoDup_cons in Hnd as [Hn Hnd]. apply NoDup_app in Hnd as (_ & Hd & _).
  destruct (ptr_in u) as [[_ Hu]|Hu].
  - split_and!; [rewrite Hu| |]; intros Heq; apply Hn; rewrite ?elem_of_app, ?elem_of_cons; subst; auto.
    left. by rewrite <- Heq.
    left. by rewrite <- Heq.
  - split_and!.
    + intros Heq. apply (Hd _ Hin), elem_of_cons. right. apply elem_of_app. left. by rewrite Heq.
    + intros Heq. apply Hn, elem_of_app. left. by rewrite <- Heq.
    + intros Heq. apply Hn, elem_of_app. right. apply elem_of_cons. by left.
Qed.

(** ** Order *)

Definition delts (d : dir) (t : tree) : list (Z * T) := match d with R => elts t | L => rev (elts t) end.
Definition dir_eqb (d e : dir) : bool := match d, e with L, L | R, R => true | _, _ => false end.
(** The nodes beyond the hole on side [d], from the hole outwards. *)
Fixpoint cside (d : dir) (c : ctx) : list (Z * T) :=
  match c with
  | [] => []
  | f :: r => if dir_eqb (f_d f) d then cside d r else (f_a f, f_k f) :: delts d (f_sib f) ++ cside d r
  end.
Definition first_addr (l : list (Z * T)) : Z := match l with [] => nil | p :: _ => p.1 end.

Lemma delts_mkn d c t a k u : delts d (mkn (opp d) c t a k u) = delts d t ++ (a, k) :: delts d u.
Proof. destruct d; cbn; [|done]. rewrite rev_app_distr. cbn. by rewrite <- !app_assoc. Qed.

Lemma elts_plug c t : elts (plug c t) = rev (cside L c) ++ elts t ++ cside R c.
Proof.
  revert t. induction c as [|f c IH]; intros t; cbn; [by rewrite app_nil_r|].
  rewrite IH. unfold plug1. destruct (f_d f); cbn.
  - by rewrite <- !app_assoc.
  - rewrite rev_app_distr, rev_involutive. cbn. by rewrite <- !app_assoc.
Qed.

Lemma elts_addrs t : (elts t).*1 ≡ₚ addrs t.
Proof.
  induction t as [|c l IHl a k r IHr]; cbn; [done|]. rewrite fmap_app. cbn. rewrite IHl, IHr.
  by rewrite <- Permutation_middle.
Qed.
End spec.

(** ** What is allocated

    Relinking and recolouring keep the set of nodes. *)
Section keeps.
Context {T : Type}.
Notation rb := (@rb T).

Definition keeps {A} (c : M rb A) : Prop :=
  forall s x s', c s = Ok (x, s') -> dom (rb_nodes s') = dom (rb_nodes s).

Lemma keeps_bind {A B} (c : M rb A) (f : A -> M rb B) : keeps c -> (forall x, keeps (f x)) -> keeps (bind c f).
Proof. intros Hc Hf s x s' (y & s1 & H1 & H2)%bind_inv. by rewrite (Hf _ _ _ _ H2), (Hc _ _ _ H1). Qed.
Lemma keeps_ret {A} (x : A) : keeps (ret x).
Proof. by intros s y s' [= _ <-]. Qed.
Lemma keeps_node_at x : keeps (node_at x).
Proof. intros s y s'. unfold node_at. mgo. destruct (rb_nodes s !! x); [|done]. by intros [= _ <-]. Qed.
Lemma keeps_upd x f : keeps (upd_node x f).
Proof.
  intros s y s'. unfold upd_node, node_at. mgo. destruct (rb_nodes s !! x) eqn:E; [|done]. cbn.
  intros [= _ <-]. cbn. rewrite dom_insert_L. apply elem_of_dom_2 in E. set_solver.
Qed.
Lemma keeps_modify f : (forall s, rb_nodes (f s) = rb_nodes s) -> keeps (modify f).
Proof. intros Hf s y s' [= _ <-]. by rewrite Hf. Qed.
Lemma keeps_get : keeps get.
Proof. by intros s y s' [= _ <-]. Qed.
End keeps.

Ltac keep :=
  repeat first
    [ apply keeps_ret | apply keeps_node_at | apply keeps_upd | apply keeps_get
    | apply keeps_modify; reflexivity
    | match goal with
      | |- keeps (if ?b then _ else _) => destruct b
      | |- forall _, _ => intro
      end
    | lazymatch goal with |- keeps (bind _ _) => apply keeps_bind end ].

Section keeps_ops.
Context {T : Type}.

Lemma keeps_rotate d x : keeps (T := T) (rb_rotate d x).
Proof. unfold rb_rotate, set_child, set_p, get_child, get_p, set_root, get_nil. keep. Qed.
Lemma keeps_fix_dir d z : keeps (T := T) (insert_fix_dir d z).
Proof.
  unfold insert_fix_dir, set_color, get_child, get_p, get_color.
  repeat first [apply keeps_rotate | progress keep].
Qed.
Lemma keeps_fixup fuel z : keeps (T := T) (insert_fixup fuel z).
Proof.
  revert z. induction fuel as [|fuel IH]; intros z; [by intros s x s'|].
  cbn [insert_fixup]. unfold get_p, get_color, get_child, get_root, set_color.
  repeat first [apply IH | apply keeps_fix_dir | progress keep].
Qed.
Lemma keeps_transplant u v : keeps (T := T) (transplant u v).
Proof. unfold transplant, set_root, get_p, get_child, set_child, set_p, get_nil. keep. Qed.
Lemma keeps_remove_dir a x : keeps (T := T) (remove_fix_dir a x).
Proof.
  unfold remove_fix_dir, set_color, get_child, get_p, get_color, get_root.
  repeat first [apply keeps_rotate | progress keep].
Qed.
Lemma keeps_remove fuel x : keeps (T := T) (remove_fixup fuel x).
Proof.
  revert x. induction fuel as [|fuel IH]; intros x; [by intros s y s'|].
  cbn [remove_fixup]. unfold get_p, get_color, get_child, get_root, set_color.
  repeat first [apply IH | apply keeps_remove_dir | progress keep].
Qed.
Lemma keeps_extreme d x : keeps (T := T) (extreme d x).
Proof.
  unfold extreme, tree_fuel, get_nil. apply keeps_bind; [keep|]. intros f. apply keeps_bind; [keep|]. intros y. revert x y.
  induction f as [|f IH]; intros x y; [by intros s z s'|]. cbn [extreme_loop]. unfold get_nil, get_child.
  repeat first [apply IH | progress keep].
Qed.
End keeps_ops.
