(* ===== verification/RbSet.v ===== *)
(** * The red-black tree as an ordered set

    Finding, walking and inserting, against a sorted list of keys.  The keys'
    two comparison operators have to agree on one total order, which is the
    class [KeyOrder].  Deleting is not part of the refinement: insertion does
    not keep the red-black conditions that it needs (RbErase.v), and the last
    section evaluates deletions that lose other keys. *)

From S2P Require Import Prelude RbTree RbTreeSpec.
From stdpp Require Import gmap list.
#[local] Open Scope Z_scope.

(** What the container needs of [operator<] and [operator==]. *)
Class KeyOrder {T : Type} (ltb eqb : T -> T -> bool) : Prop := {
  key_eq : forall a b, eqb a b = true <-> a = b;
  key_irrefl : forall a, ltb a a = false;
  key_trans : forall a b c, ltb a b = true -> ltb b c = true -> ltb a c = true;
  key_total : forall a b, ltb a b = false -> a <> b -> ltb b a = true
}.

#[export] Instance Z_key_order : KeyOrder Z.ltb Z.eqb.
Proof. constructor; intros; rewrite ?Z.eqb_eq, ?Z.ltb_lt, ?Z.ltb_ge in *; lia. Qed.

Section set.
Context {T : Type} (ltb eqb : T -> T -> bool) `{!KeyOrder ltb eqb} (nil : Z).
Notation rb := (@rb T).
Notation tree := (@tree T).
Notation ctx := (@ctx T).
Notation rep := (rep nil).
Notation ptr := (ptr nil).
Notation cptr := (cptr nil).

(** ** Sorted lists of nodes *)

Definition below (k : T) (p : Z * T) : Prop := ltb p.2 k = true.
Definition above (k : T) (p : Z * T) : Prop := ltb k p.2 = true.
Fixpoint sorted (l : list (Z * T)) : Prop :=
  match l with [] => True | p :: r => Forall (above p.2) r /\ sorted r end.

(** The set operations. *)
Fixpoint sorted_insert (a : Z) (k : T) (l : list (Z * T)) : list (Z * T) :=
  match l with
  | [] => [(a, k)]
  | p :: r => if eqb k p.2 then l else if ltb k p.2 then (a, k) :: l else p :: sorted_insert a k r
  end.
Fixpoint sorted_find (k : T) (l : list (Z * T)) : Z :=
  match l with [] => nil | p :: r => if eqb k p.2 then p.1 else sorted_find k r end.

Lemma key_neq a b : ltb a b = true -> eqb a b = false /\ eqb b a = false /\ ltb b a = false.
Proof.
  intros Hab. split_and!.
  - destruct (eqb a b) eqn:E; [|done]. apply key_eq in E as ->. by rewrite key_irrefl in Hab.
  - destruct (eqb b a) eqn:E; [|done]. apply key_eq in E as ->. by rewrite key_irrefl in Hab.
  - destruct (ltb b a) eqn:E; [|done]. pose proof (key_trans _ _ _ Hab E) as E'. by rewrite key_irrefl in E'.
Qed.

Lemma sorted_app l1 l2 :
  sorted (l1 ++ l2) <-> sorted l1 /\ sorted l2 /\ forall p, p ∈ l2 -> Forall (below p.2) l1.
Proof.
  induction l1 as [|q l1 IH]; cbn; [naive_solver|]. rewrite IH, Forall_app. split.
  - intros [[H1 H2] (H3 & H4 & H5)]. split_and!; try done. intros p Hp. constructor; [|by apply H5].
    by apply (proj1 (Forall_forall _ _) H2).
  - intros [[H1 H2] [H3 H4]]. split_and!; try done.
    + apply Forall_forall. intros p Hp. by apply H4 in Hp as [? ?]%Forall_cons.
    + intros p Hp. by apply H4 in Hp as [? ?]%Forall_cons.
Qed.

Lemma sorted_mid l1 a k l2 :
  sorted (l1 ++ (a, k) :: l2) <-> sorted (l1 ++ l2) /\ Forall (below k) l1 /\ Forall (above k) l2.
Proof.
  rewrite !sorted_app. cbn. split.
  - intros (H1 & (H2 & H3) & H4). split_and!; try done.
    + intros p Hp. apply H4, elem_of_cons. by right.
    + apply (H4 (a, k)), elem_of_cons. by left.
  - intros ((H1 & H2 & H3) & H4 & H5). split_and!; try done.
    intros p [->|Hp]%elem_of_cons; [done|by apply H3].
Qed.

Lemma sorted_insert_at a k l1 l2 :
  Forall (below k) l1 -> Forall (above k) l2 -> sorted_insert a k (l1 ++ l2) = l1 ++ (a, k) :: l2.
Proof.
  intros H1 H2. induction H1 as [|p l1 Hp H1 IH]; cbn.
  - destruct H2 as [|p l2 Hp H2]; cbn; [done|].
    destruct (key_neq _ _ Hp) as (-> & _ & _). by rewrite Hp.
  - destruct (key_neq _ _ Hp) as (_ & -> & ->). by rewrite IH.
Qed.

Lemma sorted_find_at x k l1 l2 : Forall (below k) l1 -> sorted_find k (l1 ++ (x, k) :: l2) = x.
Proof.
  intros H1. induction H1 as [|p l1 Hp H1 IH]; cbn.
  - by rewrite (proj2 (key_eq k k)).
  - by destruct (key_neq _ _ Hp) as (_ & -> & _).
Qed.

Lemma sorted_insert_there x a k l1 l2 :
  Forall (below k) l1 -> sorted_insert a k (l1 ++ (x, k) :: l2) = l1 ++ (x, k) :: l2.
Proof.
  intros H1. induction H1 as [|p l1 Hp H1 IH]; cbn.
  - by rewrite (proj2 (key_eq k k)).
  - destruct (key_neq _ _ Hp) as (_ & -> & ->). by rewrite IH.
Qed.

Lemma sorted_find_none k l1 l2 : Forall (below k) l1 -> Forall (above k) l2 -> sorted_find k (l1 ++ l2) = nil.
Proof.
  intros H1 H2. induction H1 as [|p l1 Hp H1 IH]; cbn.
  - induction H2 as [|p l2 Hp H2 IH]; cbn; [done|]. by destruct (key_neq _ _ Hp) as (-> & _ & _).
  - by destruct (key_neq _ _ Hp) as (_ & -> & _).
Qed.

(** ** Fuel *)

Lemma plug_addrs (c : ctx) (t : tree) : addrs (plug c t) ≡ₚ addrs t ++ caddrs c.
Proof.
  revert t. induction c as [|f c IH]; intros t; cbn; [by rewrite app_nil_r|].
  rewrite IH. apply plug1_addrs.
Qed.

Lemma rep_size (s : rb) c t : rep s c t -> (length (addrs t) < size (rb_nodes s))%nat.
Proof.
  intros Hr. pose proof (proj1 (rep_plug _ _ _ _) Hr) as [_ _ Ht _ Hnd (n & En & _)].
  cbn [caddrs] in Hnd. rewrite app_nil_r in Hnd.
  assert (Hs : (size (list_to_set (nil :: addrs (plug c t)) : gset Z) <= size (dom (rb_nodes s)))%nat).
  { apply subseteq_size. intros z Hz. apply elem_of_list_to_set, elem_of_cons in Hz as [->|Hz]; apply elem_of_dom.
    - by eexists.
    - eapply tree_at_dom; [exact Ht|done]. }
  rewrite size_list_to_set, size_dom in Hs by done. cbn [length] in Hs.
  rewrite plug_addrs, length_app in Hs. lia.
Qed.

Lemma rep_ptr_ne (s : rb) c t : rep s c t -> t <> Leaf -> ptr t <> nil.
Proof.
  intros [_ _ _ _ Hnd _] Ht Heq. destruct (ptr_in nil t) as [[? _]|Hin]; [done|].
  apply NoDup_cons in Hnd as [Hn _]. apply Hn, elem_of_app. left. by rewrite <- Heq.
Qed.

(** ** Finding *)

Definition hole_at (k : T) (c : ctx) : Prop := Forall (below k) (cside L c) /\ Forall (above k) (cside R c).

(** Going down to the child on the side of the key keeps the key between the
    two sides of the hole. *)
Lemma hole_down k c c0 l a xk r :
  sorted (elts (plug c (Node c0 l a xk r))) -> hole_at k c -> xk <> k ->
  (ltb k xk = true -> hole_at k (Fr L c0 a xk r :: c)) /\
  (ltb k xk = false -> hole_at k (Fr R c0 a xk l :: c)) /\ ltb xk k = negb (ltb k xk).
Proof.
  intros Hs [HL HR] Hne. rewrite elts_plug in Hs. cbn [elts] in Hs.
  rewrite <- !app_assoc in Hs. cbn [app] in Hs.
  apply sorted_app in Hs as (_ & Hs & _). apply sorted_mid in Hs as (_ & Hl & Hr).
  apply Forall_app in Hr as [Hr _]. split_and!; intros.
  - split; [done|]. cbn. constructor; [done|]. apply Forall_app. split; [|done].
    eapply Forall_impl; [exact Hr|]. intros p Hp. eapply key_trans; [eassumption|exact Hp].
  - assert (ltb xk k = true) by (apply key_total; congruence). split; [|done]. cbn. constructor; [done|].
    apply Forall_app. split; [|done]. apply Forall_rev.
    eapply Forall_impl; [exact Hl|]. intros p Hp. eapply key_trans; [exact Hp|done].
  - destruct (ltb k xk) eqn:E; cbn; [by apply key_neq in E as (_ & _ & ->)|]. by apply key_total.
Qed.

(** A key found in the hole is at its place in the order. *)
Lemma found_here k c c0 l x r :
  sorted (elts (plug c (Node c0 l x k r))) ->
  exists l1 l2, elts (plug c (Node c0 l x k r)) = l1 ++ (x, k) :: l2 /\ Forall (below k) l1.
Proof.
  rewrite elts_plug. cbn [elts]. intros Hs. exists (rev (cside L c) ++ elts l), (elts r ++ cside R c).
  assert (E : rev (cside L c) ++ (elts l ++ (x, k) :: elts r) ++ cside R c =
    (rev (cside L c) ++ elts l) ++ (x, k) :: elts r ++ cside R c) by (by rewrite <- !app_assoc).
  rewrite E in *. split; [done|]. by apply sorted_mid in Hs as (_ & ? & _).
Qed.

Lemma hole_find k c : hole_at k c -> sorted_find k (elts (plug c Leaf)) = nil.
Proof.
  intros [HL HR]. rewrite elts_plug. apply sorted_find_none; [|done]. by apply Forall_rev.
Qed.

Lemma rb_find_loop_spec k t : forall c fuel (s : rb),
  rep s c t -> (length (addrs t) < fuel)%nat -> sorted (elts (plug c t)) -> hole_at k c ->
  rb_find_loop (fun x => eqb x k) (fun x => ltb x k) fuel (ptr t) s = Ok (sorted_find k (elts (plug c t)), s).
Proof.
  induction t as [|c0 l IHl x xk r IHr]; intros c fuel s Hrep Hf Hs Hh; (destruct fuel as [|fuel]; [cbn in Hf; lia|]);
    cbn [rb_find_loop RbTreeSpec.ptr]; mrun (get_nil_ok s); rewrite (r_nil _ _ _ _ Hrep).
  - rewrite Z.eqb_refl. by rewrite hole_find.
  - pose proof (rep_node nil L _ _ _ _ _ _ _ Hrep) as E.
    pose proof (rep_ptr_ne _ _ _ Hrep ltac:(done)) as Hx. cbn in Hx.
    rewrite (proj2 (Z.eqb_neq _ _) Hx). mrun (get_key_ok _ _ _ E). cbn [mkrn rn_key].
    destruct (eqb xk k) eqn:Eq.
    + apply key_eq in Eq as ->. destruct (found_here k _ _ _ _ _ Hs) as (l1 & l2 & -> & H1).
      by rewrite sorted_find_at.
    + assert (Hne : xk <> k) by (intros ->; by rewrite (proj2 (key_eq k k) eq_refl) in Eq).
      destruct (hole_down k c c0 l x xk r Hs Hh Hne) as (HL & HR & Hlt).
      mrun (get_child_ok (if ltb xk k then R else L) _ _ _ E). rewrite Hlt. cbn [addrs length] in Hf.
      rewrite length_app in Hf. destruct (ltb k xk) eqn:Ek; cbn [negb child mkrn rn_l rn_r].
      * apply (IHl (Fr L c0 x xk r :: c)); [by apply rep_up|lia|done|by apply HL].
      * apply (IHr (Fr R c0 x xk l :: c)); [by apply rep_up|lia|done|by apply HR].
Qed.

Lemma insert_loop_spec k t : forall c fuel (s : rb),
  rep s c t -> (length (addrs t) < fuel)%nat -> sorted (elts (plug c t)) -> hole_at k c ->
  (exists x l1 l2, insert_loop ltb eqb fuel (ptr t) (cptr c) k s = Ok (inl x, s) /\
     elts (plug c t) = l1 ++ (x, k) :: l2 /\ Forall (below k) l1) \/
  (exists c', insert_loop ltb eqb fuel (ptr t) (cptr c) k s = Ok (inr (cptr c'), s) /\
     rep s c' Leaf /\ plug c' Leaf = plug c t /\ hole_at k c').
Proof.
  induction t as [|c0 l IHl x xk r IHr]; intros c fuel s Hrep Hf Hs Hh; (destruct fuel as [|fuel]; [cbn in Hf; lia|]);
    cbn [insert_loop RbTreeSpec.ptr]; mrun (get_nil_ok s); rewrite (r_nil _ _ _ _ Hrep).
  - rewrite Z.eqb_refl. right. by exists c.
  - pose proof (rep_node nil L _ _ _ _ _ _ _ Hrep) as E.
    pose proof (rep_ptr_ne _ _ _ Hrep ltac:(done)) as Hx. cbn in Hx.
    rewrite (proj2 (Z.eqb_neq _ _) Hx). mrun (get_key_ok _ _ _ E). cbn [mkrn rn_key].
    destruct (eqb k xk) eqn:Eq.
    + apply key_eq in Eq as <-. left. destruct (found_here k _ _ _ _ _ Hs) as (l1 & l2 & El & H1).
      by exists x, l1, l2.
    + assert (Hne : xk <> k) by (intros ->; by rewrite (proj2 (key_eq k k) eq_refl) in Eq).
      destruct (hole_down k c c0 l x xk r Hs Hh Hne) as (HL & HR & Hlt).
      mrun (get_child_ok (if ltb k xk then L else R) _ _ _ E). cbn [addrs length] in Hf.
      rewrite length_app in Hf. destruct (ltb k xk) eqn:Ek; cbn [negb child mkrn rn_l rn_r].
      * apply (IHl (Fr L c0 x xk r :: c)); [by apply rep_up|lia|done|by apply HL].
      * apply (IHr (Fr R c0 x xk l :: c)); [by apply rep_up|lia|done|by apply HR].
Qed.

(** The way down without any order of the keys: only the last step is known. *)
Definition goes_to (k : T) (c : ctx) : Prop :=
  match c with [] => True | f :: _ => ltb k (f_k f) = match f_d f with L => true | R => false end end.

Lemma hole_goes k c : hole_at k c -> goes_to k c.
Proof.
  destruct c as [|f c]; [done|]. intros [HL HR]. cbn in *. destruct (f_d f); cbn in HL, HR.
  - by apply Forall_cons in HR as [? _].
  - apply Forall_cons in HL as [HL _]. apply (key_neq _ _ HL).
Qed.

Lemma insert_loop_shape k t : forall c fuel (s : rb),
  rep s c t -> (length (addrs t) < fuel)%nat -> Forall (fun p => eqb k p.2 = false) (elts t) -> goes_to k c ->
  exists c', insert_loop ltb eqb fuel (ptr t) (cptr c) k s = Ok (inr (cptr c'), s) /\
    rep s c' Leaf /\ plug c' Leaf = plug c t /\ goes_to k c'.
Proof.
  induction t as [|c0 l IHl x xk r IHr]; intros c fuel s Hrep Hf Hk Hg; (destruct fuel as [|fuel]; [cbn in Hf; lia|]);
    cbn [insert_loop RbTreeSpec.ptr]; mrun (get_nil_ok s); rewrite (r_nil _ _ _ _ Hrep).
  - rewrite Z.eqb_refl. by exists c.
  - pose proof (rep_node nil L _ _ _ _ _ _ _ Hrep) as E.
    pose proof (rep_ptr_ne _ _ _ Hrep ltac:(done)) as Hx. cbn in Hx.
    rewrite (proj2 (Z.eqb_neq _ _) Hx). mrun (get_key_ok _ _ _ E). cbn [mkrn rn_key].
    cbn [elts] in Hk. apply Forall_app in Hk as [Hkl [Hkx Hkr]%Forall_cons]. cbn [snd] in Hkx. rewrite Hkx.
    mrun (get_child_ok (if ltb k xk then L else R) _ _ _ E). cbn [addrs length] in Hf.
    rewrite length_app in Hf. destruct (ltb k xk) eqn:Ek; cbn [child mkrn rn_l rn_r].
    + apply (IHl (Fr L c0 x xk r :: c)); [by apply rep_up|lia|done|done].
    + apply (IHr (Fr R c0 x xk l :: c)); [by apply rep_up|lia|done|done].
Qed.

(** ** Linking a new node *)

Definition new_node (k : T) (a y : Z) : M rb unit :=
  set_p a y;;;
  (if y =? nil then set_root a
   else yk <-- get_key y;; if ltb k yk then set_child L y a else set_child R y a).

Lemma link_spec k a c p (s : rb) :
  rep s c Leaf -> rb_nodes s !! a = Some (RNode k Red nil nil p) -> a ∉ nil :: caddrs c -> goes_to k c ->
  exists s', new_node k a (cptr c) s = Ok (tt, s') /\ rep s' c (Node Red Leaf a k Leaf) /\ rb_sz s' = rb_sz s.
Proof.
  intros [Hnil Hroot _ Hc Hnd (nn & En & Hb)] Ea Ha Hh. rewrite not_elem_of_cons in Ha. destruct Ha as [Han Ha].
  unfold new_node. unfold set_p. mrun (upd_node_ok _ _ (with_parent (cptr c)) _ Ea). cbn [with_parent rn_key rn_color rn_l rn_r].
  set (s1 := with_nodes _ s).
  assert (Hs1 : forall z, z <> a -> rb_nodes s1 !! z = rb_nodes s !! z).
  { intros z Hz. cbn. by rewrite lookup_insert_ne. }
  assert (Hnd' : NoDup (nil :: a :: caddrs c)).
  { cbn [addrs app] in Hnd. apply NoDup_cons in Hnd as [Hn Hnd]. apply NoDup_cons.
    split; [by rewrite not_elem_of_cons|]. by apply NoDup_cons. }
  destruct c as [|f c]; cbn [RbTreeSpec.cptr].
  - rewrite Z.eqb_refl. eexists. split; [done|]. split; [|done]. constructor; try done; cbn [rb_nodes rb_root].
    + split; [cbn; by rewrite lookup_insert_eq|done].
    + exists nn. by rewrite Hs1 by congruence.
  - cbn [ctx_at caddrs RbTreeSpec.ptr] in *. destruct Hc as (Ef & Ht & Hc).
    pose proof Hnd' as [Hn1 Hnd'']%NoDup_cons. apply NoDup_cons in Hnd'' as [_ Hnd''].
    apply NoDup_cons in Hnd'' as [Hf Hnd'']. rewrite !not_elem_of_cons in Hn1. destruct Hn1 as (_ & Hfn & _).
    rewrite not_elem_of_cons in Ha. destruct Ha as [Haf Ha].
    rewrite (proj2 (Z.eqb_neq (f_a f) nil)) by congruence.
    assert (Ef1 : rb_nodes s1 !! f_a f = Some (mkrn (f_d f) (f_k f) (f_c f) nil (ptr (f_sib f)) (cptr c)))
      by (rewrite Hs1 by congruence; done).
    mrun (get_key_ok _ _ _ Ef1). rewrite (proj1 (mkrn_fields _ _ _ _ _ _)).
    assert (Hd : ltb k (f_k f) = match f_d f with L => true | R => false end) by exact Hh.
    assert (HE : (if ltb k (f_k f) then set_child L (f_a f) a else set_child R (f_a f) a) s1 =
      Ok (tt, with_nodes (<[f_a f := mkrn (f_d f) (f_k f) (f_c f) a (ptr (f_sib f)) (cptr c)]> (rb_nodes s1)) s1)).
    { rewrite Hd. unfold set_child. destruct (f_d f); by rewrite (upd_node_ok _ _ _ _ Ef1). }
    rewrite HE. eexists. split; [done|]. split; [|done].
    assert (HL : forall z, z <> a -> z <> f_a f ->
      <[f_a f := mkrn (f_d f) (f_k f) (f_c f) a (ptr (f_sib f)) (cptr c)]> (rb_nodes s1) !! z = rb_nodes s !! z).
    { intros z Hz Hzf. rewrite lookup_insert_ne by congruence. by apply Hs1. }
    constructor; try done; cbn [rb_nodes with_nodes].
    + split; [|done]. rewrite lookup_insert_ne by congruence. cbn. by rewrite lookup_insert_eq.
    + split; [by rewrite lookup_insert_eq|]. split.
      * eapply tree_at_ext; [|exact Ht]. intros z Hz. apply HL; intros ->; [apply Ha|apply Hf]; apply elem_of_app; by left.
      * eapply ctx_at_ext; [|exact Hc]. intros z Hz. apply HL; intros ->; [apply Ha|apply Hf]; apply elem_of_app; by right.
    + exists nn. by rewrite HL by congruence.
Qed.

(** ** Restoring the colours

    The loop runs at most once: a red uncle is recoloured together with the
    parent and the grandparent, but the loop goes on from the same node. *)

Definition black_root (t : tree) : Prop := match t with Leaf => True | Node c _ _ _ _ => c = Black end.
Definition parent_black (c : ctx) : Prop := match c with [] => True | f :: _ => f_c f = Black end.

Lemma plug_node (c : ctx) (t : tree) : t <> Leaf -> exists c0 l a k r, plug c t = Node c0 l a k r.
Proof.
  revert t. induction c as [|f c IH]; intros t Ht; cbn.
  - destruct t; [done|eauto 6].
  - apply IH. unfold plug1. by destruct (f_d f).
Qed.

Lemma plug_black (c : ctx) (t u : tree) : c <> [] -> black_root (plug c t) -> black_root (plug c u).
Proof.
  destruct c as [|f c]; [done|]. intros _. cbn. revert t u f. induction c as [|g c IH]; intros t u f; cbn.
  - unfold plug1. by destruct (f_d f).
  - apply IH.
Qed.

Lemma parent_color (s : rb) c t : rep s c t -> t <> Leaf ->
  exists zp n, get_p (ptr t) s = Ok (zp, s) /\ zp = cptr c /\ rb_nodes s !! cptr c = Some n /\
    (parent_black c <-> rn_color n = Black).
Proof.
  intros Hr Ht. destruct t as [|c0 l a k r]; [done|].
  pose proof (get_p_ok _ _ _ (rep_node nil L _ _ _ _ _ _ _ Hr)) as E. exists (cptr c). cbn [RbTreeSpec.ptr].
  destruct c as [|f c].
  - destruct Hr as [_ _ _ _ _ (n & En & Hb)]. exists n. split_and!; done.
  - pose proof (rep_frame _ _ _ _ _ Hr) as Ef. eexists. split_and!; [exact E|done|exact Ef|].
    cbn. by rewrite (proj1 (proj2 (mkrn_fields _ _ _ _ _ _))).
Qed.

Lemma fixup_done fuel (s : rb) c t :
  rep s c t -> t <> Leaf -> parent_black c ->
  exists s' t', insert_fixup (S fuel) (ptr t) s = Ok (tt, s') /\ rep s' [] t' /\ black_root t' /\
    elts t' = elts (plug c t) /\ rb_sz s' = rb_sz s.
Proof.
  intros Hr Ht Hb. destruct (parent_color _ _ _ Hr Ht) as (zp & n & Hp & -> & En & Hc).
  cbn [insert_fixup]. mrun Hp. mrun (get_color_ok _ _ _ En). rewrite (proj1 Hc Hb). cbn [is_red].
  destruct (plug_node c t Ht) as (c0 & l & a & k & r & Epl).
  apply rep_plug in Hr. rewrite Epl in *. unfold get_root. mgo. rewrite (r_root _ _ _ _ Hr). cbn [croot RbTreeSpec.ptr].
  destruct (set_color_spec nil _ _ _ Black _ _ _ _ Hr) as (s' & Hrun & Hr' & Hsz).
  exists s', (Node Black l a k r). split; [done|]. split_and!; try done. congruence.
Qed.

(** The outer rotation: child and parent on the same side [d] of their parents. *)
Lemma rotate_out d (s : rb) c1 c2 fa fk fs ga gk gs c t :
  rep s (Fr d c1 fa fk fs :: Fr d c2 ga gk gs :: c) t ->
  exists s', rb_rotate (opp d) ga s = Ok (tt, s') /\
    rep s' (Fr d c1 fa fk (mkn (opp d) c2 gs ga gk fs) :: c) t /\
    (rb_sz s', rb_nodes s' !! nil) = (rb_sz s, rb_nodes s !! nil).
Proof.
  rewrite !rep_up. unfold plug1. cbn [f_d f_c f_a f_k f_sib]. intros Hr.
  assert (Ho : opp (opp d) = d) by (by destruct d).
  rewrite <- (mkn_opp d), <- (mkn_opp d c1) in Hr.
  destruct (rotate_spec nil _ _ _ _ _ _ _ _ _ _ _ _ Hr) as (s' & Hrun & Hr' & Hsz).
  exists s'. split; [done|]. split; [|done]. rewrite rep_up. unfold plug1. cbn [f_d f_c f_a f_k f_sib].
  by rewrite <- (mkn_opp d).
Qed.

(** The inner rotation: the node is on the other side of its parent. *)
Lemma rotate_in d (s : rb) c1 fa fk fs c0 tl a k tr c :
  rep s (Fr (opp d) c1 fa fk fs :: c) (mkn d c0 tl a k tr) ->
  exists s', rb_rotate d fa s = Ok (tt, s') /\
    rep s' (Fr d c0 a k tr :: c) (mkn d c1 fs fa fk tl) /\
    (rb_sz s', rb_nodes s' !! nil) = (rb_sz s, rb_nodes s !! nil).
Proof.
  rewrite !rep_up. unfold plug1. cbn [f_d f_c f_a f_k f_sib]. rewrite mkn_opp. intros Hr.
  destruct (rotate_spec nil _ _ _ _ _ _ _ _ _ _ _ _ Hr) as (s' & Hrun & Hr' & Hsz).
  exists s'. split; [done|]. split; [|done]. by rewrite rep_up.
Qed.

Lemma elts_plug_eq (c : ctx) (t u : tree) : elts t = elts u -> elts (plug c t) = elts (plug c u).
Proof. intros E. by rewrite !elts_plug, E. Qed.

(** One round, for a red parent [f] on side [d] of the grandparent [g]. *)
Definition round_post (s s' : rb) (c : ctx) (t : tree) (z : Z) : Prop :=
  exists c' t', rep s' c' t' /\ t' <> Leaf /\ z = ptr t' /\ parent_black c' /\
    elts (plug c' t') = elts (plug c t) /\ rb_sz s' = rb_sz s.

Lemma round_red d e (s : rb) fc fa fk fs gc ga gk ul ua uk ur c t :
  let c0 := Fr e fc fa fk fs :: Fr d gc ga gk (Node Red ul ua uk ur) :: c in
  rep s c0 t -> t <> Leaf ->
  exists s', (set_color fa Black;;; set_color ua Black;;; set_color ga Red;;; ret (ptr t)) s = Ok (ptr t, s') /\
    round_post s s' c0 t (ptr t).
Proof.
  intros c0 Hr Ht. unfold c0 in *.
  destruct (set_color_frame _ _ _ _ _ Black _ _ _ _ Hr) as (s1 & H1 & R1 & Z1). mrun H1.
  apply rep_up, rep_other in R1.
  destruct (set_color_spec _ _ _ _ Black _ _ _ _ R1) as (s2 & H2 & R2 & Z2). mrun H2.
  apply rep_other in R2. replace (opp (opp d)) with d in R2 by (by destruct d).
  destruct (set_color_frame _ _ _ _ _ Red _ _ _ _ R2) as (s3 & H3 & R3 & Z3). mrun H3.
  exists s3. split; [done|]. do 2 eexists. split; [apply rep_up; exact R3|]. split_and!; try done; [|congruence].
  rewrite !elts_plug. by destruct d, e.
Qed.

Lemma round_black d (s : rb) c1 c2 fa fk fs ga gk gs c t :
  let c0 := Fr d c1 fa fk fs :: Fr d c2 ga gk gs :: c in
  rep s c0 t -> t <> Leaf ->
  exists s', (zp <-- get_p (ptr t);; set_color zp Black;;; zpp <-- get_p zp;; set_color zpp Red;;;
    rb_rotate (opp d) zpp;;; ret (ptr t)) s = Ok (ptr t, s') /\ round_post s s' c0 t (ptr t).
Proof.
  intros c0 Hr Ht. unfold c0 in *.
  destruct (parent_color _ _ _ Hr Ht) as (zp & n & Hp & -> & _). mrun Hp. cbn [RbTreeSpec.cptr f_a].
  destruct (set_color_frame _ _ _ _ _ Black _ _ _ _ Hr) as (s1 & H1 & R1 & Z1). mrun H1.
  pose proof (rep_frame _ _ _ _ _ R1) as Ef. cbn [f_a] in Ef. mrun (get_p_ok _ _ _ Ef).
  rewrite (proj2 (proj2 (mkrn_fields _ _ _ _ _ _))). cbn [RbTreeSpec.cptr f_a]. apply rep_up in R1.
  destruct (set_color_frame _ _ _ _ _ Red _ _ _ _ R1) as (s2 & H2 & R2 & Z2). mrun H2. apply rep_up in R2.
  destruct (rotate_out _ _ _ _ _ _ _ _ _ _ _ _ R2) as (s3 & H3 & R3 & Z3). mrun H3.
  exists s3. split; [done|]. do 2 eexists. split; [exact R3|]. split_and!; try done; [|congruence].
  cbn [plug]. apply elts_plug_eq. destruct d; cbn; repeat (rewrite <- app_assoc; cbn); done.
Qed.

Lemma round_spec d f (s : rb) gc ga gk gs c t :
  let c0 := f :: Fr d gc ga gk gs :: c in
  rep s c0 t -> t <> Leaf ->
  exists z s', insert_fix_dir (opp d) (ptr t) s = Ok (z, s') /\ round_post s s' c0 t z.
Proof.
  intros c0 Hr Ht. unfold c0 in *. destruct f as [e fc fa fk fs].
  destruct (parent_color _ _ _ Hr Ht) as (zp & n & Hp & -> & _). unfold insert_fix_dir. mrun Hp.
  pose proof (rep_frame _ _ _ _ _ Hr) as Ef. cbn [f_a f_d f_k f_c f_sib] in Ef.
  cbn [RbTreeSpec.cptr f_a]. mrun (get_p_ok _ _ _ Ef).
  rewrite (proj2 (proj2 (mkrn_fields _ _ _ _ _ _))). cbn [RbTreeSpec.cptr f_a].
  pose proof (rep_frame _ _ _ _ _ (proj1 (rep_up _ _ _ _ _) Hr)) as Eg. cbn [f_a f_d f_k f_c f_sib] in Eg.
  mrun (get_child_ok (opp d) _ _ _ Eg). rewrite (proj2 (child_mkrn _ _ _ _ _ _)).
  assert (Hu : exists un, rb_nodes s !! ptr gs = Some un /\
    (is_red (rn_color un) = true -> exists ul ua uk ur, gs = Node Red ul ua uk ur)).
  { destruct gs as [|uc ul ua uk ur]; cbn [RbTreeSpec.ptr].
    - destruct Hr as [_ _ _ _ _ (un & En & Hb)]. exists un. by rewrite Hb.
    - apply rep_up, rep_other in Hr. pose proof (rep_node nil L _ _ _ _ _ _ _ Hr) as Eu.
      eexists. split; [exact Eu|]. destruct uc; [eauto 6|done]. }
  destruct Hu as (un & Eu & Hun). mrun (get_color_ok _ _ _ Eu).
  destruct (is_red (rn_color un)) eqn:Hred.
  - destruct (Hun eq_refl) as (ul & ua & uk & ur & ->). cbn [RbTreeSpec.ptr].
    destruct (round_red _ _ _ _ _ _ _ _ _ _ _ _ _ _ _ _ Hr Ht) as (s' & H & HP). by exists (ptr t), s'.
  - mrun (get_child_ok (opp d) _ _ _ Ef). replace (opp (opp d)) with d by (by destruct d).
    pose proof (rep_nodup_ptr _ _ _ _ _ _ _ _ _ Hr Ht) as (Hne & _ & _).
    destruct (decide (e = d)) as [->|Hed].
    + rewrite (proj2 (child_mkrn _ _ _ _ _ _)), (proj2 (Z.eqb_neq _ _) Hne). mgo.
      destruct (round_black _ _ _ _ _ _ _ _ _ _ _ _ Hr Ht) as (s' & H & HP). by exists (ptr t), s'.
    + assert (e = opp d) as -> by (by destruct e, d). rewrite (proj1 (child_mkrn _ _ _ _ _ _)), Z.eqb_refl.
      assert (Ht' : exists c1 l a k r, t = mkn d c1 l a k r)
        by (destruct t as [|c1 l a k r]; [done|]; destruct d; [by exists c1, l, a, k, r|by exists c1, r, a, k, l]).
      destruct Ht' as (c1 & l & a & k & r & ->).
      destruct (rotate_in _ _ _ _ _ _ _ _ _ _ _ _ Hr) as (s1 & H1 & R1 & Z1). rewrite bind_assoc. mrun H1. mgo.
      assert (Hm : mkn d fc fs fa fk l <> Leaf) by (by destruct d).
      destruct (round_black _ _ _ _ _ _ _ _ _ _ _ _ R1 Hm) as (s2 & H2 & (c' & t' & P1 & P2 & P3 & P4 & P5 & P6)).
      rewrite mkn_ptr in H2, P3. exists fa, s2. split; [exact H2|]. exists c', t'. split_and!; try done; [|congruence].
      rewrite P5. cbn [plug]. apply elts_plug_eq. destruct d; cbn; repeat (rewrite <- app_assoc; cbn); done.
Qed.

Lemma fixup_spec fuel (s : rb) c t :
  rep s c t -> t <> Leaf -> (c <> [] -> black_root (plug c t)) ->
  exists s' t', insert_fixup (S (S fuel)) (ptr t) s = Ok (tt, s') /\ rep s' [] t' /\ black_root t' /\
    elts t' = elts (plug c t) /\ rb_sz s' = rb_sz s.
Proof.
  intros Hr Ht Hb.
  assert (Hdec : parent_black c \/ ~ parent_black c) by (destruct c as [|f c']; cbn; [by left|]; destruct (f_c f); auto).
  destruct Hdec as [Hpb|Hpb]; [by apply fixup_done|].
  destruct c as [|f c]; [done|]. cbn in Hpb. destruct c as [|g c].
  { exfalso. apply Hpb. specialize (Hb ltac:(done)). cbn in Hb. unfold plug1 in Hb. by destruct (f_d f). }
  assert (Hround : exists z s', insert_fixup (S (S fuel)) (ptr t) s = insert_fixup (S fuel) z s' /\
    round_post s s' (f :: g :: c) t z).
  { destruct (parent_color _ _ _ Hr Ht) as (zp & n & Hp & -> & En & Hc). remember (S fuel) as fu.
    cbn [insert_fixup]. mrun Hp. mrun (get_color_ok _ _ _ En).
    replace (is_red (rn_color n)) with true by (destruct (rn_color n); [done|]; exfalso; by apply Hpb, Hc).
    pose proof (rep_frame _ _ _ _ _ Hr) as Ef. cbn [RbTreeSpec.cptr]. mrun (get_p_ok _ _ _ Ef).
    rewrite (proj2 (proj2 (mkrn_fields _ _ _ _ _ _))). cbn [RbTreeSpec.cptr].
    destruct g as [d gc ga gk gs]. destruct f as [e fc fa fk fs].
    pose proof (proj1 (rep_up _ _ _ _ _) Hr) as Hr'. pose proof (rep_frame _ _ _ _ _ Hr') as Eg.
    assert (Hm : plug1 (Fr e fc fa fk fs) t <> Leaf) by (unfold plug1; by destruct e).
    pose proof (rep_nodup_ptr _ _ _ _ _ _ _ _ _ Hr' Hm) as (Hne & _ & _).
    cbn [f_a f_d f_k f_c f_sib] in *. unfold plug1 in Eg, Hne. cbn [f_a f_d f_k f_c f_sib] in Eg, Hne.
    rewrite mkn_ptr in Eg, Hne. mrun (get_child_ok L _ _ _ Eg).
    destruct (round_spec _ _ _ _ _ _ _ _ _ Hr Ht) as (z & s' & Hrun & HP). exists z, s'. split; [|done].
    destruct d; cbn [child mkrn rn_l opp] in *.
    - rewrite Z.eqb_refl. by mrun Hrun.
    - rewrite (proj2 (Z.eqb_neq _ _) Hne). by mrun Hrun. }
  destruct Hround as (z & s1 & -> & (c' & t1 & P1 & P2 & -> & P4 & P5 & P6)).
  destruct (fixup_done fuel _ _ _ P1 P2 P4) as (s2 & t2 & Q1 & Q2 & Q3 & Q4 & Q5).
  exists s2, t2. split_and!; try done; congruence.
Qed.

(** ** The container *)

(** The store holds the sorted list [l] of nodes, in a tree with a black root. *)
Definition holds (s : rb) (l : list (Z * T)) : Prop :=
  exists t, rep s [] t /\ elts t = l /\ sorted l /\ black_root t.

Lemma rb_find_spec k (s : rb) l : holds s l -> rb_find ltb eqb k s = Ok (sorted_find k l, s).
Proof.
  intros (t & Hr & <- & Hs & _). unfold rb_find, rb_find_by, tree_fuel, get_root. mgo.
  rewrite (r_root _ _ _ _ Hr). cbn [croot]. pose proof (rep_size _ _ _ Hr).
  apply (rb_find_loop_spec k t []); [done|lia|done|split; constructor].
Qed.

(** The nodes [l] in a tree, in whatever order. *)
Definition shaped (s : rb) (l : list (Z * T)) : Prop :=
  exists t, rep s [] t /\ elts t = l /\ black_root t.

Lemma holds_shaped (s : rb) l : holds s l <-> shaped s l /\ sorted l.
Proof.
  split; [intros (t & ? & ? & ? & ?); split; [by exists t|done]|]. intros [(t & ? & ? & ?) ?]. by exists t.
Qed.

(** Allocating the node first changes nothing of the tree. *)
Lemma shaped_fresh a n (s : rb) l : shaped s l -> rb_nodes s !! a = None ->
  shaped (with_nodes (<[a := n]> (rb_nodes s)) s) l.
Proof.
  intros (t & [H1 H2 H3 H4 H5 (nn & En & Hb)] & He & Hbr) Ha. exists t. split; [|done].
  constructor; try done; cbn [rb_nodes with_nodes].
  - eapply tree_at_ext; [|exact H3]. intros z Hz. apply lookup_insert_ne. intros ->.
    destruct (tree_at_dom _ _ _ _ _ H3 Hz). congruence.
  - exists nn. rewrite lookup_insert_ne; [done|congruence].
Qed.

Lemma holds_fresh a n (s : rb) l : holds s l -> rb_nodes s !! a = None ->
  holds (with_nodes (<[a := n]> (rb_nodes s)) s) l.
Proof. rewrite !holds_shaped. intros [? ?] ?. split; [by apply shaped_fresh|done]. Qed.

(** ** The insertion *)

Lemma keeps_new_node k a y : keeps (new_node k a y).
Proof. unfold new_node, set_p, set_root, get_key, set_child. keep. Qed.

(** The insertion once the place of the new node [a] is found. *)
Definition insert_at (k : T) (a : Z) (f : nat) (y : Z) : M rb Z :=
  set_p a y;;;
  (if y =? nil then set_root a
   else yk <-- get_key y;; if ltb k yk then set_child L y a else set_child R y a);;;
  insert_fixup f a;;; add_sz 1;;; ret a.

Lemma insert_at_spec k a c (s : rb) p :
  rep s c Leaf -> black_root (plug c Leaf) -> rb_nodes s !! a = Some (RNode k Red nil nil p) ->
  a ∉ nil :: caddrs c -> goes_to k c ->
  exists s' t, insert_at k a (S (size (rb_nodes s))) (cptr c) s = Ok (a, s') /\ rep s' [] t /\ black_root t /\
    elts t = rev (cside L c) ++ (a, k) :: cside R c /\ dom (rb_nodes s') = dom (rb_nodes s) /\
    rb_sz s' = u32 (rb_sz s + 1).
Proof.
  intros Hrc Hb Ea Ha Hg. unfold insert_at.
  destruct (link_spec k a c p s Hrc Ea Ha Hg) as (s2 & Hlink & Hr2 & Hz2).
  match goal with |- context [bind (set_p a (cptr c)) (fun _ => bind ?X ?Y)] =>
    rewrite <- (bind_assoc (set_p a (cptr c)) (fun _ => X) Y) end.
  fold (new_node k a (cptr c)). mrun Hlink.
  assert (Hpos : (0 < size (rb_nodes s))%nat).
  { apply Nat.neq_0_lt_0, map_size_ne_0_lookup. exists a. by rewrite Ea. }
  destruct (fixup_spec (size (rb_nodes s) - 1) s2 c _ Hr2 ltac:(done)) as (s3 & t3 & Hf & Hr3 & Hb3 & He3 & Hz3).
  { intros Hc0. by apply (plug_black c Leaf). }
  cbn [RbTreeSpec.ptr] in Hf. replace (S (S (size (rb_nodes s) - 1))) with (S (size (rb_nodes s))) in Hf by lia.
  mrun Hf. unfold add_sz. mgo. rewrite elts_plug in He3. cbn [elts] in He3.
  eexists _, t3. split; [done|]. split; [destruct Hr3 as [? ? ? ? ? ?]; by constructor|]. split; [done|].
  split; [done|]. split; cbn [rb_nodes rb_sz]; [|by rewrite Hz3, Hz2].
  by rewrite (keeps_fixup _ _ _ _ _ Hf), (keeps_new_node _ _ _ _ _ _ Hlink).
Qed.

(** Inserting a key that no node has puts the new node somewhere in the
    sequence of nodes, in order or not. *)
Lemma rb_insert_shape a k (s : rb) l :
  shaped s l -> rb_nodes s !! a = None -> Forall (fun p => eqb k p.2 = false) l ->
  exists s' l1 l2, rb_insert ltb eqb a k s = Ok (a, s') /\ l = l1 ++ l2 /\ shaped s' (l1 ++ (a, k) :: l2) /\
    dom (rb_nodes s') = {[a]} ∪ dom (rb_nodes s) /\ rb_sz s' = u32 (rb_sz s + 1).
Proof.
  intros Hh Ha Hk. assert (Hnil : rb_nil s = nil) by (by destruct Hh as (t & [] & _)).
  assert (Han : a <> nil) by (destruct Hh as (t & [_ _ _ _ _ (nn & En & _)] & _); congruence).
  unfold rb_insert. mrun (get_nil_ok s). mgo. rewrite Hnil.
  pose proof (shaped_fresh a (RNode k Red nil nil 0) s l Hh Ha) as Hh1.
  unfold with_nodes in Hh1. rewrite Hnil in Hh1. set (s1 := Rb _ _ _ _) in *.
  destruct Hh1 as (t & Hr & <- & Hb). unfold tree_fuel, get_root. mgo.
  rewrite (r_root _ _ _ _ Hr). cbn [croot]. pose proof (rep_size _ _ _ Hr) as Hsize.
  destruct (insert_loop_shape k t [] (S (size (rb_nodes s1))) s1) as (c & Hrun & Hrc & Hpl & Hg); [done|lia|done|done|].
  cbn [plug RbTreeSpec.cptr] in *. mrun Hrun. fold (insert_at k a (S (size (rb_nodes s1))) (cptr c)).
  destruct (insert_at_spec k a c s1 0 Hrc) as (s2 & t2 & Hin & Hr2 & Hb2 & He2 & Hd2 & Hz2).
  - by rewrite Hpl.
  - cbn. by rewrite lookup_insert_eq.
  - destruct Hh as (t0 & Hr0 & Ht0 & _). apply not_elem_of_cons. split; [done|]. intros Hin.
    assert (Hin' : a ∈ addrs t) by (rewrite <- Hpl, plug_addrs; apply elem_of_app; by right).
    rewrite <- elts_addrs, <- Ht0, elts_addrs in Hin'.
    destruct (tree_at_dom _ _ _ _ _ (r_tree _ _ _ _ Hr0) Hin'). congruence.
  - done.
  - exists s2, (rev (cside L c)), (cside R c). split; [exact Hin|]. split; [by rewrite <- Hpl, elts_plug|].
    split; [by exists t2|]. split; [|exact Hz2]. rewrite Hd2. cbn. by rewrite dom_insert_L.
Qed.

Lemma rb_insert_spec a k (s : rb) l :
  holds s l -> rb_nodes s !! a = None ->
  exists s', rb_insert ltb eqb a k s = Ok (sorted_find k (sorted_insert a k l), s') /\
    holds s' (sorted_insert a k l) /\ dom (rb_nodes s') = {[a]} ∪ dom (rb_nodes s) /\
    rb_sz s' = (if sorted_find k l =? nil then u32 (rb_sz s + 1) else rb_sz s).
Proof.
  intros Hh Ha. assert (Hnil : rb_nil s = nil) by (by destruct Hh as (t & [] & _)).
  assert (Han : a <> nil) by (destruct Hh as (t & [_ _ _ _ _ (nn & En & _)] & _); congruence).
  unfold rb_insert. mrun (get_nil_ok s). mgo. rewrite Hnil.
  pose proof (holds_fresh a (RNode k Red nil nil 0) s l Hh Ha) as Hh1.
  unfold with_nodes in Hh1. rewrite Hnil in Hh1. set (s1 := Rb _ _ _ _) in *.
  destruct Hh1 as (t & Hr & <- & Hs & Hb). unfold tree_fuel, get_root. mgo.
  rewrite (r_root _ _ _ _ Hr). cbn [croot]. pose proof (rep_size _ _ _ Hr) as Hsize.
  assert (Hd1 : dom (rb_nodes s1) = {[a]} ∪ dom (rb_nodes s)) by (cbn; by rewrite dom_insert_L).
  destruct (insert_loop_spec k t [] (S (size (rb_nodes s1))) s1) as
    [(x & l1 & l2 & Hrun & He & Hl1)|(c & Hrun & Hrc & Hpl & Hc)]; [done|lia|done|split; constructor| |].
  - cbn [plug RbTreeSpec.cptr] in *. mrun Hrun. rewrite He, sorted_insert_there, sorted_find_at by done.
    assert (Hx : x <> nil).
    { intros ->. destruct Hr as [_ _ _ _ Hnd _]. apply NoDup_cons in Hnd as [Hn _]. apply Hn, elem_of_app. left.
      rewrite <- (elts_addrs t), He, fmap_app. apply elem_of_app. right. apply elem_of_cons. by left. }
    exists s1. rewrite (proj2 (Z.eqb_neq _ _) Hx). split_and!; try done.
    exists t. split_and!; try done. by rewrite <- He.
  - cbn [plug RbTreeSpec.cptr] in *. mrun Hrun.
    assert (He : elts t = rev (cside L c) ++ cside R c) by (rewrite <- Hpl, elts_plug; done).
    destruct Hc as [HcL HcR]. apply Forall_rev in HcL as HcL'.
    assert (Ha1 : a ∉ nil :: caddrs c).
    { apply not_elem_of_cons. split; [done|]. intros Hin. destruct Hh as (t0 & Hr0 & Ht0 & _).
      assert (Hin' : a ∈ addrs t).
      { rewrite <- Hpl, plug_addrs. apply elem_of_app. by right. }
      rewrite <- elts_addrs, <- Ht0, elts_addrs in Hin'.
      destruct (tree_at_dom _ _ _ _ _ (r_tree _ _ _ _ Hr0) Hin'). congruence. }
    assert (Ea : rb_nodes s1 !! a = Some (RNode k Red nil nil 0)) by (cbn; by rewrite lookup_insert_eq).
    fold (insert_at k a (S (size (rb_nodes s1))) (cptr c)).
    destruct (insert_at_spec k a c s1 0 Hrc) as (s3 & t3 & Hin & Hr3 & Hb3 & He3 & Hd3 & Hz3);
      [by rewrite Hpl|exact Ea|exact Ha1|by apply hole_goes|]. rewrite Hin.
    rewrite He, sorted_insert_at, sorted_find_at, sorted_find_none, Z.eqb_refl by done.
    exists s3. split; [done|]. split; [|split; [congruence|exact Hz3]].
    exists t3. split_and!; try done. apply sorted_mid. split_and!; try done. by rewrite <- He.
Qed.

(** ** Walking *)

Lemma extreme_loop_spec d t : forall c fuel y (s : rb), rep s c t -> (length (addrs t) < fuel)%nat ->
  extreme_loop fuel d (ptr t) y s =
  Ok (match delts (opp d) t with [] => y | p :: _ => p.1 end, s).
Proof.
  assert (Hd : opp (opp d) = d) by (by destruct d).
  induction t as [|c0 l IHl a k r IHr]; intros c fuel y s Hr Hf; (destruct fuel as [|fuel]; [cbn in Hf; lia|]);
    cbn [extreme_loop RbTreeSpec.ptr]; mrun (get_nil_ok s); rewrite (r_nil _ _ _ _ Hr).
  - rewrite Z.eqb_refl. by destruct d.
  - pose proof (rep_ptr_ne _ _ _ Hr ltac:(done)) as Ha. cbn in Ha. rewrite (proj2 (Z.eqb_neq _ _) Ha).
    mrun (get_child_ok d _ _ _ (rep_node nil L _ _ _ _ _ _ _ Hr)). cbn [addrs length] in Hf. rewrite length_app in Hf.
    assert (Hne : forall (u v : list (Z * T)) y, match u ++ (a, k) :: v with [] => y | p :: _ => p.1 end =
      match u with [] => a | p :: _ => p.1 end) by (by intros [|? ?] ? ?).
    destruct d; cbn [child mkrn rn_l rn_r opp].
    + rewrite (IHl (Fr L c0 a k r :: c)); [|by apply rep_up|lia]. cbn. by rewrite Hne.
    + rewrite (IHr (Fr R c0 a k l :: c)); [|by apply rep_up|lia]. cbn. rewrite rev_app_distr. cbn. rewrite <- app_assoc. cbn [app]. by rewrite Hne.
Qed.

Lemma extreme_spec d c t (s : rb) : rep s c t -> extreme d (ptr t) s = Ok (first_addr nil (delts (opp d) t), s).
Proof.
  intros Hr. unfold extreme, tree_fuel. mgo. mrun (get_nil_ok s). rewrite (r_nil _ _ _ _ Hr).
  pose proof (rep_size _ _ _ Hr). by rewrite (extreme_loop_spec _ _ c) by (done || lia).
Qed.

Lemma climb_spec d c : forall t fuel (s : rb), rep s c t -> t <> Leaf -> (length c < fuel)%nat ->
  climb_loop fuel d (ptr t) (cptr c) s = Ok (first_addr nil (cside d c), s).
Proof.
  induction c as [|[e c0 a k u] c IH]; intros t fuel s Hr Ht Hf; (destruct fuel as [|fuel]; [cbn in Hf; lia|]);
    cbn [climb_loop]; mrun (get_nil_ok s); rewrite (r_nil _ _ _ _ Hr); cbn [RbTreeSpec.cptr f_a].
  - by rewrite Z.eqb_refl.
  - destruct (rep_nodup_ptr _ _ _ _ _ _ _ _ _ Hr Ht) as (Hne & _ & Ha). rewrite (proj2 (Z.eqb_neq _ _) Ha).
    pose proof (rep_frame _ _ _ _ _ Hr) as Ef. cbn [f_a f_d f_k f_c f_sib] in Ef. mrun (get_child_ok d _ _ _ Ef).
    pose proof (proj1 (rep_up _ _ _ _ _) Hr) as Hr'.
    assert (Hup : plug1 (Fr e c0 a k u) t <> Leaf) by (unfold plug1; by destruct e).
    specialize (IH _ fuel s Hr' Hup ltac:(cbn in Hf; lia)). unfold plug1 in IH.
    rewrite mkn_ptr in IH. cbn [f_a] in IH.
    destruct e, d; cbn [child mkrn rn_l rn_r cside f_d dir_eqb f_a];
      rewrite ?Z.eqb_refl, ?(proj2 (Z.eqb_neq _ _) Hne); try done;
      mrun (get_p_ok _ _ _ Ef); cbn [mkrn rn_p]; apply IH.
Qed.

Lemma caddrs_length (c : ctx) : (length c <= length (caddrs c))%nat.
Proof. induction c as [|f c IH]; cbn; [lia|]. rewrite length_app. lia. Qed.

Lemma rep_depth (s : rb) c t : rep s c t -> (length c < size (rb_nodes s))%nat.
Proof.
  intros Hr. pose proof (rep_size _ _ _ (proj1 (rep_plug _ _ _ _) Hr)) as H.
  rewrite plug_addrs, length_app in H. pose proof (caddrs_length c). lia.
Qed.

Lemma neighbour_spec d c c0 tl a k tr (s : rb) : rep s c (mkn d c0 tl a k tr) ->
  neighbour d a s = Ok (first_addr nil (delts d tl ++ cside d c), s).
Proof.
  intros Hr. assert (Hm : mkn d c0 tl a k tr <> Leaf) by (by destruct d).
  pose proof (rep_ptr_ne _ _ _ Hr Hm) as Ha. rewrite mkn_ptr in Ha.
  unfold neighbour. mrun (get_nil_ok s). rewrite (r_nil _ _ _ _ Hr), (proj2 (Z.eqb_neq _ _) Ha).
  pose proof (rep_node _ _ _ _ _ _ _ _ _ Hr) as E. mrun (get_child_ok d _ _ _ E).
  rewrite (proj1 (child_mkrn _ _ _ _ _ _)).
  assert (Htl : rep s (Fr d c0 a k tr :: c) tl) by (by apply rep_up).
  destruct tl as [|c1 l1 a1 k1 r1].
  - cbn [RbTreeSpec.ptr]. rewrite Z.eqb_refl. cbn [negb]. unfold tree_fuel. mgo.
    mrun (get_p_ok _ _ _ E). rewrite (proj2 (proj2 (mkrn_fields _ _ _ _ _ _))).
    pose proof (rep_depth _ _ _ Hr). pose proof (climb_spec d c _ (S (size (rb_nodes s))) s Hr Hm ltac:(lia)) as Hc.
    rewrite mkn_ptr in Hc. rewrite Hc. by destruct d.
  - pose proof (rep_ptr_ne _ _ _ Htl ltac:(done)) as Hn. rewrite (proj2 (Z.eqb_neq _ _) Hn). cbn [negb].
    rewrite (extreme_spec _ _ _ _ Htl). replace (opp (opp d)) with d by (by destruct d). do 2 f_equal.
    destruct (delts d (Node c1 l1 a1 k1 r1)) eqn:Ed; [|done]. exfalso.
    destruct d; cbn in Ed; [|by destruct (elts l1)]. rewrite rev_app_distr in Ed. cbn in Ed. by destruct (rev (elts r1)).
Qed.

Lemma plug_snoc (c : ctx) f (t : tree) : plug (c ++ [f]) t = plug1 f (plug c t).
Proof. revert t. induction c as [|g c IH]; intros t; cbn; [done|]. apply IH. Qed.
Lemma cside_app d (c1 c2 : ctx) : cside d (c1 ++ c2) = cside d c1 ++ cside d c2.
Proof. induction c1 as [|f c IH]; cbn; [done|]. destruct (dir_eqb (f_d f) d); [done|]. rewrite IH. cbn. by rewrite app_assoc. Qed.

(** The node at a position of the order. *)
Lemma elts_split (t : tree) : forall l1 a k l2, elts t = l1 ++ (a, k) :: l2 ->
  exists c c0 tl tr, plug c (Node c0 tl a k tr) = t /\ l1 = rev (cside L c) ++ elts tl /\ l2 = elts tr ++ cside R c.
Proof.
  induction t as [|c0 l IHl b kb r IHr]; intros l1 a k l2 E; cbn in E; [by destruct l1|].
  apply app_eq_inv in E as [(m & E1 & E2)|(m & E1 & E2)].
  - destruct m as [|q m]; cbn in E2.
    + injection E2 as ? ? ?. rewrite app_nil_r in E1. subst. exists [], c0, l, r. cbn. by rewrite ?app_nil_r.
    + injection E2 as <- E2. destruct (IHl _ _ _ _ E1) as (c & c1 & tl & tr & P1 & -> & ->).
      exists (c ++ [Fr L c0 b kb r]), c1, tl, tr. rewrite plug_snoc, P1, !cside_app. cbn. subst.
      split_and!; [done|by rewrite ?app_nil_r|by rewrite <- ?app_assoc, ?app_nil_r].
  - destruct m as [|q m]; cbn in E2.
    + injection E2 as ? ? ?. rewrite app_nil_r in E1. subst. exists [], c0, l, r. cbn. by rewrite ?app_nil_r.
    + injection E2 as <- E2. destruct (IHr _ _ _ _ E2) as (c & c1 & tl & tr & P1 & -> & ->).
      exists (c ++ [Fr R c0 b kb l]), c1, tl, tr. rewrite plug_snoc, P1, !cside_app. cbn. subst.
      rewrite !app_nil_r, rev_app_distr. cbn. rewrite rev_involutive. split_and!; [done| |done].
      by rewrite <- !app_assoc.
Qed.

Lemma rb_walk_spec (s : rb) l l1 a k l2 : holds s l -> l = l1 ++ (a, k) :: l2 ->
  node_succ a s = Ok (first_addr nil l2, s) /\ node_pred a s = Ok (first_addr nil (rev l1), s).
Proof.
  intros (t & Hr & <- & _) E. destruct (elts_split _ _ _ _ _ E) as (c & c0 & tl & tr & <- & -> & ->).
  apply rep_plug in Hr. split.
  - unfold node_succ. by rewrite (neighbour_spec R c c0 tr a k tl s Hr).
  - unfold node_pred. rewrite (neighbour_spec L c c0 tl a k tr s Hr). cbn. by rewrite rev_app_distr, rev_involutive.
Qed.

Lemma rb_ends_spec (s : rb) l : holds s l ->
  rb_min s = Ok (first_addr nil l, s) /\ rb_max s = Ok (first_addr nil (rev l), s).
Proof.
  intros (t & Hr & <- & _). unfold rb_min, rb_max, node_min, node_max, get_root. mgo. rewrite (r_root _ _ _ _ Hr). cbn [croot].
  split; by rewrite (extreme_spec _ _ _ _ Hr).
Qed.

(** ** Sequences of insertions *)

Fixpoint rb_inserts (ops : list (Z * T)) : M rb unit :=
  match ops with [] => ret tt | p :: r => rb_insert ltb eqb p.1 p.2;;; rb_inserts r end.
Definition set_inserts (ops : list (Z * T)) (l : list (Z * T)) : list (Z * T) :=
  fold_left (fun l p => sorted_insert p.1 p.2 l) ops l.

Lemma holds_new k j : holds (rb_new nil k j) [].
Proof.
  exists Leaf. split_and!; try done. constructor; try done; cbn.
  - apply NoDup_singleton.
  - eexists. by rewrite lookup_singleton_eq.
Qed.

Lemma holds_nodes s l : holds s l -> nil ∉ l.*1 /\ sorted l.
Proof.
  intros (t & [_ _ _ _ Hnd _] & <- & Hs & _). split; [|done]. rewrite elts_addrs.
  apply NoDup_cons in Hnd as [Hn _]. rewrite app_nil_r in Hn. done.
Qed.

Lemma sorted_insert_length a k l : nil ∉ l.*1 -> sorted l ->
  length (sorted_insert a k l) = (if sorted_find k l =? nil then S (length l) else length l).
Proof.
  induction l as [|p l IH]; cbn; [by rewrite Z.eqb_refl|]. rewrite not_elem_of_cons. intros [Hp Hn] [Ha Hs].
  destruct (eqb k p.2); [by rewrite (proj2 (Z.eqb_neq _ _)) by congruence|].
  destruct (ltb k p.2) eqn:E.
  - cbn. replace (sorted_find k l) with nil; [by rewrite Z.eqb_refl|]. symmetry.
    apply (sorted_find_none k [] l); [constructor|]. eapply Forall_impl; [exact Ha|].
    intros q Hq. eapply key_trans; [exact E|exact Hq].
  - cbn. rewrite IH by done. by destruct (sorted_find k l =? nil).
Qed.

Lemma rb_inserts_spec ops : forall (s : rb) l,
  holds s l -> NoDup ops.*1 -> (forall a, a ∈ ops.*1 -> rb_nodes s !! a = None) ->
  rb_sz s = u32 (rb_sz s) ->
  exists s', rb_inserts ops s = Ok (tt, s') /\ holds s' (set_inserts ops l) /\
    rb_sz s' = u32 (rb_sz s + Z.of_nat (length (set_inserts ops l)) - Z.of_nat (length l)).
Proof.
  induction ops as [|[a k] ops IH]; intros s l Hh Hnd Hfr Hsz; cbn.
  - exists s. split_and!; try done. rewrite Hsz at 1. f_equal. lia.
  - apply NoDup_cons in Hnd as [Ha Hnd].
    destruct (rb_insert_spec a k s l Hh) as (s1 & Hrun & Hh1 & Hd1 & Hz1); [by apply Hfr, elem_of_cons; left|].
    mrun Hrun. destruct (holds_nodes _ _ Hh) as [Hn Hs].
    pose proof (sorted_insert_length a k l Hn Hs) as Hlen.
    destruct (IH s1 _ Hh1 Hnd) as (s2 & Hrun2 & Hh2 & Hz2).
    + intros b Hb. apply not_elem_of_dom. rewrite Hd1, elem_of_union, elem_of_singleton.
      intros [->|Hd]; [done|]. apply elem_of_dom in Hd as [n En]. rewrite Hfr in En; [done|]. apply elem_of_cons. by right.
    + rewrite Hz1. destruct (sorted_find k l =? nil); [|done]. unfold u32, wrap. by rewrite Z.mod_mod.
    + exists s2. split_and!; try done. rewrite Hz2, Hz1, Hlen. destruct (sorted_find k l =? nil).
      * rewrite <- !Z.add_sub_assoc, u32_add_l. f_equal. unfold set_inserts. lia.
      * done.
Qed.

(** C6: under any sequence of insertions of fresh nodes, the tree is a set of
    keys in order: it keeps the first node of each key, [find] and [contains]
    answer for every key, [min]/[max] and the walk by [succ]/[pred] follow the
    sorted order, and [size] grows by the number of distinct keys (it starts
    from the uninitialised [sz]).  No operation faults or runs out of fuel. *)
Theorem rb_refines_ordered_set k0 junk ops :
  NoDup (nil :: ops.*1) -> 0 <= junk < 2 ^ 32 ->
  exists s, rb_inserts ops (rb_new nil k0 junk) = Ok (tt, s) /\
    let l := set_inserts ops [] in
    sorted l /\
    (forall k, rb_find ltb eqb k s = Ok (sorted_find k l, s) /\
               rb_contains ltb eqb k s = Ok (negb (sorted_find k l =? nil), s)) /\
    rb_min s = Ok (first_addr nil l, s) /\ rb_max s = Ok (first_addr nil (rev l), s) /\
    (forall l1 a k l2, l = l1 ++ (a, k) :: l2 ->
       node_succ a s = Ok (first_addr nil l2, s) /\ node_pred a s = Ok (first_addr nil (rev l1), s)) /\
    rb_size s = Ok (u32 (junk + Z.of_nat (length l)), s).
Proof.
  intros [Hn Hnd]%NoDup_cons Hj.
  destruct (rb_inserts_spec ops (rb_new nil k0 junk) [] (holds_new k0 junk) Hnd) as (s & Hrun & Hh & Hz).
  { intros a Ha. cbn. apply lookup_singleton_ne. by intros ->. }
  { symmetry. by apply u32_small. }
  exists s. split; [done|]. intros l. split; [by apply (holds_nodes s)|]. split.
  { intros k. pose proof (rb_find_spec k _ _ Hh) as Hf. split; [done|]. unfold rb_contains. mrun Hf.
    mrun (get_nil_ok s). destruct Hh as (t & [-> _ _ _ _ _] & _). done. }
  destruct (rb_ends_spec _ _ Hh) as [Hmin Hmax]. split; [done|]. split; [done|]. split.
  { intros l1 a k l2 E. by apply (rb_walk_spec s l l1 a k l2). }
  unfold rb_size. mgo. unfold ret. rewrite Hz. cbn [rb_sz rb_new length Z.of_nat]. by rewrite Z.sub_0_r.
Qed.
End set.

(** ** Deletion and balance, evaluated *)

Inductive rb_op : Type := Ins (a k : Z) | Del (k : Z).
Definition rb_exec (o : rb_op) : M (rb (T := Z)) unit :=
  match o with
  | Ins a k => rb_insert Z.ltb Z.eqb a k;;; ret tt
  | Del k => x <-- rb_find Z.ltb Z.eqb k;; rb_erase x
  end.
Fixpoint rb_prog (ops : list rb_op) : M (rb (T := Z)) unit :=
  match ops with [] => ret tt | o :: r => rb_exec o;;; rb_prog r end.

(** Keys 1 to 8 are inserted, 2 is erased and inserted again, and everything
    but 1 and 2 is erased. *)
Definition lossy_ops : list rb_op :=
  map (fun k => Ins k k) [1; 2; 3; 4; 5; 6; 7; 8] ++
  [Del 8; Del 2; Ins 12 2; Del 7; Del 4; Del 5; Del 6; Del 3].


Definition first_keys (n : nat) : list (Z * Z) := map (fun k => (Z.of_nat k, Z.of_nat k)) (seq 1 n).

Lemma rb_refines_ordered_set_witness :
  exists s, rb_inserts Z.ltb Z.eqb [(1, 5); (2, 3); (3, 9); (4, 3)] (rb_new 100 0 7) = Ok (tt, s) /\
    rb_find Z.ltb Z.eqb 3 s = Ok (2, s) /\ rb_find Z.ltb Z.eqb 4 s = Ok (100, s) /\
    rb_min s = Ok (2, s) /\ node_succ 1 s = Ok (3, s) /\ rb_size s = Ok (10, s).
Proof.
  destruct (rb_refines_ordered_set Z.ltb Z.eqb 100 0 7 [(1, 5); (2, 3); (3, 9); (4, 3)]) as
    (s & Hrun & _ & Hf & Hmin & _ & Hw & Hsz); [|lia|].
  { cbn. repeat (apply NoDup_cons; split; [set_solver|]). constructor. }
  exists s. split; [exact Hrun|]. split; [apply (Hf 3)|]. split; [apply (Hf 4)|]. split; [exact Hmin|].
  split; [apply (Hw [(2, 3)] 1 5 [(3, 9)]); reflexivity|exact Hsz].
Defined.

Fixpoint depth_at (fuel : nat) (s : rb (T := Z)) (x : Z) : nat :=
  match fuel with
  | O => O
  | S f => if x =? rb_nil s then O
           else match rb_nodes s !! x with
                | None => O
                | Some n => S (Nat.max (depth_at f s (rn_l n)) (depth_at f s (rn_r n)))
                end
  end.

(** Inserting 1 to 64 in ascending order, as the scheduler's run queues fill,
    gives a tree of depth 33: the red-uncle case does not go on with the
    grandparent. *)
Lemma ascending_inserts_degenerate :
  exists s, rb_inserts Z.ltb Z.eqb (first_keys 64) (rb_new 100 0 0) = Ok (tt, s) /\ depth_at 65 s (rb_root s) = 33%nat.
Proof. eexists. split; [vm_compute; reflexivity|]. vm_compute. reflexivity. Qed.
