(* ===== verification/RbErase.v ===== *)
(** * Deletion from a red-black tree

    [rbtree::erase] (include/lib/rbtree.h) on a tree that satisfies the
    red-black conditions: it removes the node it is given and nothing else and
    restores the conditions.  (Insertion does not keep them, RbSet.v; on the
    trees it builds deletion can go wrong.) *)

From S2P Require Import Prelude RbTree RbTreeSpec RbSet.
From stdpp Require Import gmap list.
#[local] Open Scope Z_scope.

Section erase.
Context {T : Type} (nil : Z).
Notation rb := (@rb T).
Notation tree := (@tree T).
Notation ctx := (@ctx T).
Notation rep := (rep nil).
Notation ptr := (ptr nil).
Notation cptr := (cptr nil).

(** ** The red-black conditions *)

Definition tcolor (t : tree) : color := match t with Leaf => Black | Node c _ _ _ _ => c end.

(** No red node has a red child, and every path down meets [n] black nodes. *)
Fixpoint rbt (n : nat) (t : tree) : Prop :=
  match t with
  | Leaf => n = O
  | Node Red l _ _ r => black_root l /\ black_root r /\ rbt n l /\ rbt n r
  | Node Black l _ _ r => match n with O => False | S m => rbt m l /\ rbt m r end
  end.
Definition proper (t : tree) : Prop := black_root t /\ exists n, rbt n t.

(** A place for a tree of black height [n]. *)
Fixpoint cok (n : nat) (c : ctx) : Prop :=
  match c with
  | [] => True
  | f :: r => rbt n (f_sib f) /\
    match f_c f with Black => cok (S n) r | Red => black_root (f_sib f) /\ parent_black r /\ cok n r end
  end.
Definition fits (c : ctx) (t : tree) : Prop := parent_black c \/ black_root t.

Lemma rbt_mkn n d c (t : tree) a k u :
  rbt n (mkn d c t a k u) <->
  match c with
  | Red => black_root t /\ black_root u /\ rbt n t /\ rbt n u
  | Black => match n with O => False | S m => rbt m t /\ rbt m u end
  end.
Proof. destruct d, c; cbn; [done|done|tauto|destruct n; tauto]. Qed.

Lemma black_root_mkn d c (t : tree) a k u : black_root (mkn d c t a k u) <-> c = Black.
Proof. by destruct d. Qed.

Lemma rbt_plug c : forall n t, cok n c -> rbt n t -> fits c t -> exists m, rbt m (plug c t).
Proof.
  induction c as [|f c IH]; intros n t Hc Ht Hf; [by exists n|]. cbn [plug cok] in *. destruct Hc as [Hs Hc].
  destruct (f_c f) eqn:Ef.
  - destruct Hc as (Hb & Hp & Hc). apply (IH n); [done| |by left]. unfold plug1. rewrite Ef. apply rbt_mkn.
    destruct Hf as [Hf|Hf]; [cbn in Hf; congruence|]. done.
  - apply (IH (S n)); [done| |right; unfold plug1; rewrite Ef; by apply black_root_mkn].
    unfold plug1. rewrite Ef. by apply rbt_mkn.
Qed.

Lemma rbt_unplug c : forall m t, rbt m (plug c t) -> exists n, cok n c /\ rbt n t /\ fits c t.
Proof.
  induction c as [|f c IH]; intros m t Ht; [exists m; split_and!; [done|done|by left]|]. cbn [plug] in Ht.
  destruct (IH _ _ Ht) as (n & Hc & Hp & Hf). unfold plug1 in Hp, Hf. rewrite rbt_mkn in Hp. unfold fits in Hf. rewrite black_root_mkn in Hf.
  destruct (f_c f) eqn:Ef.
  - destruct Hp as (H1 & H2 & H3 & H4). exists n. split_and!; [|done|by right]. cbn [cok]. rewrite Ef.
    destruct Hf as [Hf|Hf]; [done|congruence].
  - destruct n as [|n]; [done|]. destruct Hp. exists n. split_and!; [|done|by left]. cbn [cok]. by rewrite Ef.
Qed.

(** A tree that is one black node short: a red root may have red children, it
    is going to be black. *)
Definition deficient (n : nat) (t : tree) : Prop :=
  match t with Node Red l _ _ r => rbt n l /\ rbt n r | _ => rbt n t end.
Lemma rbt_deficient n t : rbt n t -> deficient n t.
Proof. destruct t as [|[] l a k r]; cbn; tauto. Qed.

(** The root's colour does not depend on what is in the hole. *)
Definition top_ok (c : ctx) : Prop := c <> [] -> black_root (plug c Leaf).
Lemma top_up f (c : ctx) : top_ok (f :: c) -> top_ok c.
Proof. intros Ht Hc. eapply plug_black; [done|]. by apply Ht. Qed.
Lemma top_black (f : frame) : top_ok [f] -> f_c f = Black.
Proof. intros Ht. specialize (Ht ltac:(done)). cbn in Ht. unfold plug1 in Ht. by apply black_root_mkn in Ht. Qed.
Lemma top_frame d a k u d' a' k' u' co (c : ctx) : top_ok (Fr d co a k u :: c) -> top_ok (Fr d' co a' k' u' :: c).
Proof.
  intros Ht _. specialize (Ht ltac:(done)). cbn [plug] in *. destruct c as [|g c].
  - cbn in *. unfold plug1 in *. by rewrite black_root_mkn in *.
  - by eapply plug_black.
Qed.

(** ** Reading around the hole *)

(** The sentinel in the hole points to the node above. *)
Definition hole_p (s : rb) (c : ctx) (x : tree) : Prop :=
  x = Leaf -> c <> [] -> exists n, rb_nodes s !! nil = Some n /\ rn_p n = cptr c.

Lemma hole_parent (s : rb) c x : rep s c x -> hole_p s c x -> c <> [] -> get_p (ptr x) s = Ok (cptr c, s).
Proof.
  intros Hr Hh Hc. destruct x as [|c0 l a k r]; cbn [RbTreeSpec.ptr].
  - destruct (Hh eq_refl Hc) as (n & En & <-). by apply get_p_ok.
  - by rewrite (get_p_ok _ _ _ (rep_node nil L _ _ _ _ _ _ _ Hr)).
Qed.

Lemma hole_color (s : rb) c x : rep s c x -> get_color (ptr x) s = Ok (tcolor x, s).
Proof.
  intros Hr. destruct x as [|c0 l a k r]; cbn [RbTreeSpec.ptr tcolor].
  - destruct Hr as [_ _ _ _ _ (n & En & Hb)]. by rewrite (get_color_ok _ _ _ En), Hb.
  - by rewrite (get_color_ok _ _ _ (rep_node nil L _ _ _ _ _ _ _ Hr)).
Qed.

Lemma hole_sibling (s : rb) d c0 a k u c x : rep s (Fr d c0 a k u :: c) x -> get_child (opp d) a s = Ok (ptr u, s).
Proof.
  intros Hr. pose proof (rep_frame _ _ _ _ _ Hr) as E. cbn [f_a f_d f_k f_c f_sib] in E.
  by rewrite (get_child_ok (opp d) _ _ _ E), (proj2 (child_mkrn _ _ _ _ _ _)).
Qed.

Lemma hole_below (s : rb) d c0 a k u c x : rep s (Fr d c0 a k u :: c) x -> get_child d a s = Ok (ptr x, s).
Proof.
  intros Hr. pose proof (rep_frame _ _ _ _ _ Hr) as E. cbn [f_a f_d f_k f_c f_sib] in E.
  by rewrite (get_child_ok d _ _ _ E), (proj1 (child_mkrn _ _ _ _ _ _)).
Qed.

Lemma opp_opp d : opp (opp d) = d.
Proof. by destruct d. Qed.

(** The children of the sibling [w] and their colours. *)
Lemma sibling_down (s : rb) d pc pa pk wc wn wa wk wf c x :
  rep s (Fr d pc pa pk (mkn d wc wn wa wk wf) :: c) x <->
  rep s (Fr d wc wa wk wf :: Fr (opp d) pc pa pk x :: c) wn.
Proof. rewrite rep_other, (rep_up _ _ (Fr d wc wa wk wf)). done. Qed.

Lemma sibling_down_far (s : rb) d pc pa pk wc wn wa wk wf c x :
  rep s (Fr d pc pa pk (mkn d wc wn wa wk wf) :: c) x <->
  rep s (Fr (opp d) wc wa wk wn :: Fr (opp d) pc pa pk x :: c) wf.
Proof. by rewrite sibling_down, rep_other. Qed.

(** ** One round *)

(** The rest of a round, once the sibling [w] is black. *)
Definition fix_rest (a : dir) (x w : Z) : M rb Z :=
  let b := opp a in
  wl <-- get_child L w;; wlc <-- get_color wl;;
  wr <-- get_child R w;; wrc <-- get_color wr;;
  if negb (is_red wlc) && negb (is_red wrc) then
    set_color w Red;;; get_p x
  else
    wa <-- get_child a w;; wac <-- get_color wa;;
    w <-- (if negb (is_red wac) then
             wb <-- get_child b w;; set_color wb Black;;; set_color w Red;;; rb_rotate a w;;;
             xp <-- get_p x;; get_child a xp
           else ret w);;
    xp <-- get_p x;; xpc <-- get_color xp;;
    set_color w xpc;;;
    set_color xp Black;;;
    wa <-- get_child a w;; set_color wa Black;;;
    rb_rotate b xp;;;
    get_root.

(** What a round leaves: the same nodes in the same order, the shortage one
    step up, or a red node that takes the black colour. *)
Definition fix_post (s s' : rb) (c : ctx) (x : tree) (z : Z) : Prop :=
  exists c' x' n, rep s' c' x' /\ z = ptr x' /\ x' <> Leaf /\ deficient n x' /\ cok (S n) c' /\ top_ok c' /\
    (c' = [] \/ tcolor x' = Red \/ parent_black c /\ c' = tail c) /\ elts (plug c' x') = elts (plug c x) /\
    rb_sz s' = rb_sz s.

(** Both children of the sibling are black: the sibling becomes red. *)
Lemma rest_recolour (s : rb) d pc pa pk wn wa wk wf c x n :
  let c0 := Fr d pc pa pk (mkn d Black wn wa wk wf) :: c in
  rep s c0 x -> hole_p s c0 x -> black_root x -> rbt n x -> cok (S n) c0 -> top_ok c0 ->
  black_root wn -> black_root wf ->
  exists s', (set_color wa Red;;; get_p (ptr x)) s = Ok (pa, s') /\ fix_post s s' c0 x pa.
Proof.
  intros c0 Hr Hh Hb Hx Hc Ht Bn Bf. unfold c0 in *.
  destruct (set_color_mkn nil d s _ Black Red wn wa wk wf (proj1 (rep_other nil _ _ _ _ _ _ _ _) Hr)) as (s1 & R1 & H1 & Z1).
  apply rep_other in H1. mrun R1.
  rewrite (hole_parent s1 _ x H1); [|intros E Hne; destruct (Hh E ltac:(done)) as (m & Em & Hm); exists m; split; [congruence|done]|done].
  exists s1. split; [done|]. cbn [cok f_sib f_c] in Hc. rewrite rbt_mkn in Hc. destruct Hc as [[Hn Hf] Hc].
  exists c, (mkn d pc x pa pk (mkn d Red wn wa wk wf)).
  assert (Hel : elts (plug c (mkn d pc x pa pk (mkn d Red wn wa wk wf))) = elts (plug (Fr d pc pa pk (mkn d Black wn wa wk wf) :: c) x)).
  { cbn [plug]. apply elts_plug_eq. unfold plug1. cbn. by destruct d. }
  destruct pc.
  - destruct Hc as (_ & _ & Hc). exists n. split; [by apply rep_up in H1|]. split; [by rewrite mkn_ptr|]. split; [by destruct d|].
    split; [|split; [done|split; [by eapply top_up|split; [right; left; by destruct d|split; [done|congruence]]]]].
    assert (Hd : rbt n x /\ rbt n (mkn d Red wn wa wk wf)) by (split; [done|]; by apply rbt_mkn). destruct d; cbn; tauto.
  - exists (S n). split; [by apply rep_up in H1|]. split; [by rewrite mkn_ptr|]. split; [by destruct d|].
    split; [|split; [done|split; [by eapply top_up|split; [by right; right|split; [done|congruence]]]]].
    apply rbt_deficient, rbt_mkn. split; [done|]. by apply rbt_mkn.
Qed.

(** The far child of the sibling is red: a rotation ends the repair. *)
Lemma rest_rotate (s : rb) d pc pa pk wn wa wk fl fa fk fr c x n :
  let c0 := Fr d pc pa pk (mkn d Black wn wa wk (Node Red fl fa fk fr)) :: c in
  rep s c0 x -> hole_p s c0 x -> black_root x -> rbt n x -> cok (S n) c0 ->
  exists s' z, (xp <-- get_p (ptr x);; xpc <-- get_color xp;; set_color wa xpc;;; set_color xp Black;;;
      w' <-- get_child (opp d) wa;; set_color w' Black;;; rb_rotate d xp;;; get_root) s = Ok (z, s') /\ fix_post s s' c0 x z.
Proof.
  intros c0 Hr Hh Hb Hx Hc. unfold c0 in *. mrun (hole_parent _ _ _ Hr Hh ltac:(done)). cbn [RbTreeSpec.cptr f_a].
  pose proof (hole_color _ _ _ (proj1 (rep_up nil _ _ _ _) Hr)) as Ep. unfold plug1 in Ep. cbn [f_d f_c f_a f_k f_sib] in Ep. rewrite mkn_ptr in Ep.
  mrun Ep. replace (tcolor (mkn d pc x pa pk (mkn d Black wn wa wk (Node Red fl fa fk fr)))) with pc by (by destruct d).
  apply rep_other in Hr. destruct (set_color_mkn nil d s _ Black pc wn wa wk _ Hr) as (s1 & R1 & H1 & Z1). mrun R1.
  destruct (set_color_frame _ _ _ _ _ Black _ _ _ _ H1) as (s2 & R2 & H2 & Z2). mrun R2. apply rep_other in H2.
  apply sibling_down_far in H2. mrun (hole_below _ _ _ _ _ _ _ _ H2). cbn [RbTreeSpec.ptr].
  destruct (set_color_spec _ _ _ _ Black _ _ _ _ H2) as (s3 & R3 & H3 & Z3). mrun R3. apply sibling_down_far, rep_up in H3.
  destruct (rotate_spec nil d s3 c pa pk Black x wa wk pc wn (Node Black fl fa fk fr) H3) as (s4 & R4 & H4 & Z4). mrun R4.
  exists s4, (rb_root s4). split; [done|]. apply rep_plug in H4.
  exists [], (plug c (mkn d pc (mkn d Black x pa pk wn) wa wk (Node Black fl fa fk fr))).
  assert (Hm : exists m, rbt m (plug c (mkn d pc (mkn d Black x pa pk wn) wa wk (Node Black fl fa fk fr)))).
  { cbn [cok f_sib f_c] in Hc. rewrite rbt_mkn in Hc. destruct Hc as [[Hn (_ & _ & Hfl & Hfr)] Hc].
    assert (Hl : rbt (S n) (mkn d Black x pa pk wn) /\ rbt (S n) (Node Black fl fa fk fr)) by (split; [by apply rbt_mkn|done]).
    destruct pc.
    - destruct Hc as (_ & Hp & Hc). apply (rbt_plug c (S n)); [done| |by left]. apply rbt_mkn. split; [by apply black_root_mkn|]. split; [done|exact Hl].
    - apply (rbt_plug c (S (S n))); [done| |right; by apply black_root_mkn]. apply rbt_mkn. exact Hl. }
  destruct Hm as [m Hm]. exists m. split; [exact H4|]. split; [apply (r_root _ _ _ _ H4)|]. split.
  { intros E. destruct (plug_node c (mkn d pc (mkn d Black x pa pk wn) wa wk (Node Black fl fa fk fr))) as (? & ? & ? & ? & ? & E'); [by destruct d|congruence]. }
  split; [by apply rbt_deficient|]. split; [done|]. split; [done|]. split; [by left|]. split; [|congruence].
  cbn [plug]. apply elts_plug_eq. unfold plug1. cbn. destruct d; cbn; repeat (rewrite <- app_assoc; cbn); done.
Qed.

Lemma red_node (t : tree) : is_red (tcolor t) = true -> exists l a k r, t = Node Red l a k r.
Proof. destruct t as [|[] l a k r]; [done| |done]. by exists l, a, k, r. Qed.
Lemma red_mkn d (t : tree) : is_red (tcolor t) = true -> exists l a k r, t = mkn d Red l a k r.
Proof. intros (l & a & k & r & ->)%red_node. destruct d; [by exists l, a, k, r|by exists r, a, k, l]. Qed.
Lemma black_tree (t : tree) : is_red (tcolor t) = false -> black_root t.
Proof. by destruct t as [|[] l a k r]. Qed.

(** Only the near child of the sibling is red: it takes the sibling's place. *)
Lemma rest_inner (s : rb) d pc pa pk nn na nk nf wa wk wf c x n :
  let c0 := Fr d pc pa pk (mkn d Black (mkn d Red nn na nk nf) wa wk wf) :: c in
  let c1 := Fr d pc pa pk (mkn d Black nn na nk (mkn d Red nf wa wk wf)) :: c in
  rep s c0 x -> hole_p s c0 x -> cok (S n) c0 -> black_root wf ->
  exists s', (wb <-- get_child d wa;; set_color wb Black;;; set_color wa Red;;; rb_rotate (opp d) wa;;;
      xp <-- get_p (ptr x);; get_child (opp d) xp) s = Ok (na, s') /\
    rep s' c1 x /\ hole_p s' c1 x /\ cok (S n) c1 /\ elts (plug c1 x) = elts (plug c0 x) /\ rb_sz s' = rb_sz s.
Proof.
  intros c0 c1 Hr Hh Hc Bf. unfold c0, c1 in *. apply sibling_down in Hr. mrun (hole_below _ _ _ _ _ _ _ _ Hr). rewrite mkn_ptr.
  destruct (set_color_mkn nil d s _ Red Black nn na nk nf Hr) as (s1 & R1 & H1 & Z1). mrun R1.
  destruct (set_color_frame _ _ _ _ _ Red _ _ _ _ H1) as (s2 & R2 & H2 & Z2). mrun R2. apply rep_up in H2.
  unfold plug1 in H2. cbn [f_d f_c f_a f_k f_sib] in H2. rewrite <- (mkn_opp d Red), <- (mkn_opp d Black) in H2.
  destruct (rotate_spec nil (opp d) s2 _ wa wk Red wf na nk Black nf nn H2) as (s3 & R3 & H3 & Z3). mrun R3.
  rewrite !mkn_opp in H3. apply rep_other in H3.
  assert (Hh3 : hole_p s3 (Fr d pc pa pk (mkn d Black nn na nk (mkn d Red nf wa wk wf)) :: c) x).
  { intros E Hne. destruct (Hh E ltac:(done)) as (m & Em & Hm). exists m. split; [congruence|done]. }
  mrun (hole_parent _ _ _ H3 Hh3 ltac:(done)). cbn [RbTreeSpec.cptr f_a]. rewrite (hole_sibling _ _ _ _ _ _ _ _ H3), mkn_ptr.
  exists s3. split; [done|]. split; [done|]. split; [done|]. split.
  - cbn [cok f_sib f_c] in *. rewrite !rbt_mkn in *. destruct Hc as [Hs Hc]. split; [tauto|].
    destruct pc; [|exact Hc]. split; [by apply black_root_mkn|exact (proj2 Hc)].
  - split; [|congruence]. cbn [plug]. apply elts_plug_eq. unfold plug1. cbn. destruct d; cbn; repeat (rewrite <- app_assoc; cbn); done.
Qed.

Lemma fix_rest_spec (s : rb) d pc pa pk wn wa wk wf c x n :
  let c0 := Fr d pc pa pk (mkn d Black wn wa wk wf) :: c in
  rep s c0 x -> hole_p s c0 x -> black_root x -> rbt n x -> cok (S n) c0 -> top_ok c0 ->
  exists z s', fix_rest (opp d) (ptr x) wa s = Ok (z, s') /\ fix_post s s' c0 x z.
Proof.
  intros c0 Hr Hh Hb Hx Hc Ht. unfold c0 in *. unfold fix_rest. rewrite opp_opp.
  pose proof (proj1 (sibling_down _ _ _ _ _ _ _ _ _ _ _ _) Hr) as Hn.
  pose proof (proj1 (sibling_down_far _ _ _ _ _ _ _ _ _ _ _ _) Hr) as Hf.
  assert (Hcol : forall k : color -> color -> M rb Z,
    (wl <-- get_child L wa;; wlc <-- get_color wl;; wr <-- get_child R wa;; wrc <-- get_color wr;; k wlc wrc) s =
    match d with L => k (tcolor wn) (tcolor wf) | R => k (tcolor wf) (tcolor wn) end s).
  { intros k. pose proof (hole_below _ _ _ _ _ _ _ _ Hn) as En. pose proof (hole_below _ _ _ _ _ _ _ _ Hf) as Ef.
    destruct d; cbn [opp] in *; [mrun En; mrun (hole_color _ _ _ Hn); mrun Ef; by mrun (hole_color _ _ _ Hf)|].
    mrun Ef. mrun (hole_color _ _ _ Hf). mrun En. by mrun (hole_color _ _ _ Hn). }
  rewrite Hcol. clear Hcol.
  assert (Hsym : forall A (k : bool -> A), match d with
      | L => k (negb (is_red (tcolor wn)) && negb (is_red (tcolor wf)))
      | R => k (negb (is_red (tcolor wf)) && negb (is_red (tcolor wn))) end =
      k (negb (is_red (tcolor wn)) && negb (is_red (tcolor wf)))) by (intros A k; destruct d; [done|by rewrite andb_comm]).
  rewrite (Hsym _ (fun b : bool => if b then _ else _)). clear Hsym.
  destruct (is_red (tcolor wf)) eqn:Ef; [|destruct (is_red (tcolor wn)) eqn:En].
  - rewrite andb_false_r. mrun (hole_below _ _ _ _ _ _ _ _ Hf). mrun (hole_color _ _ _ Hf). rewrite Ef. cbn [negb]. mgo.
    destruct (red_node wf Ef) as (fl & fa & fk & fr & ->).
    destruct (rest_rotate s d pc pa pk wn wa wk fl fa fk fr c x n Hr Hh Hb Hx Hc) as (s' & z & R & P). by exists z, s'.
  - cbn [negb andb]. mrun (hole_below _ _ _ _ _ _ _ _ Hf). mrun (hole_color _ _ _ Hf). rewrite Ef. cbn [negb].
    destruct (red_mkn d wn En) as (nn & na & nk & nf & ->).
    destruct (rest_inner s d pc pa pk nn na nk nf wa wk wf c x n Hr Hh Hc (black_tree _ Ef)) as (s1 & R1 & H1 & Hh1 & Hc1 & El1 & Z1).
    mrun R1. destruct (red_node (mkn d Red nf wa wk wf)) as (fl & fa & fk & fr & E); [by destruct d|]. rewrite E in *.
    destruct (rest_rotate s1 d pc pa pk nn na nk fl fa fk fr c x n H1 Hh1 Hb Hx Hc1) as (s' & z & R & P).
    exists z, s'. split; [exact R|]. destruct P as (c' & x' & m & P1 & P2 & P3 & P4 & P5 & P6 & P7 & P8 & P9).
    exists c', x', m. split_and!; try done; congruence.
  - cbn [negb andb]. destruct (rest_recolour s d pc pa pk wn wa wk wf c x n Hr Hh Hb Hx Hc Ht (black_tree _ En) (black_tree _ Ef)) as (s' & R & P).
    by exists pa, s'.
Qed.

Lemma node_mkn d (t : tree) : t <> Leaf -> exists c0 l a k r, t = mkn d c0 l a k r.
Proof. destruct t as [|c0 l a k r]; [done|]. intros _. destruct d; [by exists c0, l, a, k, r|by exists c0, r, a, k, l]. Qed.

Lemma remove_fix_dir_eq a x : remove_fix_dir (T := T) a x =
  (xp <-- get_p x;; w <-- get_child a xp;; wc <-- get_color w;;
   w <-- (if is_red wc then
            set_color w Black;;; set_color xp Red;;; rb_rotate (opp a) xp;;;
            xp <-- get_p x;; get_child a xp
          else ret w);;
   fix_rest a x w).
Proof. reflexivity. Qed.

(** A round: a red sibling is first rotated up, which gives a black one. *)
Lemma remove_round (s : rb) f c x n :
  rep s (f :: c) x -> hole_p s (f :: c) x -> black_root x -> rbt n x -> cok (S n) (f :: c) -> top_ok (f :: c) ->
  exists z s', remove_fix_dir (opp (f_d f)) (ptr x) s = Ok (z, s') /\ fix_post s s' (f :: c) x z.
Proof.
  intros Hr Hh Hb Hx Hc Ht. destruct f as [d pc pa pk w]. cbn [f_d].
  destruct (node_mkn d w) as (wc & wn & wa & wk & wf & ->); [intros ->; by destruct Hc|].
  rewrite remove_fix_dir_eq, opp_opp. mrun (hole_parent _ _ _ Hr Hh ltac:(done)). cbn [RbTreeSpec.cptr f_a].
  mrun (hole_sibling _ _ _ _ _ _ _ _ Hr). mrun (hole_color _ _ _ (proj1 (rep_other nil _ _ _ _ _ _ _ _) Hr)). rewrite mkn_ptr.
  replace (tcolor (mkn d wc wn wa wk wf)) with wc by (by destruct d). destruct wc; cbn [is_red].
  2:{ mgo. by apply (fix_rest_spec s d pc pa pk wn wa wk wf c x n). }
  assert (pc = Black) as -> by (destruct pc; [|done]; destruct Hc as (_ & Hs & _); cbn in Hs; by apply black_root_mkn in Hs).
  pose proof (proj1 (rep_other nil _ _ _ _ _ _ _ _) Hr) as Hr0.
  destruct (set_color_mkn nil d s _ Red Black wn wa wk wf Hr0) as (s1 & R1 & H1 & Z1). mgo. mrun R1. mgo.
  destruct (set_color_frame _ _ _ _ _ Red _ _ _ _ H1) as (s2 & R2 & H2 & Z2). mrun R2. apply rep_other, rep_up in H2. mgo.
  destruct (rotate_spec nil d s2 c pa pk Red x wa wk Black wn wf H2) as (s3 & R3 & H3 & Z3). mrun R3. mgo.
  set (c1 := Fr d Red pa pk wn :: Fr d Black wa wk wf :: c). assert (H4 : rep s3 c1 x) by (by apply rep_up, rep_up).
  assert (Hh4 : hole_p s3 c1 x).
  { intros E Hne. destruct (Hh E ltac:(done)) as (m & Em & Hm). exists m. split; [congruence|done]. }
  mrun (hole_parent _ _ _ H4 Hh4 ltac:(done)). cbn [RbTreeSpec.cptr f_a c1]. mrun (hole_sibling _ _ _ _ _ _ _ _ H4).
  cbn [cok f_sib f_c] in Hc. rewrite rbt_mkn in Hc. destruct Hc as [(Bn & Bf & Hn & Hf) Hc].
  destruct (node_mkn d wn) as (uc & un & ua & uk & uf & ->); [by intros ->|]. rewrite mkn_ptr.
  apply black_root_mkn in Bn as ->.
  destruct (fix_rest_spec s3 d Red pa pk un ua uk uf (Fr d Black wa wk wf :: c) x n H4 Hh4 Hb Hx) as (z & s' & R & P).
  { cbn [cok f_sib f_c]. split; [done|]. split; [by apply black_root_mkn|]. split; [done|]. by split. }
  { intros _. specialize (Ht ltac:(done)). cbn [plug] in *. destruct c as [|g c]; [|by eapply plug_black].
    cbn. unfold plug1. cbn. by apply black_root_mkn. }
  exists z, s'. split; [exact R|]. destruct P as (c' & x' & m & P1 & P2 & P3 & P4 & P5 & P6 & P7 & P8 & P9).
  exists c', x', m. split_and!; try done.
  - destruct P7 as [?|[?|[[=] _]]]; tauto.
  - rewrite P8. cbn [plug]. apply elts_plug_eq. unfold plug1. cbn. destruct d; cbn; repeat (rewrite <- app_assoc; cbn); done.
  - congruence.
Qed.

(** ** The loop *)

Lemma rep_apart (s : rb) f c x : rep s (f :: c) x -> ptr x <> f_a f /\ ptr x <> rb_root s /\ (f_sib f <> Leaf -> ptr x <> ptr (f_sib f)).
Proof.
  intros [_ Hroot _ _ Hnd _]. cbn [croot] in Hroot. apply NoDup_cons in Hnd as [Hn Hnd].
  assert (Hin : forall (c : ctx) y, croot y c = y \/ croot y c ∈ caddrs c).
  { intros c1. induction c1 as [|g c1 IH]; intros y; [by left|]. cbn. right. destruct (IH (f_a g)) as [->|H]; [by left|].
    apply elem_of_cons. right. apply elem_of_app. by right. }
  assert (Hx : forall z, z ∈ caddrs (f :: c) -> ptr x <> z).
  { intros z Hz <-. destruct (ptr_in nil x) as [[_ E]|Hp].
    - apply Hn, elem_of_app. right. by rewrite <- E.
    - apply NoDup_app in Hnd as (_ & Hd & _). by apply (Hd (ptr x)). }
  split; [apply Hx, list_elem_of_here|]. split.
  - apply Hx. rewrite Hroot. destruct (Hin c (f_a f)) as [->|H]; [apply list_elem_of_here|].
    apply elem_of_cons. right. apply elem_of_app. by right.
  - intros Hs. apply Hx. destruct (ptr_in nil (f_sib f)) as [[? _]|Hp]; [done|]. apply elem_of_cons. right. apply elem_of_app. by left.
Qed.

Lemma fixup_stop (s : rb) c l a k r n :
  rep s c (Node Red l a k r) -> deficient n (Node Red l a k r) -> cok (S n) c -> top_ok c ->
  exists s' t', set_color a Black s = Ok (tt, s') /\ rep s' [] t' /\ proper t' /\
    elts t' = elts (plug c (Node Red l a k r)) /\ rb_sz s' = rb_sz s.
Proof.
  intros Hr Hd Hc Ht. destruct (set_color_spec nil _ _ _ Black _ _ _ _ Hr) as (s' & R & H & Z). exists s', (plug c (Node Black l a k r)).
  split; [done|]. split; [by apply (proj1 (rep_plug _ _ _ _))|]. split; [|split; [by apply elts_plug_eq|congruence]]. split.
  - destruct c as [|f c]; [done|]. eapply plug_black; [done|by apply Ht].
  - apply (rbt_plug c (S n)); [done|exact Hd|by right].
Qed.

Lemma fixup_root (s : rb) x n : rep s [] x -> black_root x -> rbt n x ->
  exists s' t', set_color (ptr x) Black s = Ok (tt, s') /\ rep s' [] t' /\ proper t' /\ elts t' = elts x /\ rb_sz s' = rb_sz s.
Proof.
  intros Hr Hb Hx. destruct x as [|c0 l a k r]; cbn [RbTreeSpec.ptr].
  - destruct Hr as [H1 H2 H3 H4 H5 (m & Em & Hm)]. eexists _, Leaf. split; [by apply upd_node_ok|]. split; [|by split; [split; [|exists n]|]].
    constructor; try done. cbn [rb_nodes with_nodes]. exists (with_color Black m). by rewrite lookup_insert_eq.
  - destruct (set_color_spec nil _ _ _ Black _ _ _ _ Hr) as (s' & R & H & Z). cbn in Hb. subst c0.
    exists s', (Node Black l a k r). split; [done|]. split; [done|]. split; [split; [done|by exists n]|]. split; [done|congruence].
Qed.

Lemma remove_fixup_spec fuel : forall (s : rb) c x n,
  rep s c x -> hole_p s c x -> deficient n x -> cok (S n) c -> top_ok c ->
  (length c < fuel)%nat \/ tcolor x = Red /\ (0 < fuel)%nat ->
  exists s' t', remove_fixup fuel (ptr x) s = Ok (tt, s') /\ rep s' [] t' /\ proper t' /\
    elts t' = elts (plug c x) /\ rb_sz s' = rb_sz s.
Proof.
  induction fuel as [|fuel IH]; intros s c x n Hr Hh Hd Hc Ht Hf; [lia|]. cbn [remove_fixup].
  unfold get_root. mgo. mrun (hole_color _ _ _ Hr). destruct (is_red (tcolor x)) eqn:Ex.
  - rewrite andb_false_r. destruct (red_node x Ex) as (l & a & k & r & ->). by eapply fixup_stop.
  - rewrite andb_true_r. assert (Hb := black_tree _ Ex).
    assert (Hx : rbt n x) by (by destruct x as [|[] l a k r]).
    destruct c as [|f c].
    + rewrite (r_root _ _ _ _ Hr). cbn [croot]. rewrite Z.eqb_refl. by apply (fixup_root s x n).
    + destruct (rep_apart _ _ _ _ Hr) as (_ & Hroot & Hsib). rewrite (proj2 (Z.eqb_neq _ _) Hroot). cbn [negb].
      mrun (hole_parent _ _ _ Hr Hh ltac:(done)). cbn [RbTreeSpec.cptr].
      assert (Hdir : exists y, get_child L (f_a f) s = Ok (y, s) /\
        (if ptr x =? y then remove_fix_dir (T := T) R (ptr x) else remove_fix_dir L (ptr x)) = remove_fix_dir (opp (f_d f)) (ptr x)).
      { destruct f as [d pc pa pk w]. cbn [f_a f_d]. destruct d.
        - exists (ptr x). split; [by apply (hole_below s L pc pa pk w c x)|]. by rewrite Z.eqb_refl.
        - exists (ptr w). split; [by apply (hole_sibling s R pc pa pk w c x)|]. rewrite (proj2 (Z.eqb_neq _ _)); [done|]. apply Hsib.
          intros E. cbn in E. subst w. by destruct Hc. }
      destruct Hdir as (y & Ey & Hdir). mrun Ey. rewrite Hdir.
      destruct (remove_round s f c x n Hr Hh Hb Hx Hc Ht) as (z & s1 & R1 & (c' & x' & m & P1 & -> & P3 & P4 & P5 & P6 & P7 & P8 & P9)).
      mrun R1. destruct Hf as [Hf|[? _]]; [|by rewrite H in Ex]. cbn [length] in Hf.
      destruct (IH s1 c' x' m P1 ltac:(by intros E) P4 P5 P6) as (s2 & t2 & Q1 & Q2 & Q3 & Q4 & Q5).
      { destruct P7 as [->|[?|[_ ->]]]; [left; cbn; lia|right; split; [done|lia]|left; cbn; lia]. }
      exists s2, t2. split_and!; try done; congruence.
Qed.

(** ** Transplanting *)

Lemma transplant_run (s : rb) u v nu nv :
  rb_nil s = nil -> rb_nodes s !! u = Some nu -> rb_nodes s !! v = Some nv ->
  (rn_p nu <> nil -> is_Some (rb_nodes s !! rn_p nu) /\ v <> rn_p nu) -> rn_p nu <> u -> v <> u ->
  exists s', transplant u v s = Ok (tt, s') /\ rb_nil s' = nil /\ rb_sz s' = rb_sz s /\
    rb_root s' = (if rn_p nu =? nil then v else rb_root s) /\
    forall z, rb_nodes s' !! z = if z =? v then Some (with_parent (rn_p nu) nv)
      else if z =? nil then rb_nodes s !! z
      else if z =? rn_p nu then relink u v <$> rb_nodes s !! z else rb_nodes s !! z.
Proof.
  intros Hnil Eu Ev Hp Hpu Hvu. unfold transplant. mrun (get_nil_ok s). mrun (get_p_ok _ _ _ Eu). rewrite Hnil.
  set (p := rn_p nu) in *.
  destruct (relink_parent nil s u v p Hnil) as (s1 & R1 & N1 & S1 & Ro1 & L1); [intros Hpn; apply (Hp Hpn)|]. mrun R1.
  assert (Eu1 : rb_nodes s1 !! u = Some nu) by (rewrite L1; zcases; congruence).
  mrun (get_p_ok _ _ _ Eu1). fold p.
  assert (Ev1 : rb_nodes s1 !! v = Some nv).
  { rewrite L1. destruct (Z.eqb_spec v nil); [done|]. destruct (Z.eqb_spec v p) as [E|]; [|done]. exfalso.
    destruct (Z.eqb_spec p nil) as [|Hpn]; [congruence|]. by destruct (Hp Hpn). }
  unfold set_p. rewrite (upd_node_ok _ _ (with_parent p) _ Ev1). eexists. split; [done|]. do 3 (split; [done|]).
  intros z. cbn [rb_nodes with_nodes]. rewrite lookup_insert, L1. case_decide; zcases; congruence.
Qed.

(** The focus [z], with one child [r], is replaced by the child. *)
Lemma transplant_child e (s : rb) c zc z k r :
  rep s c (mkn e zc Leaf z k r) ->
  exists s', transplant z (ptr r) s = Ok (tt, s') /\ rep s' c r /\ hole_p s' c r /\ rb_sz s' = rb_sz s /\
    rb_nodes s' !! z = rb_nodes s !! z.
Proof.
  intros [Hnil Hroot Ht Hc Hnd (nn & En & Hb)]. rewrite mkn_ptr in *. rewrite mkn_at in Ht. destruct Ht as (Ez & _ & Hr).
  assert (Hnd' : NoDup (nil :: z :: addrs r ++ caddrs c)).
  { eapply NoDup_Permutation_proper; [|exact Hnd]. by rewrite mkn_addrs. }
  apply NoDup_cons in Hnd' as [N0 Hnd']. apply NoDup_cons in Hnd' as [N1 Hnd'].
  rewrite not_elem_of_cons, not_elem_of_app in N0. rewrite not_elem_of_app in N1. destruct N0 as (Hzn & N0r & N0c), N1 as [N1r N1c].
  assert (Hnd2 := Hnd'). apply NoDup_app in Hnd' as (Nr & Nd & Nc).
  assert (Hcp : c = [] /\ cptr c = nil \/ cptr c ∈ caddrs c) by (destruct c; [by left|right; apply list_elem_of_here]).
  assert (Hrp : r = Leaf /\ ptr r = nil \/ ptr r ∈ addrs r) by apply ptr_in.
  assert (Hpz : cptr c <> z) by (destruct Hcp as [[_ ->]|Hin]; [congruence|]; intros E; by rewrite E in Hin).
  assert (Hrz : ptr r <> z) by (destruct Hrp as [[_ ->]|Hin]; [congruence|]; intros E; by rewrite E in Hin).
  assert (Hrn : exists nr, rb_nodes s !! ptr r = Some nr).
  { destruct Hrp as [[_ ->]|Hin]; [by exists nn|]. by destruct (tree_at_dom _ _ _ _ _ Hr Hin) as [nr ?]; exists nr. }
  destruct Hrn as [nr Enr]. destruct (mkrn_fields e k zc (ptr (@Leaf T)) (ptr r) (cptr c)) as (_ & _ & Hrp').
  destruct (transplant_run s z (ptr r) _ nr Hnil Ez Enr) as (s' & Hrun & Hn' & Hsz & Hro & HL); rewrite ?Hrp'; try done.
  { intros Hne. destruct Hcp as [[_ ?]|Hin]; [done|]. split.
    - destruct c as [|f c]; [done|]. destruct Hc as (Ef & _). by eexists.
    - destruct Hrp as [[_ ->]|Hin']; [congruence|]. intros E. rewrite E in Hin'. by apply (Nd _ Hin'). }
  rewrite Hrp' in Hro, HL. exists s'. split; [done|].
  assert (Hout : forall a, a ∈ addrs r -> a <> ptr r -> rb_nodes s' !! a = rb_nodes s !! a).
  { intros a Ha Hne. rewrite HL. zcases; try congruence. exfalso. destruct Hcp as [[_ E]|Hin]; [congruence|]. by apply (Nd a Ha); subst. }
  split; [|split; [|split; [done|]]].
  - constructor; try done.
    + rewrite Hro, Hroot. destruct c as [|f c]; cbn; [by rewrite Z.eqb_refl|]. rewrite (proj2 (Z.eqb_neq _ _)); [done|].
      intros E. apply N0c. rewrite <- E. apply list_elem_of_here.
    + eapply tree_at_reparent; [|exact Nr|exact Hr]. intros a Ha. destruct (Z.eqb_spec a (ptr r)) as [->|Hne]; [|by apply Hout].
      rewrite HL, Z.eqb_refl. by rewrite Enr.
    + eapply ctx_at_replace; [exact Hc|done|done|congruence|]. intros a Ha. rewrite HL.
      assert (a <> nil) by (intros ->; done). assert (a <> ptr r) by (intros ->; destruct Hrp as [[_ E]|Hin]; [congruence|by apply (Nd _ Hin)]).
      by rewrite !(proj2 (Z.eqb_neq a _)) by done.
    + apply NoDup_cons. split; [by rewrite not_elem_of_app|done].
    + rewrite HL. destruct (Z.eqb_spec nil (ptr r)) as [E|E]; [|rewrite Z.eqb_refl; by exists nn].
      exists (with_parent (cptr c) nr). split; [done|]. rewrite <- E in Enr. assert (nr = nn) as -> by congruence. by destruct nn.
  - intros -> Hne. exists (with_parent (cptr c) nr). rewrite HL. cbn [RbTreeSpec.ptr]. rewrite Z.eqb_refl. by destruct nr.
  - rewrite HL. zcases; congruence.
Qed.

(** ** The successor takes the place of a node with two children *)

(** [y], with the right subtree [r] already below it, is about to replace [z],
    whose left subtree is [l]. *)
Record mid (s : rb) (c : ctx) (zc : color) (l : tree) (z : Z) (y : Z) (yk : T) (r : tree) : Prop := {
  mi_nil : rb_nil s = nil;
  mi_root : rb_root s = croot z c;
  mi_z : exists k zr, rb_nodes s !! z = Some (RNode k zc (ptr l) zr (cptr c));
  mi_y : exists yc yl yp, rb_nodes s !! y = Some (RNode yk yc yl (ptr r) yp);
  mi_l : tree_at nil (rb_nodes s) z l;
  mi_r : tree_at nil (rb_nodes s) y r;
  mi_c : ctx_at nil (rb_nodes s) z c;
  mi_nodup : NoDup (nil :: z :: y :: addrs l ++ addrs r ++ caddrs c);
  mi_sent : exists n, rb_nodes s !! nil = Some n /\ rn_color n = Black
}.

Definition take_place (z y : Z) : M rb unit :=
  transplant z y;;;
  zl <-- get_child L z;; set_child L y zl;;;
  yl <-- get_child L y;; set_p yl y;;;
  zc <-- get_color z;; set_color y zc.

Lemma take_place_run (s : rb) c zc l z y yk r : mid s c zc l z y yk r -> l <> Leaf ->
  exists s', take_place z y s = Ok (tt, s') /\ rb_nil s' = nil /\ rb_sz s' = rb_sz s /\
    rb_root s' = (if cptr c =? nil then y else rb_root s) /\
    forall a, rb_nodes s' !! a = if a =? y then Some (RNode yk zc (ptr l) (ptr r) (cptr c))
      else if a =? ptr l then with_parent y <$> rb_nodes s !! a
      else if a =? nil then rb_nodes s !! a
      else if a =? cptr c then relink z y <$> rb_nodes s !! a else rb_nodes s !! a.
Proof.
  intros [Hnil Hroot (k & zr & Ez) (yc & yl & yp & Ey) Hl Hr Hc Hnd _] Hln.
  apply NoDup_cons in Hnd as [N0 Hnd]. apply NoDup_cons in Hnd as [N1 Hnd]. apply NoDup_cons in Hnd as [N2 Hnd].
  apply NoDup_app in Hnd as (_ & Nl & _). rewrite !not_elem_of_cons, !not_elem_of_app in *.
  assert (Hlp : ptr l ∈ addrs l) by (destruct (ptr_in nil l) as [[? _]|?]; done).
  assert (Hcp : c = [] /\ cptr c = nil \/ cptr c ∈ caddrs c) by (destruct c; [by left|right; apply list_elem_of_here]).
  assert (Hl1 : ptr l <> nil /\ ptr l <> z /\ ptr l <> y /\ ptr l <> cptr c).
  { split_and!; try (intros E; rewrite E in Hlp; tauto). destruct Hcp as [[_ ->]|Hin]; [intros E; rewrite E in Hlp; tauto|].
    intros E. apply (Nl _ Hlp). rewrite elem_of_app. right. by rewrite E. }
  assert (Hc1 : cptr c <> z /\ cptr c <> y /\ nil <> z /\ nil <> y /\ z <> y).
  { split_and!; try tauto; destruct Hcp as [[_ ->]|Hin]; try tauto; intros E; rewrite E in Hin; tauto. }
  destruct Hl1 as (L0 & L1 & L2 & L3), Hc1 as (C1 & C2 & C3 & C4 & C5). unfold take_place.
  destruct (transplant_run s z y _ _ Hnil Ez Ey) as (s1 & R1 & N1' & S1 & Ro1 & HL1); cbn [rn_p]; try done.
  { intros Hne. destruct Hcp as [[_ ?]|Hin]; [done|]. split; [|congruence]. destruct c as [|f c]; [done|]. destruct Hc as (Ef & _). by eexists. }
  cbn [rn_p] in Ro1, HL1. mrun R1.
  assert (Ez1 : rb_nodes s1 !! z = Some (RNode k zc (ptr l) zr (cptr c))) by (rewrite HL1; zcases; congruence).
  mrun (get_child_ok L _ _ _ Ez1). cbn [child rn_l].
  assert (Ey1 : rb_nodes s1 !! y = Some (RNode yk yc yl (ptr r) (cptr c))) by (by rewrite HL1, Z.eqb_refl).
  unfold set_child. mrun (upd_node_ok _ _ (with_child L (ptr l)) _ Ey1). cbn [with_child rn_key rn_color rn_l rn_r rn_p].
  set (s2 := with_nodes _ s1). assert (Ey2 : rb_nodes s2 !! y = Some (RNode yk yc (ptr l) (ptr r) (cptr c))) by (cbn; by rewrite lookup_insert_eq).
  mrun (get_child_ok L _ _ _ Ey2). cbn [child rn_l].
  destruct (tree_at_dom _ _ _ _ _ Hl Hlp) as [nl Enl].
  assert (El2 : rb_nodes s2 !! ptr l = Some nl) by (cbn; rewrite lookup_insert_ne, HL1 by congruence; zcases; congruence).
  unfold set_p. mrun (upd_node_ok _ _ (with_parent y) _ El2). set (s3 := with_nodes _ s2).
  assert (Ez3 : rb_nodes s3 !! z = Some (RNode k zc (ptr l) zr (cptr c))) by (cbn; by rewrite !lookup_insert_ne by congruence).
  mrun (get_color_ok _ _ _ Ez3). cbn [rn_color].
  assert (Ey3 : rb_nodes s3 !! y = Some (RNode yk yc (ptr l) (ptr r) (cptr c))) by (cbn; by rewrite lookup_insert_ne, lookup_insert_eq by congruence).
  unfold set_color. rewrite (upd_node_ok _ _ (with_color zc) _ Ey3). eexists. split; [done|]. split; [done|]. split; [done|]. split; [done|].
  intros a. cbn [rb_nodes with_nodes s3 s2 with_color rn_key rn_color rn_l rn_r rn_p]. rewrite !lookup_insert, HL1.
  clear Hnil Hroot. repeat case_decide; zcases; try congruence; subst a; try congruence; cbn; by rewrite ?Enl.
Qed.

Lemma take_place_spec (s : rb) c zc l z y yk r : mid s c zc l z y yk r -> l <> Leaf ->
  exists s', take_place z y s = Ok (tt, s') /\ rep s' c (Node zc l y yk r) /\
    rb_nodes s' !! nil = rb_nodes s !! nil /\ rb_sz s' = rb_sz s.
Proof.
  intros Hmid Hln. destruct (take_place_run s c zc l z y yk r Hmid Hln) as (s' & R & N' & S' & Ro & HL).
  destruct Hmid as [Hnil Hroot _ _ Hl Hr Hc Hnd (nn & En & Hb)].
  apply NoDup_cons in Hnd as [N0 Hnd]. apply NoDup_cons in Hnd as [N1 Hnd]. assert (Hnd2 := Hnd). apply NoDup_cons in Hnd as [N2 Hnd].
  apply NoDup_app in Hnd as (Nl & Nd & Hnd). apply NoDup_app in Hnd as (Nr & Nd2 & Nc). rewrite !not_elem_of_cons, !not_elem_of_app in *.
  assert (Hlp : ptr l ∈ addrs l) by (destruct (ptr_in nil l) as [[? _]|?]; done).
  assert (Hcp : c = [] /\ cptr c = nil \/ cptr c ∈ caddrs c) by (destruct c; [by left|right; apply list_elem_of_here]).
  exists s'. split; [done|]. split; [|split; [|done]].
  - constructor; try done.
    + rewrite Ro, Hroot. destruct c as [|f c]; cbn; [by rewrite Z.eqb_refl|]. rewrite (proj2 (Z.eqb_neq _ _)); [done|].
      intros E. destruct N0 as (_ & _ & _ & _ & N0). apply N0. rewrite <- E. apply list_elem_of_here.
    + split; [by rewrite HL, Z.eqb_refl|]. split.
      * eapply tree_at_reparent; [|exact Nl|exact Hl]. intros a Ha. rewrite HL.
        assert (a <> y) by (intros ->; tauto). rewrite (proj2 (Z.eqb_neq a y)) by done. destruct (a =? ptr l); [done|].
        destruct (a =? nil); [done|]. destruct (Z.eqb_spec a (cptr c)) as [->|]; [|done]. exfalso.
        destruct Hcp as [[_ E]|Hin]; [rewrite E in Ha; tauto|]. apply (Nd _ Ha). rewrite elem_of_app. tauto.
      * eapply tree_at_ext; [|exact Hr]. intros a Ha. rewrite HL.
        assert (a <> y) by (intros ->; tauto). rewrite (proj2 (Z.eqb_neq a y)) by done.
        assert (a <> ptr l) by (intros ->; apply (Nd _ Hlp); rewrite elem_of_app; tauto). rewrite (proj2 (Z.eqb_neq a (ptr l))) by done.
        destruct (a =? nil); [done|]. destruct (Z.eqb_spec a (cptr c)) as [->|]; [|done]. exfalso.
        destruct Hcp as [[_ E]|Hin]; [rewrite E in Ha; tauto|]. by apply (Nd2 _ Ha).
    + cbn [RbTreeSpec.ptr]. eapply ctx_at_replace; [exact Hc|exact Nc|tauto|intros ->; tauto|]. intros a Ha. rewrite HL.
      assert (a <> y) by (intros ->; tauto). assert (a <> nil) by (intros ->; tauto).
      assert (a <> ptr l) by (intros ->; apply (Nd _ Hlp); rewrite elem_of_app; tauto).
      by rewrite !(proj2 (Z.eqb_neq a _)) by done.
    + cbn [addrs]. rewrite <- app_comm_cons, <- app_assoc. apply NoDup_cons. split; [|done]. rewrite not_elem_of_cons, !not_elem_of_app. tauto.
    + exists nn. split; [|done]. rewrite HL. assert (nil <> y /\ nil <> ptr l) as [? ?] by (split; [tauto|intros E; rewrite <- E in Hlp; tauto]).
      by rewrite !(proj2 (Z.eqb_neq nil _)), Z.eqb_refl by done.
  - rewrite HL. assert (nil <> y /\ nil <> ptr l) as [? ?] by (split; [tauto|intros E; rewrite <- E in Hlp; tauto]).
    by rewrite !(proj2 (Z.eqb_neq nil _)), Z.eqb_refl by done.
Qed.

(** ** Where the successor is *)

Definition leftmost (c : ctx) : Prop := Forall (fun f => f_d f = L) c.

Lemma leftmost_node (t : tree) : t <> Leaf -> exists cy yc y yk yr, t = plug cy (Node yc Leaf y yk yr) /\ leftmost cy.
Proof.
  induction t as [|c0 l IHl a k r _]; [done|]. intros _. destruct l as [|c1 l1 a1 k1 r1].
  - exists [], c0, a, k, r. split; [done|constructor].
  - destruct IHl as (cy & yc & y & yk & yr & -> & Hl); [done|]. exists (cy ++ [Fr L c0 a k r]), yc, y, yk, yr.
    rewrite plug_snoc. split; [done|]. apply Forall_app. split; [done|by constructor].
Qed.

Lemma leftmost_side (c : ctx) : leftmost c -> cside L c = [].
Proof. induction 1 as [|f c Hf _ IH]; [done|]. cbn. by rewrite Hf. Qed.

Lemma plug_app (c1 c2 : ctx) (t : tree) : plug (c1 ++ c2) t = plug c2 (plug c1 t).
Proof. revert t. induction c1 as [|f c1 IH]; intros t; [done|]. apply IH. Qed.

Lemma rep_app (s : rb) c1 c2 t : rep s (c1 ++ c2) t <-> rep s c2 (plug c1 t).
Proof. revert t. induction c1 as [|f c1 IH]; intros t; [done|]. cbn [app plug]. rewrite rep_up. apply IH. Qed.

Lemma node_min_spec (s : rb) c cy yc y yk yr : leftmost cy -> rep s c (plug cy (Node yc Leaf y yk yr)) ->
  node_min (ptr (plug cy (Node yc Leaf y yk yr))) s = Ok (y, s).
Proof.
  intros Hl Hr. unfold node_min. rewrite (extreme_spec _ L _ _ _ Hr). cbn [opp delts].
  rewrite elts_plug, (leftmost_side _ Hl). done.
Qed.

(** ** What is left of the conditions when a node goes *)

(** A node of colour [co] is taken out above [x]. *)
Definition lacks (co : color) (c : ctx) (x : tree) : Prop :=
  top_ok c /\ exists n, match co with
    | Red => c <> [] /\ black_root x /\ rbt n x /\ cok n c
    | Black => deficient n x /\ cok (S n) c
    end.

Lemma proper_lacks c e co z k r : proper (plug c (mkn e co Leaf z k r)) -> lacks co c r.
Proof.
  intros [Hb [m Hm]]. split; [intros Hc; by eapply plug_black|]. destruct (rbt_unplug _ _ _ Hm) as (n & Hc & Hn & Hf).
  apply rbt_mkn in Hn. destruct co; [|destruct n as [|n]; [done|]; destruct Hn; exists n; split; [by apply rbt_deficient|done]].
  destruct Hn as (_ & Br & _ & Hr). exists n. split_and!; try done. intros ->. cbn in Hb. by apply black_root_mkn in Hb.
Qed.

Lemma lacks_red c x : lacks Red c x -> proper (plug c x).
Proof.
  intros (Ht & n & Hc & Hb & Hx & Hk). split; [eapply plug_black; [done|by apply Ht]|]. apply (rbt_plug c n); [done|done|by right].
Qed.

(** Only the colours matter: the successor's address and key replace those of
    the node. *)
Lemma lacks_rename co cy d zc z k l (c : ctx) y yk x :
  lacks co (cy ++ Fr d zc z k l :: c) x -> lacks co (cy ++ Fr d zc y yk l :: c) x.
Proof.
  assert (Hp : parent_black (cy ++ Fr d zc z k l :: c) -> parent_black (cy ++ Fr d zc y yk l :: c)) by (by destruct cy).
  assert (Hk : forall cy n, cok n (cy ++ Fr d zc z k l :: c) -> cok n (cy ++ Fr d zc y yk l :: c)).
  { intros cy0. induction cy0 as [|f cy0 IH]; intros n; [done|]. cbn [app cok]. intros [Hs Hc]. split; [done|].
    destruct (f_c f); [|by apply IH]. destruct Hc as (H1 & H2 & H3). split; [done|]. split; [by destruct cy0|by apply IH]. }
  intros (Ht & n & Hn). split.
  - intros _. specialize (Ht ltac:(by destruct cy)). rewrite plug_app in *.
    apply (plug_black _ Leaf); [done|]. eapply (top_frame d z k l); [|done]. intros _. by eapply plug_black.
  - exists n. destruct co; [|destruct Hn; auto]. destruct Hn as (_ & H2 & H3 & H4). split; [by destruct cy|]. auto.
Qed.

(** ** The successor is taken out of the right subtree *)

Lemma lift_near (s : rb) c zc z k l yc y yk yr : rep s (Fr R zc z k l :: c) (Node yc Leaf y yk yr) ->
  exists s', set_p (ptr yr) y s = Ok (tt, s') /\ mid s' c zc l z y yk yr /\ rb_sz s' = rb_sz s /\
    (yr = Leaf -> exists n, rb_nodes s' !! nil = Some n /\ rn_p n = y).
Proof.
  intros [Hnil Hroot (Ey & _ & Hyr) (Ez & Hl & Hc) Hnd (nn & En & Hb)]. cbn [f_a f_d f_k f_c f_sib mkrn RbTreeSpec.ptr RbTreeSpec.cptr croot] in *.
  assert (Hx : exists n, rb_nodes s !! ptr yr = Some n /\ (yr = Leaf /\ n = nn \/ with_parent y n = n)).
  { destruct yr as [|c1 l1 a1 k1 r1]; [exists nn; auto|]. destruct Hyr as (E & _). eexists. split; [exact E|]. by right. }
  destruct Hx as (nx & Ex & Hx). unfold set_p. rewrite (upd_node_ok _ _ (with_parent y) _ Ex).
  set (s' := with_nodes _ s). exists s'. split; [done|].
  assert (Hs : forall a, a <> nil -> rb_nodes s' !! a = rb_nodes s !! a).
  { intros a Ha. cbn. rewrite lookup_insert. case_decide as E; [|done]. subst a. rewrite Ex.
    destruct Hx as [[-> _]| ->]; [by destruct Ha|done]. }
  assert (Hnd' : NoDup (nil :: z :: y :: addrs l ++ addrs yr ++ caddrs c)).
  { eapply NoDup_Permutation_proper; [|exact Hnd]. cbn [addrs caddrs f_a f_sib app]. solve_Permutation. }
  clear Hnd. assert (Hnd := Hnd'). apply NoDup_cons in Hnd as [N0 _]. rewrite !not_elem_of_cons, !not_elem_of_app in N0.
  destruct N0 as (N1 & N2 & N3 & N4 & N5). split; [|split; [done|]].
  - constructor; try done.
    + exists k, y. by rewrite Hs by congruence.
    + exists yc, nil, z. by rewrite Hs by congruence.
    + eapply tree_at_ext; [|exact Hl]. intros a Ha. apply Hs. by intros ->.
    + eapply tree_at_ext; [|exact Hyr]. intros a Ha. apply Hs. by intros ->.
    + eapply ctx_at_ext; [|exact Hc]. intros a Ha. apply Hs. by intros ->.
    + cbn. rewrite lookup_insert. case_decide as E; [|by exists nn]. exists (with_parent y nx). split; [done|].
      rewrite E in Ex. rewrite En in Ex. injection Ex as <-. by destruct nn.
  - intros ->. exists (with_parent y nx). cbn [RbTreeSpec.ptr s' rb_nodes with_nodes]. rewrite lookup_insert_eq. by destruct nx.
Qed.

Lemma lift_far (s : rb) c f cy zc z k l yc y yk yr : rep s (f :: cy ++ Fr R zc z k l :: c) (Node yc Leaf y yk yr) ->
  exists s', (yr <-- get_child R y;; transplant y yr;;; zr <-- get_child R z;; set_child R y zr;;;
      yr <-- get_child R y;; set_p yr y) s = Ok (tt, s') /\
    mid s' c zc l z y yk (plug (f :: cy) yr) /\ rb_sz s' = rb_sz s /\
    (yr = Leaf -> exists n, rb_nodes s' !! nil = Some n /\ rn_p n = f_a f).
Proof.
  intros Hr. pose proof (rep_node nil L _ _ _ _ _ _ _ Hr) as Ey. cbn [mkrn] in Ey. mrun (get_child_ok R _ _ _ Ey). cbn [child rn_r].
  assert (Hy : y ∉ nil :: addrs yr ++ caddrs (f :: cy ++ Fr R zc z k l :: c)).
  { destruct Hr as [_ _ _ _ Hnd _]. cbn [addrs app] in Hnd. apply NoDup_cons in Hnd as [N0 Hnd]. apply NoDup_cons in Hnd as [N1 _].
    rewrite not_elem_of_cons in *. split; [|done]. intros ->. by destruct N0. }
  destruct (transplant_child L s _ yc y yk yr Hr) as (s1 & R1 & H1 & Hh1 & Z1 & E1). mrun R1. rewrite Ey in E1.
  change (f :: cy ++ Fr R zc z k l :: c) with ((f :: cy) ++ Fr R zc z k l :: c) in *.
  set (r' := plug (f :: cy) yr) in *. assert (H2 := proj1 (rep_app _ _ _ _) H1). fold r' in H2.
  pose proof (hole_below _ _ _ _ _ _ _ _ H2) as Ez. mrun Ez. unfold set_child. mrun (upd_node_ok _ _ (with_child R (ptr r')) _ E1).
  set (s2 := with_nodes _ s1). assert (E2 : rb_nodes s2 !! y = Some (RNode yk yc nil (ptr r') (f_a f))) by (cbn; by rewrite lookup_insert_eq).
  mrun (get_child_ok R _ _ _ E2). cbn [child rn_r].
  assert (Hrn : r' <> Leaf) by (intros E; destruct (plug_node cy (plug1 f yr)) as (? & ? & ? & ? & ? & E'); [unfold plug1; by destruct (f_d f)|unfold r' in E; cbn in E; congruence]).
  assert (Hrp : ptr r' ∈ addrs r') by (destruct (ptr_in nil r') as [[? _]|?]; done).
  assert (HP : addrs yr ++ caddrs ((f :: cy) ++ Fr R zc z k l :: c) ≡ₚ addrs r' ++ z :: addrs l ++ caddrs c).
  { rewrite <- plug_addrs, plug_app, plug_addrs. done. }
  destruct H2 as [Hnil Hroot Hr' (Ez1 & Hl & Hc) Hnd (nn & En & Hb)]. cbn [f_a f_d f_k f_c f_sib RbTreeSpec.cptr croot caddrs] in *.
  assert (Hy' : y ∉ nil :: addrs r' ++ z :: addrs l ++ caddrs c) by (by rewrite <- HP).
  assert (Hnd2 : NoDup (nil :: z :: y :: addrs l ++ addrs r' ++ caddrs c)).
  { eapply (NoDup_Permutation_proper _ (y :: nil :: addrs r' ++ z :: addrs l ++ caddrs c)); [solve_Permutation|]. by apply NoDup_cons. }
  destruct (tree_at_dom _ _ _ _ _ Hr' Hrp) as [nr Enr].
  assert (Hyr : ptr r' <> y) by (intros E; rewrite E in Hrp; apply Hy'; rewrite elem_of_cons, elem_of_app; tauto).
  assert (Er2 : rb_nodes s2 !! ptr r' = Some nr) by (unfold s2; cbn [rb_nodes with_nodes]; by rewrite lookup_insert_ne by congruence).
  unfold set_p. rewrite (upd_node_ok _ _ (with_parent y) _ Er2). set (s3 := with_nodes _ s2). exists s3. split; [done|].
  assert (Hs : forall a, a <> y -> rb_nodes s3 !! a = if a =? ptr r' then with_parent y <$> rb_nodes s1 !! a else rb_nodes s1 !! a).
  { intros a Ha. unfold s3, s2. cbn [rb_nodes with_nodes]. rewrite !lookup_insert. zcases; repeat case_decide; try congruence. subst a. by rewrite Enr. }
  assert (Hnd3 := Hnd2). apply NoDup_cons in Hnd3 as [N0 Hnd3]. apply NoDup_cons in Hnd3 as [N1 Hnd3]. apply NoDup_cons in Hnd3 as [N2 Hnd3].
  apply NoDup_app in Hnd3 as (Nl & Nd & Hnd3). apply NoDup_app in Hnd3 as (Nr & Nd2 & Nc). rewrite !not_elem_of_cons, !not_elem_of_app in *.
  assert (Ho : forall a, a <> y -> a ∉ addrs r' -> rb_nodes s3 !! a = rb_nodes s1 !! a).
  { intros a Ha Hin. rewrite Hs by done. by rewrite (proj2 (Z.eqb_neq _ _)) by (by intros ->). }
  split; [|split; [done|]].
  - constructor; try done.
    + exists k, (ptr r'). rewrite Ho by tauto. exact Ez1.
    + exists yc, nil, (f_a f). unfold s3. cbn [rb_nodes with_nodes]. rewrite lookup_insert_ne by done. exact E2.
    + eapply tree_at_ext; [|exact Hl]. intros a Ha. apply Ho; [intros ->; tauto|]. intros Hin. apply (Nd a Ha). rewrite elem_of_app. tauto.
    + eapply tree_at_reparent; [|exact Nr|exact Hr']. intros a Ha. apply Hs. intros ->. tauto.
    + eapply ctx_at_ext; [|exact Hc]. intros a Ha. apply Ho; [intros ->; tauto|]. intros Hin. by apply (Nd2 a Hin).
    + exists nn. by rewrite Ho by tauto.
  - intros E. destruct (Hh1 E ltac:(done)) as (n & Hn & Hp). exists n. by rewrite Ho by tauto.
Qed.

(** ** The three cases *)

Definition swap_succ (z zr : Z) : M rb (Z * color) :=
  y <-- node_min zr;;
  yc <-- get_color y;;
  x <-- get_child R y;;
  yp <-- get_p y;;
  (if yp =? z then set_p x y
   else
     yr <-- get_child R y;; transplant y yr;;;
     zr <-- get_child R z;; set_child R y zr;;;
     yr <-- get_child R y;; set_p yr y);;;
  transplant z y;;;
  zl <-- get_child L z;; set_child L y zl;;;
  yl <-- get_child L y;; set_p yl y;;;
  zc <-- get_color z;; set_color y zc;;;
  ret (x, yc).

Definition finish (z : Z) (xc : Z * color) : M rb unit :=
  f <-- tree_fuel;;
  (if negb (is_red xc.2) then remove_fixup f xc.1 else ret tt);;;
  delete_node z;;;
  add_sz (-1).

Definition take_out (z zl zr : Z) (zc : color) : M rb (Z * color) :=
  nil <-- get_nil;;
  if zl =? nil then transplant z zr;;; ret (zr, zc)
  else if zr =? nil then transplant z zl;;; ret (zl, zc)
  else swap_succ z zr.

Lemma take_place_then {A} z y (k : M rb A) (s : rb) :
  (transplant z y;;; zl <-- get_child L z;; set_child L y zl;;; yl <-- get_child L y;; set_p yl y;;;
   zc <-- get_color z;; set_color y zc;;; k) s = (take_place z y;;; k) s.
Proof.
  unfold take_place, bind. destruct (transplant z y s) as [[[] s1]|]; [|done]. destruct (get_child L z s1) as [[zl s2]|]; [|done].
  destruct (set_child L y zl s2) as [[[] s3]|]; [|done]. destruct (get_child L y s3) as [[yl s4]|]; [|done].
  destruct (set_p yl y s4) as [[[] s5]|]; [|done]. by destruct (get_color z s5) as [[zc s6]|].
Qed.

Lemma swap_succ_spec (s : rb) c zc l z k cy yc y yk yr :
  leftmost cy -> l <> Leaf -> rep s (cy ++ Fr R zc z k l :: c) (Node yc Leaf y yk yr) ->
  exists s', swap_succ z (ptr (plug cy (Node yc Leaf y yk yr))) s = Ok ((ptr yr, yc), s') /\
    rep s' (cy ++ Fr R zc y yk l :: c) yr /\ hole_p s' (cy ++ Fr R zc y yk l :: c) yr /\ rb_sz s' = rb_sz s.
Proof.
  intros Hcy Hl Hr. unfold swap_succ. mrun (node_min_spec _ _ _ _ _ _ _ Hcy (proj1 (rep_app _ _ _ _) Hr)).
  pose proof (rep_node nil L _ _ _ _ _ _ _ Hr) as Ey. cbn [mkrn] in Ey.
  mrun (get_color_ok _ _ _ Ey). mrun (get_child_ok R _ _ _ Ey). mrun (get_p_ok _ _ _ Ey). cbn [rn_color rn_p child rn_r].
  assert (Hlift : exists s1, (if cptr (cy ++ Fr R zc z k l :: c) =? z then set_p (ptr yr) y
     else yr <-- get_child R y;; transplant y yr;;; zr <-- get_child R z;; set_child R y zr;;;
       yr <-- get_child R y;; set_p yr y) s = Ok (tt, s1) /\
    mid s1 c zc l z y yk (plug cy yr) /\ rb_sz s1 = rb_sz s /\
    (yr = Leaf -> exists n, rb_nodes s1 !! nil = Some n /\ rn_p n = cptr (cy ++ Fr R zc y yk l :: c))).
  { destruct cy as [|f cy]; cbn [app RbTreeSpec.cptr f_a] in *; [rewrite Z.eqb_refl; by apply (lift_near s c zc z k l yc)|].
    rewrite (proj2 (Z.eqb_neq _ _)); [by apply (lift_far s c f cy zc z k l yc)|]. intros E.
    destruct Hr as [_ _ _ _ Hnd _]. apply NoDup_cons in Hnd as [_ Hnd]. apply NoDup_app in Hnd as (_ & _ & Hnd).
    cbn [caddrs] in Hnd. apply NoDup_cons in Hnd as [Hn _]. apply Hn. rewrite E. apply elem_of_app. right.
    assert (Hin : z ∈ addrs (plug (cy ++ Fr R zc z k l :: c) Leaf)); [|by rewrite plug_addrs in Hin].
    rewrite plug_app, plug_addrs. apply elem_of_app. right. apply list_elem_of_here. }
  destruct Hlift as (s1 & R1 & Hmid & Z1 & Hs1). mrun R1.
  destruct (take_place_spec s1 c zc l z y yk (plug cy yr) Hmid Hl) as (s2 & R2 & H2 & En2 & Z2). exists s2. split.
  - rewrite take_place_then. by mrun R2.
  - split; [|split; [|congruence]].
    + apply rep_app. by apply (rep_up nil _ (Fr R zc y yk l)).
    + intros E _. destruct (Hs1 E) as (n & ? & ?). exists n. by rewrite En2.
Qed.

Lemma rep_absent (s : rb) c c' t t' z k l1 l2 : rep s c t -> elts (plug c t) = l1 ++ (z, k) :: l2 ->
  elts (plug c' t') = l1 ++ l2 -> z <> nil /\ z ∉ addrs (plug c' t').
Proof.
  intros Hr E E'. apply rep_plug in Hr as [_ _ _ _ Hnd _]. cbn [caddrs] in Hnd. rewrite app_nil_r, <- elts_addrs, E, fmap_app in Hnd. cbn in Hnd.
  rewrite <- Permutation_middle in Hnd. apply NoDup_cons in Hnd as [Hn Hnd]. apply NoDup_cons in Hnd as [Hz _].
  rewrite <- elts_addrs, E', fmap_app. split; [intros ->; apply Hn, list_elem_of_here|done].
Qed.

Lemma keeps_take_out z zl zr zc : keeps (T := T) (take_out z zl zr zc).
Proof.
  unfold take_out, swap_succ, node_min, get_nil, get_color, get_child, get_p, set_p, set_child, set_color.
  repeat first [apply keeps_transplant | apply keeps_extreme | progress keep].
Qed.

Lemma take_out_spec (s : rb) c zc l z k r :
  rep s c (Node zc l z k r) -> proper (plug c (Node zc l z k r)) ->
  exists s' c' x co, take_out z (ptr l) (ptr r) zc s = Ok ((ptr x, co), s') /\ rep s' c' x /\ hole_p s' c' x /\ lacks co c' x /\
    elts (plug c' x) = rev (cside L c) ++ elts l ++ elts r ++ cside R c /\ rb_sz s' = rb_sz s.
Proof.
  intros Hr Hp. unfold take_out. mrun (get_nil_ok s). rewrite (r_nil _ _ _ _ Hr).
  assert (Hne : forall d u v, rep s (Fr d zc z k u :: c) v -> v <> Leaf -> (ptr v =? nil) = false).
  { intros d u v Hv Hl. apply Z.eqb_neq. by apply (rep_ptr_ne _ _ _ _ Hv). }
  destruct (decide (ptr l = nil)) as [El|El].
  - assert (l = Leaf) as -> by (destruct l as [|c1 l1 a1 k1 r1]; [done|]; pose proof (Hne L r _ (proj2 (rep_up nil _ (Fr L zc z k r) _ _) Hr) ltac:(done)) as E; by apply Z.eqb_neq in E).
    cbn [RbTreeSpec.ptr]. rewrite Z.eqb_refl. destruct (transplant_child L s c zc z k r Hr) as (s' & Hrun & H & Hh & Hz & _). mrun Hrun.
    exists s', c, r, zc. split; [done|]. split; [done|]. split; [done|]. split; [by apply (proper_lacks c L zc z k)|]. split; [|done]. apply elts_plug.
  - rewrite (proj2 (Z.eqb_neq _ _) El). destruct (decide (ptr r = nil)) as [Er|Er].
    + assert (r = Leaf) as -> by (destruct r as [|c1 l1 a1 k1 r1]; [done|]; pose proof (Hne R l _ (proj2 (rep_up nil _ (Fr R zc z k l) _ _) Hr) ltac:(done)) as E; by apply Z.eqb_neq in E).
      cbn [RbTreeSpec.ptr]. rewrite Z.eqb_refl. destruct (transplant_child R s c zc z k l Hr) as (s' & Hrun & H & Hh & Hz & _). mrun Hrun.
      exists s', c, l, zc. split; [done|]. split; [done|]. split; [done|]. split; [by apply (proper_lacks c R zc z k)|]. split; [|done]. apply elts_plug.
    + rewrite (proj2 (Z.eqb_neq _ _) Er). destruct (leftmost_node r) as (cy & yc & y & yk & yr & -> & Hcy); [by intros ->|].
      pose proof (proj2 (rep_app _ cy _ _) (proj2 (rep_up nil _ (Fr R zc z k l) _ _) Hr)) as Hy.
      destruct (swap_succ_spec s c zc l z k cy yc y yk yr Hcy ltac:(by intros ->) Hy) as (s' & Hrun & H & Hh & Hz).
      exists s', (cy ++ Fr R zc y yk l :: c), yr, yc. split; [done|]. split; [done|]. split; [done|]. split.
      { apply (lacks_rename yc cy R zc z k l c y yk). eapply (proper_lacks _ L yc y yk). rewrite plug_app. exact Hp. }
      split; [|done]. rewrite plug_app. cbn [plug]. rewrite (elts_plug c), (elts_plug cy). unfold plug1. cbn [mkn f_d f_c f_a f_k f_sib elts].
      rewrite (elts_plug cy), (leftmost_side _ Hcy). cbn. by repeat (rewrite <- app_assoc; cbn).
Qed.

Lemma finish_spec (s : rb) c x co z :
  rep s c x -> hole_p s c x -> lacks co c x -> z <> nil -> z ∉ addrs (plug c x) ->
  exists s' t', finish z (ptr x, co) s = Ok (tt, s') /\ rep s' [] t' /\ proper t' /\ elts t' = elts (plug c x) /\
    dom (rb_nodes s') = dom (rb_nodes s) ∖ {[z]} /\ rb_sz s' = u32 (rb_sz s + -1).
Proof.
  intros Hr Hh Hl Hzn Hz. unfold finish, tree_fuel. mgo. cbn [fst snd].
  assert (Hfix : exists s1 t', (if negb (is_red co) then remove_fixup (S (size (rb_nodes s))) (ptr x) else ret tt) s = Ok (tt, s1) /\
    rep s1 [] t' /\ proper t' /\ elts t' = elts (plug c x) /\ dom (rb_nodes s1) = dom (rb_nodes s) /\ rb_sz s1 = rb_sz s).
  { destruct co; cbn [is_red negb].
    - exists s, (plug c x). split; [done|]. split; [by apply (proj1 (rep_plug _ _ _ _))|]. split; [by apply lacks_red|done].
    - destruct Hl as (Ht & n & Hd & Hc). pose proof (rep_depth _ _ _ _ Hr).
      destruct (remove_fixup_spec (S (size (rb_nodes s))) s c x n Hr Hh Hd Hc Ht) as (s1 & t' & R & H1 & H2 & H3 & H4); [left; lia|].
      exists s1, t'. do 4 (split; [done|]). split; [exact (keeps_remove _ _ _ _ _ R)|done]. }
  destruct Hfix as (s1 & t' & R1 & H1 & Hp & He & Hd & Hs). mrun R1. unfold delete_node, add_sz. mgo. unfold modify.
  eexists _, t'. split; [done|]. cbn [rb_nodes rb_sz rb_nil rb_root]. split; [|split; [done|split; [done|split; [by rewrite dom_delete_L, Hd|by rewrite Hs]]]].
  assert (Hz' : z ∉ addrs t') by (by rewrite <- elts_addrs, He, elts_addrs).
  destruct H1 as [P1 P2 P3 P4 P5 (nn & En & Hb)]. constructor; try done; cbn [rb_nodes].
  - eapply tree_at_ext; [|exact P3]. intros a Ha. apply lookup_delete_ne. by intros ->.
  - exists nn. by rewrite lookup_delete_ne by done.
Qed.

Lemma rb_erase_run z (s : rb) : rb_nil s = nil -> z <> nil -> z <> 0 ->
  rb_erase z s = (zl <-- get_child L z;; zr <-- get_child R z;; zc <-- get_color z;; xc <-- take_out z zl zr zc;; finish z xc) s.
Proof.
  intros Hnil Hz H0. unfold rb_erase. mrun (get_nil_ok s). rewrite Hnil, (proj2 (Z.eqb_neq _ _) Hz), (proj2 (Z.eqb_neq _ _) H0). cbn [orb].
  destruct (rb_nodes s !! z) as [n|] eqn:E.
  - do 2 mrun (get_child_ok L _ _ _ E). do 2 mrun (get_child_ok R _ _ _ E). do 2 mrun (get_color_ok _ _ _ E).
    unfold take_out at 1. rewrite bind_assoc. mrun (get_nil_ok s). by rewrite Hnil.
  - unfold get_child, node_at. mgo. by rewrite E.
Qed.

Lemma rb_erase_spec z k (s : rb) t l1 l2 :
  rep s [] t -> proper t -> elts t = l1 ++ (z, k) :: l2 -> z <> 0 ->
  exists s' t', rb_erase z s = Ok (tt, s') /\ rep s' [] t' /\ proper t' /\ elts t' = l1 ++ l2 /\
    dom (rb_nodes s') = dom (rb_nodes s) ∖ {[z]} /\ rb_sz s' = u32 (rb_sz s + -1).
Proof.
  intros Hr Hp E H0. destruct (elts_split _ _ _ _ _ E) as (c & zc & l & r & <- & -> & ->).
  pose proof (proj2 (rep_plug _ _ _ _) Hr) as Hc. pose proof (rep_node nil L _ _ _ _ _ _ _ Hc) as Ez. cbn [mkrn] in Ez.
  pose proof (rep_ptr_ne _ _ _ _ Hc ltac:(done)) as Hz. cbn [RbTreeSpec.ptr] in Hz.
  rewrite (rb_erase_run z s (r_nil _ _ _ _ Hr) Hz H0). mrun (get_child_ok L _ _ _ Ez). mrun (get_child_ok R _ _ _ Ez). mrun (get_color_ok _ _ _ Ez).
  cbn [child rn_l rn_r rn_color].
  destruct (take_out_spec s c zc l z k r Hc Hp) as (s1 & c' & x & co & R1 & H1 & Hh & Hl & He & Hs). mrun R1.
  rewrite app_assoc in He. destruct (rep_absent s c c' _ x z k _ _ Hc E He) as [_ Ha].
  destruct (finish_spec s1 c' x co z H1 Hh Hl Hz Ha) as (s2 & t' & R2 & H2 & P2 & E2 & D2 & S2).
  exists s2, t'. split; [exact R2|]. split; [done|]. split; [done|]. split; [congruence|]. split; [|congruence].
  by rewrite D2, (keeps_take_out _ _ _ _ _ _ _ R1).
Qed.
End erase.

(** ** Sequences of deletions *)

Section sequence.
Context {T : Type} (ltb eqb : T -> T -> bool) `{!KeyOrder ltb eqb} (nil : Z).

Fixpoint rb_erases (zs : list Z) : M (rb (T := T)) unit :=
  match zs with [] => ret tt | z :: r => rb_erase z;;; rb_erases r end.

Definition without (zs : list Z) (l : list (Z * T)) : list (Z * T) := filter (fun p => p.1 ∉ zs) l.

Lemma without_absent z zs l : z ∉ l.*1 -> without (z :: zs) l = without zs l.
Proof.
  unfold without. induction l as [|p l IH]; [done|]. cbn [fmap list_fmap]. rewrite not_elem_of_cons. intros [Hp Hl].
  rewrite !filter_cons, (IH Hl). case_decide as E1; case_decide as E2; try done; cbn beta in *; rewrite elem_of_cons in E1; assert (p.1 <> z) by congruence; tauto.
Qed.

Lemma without_nil l : without [] l = l.
Proof. unfold without. induction l as [|p l IH]; [done|]. rewrite filter_cons_True; [by rewrite IH|apply not_elem_of_nil]. Qed.

Lemma without_cons z zs l1 k l2 : NoDup (l1 ++ (z, k) :: l2).*1 ->
  without (z :: zs) (l1 ++ (z, k) :: l2) = without zs (l1 ++ l2).
Proof.
  intros Hnd. rewrite fmap_app in Hnd. cbn in Hnd. rewrite <- Permutation_middle in Hnd. apply NoDup_cons in Hnd as [Hz _].
  rewrite elem_of_app in Hz. unfold without. rewrite !filter_app, filter_cons_False; [|intros Hn; cbn in Hn; apply Hn, list_elem_of_here].
  fold (without (z :: zs) l1) (without (z :: zs) l2). rewrite !without_absent by tauto. done.
Qed.

Lemma sorted_without zs l : sorted ltb l -> sorted ltb (without zs l).
Proof.
  unfold without. induction l as [|p l IH]; [done|]. cbn [sorted]. intros [Hp Hl]. rewrite filter_cons. case_decide; [|by apply IH].
  cbn [sorted]. split; [|by apply IH]. apply Forall_forall. intros q [_ Hq]%list_elem_of_filter. by apply (proj1 (Forall_forall _ _) Hp).
Qed.

Lemma rb_erases_spec zs : forall s t,
  rep nil s [] t -> proper t -> NoDup zs -> (forall z, z ∈ zs -> z <> 0 /\ z ∈ (elts t).*1) -> rb_sz s = u32 (rb_sz s) ->
  exists s' t', rb_erases zs s = Ok (tt, s') /\ rep nil s' [] t' /\ proper t' /\ elts t' = without zs (elts t) /\
    dom (rb_nodes s') = dom (rb_nodes s) ∖ list_to_set zs /\ rb_sz s' = u32 (rb_sz s - Z.of_nat (length zs)).
Proof.
  induction zs as [|z zs IH]; intros s t Hr Hp Hnd Hin Hsz.
  - exists s, t. cbn. split; [done|]. split; [done|]. split; [done|]. split; [|split; [set_solver|by rewrite Z.sub_0_r]].
    symmetry. apply without_nil.
  - apply NoDup_cons in Hnd as [Hz Hnd]. destruct (Hin z ltac:(apply list_elem_of_here)) as [H0 Hel].
    apply list_elem_of_fmap in Hel as ([z' k] & -> & Hel). cbn in *. apply list_elem_of_split in Hel as (l1 & l2 & E).
    destruct (rb_erase_spec nil z' k s t l1 l2 Hr Hp E H0) as (s1 & t1 & R1 & H1 & P1 & E1 & D1 & S1). mrun R1.
    assert (Hndt : NoDup (elts t).*1) by (rewrite elts_addrs; destruct Hr as [_ _ _ _ Hn _]; cbn [caddrs] in Hn; rewrite app_nil_r in Hn; by apply NoDup_cons in Hn as [_ ?]).
    destruct (IH s1 t1 H1 P1 Hnd) as (s2 & t2 & R2 & H2 & P2 & E2 & D2 & S2).
    { intros y Hy. destruct (Hin y ltac:(by apply list_elem_of_further)) as [? Hy']. split; [done|]. rewrite E1. rewrite E in Hy'.
      rewrite fmap_app in *. cbn in Hy'. rewrite elem_of_app, elem_of_cons in *. destruct Hy' as [?|[->|?]]; tauto. }
    { rewrite S1. unfold u32, wrap. by rewrite Z.mod_mod. }
    exists s2, t2. split; [exact R2|]. split; [done|]. split; [done|]. split.
    + rewrite E2, E1, E. symmetry. apply without_cons. by rewrite <- E.
    + split; [rewrite D2, D1; set_solver|]. rewrite S2, S1. rewrite <- Z.add_opp_r, u32_add_l. f_equal. cbn [length]. lia.
Qed.

(** C7: erasing any nodes of a tree that satisfies the red-black conditions,
    in any order, removes exactly these nodes and keeps the conditions: the
    other keys stay in order and are found, the nodes are freed, and [size]
    goes down by their number.  No erasure faults or runs out of fuel. *)
Theorem rb_erase_correct zs (s : rb) t :
  rep nil s [] t -> proper t -> sorted ltb (elts t) -> NoDup zs ->
  (forall z, z ∈ zs -> z <> 0 /\ z ∈ (elts t).*1) -> 0 <= rb_sz s < 2 ^ 32 ->
  exists s' t', rb_erases zs s = Ok (tt, s') /\ rep nil s' [] t' /\ proper t' /\ elts t' = without zs (elts t) /\
    (forall k, rb_find ltb eqb k s' = Ok (sorted_find eqb nil k (without zs (elts t)), s')) /\
    dom (rb_nodes s') = dom (rb_nodes s) ∖ list_to_set zs /\ rb_sz s' = u32 (rb_sz s - Z.of_nat (length zs)).
Proof.
  intros Hr Hp Hs Hnd Hin Hsz.
  destruct (rb_erases_spec zs s t Hr Hp Hnd Hin) as (s' & t' & R & Hr' & Hp' & E & D & S); [symmetry; by apply u32_small|].
  exists s', t'. do 4 (split; [done|]). split; [|done]. intros k. apply rb_find_spec; [done|].
  exists t'. split; [done|]. split; [done|]. split; [by apply sorted_without|apply Hp'].
Qed.
End sequence.

Lemma rb_erase_correct_witness :
  let t := Node Black (Node Black (Node Red Leaf 4 40 Leaf) 2 50 Leaf) 1 60 (Node Black Leaf 3 70 (Node Red Leaf 5 80 Leaf)) in
  let s := Rb (list_to_map [(100, RNode 0 Black 100 100 100); (1, RNode 60 Black 2 3 100); (2, RNode 50 Black 4 100 1);
      (3, RNode 70 Black 100 5 1); (4, RNode 40 Red 100 100 2); (5, RNode 80 Red 100 100 3)]) 100 1 5 in
  exists s' t', rb_erases [1; 3; 5] s = Ok (tt, s') /\ elts t' = [(4, 40); (2, 50)] /\ proper t' /\
    rb_find Z.ltb Z.eqb 40 s' = Ok (4, s') /\ rb_find Z.ltb Z.eqb 60 s' = Ok (100, s') /\ rb_sz s' = 2.
Proof.
  intros t s.
  destruct (rb_erase_correct Z.ltb Z.eqb 100 [1; 3; 5] s t) as (s' & t' & R & _ & Hp & E & Hf & _ & S).
  - constructor; try reflexivity.
    + cbn. repeat split; reflexivity.
    + cbn. repeat (apply NoDup_cons; split; [set_solver|]). constructor.
    + eexists. split; reflexivity.
  - split; [reflexivity|]. exists 2%nat. cbn. auto 10.
  - cbn. unfold above. cbn. repeat (split; [repeat constructor|]). constructor.
  - repeat (apply NoDup_cons; split; [set_solver|]). constructor.
  - cbn. set_solver.
  - cbn. lia.
  - exists s', t'. split; [exact R|]. split; [exact E|]. split; [exact Hp|]. split; [apply (Hf 40)|]. split; [apply (Hf 60)|exact S].
Defined.
