(* ===== verification/Proc.v ===== *)
(** * Processes and queues (kernel/include/proc.h, kernel/proc/proc.cpp)

    A process is an object in a store of processes, reached by its address
    (the null pointer is 0).  The run queue, the list of processes and the
    sleep queue are red-black trees of process pointers, compared through the
    processes they point to; a condition variable's waiting list is a linked
    list.  The trees are the ones of RbTree.v, with the comparison operators
    evaluated in the current store, so a process that changes while it is
    queued changes its key.  A comparison that would read a deleted process is
    outside the language; the operators below then compare the addresses. *)

From S2P Require Import Prelude Bitmap LinkedList RbTree PageDir.
From stdpp Require Import gmap list.
#[local] Open Scope Z_scope.

Inductive errno : Type :=
  EINTR | EFAULT | EINVAL | ENOMEM | ECHILD | ESRCH | EACCES | EBUSY
| EBADF | EMFILE | ENOENT | EISDIR | ENOSYS | ESPIPE | EIO | ENOEXEC.

(** An [int] a system call returns: a value, or a negated error number. *)
Inductive sysret : Type := Val (n : Z) | Err (e : errno).

(** The signal numbers of the C library's [signal.h]: [sig_fatal] are those the
    default handler exits on. *)
Record signums : Type := SigNums { SIGKILL : Z; SIGCHLD : Z; SIGSEGV : Z; sig_fatal : list Z }.

Inductive status : Type := CREATED | READY | RUNNING | WAITING | WAITING_NOINTERRUPT | ZOMBIE.
Inductive queue : Type := NO_QUEUE | RUN_QUEUE | SLEEP_QUEUE | EVENT_QUEUE.
(** [queue_handle]: a tree node, or an iterator into a condition variable's list. *)
Inductive qhandle : Type := HNull | HNode (a : Z) | HIter (c : Z) (n : nptr).

#[export] Instance status_eq_dec : EqDecision status.
Proof. solve_decision. Defined.
#[export] Instance queue_eq_dec : EqDecision queue.
Proof. solve_decision. Defined.

Definition INIT_TID : Z := 1.
Definition ROOT_UID : Z := 0.
Definition SCHEDULE_MIN_DELTA : Z := 1000000.
Definition NICE_MIN : Z := -20.
Definition NICE_MAX : Z := 19.
Definition EFLAGS_DEFAULT : Z := 2.
Definition EFLAGS_INT : Z := 512.
Definition sched_latency : Z := 20000000.

(** The registers of [proc_state], and of [isr::registers] with [cs]. *)
Record regs : Type := Regs {
  r_eflags : Z; r_eip : Z; r_edi : Z; r_esi : Z; r_ebp : Z; r_esp : Z;
  r_ebx : Z; r_edx : Z; r_ecx : Z; r_eax : Z }.
Definition regs0 : regs := Regs 0 0 0 0 0 0 0 0 0 0.

(** The fields of [struct proc], in groups; [fpu_buf] is one value. *)
Record p_id : Type := PId { tid : Z; pid : Z; uid : Z }.
Record p_sched : Type := PSched {
  st : status; vruntime : Z; nice : Z; cur_queue : queue; handle : qhandle; wait_pid : Z }.
Record p_cpu : Type := PCpu {
  state : regs; fpu_buf : Z; fpu_used : bool; user : bool; interrupted : bool }.
Record p_mem : Type := PMem { p_dir : Z; brk_start : Z; brk_end : Z; stack_bot : Z }.
Record p_fam : Type := PFam { parent : Z; last_child : Z; next_sibling : Z; prev_sibling : Z }.
Record proc : Type := Proc {
  pr_id : p_id; pr_sched : p_sched; pr_cpu : p_cpu; pr_mem : p_mem; pr_fam : p_fam;
  clone_flags : Z; exit_status : Z; signals : bitmap }.

Definition with_id (x : p_id) (p : proc) : proc :=
  Proc x (pr_sched p) (pr_cpu p) (pr_mem p) (pr_fam p) (clone_flags p) (exit_status p) (signals p).
Definition with_sched (x : p_sched) (p : proc) : proc :=
  Proc (pr_id p) x (pr_cpu p) (pr_mem p) (pr_fam p) (clone_flags p) (exit_status p) (signals p).
Definition with_cpu (x : p_cpu) (p : proc) : proc :=
  Proc (pr_id p) (pr_sched p) x (pr_mem p) (pr_fam p) (clone_flags p) (exit_status p) (signals p).
Definition with_pmem (x : p_mem) (p : proc) : proc :=
  Proc (pr_id p) (pr_sched p) (pr_cpu p) x (pr_fam p) (clone_flags p) (exit_status p) (signals p).
Definition with_fam (x : p_fam) (p : proc) : proc :=
  Proc (pr_id p) (pr_sched p) (pr_cpu p) (pr_mem p) x (clone_flags p) (exit_status p) (signals p).
Definition with_clone_flags (x : Z) (p : proc) : proc :=
  Proc (pr_id p) (pr_sched p) (pr_cpu p) (pr_mem p) (pr_fam p) x (exit_status p) (signals p).
Definition with_exit (x : Z) (p : proc) : proc :=
  Proc (pr_id p) (pr_sched p) (pr_cpu p) (pr_mem p) (pr_fam p) (clone_flags p) x (signals p).
Definition with_signals (x : bitmap) (p : proc) : proc :=
  Proc (pr_id p) (pr_sched p) (pr_cpu p) (pr_mem p) (pr_fam p) (clone_flags p) (exit_status p) x.

Definition ptid (p : proc) : Z := tid (pr_id p).
Definition ppid (p : proc) : Z := pid (pr_id p).
Definition pstatus (p : proc) : status := st (pr_sched p).
Definition pvrun (p : proc) : Z := vruntime (pr_sched p).
Definition pqueue (p : proc) : queue := cur_queue (pr_sched p).

Definition set_status (x : status) (p : proc) : proc :=
  let s := pr_sched p in with_sched (PSched x (vruntime s) (nice s) (cur_queue s) (handle s) (wait_pid s)) p.
Definition set_vruntime (x : Z) (p : proc) : proc :=
  let s := pr_sched p in with_sched (PSched (st s) x (nice s) (cur_queue s) (handle s) (wait_pid s)) p.
Definition set_nice (x : Z) (p : proc) : proc :=
  let s := pr_sched p in with_sched (PSched (st s) (vruntime s) x (cur_queue s) (handle s) (wait_pid s)) p.
Definition set_queue (x : queue) (p : proc) : proc :=
  let s := pr_sched p in with_sched (PSched (st s) (vruntime s) (nice s) x (handle s) (wait_pid s)) p.
Definition set_handle (x : qhandle) (p : proc) : proc :=
  let s := pr_sched p in with_sched (PSched (st s) (vruntime s) (nice s) (cur_queue s) x (wait_pid s)) p.
Definition set_wait_pid (x : Z) (p : proc) : proc :=
  let s := pr_sched p in with_sched (PSched (st s) (vruntime s) (nice s) (cur_queue s) (handle s) x) p.
Definition set_regs (x : regs) (p : proc) : proc :=
  let c := pr_cpu p in with_cpu (PCpu x (fpu_buf c) (fpu_used c) (user c) (interrupted c)) p.
Definition set_fpu (b : Z) (u : bool) (p : proc) : proc :=
  let c := pr_cpu p in with_cpu (PCpu (state c) b u (user c) (interrupted c)) p.
Definition set_user (x : bool) (p : proc) : proc :=
  let c := pr_cpu p in with_cpu (PCpu (state c) (fpu_buf c) (fpu_used c) x (interrupted c)) p.
Definition set_interrupted (x : bool) (p : proc) : proc :=
  let c := pr_cpu p in with_cpu (PCpu (state c) (fpu_buf c) (fpu_used c) (user c) x) p.
Definition set_parent (x : Z) (p : proc) : proc :=
  let f := pr_fam p in with_fam (PFam x (last_child f) (next_sibling f) (prev_sibling f)) p.
Definition set_last_child (x : Z) (p : proc) : proc :=
  let f := pr_fam p in with_fam (PFam (parent f) x (next_sibling f) (prev_sibling f)) p.
Definition set_next_sibling (x : Z) (p : proc) : proc :=
  let f := pr_fam p in with_fam (PFam (parent f) (last_child f) x (prev_sibling f)) p.
Definition set_prev_sibling (x : Z) (p : proc) : proc :=
  let f := pr_fam p in with_fam (PFam (parent f) (last_child f) (next_sibling f) x) p.

(** ** Comparisons *)

(** [proc::operator<] and [proc::operator==] *)
Definition proc_lt (p q : proc) : bool :=
  if negb (pvrun p =? pvrun q) then pvrun p <? pvrun q
  else if negb (nice (pr_sched p) =? nice (pr_sched q)) then nice (pr_sched p) <? nice (pr_sched q)
  else ptid p <? ptid q.
Definition proc_eq (p q : proc) : bool := ptid p =? ptid q.

(** [proc_ptr] and [sleep_proc] compare what they point to. *)
Definition ptr_cmp {A} (f : proc -> proc -> A) (g : Z -> Z -> A) (l r : A) (m : gmap Z proc) (p q : Z) : A :=
  match m !! p, m !! q with
  | Some x, Some y => f x y
  | None, None => g p q
  | Some _, None => l
  | None, Some _ => r
  end.
Definition ptr_lt : gmap Z proc -> Z -> Z -> bool := ptr_cmp proc_lt Z.ltb true false.
Definition ptr_eq : gmap Z proc -> Z -> Z -> bool := ptr_cmp proc_eq Z.eqb false false.
Definition tid_lt : gmap Z proc -> Z -> Z -> bool := ptr_cmp (fun x y => ptid x <? ptid y) Z.ltb true false.
(** A [sleep_proc] is the process and its wake-up time. *)
Definition sleep_lt (m : gmap Z proc) (a b : Z * Z) : bool :=
  if negb (a.2 =? b.2) then a.2 <? b.2 else tid_lt m a.1 b.1.
Definition sleep_eq (m : gmap Z proc) (a b : Z * Z) : bool := ptr_eq m a.1 b.1.

(** ** The state of the process subsystem

    [sd]: a [shared_page_dir] with the reference count of its [shared_ptr]s. *)
Record sdir : Type := SDir { sd_dir : Z; sd_cloned : Z; sd_refs : Z }.

Section proc.
Context {F K : Type} `{FrameAlloc F} `{TableAlloc K}.
Variable sg : signums.
Variable kernel_page_dir : Z.
Notation vm := (@vm F K).

Record ps : Type := PS {
  procs : gmap Z proc;
  proc_list : rb (T := Z);
  run_queue : rb (T := Z);
  sleep_queue : rb (T := Z * Z);
  conds : gmap Z (llist Z);   (** the waiting lists of the condition variables *)
  cur_proc : Z;
  min_vruntime : Z;
  online : bool;
  last_sched : Z;
  next_tid : Z;
  now : Z;                           (** [devices::pit::get_ns_passed()] *)
  cpu_fpu : Z;                       (** the FPU registers *)
  sdirs : gmap Z sdir;
  tmp_dir : Z;                       (** [_tmp_dir] *)
  user_mem : gmap Z Z;               (** words written through user pointers *)
  pvm : vm;
  supply : Z                         (** the next address [new] returns *)
}.

Definition with_procs x s := PS x (proc_list s) (run_queue s) (sleep_queue s) (conds s) (cur_proc s) (min_vruntime s)
  (online s) (last_sched s) (next_tid s) (now s) (cpu_fpu s) (sdirs s) (tmp_dir s) (user_mem s) (pvm s) (supply s).
Definition with_list x s := PS (procs s) x (run_queue s) (sleep_queue s) (conds s) (cur_proc s) (min_vruntime s)
  (online s) (last_sched s) (next_tid s) (now s) (cpu_fpu s) (sdirs s) (tmp_dir s) (user_mem s) (pvm s) (supply s).
Definition with_run x s := PS (procs s) (proc_list s) x (sleep_queue s) (conds s) (cur_proc s) (min_vruntime s)
  (online s) (last_sched s) (next_tid s) (now s) (cpu_fpu s) (sdirs s) (tmp_dir s) (user_mem s) (pvm s) (supply s).
Definition with_sleep x s := PS (procs s) (proc_list s) (run_queue s) x (conds s) (cur_proc s) (min_vruntime s)
  (online s) (last_sched s) (next_tid s) (now s) (cpu_fpu s) (sdirs s) (tmp_dir s) (user_mem s) (pvm s) (supply s).
Definition with_conds x s := PS (procs s) (proc_list s) (run_queue s) (sleep_queue s) x (cur_proc s) (min_vruntime s)
  (online s) (last_sched s) (next_tid s) (now s) (cpu_fpu s) (sdirs s) (tmp_dir s) (user_mem s) (pvm s) (supply s).
Definition with_cur x s := PS (procs s) (proc_list s) (run_queue s) (sleep_queue s) (conds s) x (min_vruntime s)
  (online s) (last_sched s) (next_tid s) (now s) (cpu_fpu s) (sdirs s) (tmp_dir s) (user_mem s) (pvm s) (supply s).
Definition with_minvt x s := PS (procs s) (proc_list s) (run_queue s) (sleep_queue s) (conds s) (cur_proc s) x
  (online s) (last_sched s) (next_tid s) (now s) (cpu_fpu s) (sdirs s) (tmp_dir s) (user_mem s) (pvm s) (supply s).
Definition with_online x s := PS (procs s) (proc_list s) (run_queue s) (sleep_queue s) (conds s) (cur_proc s) (min_vruntime s)
  x (last_sched s) (next_tid s) (now s) (cpu_fpu s) (sdirs s) (tmp_dir s) (user_mem s) (pvm s) (supply s).
Definition with_last x s := PS (procs s) (proc_list s) (run_queue s) (sleep_queue s) (conds s) (cur_proc s) (min_vruntime s)
  (online s) x (next_tid s) (now s) (cpu_fpu s) (sdirs s) (tmp_dir s) (user_mem s) (pvm s) (supply s).
Definition with_next_tid x s := PS (procs s) (proc_list s) (run_queue s) (sleep_queue s) (conds s) (cur_proc s) (min_vruntime s)
  (online s) (last_sched s) x (now s) (cpu_fpu s) (sdirs s) (tmp_dir s) (user_mem s) (pvm s) (supply s).
Definition with_now x s := PS (procs s) (proc_list s) (run_queue s) (sleep_queue s) (conds s) (cur_proc s) (min_vruntime s)
  (online s) (last_sched s) (next_tid s) x (cpu_fpu s) (sdirs s) (tmp_dir s) (user_mem s) (pvm s) (supply s).
Definition with_fpu x s := PS (procs s) (proc_list s) (run_queue s) (sleep_queue s) (conds s) (cur_proc s) (min_vruntime s)
  (online s) (last_sched s) (next_tid s) (now s) x (sdirs s) (tmp_dir s) (user_mem s) (pvm s) (supply s).
Definition with_sdirs x s := PS (procs s) (proc_list s) (run_queue s) (sleep_queue s) (conds s) (cur_proc s) (min_vruntime s)
  (online s) (last_sched s) (next_tid s) (now s) (cpu_fpu s) x (tmp_dir s) (user_mem s) (pvm s) (supply s).
Definition with_tmp x s := PS (procs s) (proc_list s) (run_queue s) (sleep_queue s) (conds s) (cur_proc s) (min_vruntime s)
  (online s) (last_sched s) (next_tid s) (now s) (cpu_fpu s) (sdirs s) x (user_mem s) (pvm s) (supply s).
Definition with_user_mem x s := PS (procs s) (proc_list s) (run_queue s) (sleep_queue s) (conds s) (cur_proc s) (min_vruntime s)
  (online s) (last_sched s) (next_tid s) (now s) (cpu_fpu s) (sdirs s) (tmp_dir s) x (pvm s) (supply s).
Definition with_pvm x s := PS (procs s) (proc_list s) (run_queue s) (sleep_queue s) (conds s) (cur_proc s) (min_vruntime s)
  (online s) (last_sched s) (next_tid s) (now s) (cpu_fpu s) (sdirs s) (tmp_dir s) (user_mem s) x (supply s).
Definition with_supply x s := PS (procs s) (proc_list s) (run_queue s) (sleep_queue s) (conds s) (cur_proc s) (min_vruntime s)
  (online s) (last_sched s) (next_tid s) (now s) (cpu_fpu s) (sdirs s) (tmp_dir s) (user_mem s) (pvm s) x.

(** A component's operation on its part of the state. *)
Definition zoom {B A} (g : ps -> B) (u : B -> ps -> ps) (c : M B A) : M ps A :=
  fun s => match c (g s) with Ok (a, b) => Ok (a, u b s) | Stop e => Stop e end.

Definition on_list {A} : M rb A -> M ps A := zoom proc_list with_list.
Definition on_run {A} : M rb A -> M ps A := zoom run_queue with_run.
Definition on_sleep {A} : M rb A -> M ps A := zoom sleep_queue with_sleep.
Definition on_vm {A} : M vm A -> M ps A := zoom pvm with_pvm.
Definition on_cond {A} (c : Z) (k : M (llist Z) A) : M ps A :=
  s <-- get;; l <-- deref (conds s !! c);;
  zoom (fun _ => l) (fun l' s => with_conds (<[c := l']> (conds s)) s) k.

(** The address of a new object: never null, never used before. *)
Definition new_addr : M ps Z := s <-- get;; put (with_supply (supply s + 1) s);;; ret (supply s).

Definition get_proc (p : Z) : M ps proc := s <-- get;; deref (procs s !! p).
Definition upd_proc (p : Z) (f : proc -> proc) : M ps unit :=
  x <-- get_proc p;; modify (fun s => with_procs (<[p := f x]> (procs s)) s).
Definition set_cur (p : Z) : M ps unit := modify (with_cur p).
Definition set_online (b : bool) : M ps unit := modify (with_online b).

(** ** Queues *)

(** [run_queue.insert(p).handle()], [proc_list.insert(p)] *)
Definition run_insert (p : Z) : M ps Z :=
  a <-- new_addr;; s <-- get;; on_run (rb_insert (ptr_lt (procs s)) (ptr_eq (procs s)) a p).
Definition proc_insert (p : Z) : M ps Z :=
  a <-- new_addr;; s <-- get;; on_list (rb_insert (ptr_lt (procs s)) (ptr_eq (procs s)) a p).
Definition sleep_insert (p wakeup : Z) : M ps Z :=
  a <-- new_addr;; s <-- get;; on_sleep (rb_insert (sleep_lt (procs s)) (sleep_eq (procs s)) a (p, wakeup)).
(** [proc_list.find(t)]: the nodes' processes are compared with the thread id. *)
Definition proc_find (t : Z) : M ps Z :=
  s <-- get;;
  let tid_of p := match procs s !! p with Some x => ptid x | None => -1 end in
  on_list (rb_find_by (fun p => tid_of p =? t) (fun p => tid_of p <? t)).

Definition handle_node (h : qhandle) : Z := match h with HNode a => a | _ => 0 end.

(** [proc::remove_from_queue] *)
Definition remove_from_queue (p : Z) : M ps unit :=
  x <-- get_proc p;;
  (match pqueue x with
   | RUN_QUEUE => on_run (rb_erase (handle_node (handle (pr_sched x))))
   | SLEEP_QUEUE => on_sleep (rb_erase (handle_node (handle (pr_sched x))))
   | EVENT_QUEUE =>
     match handle (pr_sched x) with
     | HIter c n => on_cond c (it_erase n);;; ret tt
     | _ => halt Fault
     end
   | NO_QUEUE => ret tt
   end);;;
  upd_proc p (set_queue NO_QUEUE);;;
  upd_proc p (set_handle HNull).

(** [add_proc_run]; 64-bit virtual run times wrap. *)
Definition add_proc_run (p : Z) (interrupted : bool) : M ps bool :=
  x <-- get_proc p;;
  if interrupted && bool_decide (pstatus x = WAITING_NOINTERRUPT) then ret false
  else
    (if interrupted && bool_decide (pstatus x = WAITING) then upd_proc p (set_interrupted true) else ret tt);;;
    remove_from_queue p;;;
    s <-- get;;
    upd_proc p (fun x => set_vruntime (u64 (pvrun x + min_vruntime s)) x);;;
    upd_proc p (set_queue RUN_QUEUE);;;
    a <-- run_insert p;;
    upd_proc p (set_handle (HNode a));;;
    upd_proc p (set_status READY);;;
    ret true.

Definition remove_proc_run (p : Z) : M ps Z :=
  remove_from_queue p;;;
  s <-- get;;
  x <-- get_proc p;;
  (if min_vruntime s <=? pvrun x then upd_proc p (set_vruntime (pvrun x - min_vruntime s)) else ret tt);;;
  upd_proc p (set_status READY);;;
  ret p.

Definition get_current_proc : M ps Z := s <-- get;; ret (cur_proc s).

Definition check_interrupted : M ps bool :=
  c <-- get_current_proc;;
  asserth (negb (c =? 0));;;
  x <-- get_proc c;;
  upd_proc c (set_interrupted false);;;
  ret (interrupted (pr_cpu x)).

(** ** Families *)

(** [proc::remove]: out of the parent's list of children *)
Definition proc_remove (p : Z) : M ps unit :=
  x <-- get_proc p;;
  let nx := next_sibling (pr_fam x) in
  let pv := prev_sibling (pr_fam x) in
  let pa := parent (pr_fam x) in
  (if negb (nx =? 0) then upd_proc nx (set_prev_sibling pv) else ret tt);;;
  (if negb (pv =? 0) then upd_proc pv (set_next_sibling nx)
   else if negb (pa =? 0) then
     y <-- get_proc pa;;
     if last_child (pr_fam y) =? p then upd_proc pa (set_last_child nx) else ret tt
   else ret tt);;;
  upd_proc p (set_prev_sibling 0);;;
  upd_proc p (set_next_sibling 0).

Definition proc_fuel : M ps nat := s <-- get;; ret (S (size (procs s))).

(** [proc::get_child_pid]: for (; p && p->pid != pid; p = p->next_sibling) *)
Fixpoint child_loop (fuel : nat) (hit : proc -> bool) (p : Z) : M ps Z :=
  match fuel with
  | O => halt Fuel
  | S k =>
    if p =? 0 then ret 0
    else x <-- get_proc p;; if hit x then ret p else child_loop k hit (next_sibling (pr_fam x))
  end.
Definition get_child_pid (p pid : Z) : M ps Z :=
  f <-- proc_fuel;; x <-- get_proc p;; child_loop f (fun y => ppid y =? pid) (last_child (pr_fam x)).

(** ** Shared page directories *)

Definition retain (d : Z) : M ps unit :=
  if d =? 0 then ret tt
  else s <-- get;; x <-- deref (sdirs s !! d);;
       put (with_sdirs (<[d := SDir (sd_dir x) (sd_cloned x) (sd_refs x + 1)]> (sdirs s)) s).

(** Dropping a reference; the last one runs [~shared_page_dir] and then drops
    the reference to the directory it was cloned from. *)
Fixpoint release (fuel : nat) (d : Z) : M ps unit :=
  match fuel with
  | O => halt Fuel
  | S k =>
    if d =? 0 then ret tt
    else
      s <-- get;; x <-- deref (sdirs s !! d);;
      if sd_refs x =? 1 then
        (if sd_cloned x =? 0 then
           on_vm (shared_page_dir_destroy kernel_page_dir (if sd_dir x =? 0 then None else Some (sd_dir x)) None)
         else
           y <-- deref (sdirs s !! sd_cloned x);;
           on_vm (shared_page_dir_destroy kernel_page_dir (if sd_dir x =? 0 then None else Some (sd_dir x)) (Some (sd_dir y))));;;
        modify (fun s => with_sdirs (delete d (sdirs s)) s);;;
        release k (sd_cloned x)
      else put (with_sdirs (<[d := SDir (sd_dir x) (sd_cloned x) (sd_refs x - 1)]> (sdirs s)) s)
  end.
Definition sdir_fuel : M ps nat := s <-- get;; ret (S (size (sdirs s))).
Definition release_dir (d : Z) : M ps unit := f <-- sdir_fuel;; release f d.

(** [delete p]: [~proc] unlinks the process and its members are destroyed. *)
Definition proc_delete (p : Z) : M ps unit :=
  proc_remove p;;;
  x <-- get_proc p;;
  modify (fun s => with_procs (delete p (procs s)) s);;;
  release_dir (p_dir (pr_mem x)).
End proc.
