(* ===== verification/Sched.v ===== *)
(** * The scheduler and process exit (kernel/proc/proc.cpp)

    A context switch does not return to the code that asked for it: the
    result of [schedule] says what happens next, and an operation that blocks
    is two definitions, what it does before it switches away and what it does
    when its process is scheduled again.  [schedule] and [exit] call each
    other; each such round ends a process, so the number of processes bounds
    the rounds. *)

From S2P Require Import Prelude Bitmap LinkedList RbTree MemLayout PageDir Memory Proc.
From stdpp Require Import gmap list.
#[local] Open Scope Z_scope.

(** What [schedule] leads to: its caller goes on; the CPU waits for an
    interrupt with scheduling off ([idle_loop]); process [p] runs. *)
Inductive sched_res : Type := SKept | SIdle | SRun (p : Z) (user : bool).

Definition CLONE_CSIGNAL_MASK : Z := 255.
Definition CLONE_PARENT : Z := 4096.
Definition CLONE_THREAD : Z := 8192.
Definition PROC_STACK_TOP : Z := KERNEL_VIRTUAL_BASE.

Section sched.
Context {F K : Type} `{FrameAlloc F} `{TableAlloc K}.
Variable sg : signums.
Variable kernel_page_dir : Z.
Notation ps := (@ps F K).

(** [cur_proc->dir->dir] *)
Definition dir_of (p : Z) : M ps Z :=
  x <-- get_proc p;; s <-- get;; d <-- deref (sdirs s !! p_dir (pr_mem x));; ret (sd_dir d).

(** [fxsave(p->state.fpu_buf)] *)
Definition fxsave (p : Z) : M ps unit :=
  s <-- get;; upd_proc p (fun x => set_fpu (cpu_fpu s) (fpu_used (pr_cpu x)) x).

(** [fpu_used_handler], the #NM exception *)
Definition fpu_used_handler : M ps unit :=
  c <-- get_current_proc;;
  if c =? 0 then halt Panic else upd_proc c (fun x => set_fpu (fpu_buf (pr_cpu x)) true x).

(** [_tkill] *)
Definition tkill_proc (p sig : Z) : M ps sysret :=
  x <-- get_proc p;;
  (if negb (sig =? 0) && negb (bool_decide (pstatus x = ZOMBIE)) then
     b <-- deref (bm_set (signals x) sig true);;
     upd_proc p (with_signals b);;;
     _ <-- add_proc_run p true;; ret tt
   else ret tt);;;
  ret (Val 0).

(** ** Exit *)

(** The children: zombies are deleted, the others become orphans. *)
Fixpoint orphan_loop (fuel : nat) (cur child : Z) : M ps unit :=
  match fuel with
  | O => halt Fuel
  | S k =>
    if child =? 0 then ret tt
    else
      x <-- get_proc child;;
      asserth (parent (pr_fam x) =? cur);;;
      (if bool_decide (pstatus x = ZOMBIE) then proc_delete kernel_page_dir child
       else upd_proc child (set_parent 0));;;
      orphan_loop k cur (next_sibling (pr_fam x))
  end.

(** [_tmp_dir = d] *)
Definition assign_tmp_dir (d : Z) : M ps unit :=
  retain d;;; s <-- get;; put (with_tmp d s);;; release_dir kernel_page_dir (tmp_dir s).

(** The parent is woken when it waits for this child, and signalled otherwise. *)
Definition notify_parent (p : Z) : M ps unit :=
  x <-- get_proc p;;
  let pa := parent (pr_fam x) in
  if pa =? 0 then ret tt
  else
    y <-- get_proc pa;;
    let w := wait_pid (pr_sched y) in
    if bool_decide (pstatus y = WAITING) && ((w <? 0) || (w =? ppid x)) then
      _ <-- add_proc_run pa false;; ret tt
    else
      let csig := Z.land (clone_flags x) CLONE_CSIGNAL_MASK in
      _ <-- tkill_proc pa (if negb (csig =? 0) then csig else SIGCHLD sg);; ret tt.

(** [exit(status)] up to its call of [schedule] *)
Definition exit_front (status : Z) : M ps unit :=
  p <-- get_current_proc;;
  asserth (negb (p =? 0));;;
  x <-- get_proc p;; f <-- proc_fuel;;
  orphan_loop f p (last_child (pr_fam x));;;
  x <-- get_proc p;;
  assign_tmp_dir (p_dir (pr_mem x));;;
  d <-- dir_of p;;
  on_vm (free_loop (Z.to_nat ((PROC_STACK_TOP - stack_bot (pr_mem x)) / 4096 + 1)) d (stack_bot (pr_mem x)) PROC_STACK_TOP);;;
  remove_from_queue p;;;
  set_cur 0;;;
  n <-- proc_find (ptid x);;
  on_list (rb_erase n);;;
  upd_proc p (set_status ZOMBIE);;;
  upd_proc p (set_queue NO_QUEUE);;;
  upd_proc p (with_exit status);;;
  notify_parent p;;;
  on_vm (free_kstack_tables d);;;
  on_vm (set_page_dir kernel_page_dir).

(** ** Scheduling *)

(** The current process's share of [schedule]: charge it for the time it ran
    and save its state. *)
Definition charge (p delta : Z) (rg : option (regs * Z)) : M ps unit :=
  x <-- get_proc p;;
  (if bool_decide (pqueue x = RUN_QUEUE)
   then remove_from_queue p;;; upd_proc p (set_queue RUN_QUEUE) else ret tt);;;
  upd_proc p (fun x => set_vruntime (u64 (pvrun x + delta)) x);;;
  (match rg with
   | Some (r, cs) => upd_proc p (set_regs r);;; upd_proc p (set_user (negb (Z.land cs 3 =? 0)))
   | None => ret tt
   end);;;
  x <-- get_proc p;;
  (if fpu_used (pr_cpu x) then fxsave p;;; upd_proc p (fun x => set_fpu (fpu_buf (pr_cpu x)) false x) else ret tt);;;
  if bool_decide (pqueue x = RUN_QUEUE)
  then upd_proc p (set_status READY);;; a <-- run_insert p;; upd_proc p (set_handle (HNode a))
  else ret tt.

(** The switch to process [p]. *)
Definition dispatch (pold p : Z) : M ps sched_res :=
  upd_proc p (set_status RUNNING);;;
  d <-- dir_of p;;
  on_vm (set_page_dir d);;;
  x <-- get_proc p;;
  (if negb (p =? pold) then modify (with_fpu (fpu_buf (pr_cpu x))) else ret tt);;;
  ret (SRun p (user (pr_cpu x))).

(** From the choice of the next process on; a fatal signal makes the chosen
    process exit, and [exit] schedules again. *)
Fixpoint sched_pick (fuel : nat) (pold t : Z) : M ps sched_res :=
  match fuel with
  | O => halt Fuel
  | S k =>
    e <-- on_run rb_empty;;
    if (e : bool) then set_online false;;; ret SIdle
    else
      modify (with_last t);;;
      n <-- on_run rb_min;;
      p <-- on_run (get_key n);;
      set_cur p;;;
      x <-- get_proc p;;
      modify (with_minvt (pvrun x));;;
      sig <-- deref (bm_first_one (signals x) 0);;
      if sig =? NPOS then dispatch pold p
      else
        b <-- deref (bm_set (signals x) sig false);;
        upd_proc p (with_signals b);;;
        if (sig =? SIGKILL sg) || bool_decide (sig ∈ sig_fatal sg) then
          exit_front (128 + sig);;;
          s <-- get;;
          if online s then sched_pick k 0 (now s) else ret SKept
        else dispatch pold p
  end.

(** [schedule(regs)]; [regs] comes with the interrupted code's [cs]. *)
Definition schedule (rg : option (regs * Z)) : M ps sched_res :=
  s <-- get;;
  if negb (online s) then ret SKept
  else
    let t := now s in
    let delta := u64 (t - last_sched s) in
    f <-- proc_fuel;;
    let p := cur_proc s in
    if p =? 0 then sched_pick f 0 t
    else
      n <-- on_run rb_size;;
      let lat := if 0 <? n then sched_latency / n else 0 in
      if (delta <? Z.max SCHEDULE_MIN_DELTA lat) && bool_decide (is_Some rg) then ret SKept
      else charge p delta rg;;; sched_pick f p t.

(** The end of [idle_loop], after an interrupt made a process ready. *)
Definition idle_resume (pold t : Z) : M ps sched_res :=
  f <-- proc_fuel;;
  e <-- on_run rb_empty;;
  if (e : bool) then ret SIdle else set_online true;;; sched_pick f pold t.

(** [__schedule()]: switch away from the current process, whose registers
    [__schedule_switch_kstack_and_call_save] stores ([sv]) ... *)
Definition schedule_call (sv : regs) : M ps sched_res :=
  c <-- get_current_proc;;
  (if c =? 0 then ret tt else upd_proc c (set_user false);;; upd_proc c (set_regs sv));;;
  set_online true;;;
  schedule None.
(** ... and what it returns when the process runs again. *)
Definition schedule_return : M ps sysret :=
  i <-- check_interrupted;; ret (if (i : bool) then Err EINTR else Val 0).

(** [exit(status)] *)
Definition exit (status : Z) : M ps sched_res := exit_front status;;; schedule None.

(** [_kill_current] *)
Definition kill_current (sig : Z) : M ps sched_res :=
  c <-- get_current_proc;;
  asserth (negb (c =? 0));;;
  _ <-- tkill_proc c sig;;
  set_cur 0;;;
  schedule None.

(** [page_fault_handler], after its messages; [err] is the error code. *)
Definition page_fault_handler (err : Z) : M ps sched_res :=
  if Z.land err 4 =? 0 then halt Panic else kill_current (SIGSEGV sg).

(** ** The timer *)

(** for (it = begin(); it && it->wakeup_ns <= now;) add_proc_run(it++->p) *)
Fixpoint wakeup_loop (fuel : nat) (it t : Z) : M ps unit :=
  match fuel with
  | O => halt Fuel
  | S k =>
    z <-- on_sleep (iter_nil it);;
    if (z : bool) then ret tt
    else
      e <-- on_sleep (get_key it);;
      if e.2 <=? t then
        it' <-- on_sleep (iter_incr it);;
        _ <-- add_proc_run e.1 false;;
        wakeup_loop k it' t
      else ret tt
  end.

Definition timer_tick (r : regs) (cs : Z) : M ps sched_res :=
  s <-- get;;
  it <-- on_sleep rb_begin;;
  wakeup_loop (S (size (rb_nodes (sleep_queue s)))) it (now s);;;
  schedule (Some (r, cs)).

(** ** Condition variables *)

(** [condvar::wait(lock)] before it switches: [unlock] is [lock->unlock()]
    when there is a lock. *)
Definition cond_wait (c : Z) (sv : regs) (unlock : M ps unit) : M ps (sysret + sched_res) :=
  p <-- get_current_proc;;
  if p =? 0 then ret (inl (Err EFAULT))
  else
    set_online false;;;
    p <-- remove_proc_run p;;
    upd_proc p (set_status WAITING);;;
    upd_proc p (set_queue EVENT_QUEUE);;;
    a <-- new_addr;;
    n <-- on_cond c (push_front a p);;
    upd_proc p (set_handle (HIter c n));;;
    unlock;;;
    r <-- schedule_call sv;;
    ret (inr r).
(** When the process runs again: [lock] is [lock->lock()]. *)
Definition cond_wait_return (lock : M ps unit) : M ps sysret :=
  r <-- schedule_return;; lock;;; ret r.

(** [condvar::wake(tid)] *)
Fixpoint wake_loop (fuel : nat) (c : Z) (it : nptr) (t : Z) : M ps (option bool) :=
  match fuel with
  | O => halt Fuel
  | S k =>
    if decide (it = ll_end) then ret (Some false)
    else
      p <-- on_cond c (node_key it);;
      x <-- get_proc p;;
      if ptid x =? t then
        b <-- add_proc_run p false;;
        ret (if (b : bool) then Some true else None)
      else
        it' <-- on_cond c (node_next it);;
        if t =? -1 then
          b <-- add_proc_run p false;;
          if (b : bool) then wake_loop k c it' t else ret None
        else wake_loop k c it' t
  end.
Definition cond_wake (c t : Z) : M ps sysret :=
  s <-- get;; l <-- deref (conds s !! c);;
  it <-- on_cond c ll_begin;;
  r <-- wake_loop (S (size (ll_links l))) c it t;;
  ret (match r with
       | None => Err EFAULT
       | Some found => if found || (t =? -1) then Val 0 else Err EINVAL
       end).
End sched.
