(* ===== verification/ProcCalls.v ===== *)
(** * Process system calls (kernel/proc/proc.cpp)

    [clone], [waitpid], [nanosleep], [setnice], [tkill], [getpid], and the
    creation of the first processes.  What the assembly helpers read from the
    CPU ([save_state], the stack pointer) is an argument. *)

From S2P Require Import Prelude Bitmap LinkedList RbTree MemLayout PageDir Memory Proc Sched.
From stdpp Require Import gmap list.
#[local] Open Scope Z_scope.

Section calls.
Context {F K : Type} `{FrameAlloc F} `{TableAlloc K}.
Variable sg : signums.
Variable kernel_page_dir : Z.
Notation ps := (@ps F K).

Definition next_id : M ps Z := s <-- get;; put (with_next_tid (next_tid s + 1) s);;; ret (next_tid s).

(** [proc(shared_page_dir* dir)]: the members' initialisers; members without
    one are zero here and written before they are read. *)
Definition proc_init (t d : Z) : proc :=
  Proc (PId t t 0) (PSched CREATED 0 0 NO_QUEUE HNull 0) (PCpu regs0 0 false false false)
       (PMem d 0 0 0) (PFam 0 0 0 0) 0 0 (bitmap_new 32 None).
Definition new_proc (d : Z) : M ps Z :=
  a <-- new_addr;; t <-- next_id;;
  modify (fun s => with_procs (<[a := proc_init t d]> (procs s)) s);;; ret a.

(** [new shared_page_dir] in a [shared_ptr] *)
Definition new_sdir (dir cloned : Z) : M ps Z :=
  a <-- new_addr;; retain cloned;;;
  modify (fun s => with_sdirs (<[a := SDir dir cloned 1]> (sdirs s)) s);;; ret a.

(** ** Clone *)

Definition stack_table : Z := Z.shiftr (KERNEL_VIRTUAL_BASE - 4096) 22.

(** Linking a child in front of its parent's other children. *)
Definition link_child (c pa : Z) : M ps unit :=
  upd_proc c (set_parent pa);;;
  y <-- get_proc pa;;
  let nx := last_child (pr_fam y) in
  upd_proc c (set_next_sibling nx);;;
  (if negb (nx =? 0) then upd_proc nx (set_prev_sibling c) else ret tt);;;
  upd_proc pa (set_last_child c).

(** The parent's way through [clone]: [sv] is what [save_state] stores, [esp]
    the stack pointer after it.  The child resumes inside [clone] and returns 0. *)
Definition clone (flags : Z) (sv : regs) (esp : Z) : M ps sysret :=
  p <-- get_current_proc;;
  asserth (negb (p =? 0));;;
  if 32 <=? Z.land flags CLONE_CSIGNAL_MASK then ret (Err EINVAL)
  else
    x <-- get_proc p;;
    c <-- new_proc 0;;
    (if negb (Z.land flags CLONE_THREAD =? 0)
     then upd_proc c (fun y => with_id (PId (ptid y) (ppid x) 0) y) else ret tt);;;
    d <-- dir_of p;;
    nd <-- on_vm (dir_clone kernel_page_dir d flags stack_table stack_table);;
    sd <-- new_sdir nd (if negb (Z.land flags CLONE_VM =? 0) then p_dir (pr_mem x) else 0);;
    upd_proc c (fun y => with_pmem (PMem sd (brk_start (pr_mem x)) (brk_end (pr_mem x)) (stack_bot (pr_mem x))) y);;;
    upd_proc c (set_user false);;;
    upd_proc c (fun y => with_id (PId (ptid y) (ppid y) (uid (pr_id x))) y);;;
    upd_proc c (set_nice (nice (pr_sched x)));;;
    upd_proc c (with_clone_flags flags);;;
    link_child c (if negb (Z.land flags CLONE_PARENT =? 0) then parent (pr_fam x) else p);;;
    s <-- get;;
    upd_proc c (set_fpu (if fpu_used (pr_cpu x) then cpu_fpu s else fpu_buf (pr_cpu x)) false);;;
    upd_proc c (set_regs (Regs (r_eflags sv) (r_eip sv) (r_edi sv) (r_esi sv) (r_ebp sv) esp
                               (r_ebx sv) (r_edx sv) (r_ecx sv) (r_eax sv)));;;
    _ <-- add_proc_run c false;;
    asserth (Z.land (r_eflags sv) EFLAGS_INT =? 0);;;
    _ <-- proc_insert c;;
    y <-- get_proc c;;
    ret (Val (ppid y)).
Definition clone_child_return : sysret := Val 0.

(** ** Small calls *)

Definition getpid : M ps Z :=
  p <-- get_current_proc;;
  if p =? 0 then ret (-1) else x <-- get_proc p;; ret (ppid x).

Definition setnice (inc : Z) : M ps sysret :=
  p <-- get_current_proc;;
  x <-- get_proc p;;
  if (inc <? 0) && negb (uid (pr_id x) =? ROOT_UID) then ret (Err EACCES)
  else if inc =? 0 then ret (Val 0)
  else
    remove_from_queue p;;;
    upd_proc p (fun x => set_nice (Z.max NICE_MIN (Z.min NICE_MAX (nice (pr_sched x) + inc))) x);;;
    a <-- run_insert p;;
    upd_proc p (set_handle (HNode a));;;
    ret (Val 0).

(** [nanosleep(ns)] before it switches; what it returns afterwards is
    [schedule_return]. *)
Definition nanosleep (ns : Z) (sv : regs) : M ps (sysret + sched_res) :=
  if ns <? 10 then ret (inl (Val 0))
  else
    p <-- get_current_proc;;
    asserth (negb (p =? 0));;;
    p <-- remove_proc_run p;;
    upd_proc p (set_status WAITING);;;
    upd_proc p (set_queue SLEEP_QUEUE);;;
    s <-- get;;
    a <-- sleep_insert p (u64 (now s + ns));;
    upd_proc p (set_handle (HNode a));;;
    r <-- schedule_call sg kernel_page_dir sv;;
    ret (inr r).

Definition tkill (t sig : Z) : M ps sysret :=
  if sig <? 0 then ret (Err EINVAL)
  else
    n <-- proc_find t;;
    z <-- on_list (iter_nil n);;
    if (z : bool) then ret (Err ESRCH)
    else p <-- on_list (get_key n);; tkill_proc p sig.

(** ** Waiting for children *)

(** [_waitpid_ret]: [status] is the user's pointer. *)
Definition waitpid_ret (p status : Z) : M ps sysret :=
  x <-- get_proc p;;
  (if negb (status =? 0) then modify (fun s => with_user_mem (<[status := exit_status x]> (user_mem s)) s) else ret tt);;;
  proc_delete kernel_page_dir p;;;
  ret (Val (ppid x)).

Definition is_zombie (x : proc) : bool := bool_decide (pstatus x = ZOMBIE).

(** [waitpid] until it returns or switches; [status] is what [_status.get()]
    gave, null when the pointer is not writable. *)
Definition waitpid (pid status options : Z) (sv : regs) : M ps (sysret + sched_res) :=
  if negb (options =? 0) then ret (inl (Err EINVAL))
  else if status =? 0 then ret (inl (Err EFAULT))
  else if pid <? -1 then ret (inl (Err ECHILD))
  else
    p <-- get_current_proc;;
    x <-- get_proc p;;
    asserth (wait_pid (pr_sched x) =? 0);;;
    f <-- proc_fuel;;
    let sleep :=
      p <-- remove_proc_run p;;
      upd_proc p (set_status WAITING);;;
      r <-- schedule_call sg kernel_page_dir sv;;
      ret (inr r) in
    if pid <=? 0 then
      if last_child (pr_fam x) =? 0 then ret (inl (Err ECHILD))
      else
        c <-- child_loop f is_zombie (last_child (pr_fam x));;
        if negb (c =? 0) then r <-- waitpid_ret c status;; ret (inl r)
        else upd_proc p (set_wait_pid (-1));;; sleep
    else
      c <-- get_child_pid p pid;;
      if c =? 0 then ret (inl (Err ECHILD))
      else
        y <-- get_proc c;;
        if is_zombie y then r <-- waitpid_ret c status;; ret (inl r)
        else upd_proc p (set_wait_pid pid);;; sleep.

(** When the waiting process runs again: the loop stops at the first child
    that has the pid or is a zombie. *)
Definition waitpid_return (pid status : Z) : M ps sysret :=
  r <-- schedule_return;;
  match r with
  | Err e => ret (Err e)
  | Val _ =>
    p <-- get_current_proc;;
    x <-- get_proc p;; f <-- proc_fuel;;
    c <-- child_loop f (fun y => negb ((pid <? 1) || negb (ppid y =? pid)) || is_zombie y) (last_child (pr_fam x));;
    asserth (negb (c =? 0));;;
    upd_proc p (set_wait_pid 0);;;
    waitpid_ret c status
  end.

(** ** The first processes

    One round of [init]'s loop: [load] is [elf::load] into the new directory,
    giving the entry point and the start of the heap, or an error. *)
Definition init_proc (load : Z -> M (@vm F K) (option (Z * Z))) : M ps unit :=
  s <-- get;;
  let old := vm_cur (pvm s) in
  nd <-- on_vm (dir_clone kernel_page_dir old 0 (-1) (-1));;
  _ <-- on_vm (alloc_block nd (PROC_STACK_TOP - 4096) 4096 (Z.lor (Z.lor PAGE_PRESENT PAGE_RW) PAGE_US));;
  _ <-- on_vm (alloc_block nd KERNEL_STACK_BOT KERNEL_STACK_SIZE default_flags);;
  sd <-- new_sdir nd 0;;
  p <-- new_proc sd;;
  upd_proc p (set_fpu 0 false);;;
  fxsave p;;;
  r <-- on_vm (load nd);;
  match r with
  | None => halt Panic
  | Some (eip, brk) =>
    upd_proc p (set_regs (Regs (Z.lor EFLAGS_DEFAULT EFLAGS_INT) eip 0 0 PROC_STACK_TOP PROC_STACK_TOP 0 0 0 0));;;
    upd_proc p (set_user true);;;
    on_vm (switch_page_dir old);;;
    upd_proc p (with_pmem (PMem sd brk brk (PROC_STACK_TOP - 4096)));;;
    upd_proc p (set_status READY);;;
    a <-- run_insert p;;
    upd_proc p (set_handle (HNode a));;;
    upd_proc p (set_queue RUN_QUEUE)
  end.

(** [init]: the boot state of the subsystem and the processes of the list. *)
Fixpoint init_loop (loads : list (Z -> M (@vm F K) (option (Z * Z)))) : M ps unit :=
  match loads with [] => set_online true | l :: r => init_proc l;;; init_loop r end.
Definition ps_boot (v : @vm F K) (list_nil run_nil sleep_nil first : Z) : ps :=
  PS ∅ (rb_new list_nil 0 0) (rb_new run_nil 0 0) (rb_new sleep_nil (0, 0) 0) ∅ 0 0 false 0 INIT_TID 0 0 ∅ 0 ∅ v first.
End calls.
