(* ===== verification/ProcSpec.v ===== *)
(** * What the scheduler promises

    The run queue is a red-black tree, so the results of RbSet.v apply once
    the comparison of process pointers is known to be a total order: thread
    ids are unique.  [runq s l] says that the run queue holds the processes
    [l] in order of virtual run time. *)

From S2P Require Import Prelude Dll Bitmap LinkedList RbTree RbTreeSpec RbSet MemLayout PageDir Memory Proc Sched ProcCalls.
From stdpp Require Import gmap list.
#[local] Open Scope Z_scope.

(** ** The order of process pointers *)

Definition tids_unique (m : gmap Z proc) : Prop :=
  forall p q x y, m !! p = Some x -> m !! q = Some y -> ptid x = ptid y -> p = q.

Lemma proc_lt_irrefl x : proc_lt x x = false.
Proof. unfold proc_lt. rewrite !Z.eqb_refl. cbn. apply Z.ltb_irrefl. Qed.

(** The comparison is lexicographic: run time, nice value, thread id. *)
Lemma proc_lt_lex x y :
  proc_lt x y = true <->
  pvrun x < pvrun y \/ pvrun x = pvrun y /\
    (nice (pr_sched x) < nice (pr_sched y) \/ nice (pr_sched x) = nice (pr_sched y) /\ ptid x < ptid y).
Proof.
  unfold proc_lt. destruct (Z.eqb_spec (pvrun x) (pvrun y)); cbn [negb]; [|rewrite Z.ltb_lt; lia].
  destruct (Z.eqb_spec (nice (pr_sched x)) (nice (pr_sched y))); cbn [negb]; rewrite Z.ltb_lt; lia.
Qed.

Lemma proc_lt_trans x y z : proc_lt x y = true -> proc_lt y z = true -> proc_lt x z = true.
Proof. rewrite !proc_lt_lex. lia. Qed.

Lemma proc_lt_total x y : proc_lt x y = false -> ptid x <> ptid y -> proc_lt y x = true.
Proof. rewrite <- not_true_iff_false, !proc_lt_lex. lia. Qed.

Lemma ptr_key_order m : tids_unique m -> KeyOrder (ptr_lt m) (ptr_eq m).
Proof.
  intros Hu. constructor; unfold ptr_lt, ptr_eq, ptr_cmp.
  - intros a b. destruct (m !! a) as [x|] eqn:Ea, (m !! b) as [y|] eqn:Eb.
    + unfold proc_eq. rewrite Z.eqb_eq. split; [by apply Hu|]. intros ->. congruence.
    + split; [done|]. intros ->. congruence.
    + split; [done|]. intros ->. congruence.
    + apply Z.eqb_eq.
  - intros a. destruct (m !! a); [apply proc_lt_irrefl|apply Z.ltb_irrefl].
  - intros a b c. destruct (m !! a), (m !! b), (m !! c); try done; [apply proc_lt_trans|]. rewrite !Z.ltb_lt. lia.
  - intros a b. destruct (m !! a) as [x|] eqn:Ea, (m !! b) as [y|] eqn:Eb; try done.
    + intros Hlt Hne. apply proc_lt_total; [done|]. intros Ht. by apply Hne, (Hu a b x y).
    + rewrite Z.ltb_ge, Z.ltb_lt. lia.
Qed.

(** Only run time, nice value and thread id matter. *)
Definition same_key (x y : proc) : Prop :=
  pvrun x = pvrun y /\ nice (pr_sched x) = nice (pr_sched y) /\ ptid x = ptid y.

Lemma proc_lt_same x x' y y' : same_key x x' -> same_key y y' -> proc_lt x y = proc_lt x' y'.
Proof. unfold proc_lt. intros (-> & -> & ->) (-> & -> & ->). done. Qed.

(** Two stores that agree on the keys of the processes in [D]. *)
Definition same_keys (D : Z -> Prop) (m m' : gmap Z proc) : Prop :=
  forall p, D p -> match m !! p, m' !! p with
                   | Some x, Some y => same_key x y | None, None => True | _, _ => False end.

Lemma ptr_lt_same (D : Z -> Prop) m m' p q : same_keys D m m' -> D p -> D q -> ptr_lt m p q = ptr_lt m' p q.
Proof.
  intros Hs Hp Hq. apply Hs in Hp. apply Hs in Hq. unfold ptr_lt, ptr_cmp.
  destruct (m !! p), (m' !! p), (m !! q), (m' !! q); try done. by apply proc_lt_same.
Qed.

Lemma sorted_same m m' (l : list (Z * Z)) :
  same_keys (fun p => p ∈ l.*2) m m' -> sorted (ptr_lt m) l -> sorted (ptr_lt m') l.
Proof.
  induction l as [|[a p] l IH]; [done|]. intros Hs [Ha Hl]. cbn [sorted]. split.
  - rewrite Forall_forall in *. intros [b q] Hq. specialize (Ha _ Hq). unfold above in *. cbn [snd] in *.
    rewrite <- (ptr_lt_same _ m m' p q Hs); [done| |].
    + cbn. apply elem_of_cons. by left.
    + cbn. apply elem_of_cons. right. apply list_elem_of_fmap. by exists (b, q).
  - apply IH; [|done]. intros r Hr. apply Hs. cbn. apply elem_of_cons. by right.
Qed.

Section spec.
Context {F K : Type} `{FrameAlloc F} `{TableAlloc K}.
Variable sg : signums.
Variable kernel_page_dir : Z.
Notation ps := (@ps F K).

(** ** Single steps *)

Lemma zoom_ok {B A} (g : ps -> B) u (c : M B A) s a b : c (g s) = Ok (a, b) -> zoom g u c s = Ok (a, u b s).
Proof. intros E. unfold zoom. by rewrite E. Qed.

Lemma get_proc_ok (s : ps) p x : procs s !! p = Some x -> get_proc p s = Ok (x, s).
Proof. intros E. unfold get_proc. mgo. by rewrite E. Qed.

Lemma upd_proc_ok (s : ps) p f x :
  procs s !! p = Some x -> upd_proc p f s = Ok (tt, with_procs (<[p := f x]> (procs s)) s).
Proof. intros E. unfold upd_proc. by mrun (get_proc_ok _ _ _ E). Qed.

(** ** The run queue *)

Record runq (s : ps) (l : list (Z * Z)) : Prop := {
  rq_tids : tids_unique (procs s);
  rq_holds : holds (ptr_lt (procs s)) (rb_nil (run_queue s)) (run_queue s) l;
  rq_size : rb_sz (run_queue s) = Z.of_nat (length l);
  rq_bound : Z.of_nat (length l) < 2 ^ 32 - 1;
  rq_fresh : forall a, a ∈ dom (rb_nodes (run_queue s)) -> a < supply s
}.

Lemma runq_min (s : ps) n p l : runq s ((n, p) :: l) ->
  on_run rb_empty s = Ok (false, s) /\ on_run rb_min s = Ok (n, s) /\ on_run (get_key n) s = Ok (p, s).
Proof.
  intros [_ Hh Hsz _ _]. assert (Hs : forall r, run_queue s = r -> with_run r s = s) by (intros r <-; by destruct s).
  split_and!.
  - unfold on_run, zoom, rb_empty. mgo. cbn [ret]. rewrite Hsz, Hs by done.
    rewrite (proj2 (Z.eqb_neq _ 0)); [done|]. cbn [length]. lia.
  - destruct (rb_ends_spec _ _ _ _ Hh) as [Hmin _]. unfold on_run, zoom. by rewrite Hmin, Hs.
  - destruct Hh as (t & Hr & He & _). destruct (elts_split t [] n p l) as (c & c0 & tl & tr & <- & _); [done|].
    apply rep_plug in Hr. pose proof (rep_node _ L _ _ _ _ _ _ _ Hr) as E.
    unfold on_run, zoom. by rewrite (get_key_ok _ _ _ E), Hs.
Qed.

(** What [schedule] leaves behind when it switches to [p]. *)
Definition switched (s s' : ps) (p : Z) (x : proc) (t : Z) : Prop :=
  cur_proc s' = p /\ min_vruntime s' = pvrun x /\ last_sched s' = t /\
  procs s' = <[p := set_status RUNNING x]> (procs s) /\
  run_queue s' = run_queue s /\ proc_list s' = proc_list s /\ sleep_queue s' = sleep_queue s.

Lemma sched_pick_least (s : ps) k pold t n p l x d :
  runq s ((n, p) :: l) -> procs s !! p = Some x ->
  bm_first_one (signals x) 0 = Some NPOS -> sdirs s !! p_dir (pr_mem x) = Some d ->
  exists s', sched_pick sg kernel_page_dir (S k) pold t s = Ok (SRun p (user (pr_cpu x)), s') /\ switched s s' p x t.
Proof.
  intros Hq Ex Hsig Ed. destruct (runq_min _ _ _ _ Hq) as (He & _ & _). cbn [sched_pick]. mrun He. mgo.
  set (s1 := with_last t s). assert (Hq1 : runq s1 ((n, p) :: l)) by (by destruct Hq; constructor).
  destruct (runq_min _ _ _ _ Hq1) as (_ & Hm & Hk). mrun Hm. mrun Hk. unfold set_cur. mgo.
  assert (Ex1 : procs (with_cur p s1) !! p = Some x) by done.
  mrun (get_proc_ok _ _ _ Ex1). mgo. rewrite Hsig. cbn [deref]. mgo. rewrite Z.eqb_refl. unfold dispatch.
  set (s2 := with_minvt (pvrun x) (with_cur p s1)).
  mrun (upd_proc_ok s2 p (set_status RUNNING) x Ex1). unfold dir_of.
  set (s3 := with_procs _ s2). assert (Ex3 : procs s3 !! p = Some (set_status RUNNING x)) by (cbn; by rewrite lookup_insert_eq).
  rewrite bind_assoc. mrun (get_proc_ok _ _ _ Ex3). mgo. change (sdirs s3) with (sdirs s). cbn [set_status with_sched pr_mem].
  rewrite Ed. cbn [deref]. mgo.
  assert (Ev : on_vm (set_page_dir (sd_dir d)) s3 =
    Ok (tt, with_pvm (Vm (vm_frames (pvm s)) (vm_kmem (pvm s)) (vm_tables (pvm s)) (vm_dirs (pvm s)) (sd_dir d) (vm_mem (pvm s))) s3)) by done.
  mrun Ev. set (s4 := with_pvm _ s3). assert (Ex4 : procs s4 !! p = Some (set_status RUNNING x)) by exact Ex3.
  mrun (get_proc_ok _ _ _ Ex4).
  destruct (negb (p =? pold)); mgo; eexists; (split; [reflexivity|]); by split_and!.
Qed.

(** The current process is charged before the choice; one that has blocked
    is in no tree the choice looks at. *)
Definition charged (s : ps) (c delta : Z) : gmap Z proc :=
  match procs s !! c with
  | Some y =>
    let y := set_vruntime (u64 (pvrun y + delta)) y in
    <[c := if fpu_used (pr_cpu y) then set_fpu (cpu_fpu s) false y else y]> (procs s)
  | None => procs s
  end.

Lemma charge_blocked (s : ps) c y delta :
  procs s !! c = Some y -> pqueue y <> RUN_QUEUE ->
  charge c delta None s = Ok (tt, with_procs (charged s c delta) s).
Proof.
  intros Ey Hq. unfold charge. mrun (get_proc_ok _ _ _ Ey). rewrite bool_decide_eq_false_2 by done. mgo.
  set (y1 := set_vruntime (u64 (pvrun y + delta)) y).
  mrun (upd_proc_ok s c (fun x => set_vruntime (u64 (pvrun x + delta)) x) y Ey). mgo.
  set (s1 := with_procs _ s). assert (E1 : procs s1 !! c = Some y1) by (cbn; by rewrite lookup_insert_eq).
  mrun (get_proc_ok _ _ _ E1). unfold charged. rewrite Ey. fold y1. change (pr_cpu y1) with (pr_cpu y).
  change (pqueue y1) with (pqueue y). rewrite (bool_decide_eq_false_2 _ Hq).
  destruct (fpu_used (pr_cpu y)).
  - rewrite bind_assoc. unfold fxsave. mgo.
    mrun (upd_proc_ok s1 c (fun x => set_fpu (cpu_fpu s1) (fpu_used (pr_cpu x)) x) y1 E1).
    set (s2 := with_procs _ s1). assert (E2 : procs s2 !! c = Some (set_fpu (cpu_fpu s) (fpu_used (pr_cpu y1)) y1)) by (cbn; by rewrite lookup_insert_eq).
    mrun (upd_proc_ok s2 c (fun x => set_fpu (fpu_buf (pr_cpu x)) false x) _ E2).
    unfold ret. do 2 f_equal. unfold s2, s1, with_procs. cbn. by rewrite !insert_insert_eq.
  - mgo. done.
Qed.

Lemma runq_procs (s : ps) l m : runq s l -> same_keys (fun p => p ∈ l.*2) (procs s) m -> tids_unique m ->
  runq (with_procs m s) l.
Proof.
  intros [H1 (t & Hr & He & Hs & Hb) H3 H4 H5] Hk Hu. constructor; try done. exists t. split_and!; try done.
  by apply (sorted_same (procs s)).
Qed.

(** Changing one process that keeps its thread id and is not queued. *)
Lemma insert_tids m p x y : tids_unique m -> m !! p = Some x -> ptid y = ptid x -> tids_unique (<[p := y]> m).
Proof.
  intros Hu Ex Ht q1 q2 x1 x2. rewrite !lookup_insert. do 2 case_decide; subst; try done.
  - intros [= <-] E2 Heq. apply (Hu q1 q2 x x2); congruence.
  - intros E1 [= <-] Heq. apply (Hu q1 q2 x1 x); congruence.
  - by apply Hu.
Qed.
Lemma same_key_refl x : same_key x x.
Proof. done. Qed.
Lemma insert_same_keys (D : Z -> Prop) m p y : ~ D p -> same_keys D m (<[p := y]> m).
Proof.
  intros Hp q Hq. rewrite lookup_insert_ne by (intros ->; done). destruct (m !! q); [apply same_key_refl|done].
Qed.

(** The state in which the choice is made. *)
Definition charged_state (s : ps) : ps :=
  if cur_proc s =? 0 then s else with_procs (charged s (cur_proc s) (u64 (now s - last_sched s))) s.

Lemma schedule_pick (s : ps) n p l x d :
  runq s ((n, p) :: l) -> online s = true ->
  (cur_proc s = 0 \/ exists y, procs s !! cur_proc s = Some y /\ pqueue y <> RUN_QUEUE /\ cur_proc s ∉ ((n, p) :: l).*2) ->
  procs s !! p = Some x -> bm_first_one (signals x) 0 = Some NPOS -> sdirs s !! p_dir (pr_mem x) = Some d ->
  exists s', schedule sg kernel_page_dir None s = Ok (SRun p (user (pr_cpu x)), s') /\
    switched (charged_state s) s' p x (now s).
Proof.
  intros Hq Hon Hcur Ex Hsig Ed. unfold schedule. mgo. rewrite Hon. cbn [negb]. unfold proc_fuel, charged_state. mgo.
  destruct (Z.eqb_spec (cur_proc s) 0) as [Hc|Hc].
  - by apply (sched_pick_least s _ 0 (now s) n p l x d).
  - destruct Hcur as [?|(y & Ey & Hny & Hnin)]; [done|].
    assert (Hn : on_run rb_size s = Ok (rb_sz (run_queue s), s)).
    { unfold on_run, zoom, rb_size. mgo. cbn. by destruct s. }
    mrun Hn. rewrite andb_false_r. mrun (charge_blocked s _ y (u64 (now s - last_sched s)) Ey Hny).
    assert (Hpc : p <> cur_proc s) by (intros ->; apply Hnin; apply elem_of_cons; by left).
    unfold charged. rewrite Ey.
    apply (sched_pick_least (with_procs _ s) _ (cur_proc s) (now s) n p l x d); [|by cbn; rewrite lookup_insert_ne|done|done].
    apply runq_procs; [done|by apply insert_same_keys|]. eapply insert_tids; [apply Hq|exact Ey|].
    by destruct (fpu_used _).
Qed.


(** ** Entering the run queue *)

Lemma sorted_find_absent m (p : Z) (l : list (Z * Z)) rn x :
  tids_unique m -> m !! p = Some x -> p ∉ l.*2 -> sorted_find (ptr_eq m) rn p l = rn.
Proof.
  intros Hu Ex. induction l as [|[a q] l IH]; [done|]. cbn [fmap list_fmap snd sorted_find]. intros [Hpq Hp]%not_elem_of_cons.
  assert (E : ptr_eq m p q = false).
  { unfold ptr_eq, ptr_cmp. rewrite Ex. destruct (m !! q) as [y|] eqn:Ey; [|done].
    apply Z.eqb_neq. intros Ht. by apply Hpq, (Hu p q x y). }
  rewrite E. by apply IH.
Qed.

Lemma sorted_insert_perm m (p : Z) a (l : list (Z * Z)) x :
  tids_unique m -> m !! p = Some x -> p ∉ l.*2 ->
  sorted_insert (ptr_lt m) (ptr_eq m) a p l ≡ₚ (a, p) :: l.
Proof.
  intros Hu Ex. induction l as [|[b q] l IH]; [done|]. cbn [fmap list_fmap snd sorted_insert]. intros [Hpq Hp]%not_elem_of_cons.
  assert (E : ptr_eq m p q = false).
  { unfold ptr_eq, ptr_cmp. rewrite Ex. destruct (m !! q) as [y|] eqn:Ey; [|done].
    apply Z.eqb_neq. intros Ht. by apply Hpq, (Hu p q x y). }
  rewrite E. destruct (ptr_lt m p q); [done|]. rewrite IH by done. apply Permutation_swap.
Qed.

Lemma run_insert_ok (s : ps) l p x :
  runq s l -> procs s !! p = Some x -> p ∉ l.*2 -> Z.of_nat (length l) < 2 ^ 32 - 2 ->
  exists s', run_insert p s = Ok (supply s, s') /\
    runq s' (sorted_insert (ptr_lt (procs s)) (ptr_eq (procs s)) (supply s) p l) /\
    s' = with_run (run_queue s') (with_supply (supply s + 1) s) /\ rb_nil (run_queue s') = rb_nil (run_queue s).
Proof.
  intros [Hu Hh Hsz Hb Hf] Ex Hp Hlen. unfold run_insert, new_addr. mgo. cbn [procs with_supply].
  pose proof (ptr_key_order _ Hu) as HK.
  assert (Hfr : rb_nodes (run_queue s) !! supply s = None).
  { apply not_elem_of_dom. intros Hin. apply Hf in Hin. lia. }
  destruct (rb_insert_spec _ _ _ (supply s) p _ _ Hh Hfr) as (r & Hrun & Hh' & Hd & Hz).
  pose proof (sorted_insert_perm _ p (supply s) l x Hu Ex Hp) as HP.
  rewrite (sorted_find_absent _ p l _ x Hu Ex Hp), Z.eqb_refl in Hz.
  destruct (holds_nodes _ _ _ _ Hh') as [Hnn Hs'].
  assert (Hfind : sorted_find (ptr_eq (procs s)) (rb_nil (run_queue s)) p
      (sorted_insert (ptr_lt (procs s)) (ptr_eq (procs s)) (supply s) p l) = supply s).
  { assert (Hin : (supply s, p) ∈ sorted_insert (ptr_lt (procs s)) (ptr_eq (procs s)) (supply s) p l) by (rewrite HP; apply elem_of_cons; by left).
    apply list_elem_of_split in Hin as (l1 & l2 & E). rewrite E in *. apply sorted_mid in Hs' as (_ & HL & _).
    by apply (sorted_find_at (ptr_lt (procs s))). }
  assert (Hnil : rb_nil r = rb_nil (run_queue s)) by (by destruct Hh' as (t & [] & _)).
  exists (with_run r (with_supply (supply s + 1) s)).
  split; [unfold on_run, zoom; cbn [run_queue with_supply]; by rewrite Hrun, Hfind|].
  split; [|done]. constructor; cbn [procs run_queue with_run with_supply supply].
  - done.
  - by rewrite Hnil.
  - rewrite Hz, Hsz, HP. cbn [length]. rewrite u32_small; lia.
  - rewrite HP. cbn [length]. lia.
  - intros a. rewrite Hd, elem_of_union, elem_of_singleton. intros [->|Ha]; [lia|]. apply Hf in Ha. lia.
Qed.

(** ** Waking the waiters of a condition variable *)

Definition queued (mv h : Z) (x : proc) : proc :=
  set_status READY (set_handle (HNode h) (set_queue RUN_QUEUE
    (set_vruntime (u64 (pvrun x + mv)) (set_handle HNull (set_queue NO_QUEUE x))))).

(** The processes [w] wait, at these nodes of the list. *)
Record waiting (s : ps) (c : Z) (w : list (Z * Z)) : Prop := {
  wt_list : exists l, conds s !! c = Some l /\ ll_rep l w;
  wt_proc : forall a p, (a, p) ∈ w ->
    exists x, procs s !! p = Some x /\ pqueue x = EVENT_QUEUE /\ handle (pr_sched x) = HIter c (LNode a) /\ ptid x <> -1;
  wt_nodup : NoDup w.*2
}.

Lemma on_cond_ok {A} c (k : M (llist Z) A) (s : ps) l a l' :
  conds s !! c = Some l -> k l = Ok (a, l') -> on_cond c k s = Ok (a, with_conds (<[c := l']> (conds s)) s).
Proof. intros El Ek. unfold on_cond. mgo. rewrite El. cbn [deref]. mgo. unfold zoom. by rewrite Ek. Qed.

Lemma with_conds_same c (s : ps) l : conds s !! c = Some l -> with_conds (<[c := l]> (conds s)) s = s.
Proof. intros E. rewrite insert_id by done. by destruct s. Qed.

(** After the process has left its old queue. *)
Lemma add_proc_tail (s : ps) l p x : 
  runq s l -> procs s !! p = Some x -> p ∉ l.*2 -> Z.of_nat (length l) < 2 ^ 32 - 2 ->
  exists s', (upd_proc p (fun x => set_vruntime (u64 (pvrun x + min_vruntime s)) x);;;
      upd_proc p (set_queue RUN_QUEUE);;; a <-- run_insert p;; upd_proc p (set_handle (HNode a));;;
      upd_proc p (set_status READY);;; ret true) s = Ok (true, s') /\
    procs s' = <[p := set_status READY (set_handle (HNode (supply s)) (set_queue RUN_QUEUE
                        (set_vruntime (u64 (pvrun x + min_vruntime s)) x)))]> (procs s) /\
    (exists l', runq s' l' /\ l' ≡ₚ (supply s, p) :: l) /\
    s' = with_run (run_queue s') (with_supply (supply s + 1) (with_procs (procs s') s)).
Proof.
  intros Hq Ex Hp Hlen.
  set (x1 := set_vruntime (u64 (pvrun x + min_vruntime s)) x).
  mrun (upd_proc_ok s p (fun x => set_vruntime (u64 (pvrun x + min_vruntime s)) x) x Ex). fold x1.
  set (s1 := with_procs _ s). assert (E1 : procs s1 !! p = Some x1) by (cbn; by rewrite lookup_insert_eq).
  mrun (upd_proc_ok s1 p (set_queue RUN_QUEUE) x1 E1). set (x2 := set_queue RUN_QUEUE x1).
  set (s2 := with_procs _ s1). assert (E2 : procs s2 !! p = Some x2) by (cbn; by rewrite lookup_insert_eq).
  assert (Hp2 : procs s2 = <[p := x2]> (procs s)) by (cbn; by rewrite insert_insert_eq).
  assert (Hq2 : runq s2 l).
  { change s2 with (with_procs (procs s2) s). rewrite Hp2. apply runq_procs; [done|by apply insert_same_keys|].
    eapply insert_tids; [apply Hq|exact Ex|done]. }
  destruct (run_insert_ok s2 l p x2 Hq2 E2 Hp Hlen) as (s3 & Hrun & Hq3 & Hs3 & _). mrun Hrun.
  assert (Hp3 : procs s3 = procs s2) by (by rewrite Hs3).
  assert (E3 : procs s3 !! p = Some x2) by (by rewrite Hp3).
  mrun (upd_proc_ok s3 p (set_handle (HNode (supply s2))) x2 E3). set (x3 := set_handle _ x2).
  set (s4 := with_procs _ s3). assert (E4 : procs s4 !! p = Some x3) by (cbn; by rewrite lookup_insert_eq).
  mrun (upd_proc_ok s4 p (set_status READY) x3 E4).
  eexists. split; [reflexivity|]. cbn [procs with_procs].
  assert (HP : <[p := set_status READY x3]> (procs s4) = <[p := set_status READY x3]> (procs s)).
  { cbn. rewrite insert_insert_eq, Hp3, Hp2. by rewrite insert_insert_eq. }
  split; [exact HP|]. split; [|unfold s4; by rewrite Hs3].
  eexists. split; [|by eapply sorted_insert_perm; [apply Hq2|exact E2|done]].
  change (with_procs _ s4) with (with_procs (<[p := set_status READY x3]> (procs s4)) s3).
  apply runq_procs; [exact Hq3| |].
  - intros q _. cbn. rewrite insert_insert_eq, lookup_insert. case_decide as Hqp.
    + subst q. rewrite E3. by repeat split.
    + destruct (procs s3 !! q); [apply same_key_refl|done].
  - rewrite HP. eapply insert_tids; [apply Hq|exact Ex|done].
Qed.

(** The same from where the process has been taken out of its old queue. *)
Lemma requeue (s : ps) l p x :
  runq s l -> procs s !! p = Some x -> p ∉ l.*2 -> Z.of_nat (length l) < 2 ^ 32 - 2 ->
  exists s', (upd_proc p (set_queue NO_QUEUE);;; upd_proc p (set_handle HNull);;; s <-- get;;
      upd_proc p (fun x => set_vruntime (u64 (pvrun x + min_vruntime s)) x);;;
      upd_proc p (set_queue RUN_QUEUE);;; a <-- run_insert p;; upd_proc p (set_handle (HNode a));;;
      upd_proc p (set_status READY);;; ret true) s = Ok (true, s') /\
    procs s' = <[p := queued (min_vruntime s) (supply s) x]> (procs s) /\
    (exists l', runq s' l' /\ l' ≡ₚ (supply s, p) :: l) /\
    s' = with_run (run_queue s') (with_supply (supply s + 1) (with_procs (procs s') s)).
Proof.
  intros Hq Ex Hp Hlen. mrun (upd_proc_ok s p (set_queue NO_QUEUE) x Ex). set (s2 := with_procs _ s).
  assert (E2 : procs s2 !! p = Some (set_queue NO_QUEUE x)) by (cbn; by rewrite lookup_insert_eq).
  mrun (upd_proc_ok s2 p (set_handle HNull) _ E2). set (s3 := with_procs _ s2). mgo.
  set (x3 := set_handle HNull (set_queue NO_QUEUE x)).
  assert (Hp3 : procs s3 = <[p := x3]> (procs s)) by (cbn; by rewrite insert_insert_eq).
  assert (E3 : procs s3 !! p = Some x3) by (by rewrite Hp3, lookup_insert_eq).
  assert (Hq3 : runq s3 l).
  { change s3 with (with_procs (procs s3) s). rewrite Hp3. apply runq_procs; [done|by apply insert_same_keys|].
    eapply insert_tids; [apply Hq|exact Ex|done]. }
  destruct (add_proc_tail s3 l p x3 Hq3 E3 Hp Hlen) as (s4 & Hrun & Hp4 & Hq4 & Hs4).
  exists s4. split; [exact Hrun|]. rewrite Hp3, insert_insert_eq in Hp4. split; [exact Hp4|]. by split.
Qed.

(** [add_proc_run] of a process that is in no queue. *)
Lemma add_proc_run_idle (s : ps) l p x :
  runq s l -> procs s !! p = Some x -> pqueue x = NO_QUEUE -> p ∉ l.*2 -> Z.of_nat (length l) < 2 ^ 32 - 2 ->
  exists s', add_proc_run p false s = Ok (true, s') /\
    procs s' = <[p := queued (min_vruntime s) (supply s) x]> (procs s) /\
    (exists l', runq s' l' /\ l' ≡ₚ (supply s, p) :: l) /\
    s' = with_run (run_queue s') (with_supply (supply s + 1) (with_procs (procs s') s)).
Proof.
  intros Hq Ex Hnq Hp Hlen. unfold add_proc_run. mrun (get_proc_ok _ _ _ Ex). cbn [andb]. mgo. unfold remove_from_queue at 1. mgo.
  mrun (get_proc_ok _ _ _ Ex). rewrite Hnq. mgo. by apply requeue.
Qed.

Lemma wake_one (s : ps) c a p w l x :
  waiting s c ((a, p) :: w) -> runq s l -> procs s !! p = Some x -> p ∉ l.*2 -> Z.of_nat (length l) < 2 ^ 32 - 2 ->
  exists s', add_proc_run p false s = Ok (true, s') /\ waiting s' c w /\
    (exists l', runq s' l' /\ l' ≡ₚ (supply s, p) :: l) /\
    procs s' = <[p := queued (min_vruntime s) (supply s) x]> (procs s) /\
    min_vruntime s' = min_vruntime s /\ supply s' = supply s + 1.
Proof.
  intros [(ll & Ell & Hll) Hw Hnd] Hq Ex Hp Hlen.
  destruct (Hw a p) as (x' & Ex' & Hqx & Hhx & Htx); [apply elem_of_cons; by left|]. assert (x' = x) as -> by congruence.
  unfold add_proc_run. mrun (get_proc_ok _ _ _ Ex). cbn [andb]. mgo. unfold remove_from_queue at 1. mgo.
  mrun (get_proc_ok _ _ _ Ex). rewrite Hqx, Hhx.
  destruct (it_erase_spec ll [] (a, p) w Hll) as (ll' & Her & Hll'). cbn [fst app] in Her, Hll'.
  mgo. mrun (on_cond_ok c (it_erase (LNode a)) s ll LNil ll' Ell Her). mgo. set (s1 := with_conds _ s).
  assert (Hq1 : runq s1 l) by (by destruct Hq; constructor).
  destruct (requeue s1 l p x Hq1 Ex Hp Hlen) as (s4 & Hrun & Hp4 & Hq4 & Hs4).
  exists s4. split; [exact Hrun|]. split; [|split; [done|]; split; [done|]; by rewrite Hs4].
  assert (Hc4 : conds s4 = conds s1) by (by rewrite Hs4). cbn [procs s1 with_conds] in Hp4.
  constructor.
  - exists ll'. split; [|done]. rewrite Hc4. cbn. by rewrite lookup_insert_eq.
  - intros b q Hin. destruct (Hw b q) as (y & Ey & ? & ? & ?); [apply elem_of_cons; by right|].
    exists y. split_and!; try done. rewrite Hp4, lookup_insert_ne; [done|]. intros ->.
    apply NoDup_cons in Hnd as [Hnin _]. apply Hnin, list_elem_of_fmap. by exists (b, q).
  - by apply NoDup_cons in Hnd as [_ ?].
Qed.

(** The waiters [w] have all become ready. *)
Record all_woken (s s' : ps) (c : Z) (w l : list (Z * Z)) : Prop := {
  aw_none : waiting s' c [];
  aw_run : exists l', runq s' l' /\ l'.*2 ≡ₚ w.*2 ++ l.*2;
  aw_woken : forall p x, p ∈ w.*2 -> procs s !! p = Some x ->
    exists h, procs s' !! p = Some (queued (min_vruntime s) h x);
  aw_others : forall p, p ∉ w.*2 -> procs s' !! p = procs s !! p
}.

Lemma wake_all_loop c w : forall fuel (s : ps) l,
  waiting s c w -> runq s l -> (forall p, p ∈ w.*2 -> p ∉ l.*2) ->
  Z.of_nat (length l + length w) < 2 ^ 32 - 1 -> (length w < fuel)%nat ->
  exists s', wake_loop fuel c (hd_ptr w) (-1) s = Ok (Some false, s') /\ all_woken s s' c w l.
Proof.
  induction w as [|[a p] w IH]; intros fuel s l Hw Hq Hdis Hlen Hf; (destruct fuel as [|fuel]; [cbn in Hf; lia|]); cbn [wake_loop hd_ptr].
  - rewrite decide_True by done. exists s. split; [done|]. constructor; try done; [by exists l|].
    intros p x Hp. by apply elem_of_nil in Hp.
  - rewrite decide_False by done. destruct (wt_list _ _ _ Hw) as (ll & Ell & Hll).
    assert (Hkey : node_key (LNode a) ll = Ok (p, ll)).
    { destruct Hll as (_ & Hk & _). assert (E : ll_keys ll !! LNode a = Some p) by (apply (Hk (a, p)), elem_of_cons; by left).
      unfold node_key. mgo. by rewrite E. }
    cbn [fst]. mrun (on_cond_ok _ _ _ _ _ _ Ell Hkey). rewrite with_conds_same by done.
    destruct (wt_proc _ _ _ Hw a p) as (x & Ex & _ & _ & Ht); [apply elem_of_cons; by left|].
    mrun (get_proc_ok _ _ _ Ex). rewrite (proj2 (Z.eqb_neq _ _) Ht).
    pose proof (node_next_spec ll _ Hll [] (a, p) w eq_refl) as Hnx. cbn [fst] in Hnx. fold (hd_ptr w) in Hnx.
    mrun (on_cond_ok _ _ _ _ _ _ Ell Hnx). rewrite with_conds_same, Z.eqb_refl by done. cbn [length] in Hlen, Hf.
    destruct (wake_one s c a p w l x Hw Hq Ex) as (s1 & Hrun & Hw1 & (l1 & Hq1 & HP1) & Hp1 & Hm1 & _);
      [apply Hdis, elem_of_cons; by left|lia|].
    mrun Hrun. pose proof (wt_nodup _ _ _ Hw) as Hnd. apply NoDup_cons in Hnd as [Hpw Hnd]. cbn [snd] in Hpw.
    assert (HP2 : l1.*2 ≡ₚ p :: l.*2) by (by rewrite HP1).
    destruct (IH fuel s1 l1 Hw1 Hq1) as (s2 & Hrun2 & [Hn2 (l2 & Hq2 & HPl) Hwk Hot]); [| |lia|].
    + intros q Hqw. rewrite HP2, not_elem_of_cons. split; [by intros ->|]. apply Hdis. apply elem_of_cons. by right.
    + rewrite HP1. cbn [length]. lia.
    + exists s2. split; [done|]. constructor; [done| | |].
      * exists l2. split; [done|]. rewrite HPl, HP2. cbn. by rewrite Permutation_middle.
      * intros q y Hq' Ey. cbn in Hq'. apply elem_of_cons in Hq' as [->|Hq'].
        -- assert (y = x) as -> by congruence. exists (supply s). rewrite Hot by done. by rewrite Hp1, lookup_insert_eq.
        -- rewrite <- Hm1. apply Hwk; [done|]. rewrite Hp1, lookup_insert_ne; [done|]. by intros ->.
      * intros q Hq'. cbn in Hq'. apply not_elem_of_cons in Hq' as [Hqp Hqw]. rewrite Hot by done.
        by rewrite Hp1, lookup_insert_ne.
Qed.

(** C22: waking all waiters of a condition variable empties its list and makes
    every one of them ready in the run queue, next to the processes that were
    there; no other process changes.  The iteration is not disturbed by the
    erasure of the nodes it visits. *)
Theorem cond_wake_all_correct (s : ps) c w l :
  waiting s c w -> runq s l -> (forall p, p ∈ w.*2 -> p ∉ l.*2) ->
  Z.of_nat (length l + length w) < 2 ^ 32 - 1 ->
  exists s', cond_wake c (-1) s = Ok (Val 0, s') /\ all_woken s s' c w l.
Proof.
  intros Hw Hq Hdis Hlen. destruct (wt_list _ _ _ Hw) as (ll & Ell & Hll). unfold cond_wake. mgo. rewrite Ell.
  cbn [deref]. mgo. pose proof (ll_begin_spec ll w Hll) as Hb. fold (hd_ptr w) in Hb.
  mrun (on_cond_ok _ _ _ _ _ _ Ell Hb). rewrite with_conds_same by done.
  assert (Hsz : (length w < size (ll_links ll))%nat).
  { destruct Hll as (Hr & _). apply ring_length in Hr. by rewrite length_fmap in Hr. }
  destruct (wake_all_loop c w (S (size (ll_links ll))) s l Hw Hq Hdis Hlen ltac:(lia)) as (s' & Hrun & HA).
  mrun Hrun. by exists s'.
Qed.
End spec.
