(* ===== verification/WaitSpec.v ===== *)
(** * Families and waiting for children

    A process's children are a doubly linked list through their sibling
    links, newest first.  [waitpid] finds a zombie in it, reports its exit
    status and unlinks it. *)

From S2P Require Import Prelude Dll Bitmap LinkedList RbTree RbTreeSpec RbSet MemLayout PageDir Memory Proc Sched ProcCalls ProcSpec.
From stdpp Require Import gmap list.
#[local] Open Scope Z_scope.

(** ** The list of children *)

Definition fam (m : gmap Z proc) (c : Z) (f : p_fam -> Prop) : Prop :=
  exists x, m !! c = Some x /\ f (pr_fam x).

(** The siblings [l] of parent [pa], after [pv] and before [nx]. *)
Fixpoint sibs (m : gmap Z proc) (pa pv : Z) (l : list Z) (nx : Z) : Prop :=
  match l with
  | [] => True
  | c :: r =>
    fam m c (fun f => parent f = pa /\ prev_sibling f = pv /\ next_sibling f = List.hd nx r) /\ sibs m pa c r nx
  end.

Definition family (m : gmap Z proc) (p : Z) (l : list Z) : Prop :=
  fam m p (fun f => last_child f = List.hd 0 l) /\ sibs m p 0 l 0 /\ NoDup (0 :: p :: l).

Lemma sibs_ext m m' pa l : forall pv nx,
  (forall c, c ∈ l -> m' !! c = m !! c) -> sibs m pa pv l nx -> sibs m' pa pv l nx.
Proof.
  induction l as [|c l IH]; intros pv nx He; [done|]. cbn [sibs]. intros [(x & Ex & Hx) Hl]. split.
  - exists x. rewrite He by (apply elem_of_cons; by left). done.
  - apply IH; [|done]. intros d Hd. apply He, elem_of_cons. by right.
Qed.

Lemma last_cons_default {A} (l : list A) : forall c d, List.last (c :: l) d = List.last l c.
Proof. induction l as [|e l IH]; intros c d; [done|]. rewrite (IH e c). apply (IH e d). Qed.

Lemma sibs_app m pa l1 l2 : forall pv nx,
  sibs m pa pv (l1 ++ l2) nx <-> sibs m pa pv l1 (List.hd nx l2) /\ sibs m pa (List.last l1 pv) l2 nx.
Proof.
  induction l1 as [|c l1 IH]; intros pv nx; cbn [app sibs]; [by split; [|intros [_ ?]]|].
  rewrite IH, last_cons_default.
  destruct l1 as [|d l1]; cbn [app List.hd]; naive_solver.
Qed.

(** ** Unlinking a child *)

Section spec.
Context {F K : Type} `{FrameAlloc F} `{TableAlloc K}.
Variable sg : signums.
Variable kernel_page_dir : Z.
Notation ps := (@ps F K).

(** [m'] differs from [m] only in family links. *)
Definition only_links (m m' : gmap Z proc) : Prop :=
  forall q, match m !! q, m' !! q with
            | Some x, Some y => exists f, y = with_fam f x
            | None, None => True | _, _ => False end.

Lemma only_links_refl m : only_links m m.
Proof. intros q. destruct (m !! q) as [x|]; [|done]. exists (pr_fam x). by destruct x. Qed.

Lemma only_links_insert m m' q x f : only_links m m' -> m' !! q = Some x -> only_links m (<[q := with_fam f x]> m').
Proof.
  intros Ho Ex r. specialize (Ho r). rewrite lookup_insert. case_decide as E; [|done]. subst r. rewrite Ex in Ho.
  destruct (m !! q) as [y|]; [|done]. destruct Ho as [g ->]. by exists f.
Qed.

(** [upd_proc] on a family link, if the address is not null. *)
Lemma link_step (s : ps) m0 q (g : proc -> proc) x :
  procs s !! q = Some x -> only_links m0 (procs s) -> (exists f, g x = with_fam f x) ->
  exists s', upd_proc q g s = Ok (tt, s') /\ s' = with_procs (<[q := g x]> (procs s)) s /\ only_links m0 (procs s').
Proof.
  intros Ex Ho [f Hf]. eexists. split; [by apply upd_proc_ok|]. split; [done|]. cbn. rewrite Hf. by apply only_links_insert.
Qed.

Lemma sibs_last m pa pv l v nx : sibs m pa pv (l ++ [v]) nx ->
  sibs m pa pv l v /\ fam m v (fun f => parent f = pa /\ prev_sibling f = List.last l pv /\ next_sibling f = nx).
Proof. rewrite sibs_app. cbn. naive_solver. Qed.

Definition unlink_next (m : gmap Z proc) (l2 : list Z) (pv : Z) : gmap Z proc :=
  match l2 with
  | [] => m
  | n :: _ => match m !! n with Some x => <[n := set_prev_sibling pv x]> m | None => m end
  end.
Definition unlink_prev (m : gmap Z proc) (p : Z) (l1 : list Z) (nx : Z) : gmap Z proc :=
  match List.last l1 0 with
  | 0 => match m !! p with Some x => <[p := set_last_child nx x]> m | None => m end
  | v => match m !! v with Some x => <[v := set_next_sibling nx x]> m | None => m end
  end.

(** The two halves keep the list around the unlinked child. *)
Lemma unlink_next_sibs m pa l2 pv pv0 : NoDup l2 -> sibs m pa pv0 l2 0 -> sibs (unlink_next m l2 pv) pa pv l2 0.
Proof.
  destruct l2 as [|n l2]; [done|]. intros [Hn Hnd]%NoDup_cons [(x & Ex & H1 & H2 & H3) Hl]. cbn [unlink_next sibs]. rewrite Ex. split.
  - exists (set_prev_sibling pv x). rewrite lookup_insert_eq. by split_and!.
  - eapply sibs_ext; [|exact Hl]. intros c Hc. apply lookup_insert_ne. by intros ->.
Qed.

Lemma unlink_prev_sibs m p l1 nx nx0 : NoDup (0 :: p :: l1) -> fam m p (fun f => last_child f = List.hd nx0 l1) ->
  sibs m p 0 l1 nx0 ->
  fam (unlink_prev m p l1 nx) p (fun f => last_child f = List.hd nx l1) /\ sibs (unlink_prev m p l1 nx) p 0 l1 nx.
Proof.
  intros Hnd (y & Ey & Hy) Hs. unfold unlink_prev. destruct l1 as [|v l1 _] using rev_ind.
  - cbn. rewrite Ey. split; [|done]. exists (set_last_child nx y). rewrite lookup_insert_eq. done.
  - rewrite List.last_last. apply sibs_last in Hs as [Hs (x & Ex & H1 & H2 & H3)].
    assert (Hne : v <> 0 /\ v <> p /\ v ∉ l1).
    { apply NoDup_cons in Hnd as [Hz0 Hnd]. apply NoDup_cons in Hnd as [Hp Hnd]. apply NoDup_app in Hnd as (_ & Hd & _).
      split_and!.
      - intros ->. apply Hz0, elem_of_cons. right. apply elem_of_app. right. by apply list_elem_of_singleton.
      - intros ->. apply Hp, elem_of_app. right. by apply list_elem_of_singleton.
      - intros Hin. apply (Hd _ Hin). by apply list_elem_of_singleton. }
    destruct Hne as (Hv0 & Hvp & Hvl). destruct v as [|v|v]; [done| |]; rewrite Ex.
    all: split.
    1,3: exists y; rewrite lookup_insert_ne by done; split; [done|]; by destruct l1.
    all: apply sibs_app; split; [eapply sibs_ext; [|exact Hs]; intros c Hc; apply lookup_insert_ne; by intros <-|].
    all: cbn; split; [|done]; eexists; rewrite lookup_insert_eq; by split_and!.
Qed.

Lemma unlink_next_other m l2 pv q : q ∉ l2 -> unlink_next m l2 pv !! q = m !! q.
Proof.
  destruct l2 as [|n l2]; [done|]. rewrite not_elem_of_cons. intros [Hn _]. cbn.
  destruct (m !! n); [|done]. by apply lookup_insert_ne.
Qed.

Lemma last_in (l : list Z) : List.last l 0 = 0 \/ List.last l 0 ∈ l.
Proof.
  destruct l as [|v l _] using rev_ind; [by left|right]. rewrite List.last_last. apply elem_of_app. right.
  by apply list_elem_of_singleton.
Qed.

Lemma unlink_prev_other m p l1 nx q : q <> p -> q ∉ l1 -> unlink_prev m p l1 nx !! q = m !! q.
Proof.
  intros Hp Hq. unfold unlink_prev. destruct (last_in l1) as [->|Hin].
  - destruct (m !! p); [|done]. by apply lookup_insert_ne.
  - destruct (List.last l1 0) as [|v|v] eqn:E; [destruct (m !! p); [|done]; by apply lookup_insert_ne| |];
      (destruct (m !! _); [|done]; apply lookup_insert_ne; by intros <-).
Qed.

Lemma unlink_next_run (s : ps) m0 l2 pv c pa pv0 : 0 ∉ l2 -> sibs (procs s) pa c l2 0 -> only_links m0 (procs s) -> pv0 = pv ->
  exists s', (if negb (List.hd 0 l2 =? 0) then upd_proc (List.hd 0 l2) (set_prev_sibling pv0) else ret tt) s = Ok (tt, s') /\
    s' = with_procs (unlink_next (procs s) l2 pv) s /\ only_links m0 (procs s').
Proof.
  intros Hz Hs Ho ->. destruct l2 as [|n l2]; cbn [List.hd unlink_next].
  - exists s. rewrite Z.eqb_refl. split; [done|]. split; [by destruct s|done].
  - apply not_elem_of_cons in Hz as [Hn _]. rewrite (proj2 (Z.eqb_neq n 0)) by done. destruct Hs as [(x & Ex & _) _]. rewrite Ex.
    apply (link_step s m0 n (set_prev_sibling pv) x Ex Ho). by eexists.
Qed.

Lemma unlink_prev_run (s : ps) m0 p l1 c nx : p <> 0 -> 0 ∉ l1 ->
  fam (procs s) p (fun f => last_child f = List.hd c l1) -> sibs (procs s) p 0 l1 c -> only_links m0 (procs s) ->
  exists s', (if negb (List.last l1 0 =? 0) then upd_proc (List.last l1 0) (set_next_sibling nx)
     else if negb (p =? 0) then y <-- get_proc p;;
       if last_child (pr_fam y) =? c then upd_proc p (set_last_child nx) else ret tt
     else ret tt) s = Ok (tt, s') /\
    s' = with_procs (unlink_prev (procs s) p l1 nx) s /\ only_links m0 (procs s').
Proof.
  intros Hp Hz (y & Ey & Hy) Hs Ho. unfold unlink_prev. destruct l1 as [|v l1 _] using rev_ind.
  - cbn. rewrite (proj2 (Z.eqb_neq p 0) Hp). cbn [negb]. mrun (get_proc_ok _ _ _ Ey). rewrite Hy. cbn [List.hd]. rewrite Z.eqb_refl, Ey.
    apply (link_step s m0 p (set_last_child nx) y Ey Ho). by eexists.
  - rewrite List.last_last. apply sibs_last in Hs as [_ (x & Ex & _)].
    rewrite elem_of_app, list_elem_of_singleton in Hz.
    assert (Hv : v <> 0) by (intros ->; apply Hz; by right).
    rewrite (proj2 (Z.eqb_neq v 0) Hv). cbn [negb].
    destruct v; [done| |]; rewrite Ex; (apply (link_step s m0 _ (set_next_sibling nx) x Ex Ho); by eexists).
Qed.

Lemma proc_remove_spec (s : ps) p l1 c l2 : family (procs s) p (l1 ++ c :: l2) ->
  exists s', proc_remove c s = Ok (tt, s') /\ s' = with_procs (procs s') s /\ only_links (procs s) (procs s') /\
    fam (procs s') p (fun f => last_child f = List.hd 0 (l1 ++ l2)) /\ sibs (procs s') p 0 (l1 ++ l2) 0.
Proof.
  intros (Hp & Hs & Hnd). apply sibs_app in Hs as [Hs1 [(x & Ex & Hpa & Hpv & Hnx) Hs2]]. cbn [List.hd] in Hs1.
  apply NoDup_cons in Hnd as [Hz Hnd]. apply NoDup_cons in Hnd as [Hpn Hnd].
  rewrite not_elem_of_cons, not_elem_of_app, not_elem_of_cons in Hz. destruct Hz as (Hp0 & Hz1 & Hc0 & Hz2).
  rewrite not_elem_of_app, not_elem_of_cons in Hpn. destruct Hpn as (Hp1 & Hpc & Hp2).
  apply NoDup_app in Hnd as (Hnd1 & Hd & Hnd2). apply NoDup_cons in Hnd2 as [Hc2 Hnd2].
  assert (Hc1 : c ∉ l1) by (intros Hin; apply (Hd _ Hin), elem_of_cons; by left).
  assert (Hd12 : forall q, q ∈ l1 -> q ∉ l2) by (intros q Hq Hq2; apply (Hd _ Hq), elem_of_cons; by right).
  unfold proc_remove. mrun (get_proc_ok _ _ _ Ex). rewrite Hnx, Hpv, Hpa. cbn [List.hd].
  destruct (unlink_next_run s (procs s) l2 (List.last l1 0) c p _ Hz2 Hs2 (only_links_refl _) eq_refl) as (s1 & R1 & -> & O1).
  mrun R1. set (m1 := unlink_next _ _ _) in *. set (s1 := with_procs m1 s) in *.
  assert (Hp' : fam (procs s1) p (fun f => last_child f = List.hd c l1)).
  { destruct Hp as (y & Ey & Hy). exists y. unfold s1, m1. cbn. rewrite unlink_next_other by done. split; [done|].
    rewrite Hy. by destruct l1. }
  assert (Hs1' : sibs (procs s1) p 0 l1 c).
  { eapply sibs_ext; [|exact Hs1]. intros q Hq. apply unlink_next_other. by apply Hd12. }
  assert (Hs2' : sibs (procs s1) p (List.last l1 0) l2 0) by (by eapply unlink_next_sibs).
  destruct (unlink_prev_run s1 (procs s) p l1 c (List.hd 0 l2) ltac:(congruence) Hz1 Hp' Hs1' O1) as (s2 & R2 & -> & O2).
  mrun R2. set (m2 := unlink_prev _ _ _ _) in *.
  destruct (unlink_prev_sibs (procs s1) p l1 (List.hd 0 l2) c) as [Hp2' Hs12]; [|done|done|].
  { apply NoDup_cons. split; [by rewrite not_elem_of_cons|]. by apply NoDup_cons. }
  fold m2 in Hp2', Hs12. set (s2 := with_procs m2 s1) in *.
  assert (Ex2 : procs s2 !! c = Some x).
  { cbn. unfold m2. rewrite unlink_prev_other by (done || congruence). unfold s1, m1. cbn [procs with_procs]. by rewrite unlink_next_other. }
  destruct (link_step s2 (procs s) c (set_prev_sibling 0) x Ex2 O2) as (s3 & R3 & -> & O3); [by eexists|]. mrun R3.
  set (s3 := with_procs _ s2) in *. assert (Ex3 : procs s3 !! c = Some (set_prev_sibling 0 x)) by (cbn; by rewrite lookup_insert_eq).
  destruct (link_step s3 (procs s) c (set_next_sibling 0) _ Ex3 O3) as (s4 & R4 & E4 & O4); [by eexists|]. rewrite R4.
  exists s4. split; [done|]. split; [by rewrite E4|]. split; [done|].
  assert (Hoth : forall q, q <> c -> procs s4 !! q = m2 !! q).
  { intros q Hq. rewrite E4. cbn. by rewrite !lookup_insert_ne by congruence. }
  split.
  - destruct Hp2' as (y & Ey & Hy). exists y. rewrite Hoth by congruence. split; [done|]. rewrite Hy. by destruct l1.
  - apply sibs_app. split; (eapply sibs_ext; [intros q Hq; apply Hoth; by intros ->|]); [done|].
    eapply sibs_ext; [|exact Hs2']. intros q Hq. apply unlink_prev_other; [by intros ->|]. intros Hq1. by apply (Hd12 q).
Qed.

(** ** Searching the children *)

Lemma sibs_dom m pa l : forall pv nx c, sibs m pa pv l nx -> c ∈ l -> is_Some (m !! c).
Proof.
  induction l as [|d l IH]; intros pv nx c; [by intros _ ?%elem_of_nil|]. cbn. intros [(x & Ex & _) Hl] [->|Hc]%elem_of_cons; [by eexists|].
  by eapply IH.
Qed.

Lemma family_fuel m p l : family m p l -> (length l <= size m)%nat.
Proof.
  intros (_ & Hs & Hnd). apply NoDup_cons in Hnd as [_ Hnd]. apply NoDup_cons in Hnd as [_ Hnd].
  rewrite <- size_dom, <- (size_list_to_set (C := gset Z)) by done. apply subseteq_size. intros q Hq.
  apply elem_of_list_to_set in Hq. apply elem_of_dom. by eapply sibs_dom.
Qed.

Lemma child_loop_spec hit (s : ps) pa l1 c l2 : forall pv fuel,
  sibs (procs s) pa pv (l1 ++ c :: l2) 0 -> 0 ∉ l1 ++ c :: l2 -> (length l1 < fuel)%nat ->
  (forall q z, q ∈ l1 -> procs s !! q = Some z -> hit z = false) ->
  (exists y, procs s !! c = Some y /\ hit y = true) ->
  child_loop fuel hit (List.hd 0 (l1 ++ c :: l2)) s = Ok (c, s).
Proof.
  induction l1 as [|q l1 IH]; intros pv fuel Hs Hz Hf Hl1 (y & Ey & Hy); (destruct fuel as [|fuel]; [cbn in Hf; lia|]); cbn [child_loop app List.hd].
  - cbn in Hz. apply not_elem_of_cons in Hz as [Hc _]. rewrite (proj2 (Z.eqb_neq c 0)) by congruence.
    mrun (get_proc_ok _ _ _ Ey). by rewrite Hy.
  - cbn in Hz. apply not_elem_of_cons in Hz as [Hq Hz]. rewrite (proj2 (Z.eqb_neq q 0)) by congruence.
    cbn in Hs. destruct Hs as [(z & Ez & _ & _ & Hnx) Hs]. mrun (get_proc_ok _ _ _ Ez).
    rewrite (Hl1 q z) by (done || (apply elem_of_cons; by left)). rewrite Hnx.
    apply (IH q fuel); [done|done|cbn in Hf; lia| |by exists y]. intros r w Hr. apply Hl1, elem_of_cons. by right.
Qed.

Lemma child_loop_none hit (s : ps) pa l : forall pv fuel,
  sibs (procs s) pa pv l 0 -> 0 ∉ l -> (length l < fuel)%nat ->
  (forall q z, q ∈ l -> procs s !! q = Some z -> hit z = false) ->
  child_loop fuel hit (List.hd 0 l) s = Ok (0, s).
Proof.
  induction l as [|q l IH]; intros pv fuel Hs Hz Hf Hl; (destruct fuel as [|fuel]; [cbn in Hf; lia|]); cbn [child_loop List.hd]; [done|].
  apply not_elem_of_cons in Hz as [Hq Hz]. rewrite (proj2 (Z.eqb_neq q 0)) by congruence.
  cbn in Hs. destruct Hs as [(z & Ez & _ & _ & Hnx) Hs]. mrun (get_proc_ok _ _ _ Ez).
  rewrite (Hl q z) by (done || (apply elem_of_cons; by left)). rewrite Hnx.
  apply (IH q fuel); [done|done|cbn in Hf; lia|]. intros r w Hr. apply Hl, elem_of_cons. by right.
Qed.

(** ** Reaping *)

(** [c] is gone from the family of [p]; nothing else changed but links, the
    user's status word and the count of the address space's users. *)
Record reaped (s s' : ps) (p c : Z) (l : list Z) (y : proc) (status : Z) : Prop := {
  rp_family : family (procs s') p l;
  rp_gone : procs s' !! c = None;
  rp_links : forall q x, q <> c -> procs s !! q = Some x -> exists f, procs s' !! q = Some (with_fam f x);
  rp_status : user_mem s' = <[status := exit_status y]> (user_mem s);
  rp_queues : run_queue s' = run_queue s /\ proc_list s' = proc_list s /\ sleep_queue s' = sleep_queue s
}.

Lemma waitpid_ret_spec (s : ps) p l1 c l2 y status d :
  family (procs s) p (l1 ++ c :: l2) -> procs s !! c = Some y -> status <> 0 ->
  sdirs s !! p_dir (pr_mem y) = Some d -> 1 < sd_refs d ->
  exists s', waitpid_ret kernel_page_dir c status s = Ok (Val (ppid y), s') /\ reaped s s' p c (l1 ++ l2) y status.
Proof.
  intros Hfam Ey Hst Ed Hd. pose proof Hfam as (_ & _ & Hnd). unfold waitpid_ret. mrun (get_proc_ok _ _ _ Ey).
  rewrite (proj2 (Z.eqb_neq status 0) Hst). cbn [negb]. mgo. set (s1 := with_user_mem _ s). unfold proc_delete.
  destruct (proc_remove_spec s1 p l1 c l2 Hfam) as (s2 & R2 & E2 & O2 & Hp2 & Hs2). mgo. mrun R2.
  pose proof (O2 c) as Oc. cbn [procs s1 with_user_mem] in Oc. rewrite Ey in Oc.
  destruct (procs s2 !! c) as [y2|] eqn:Ey2; [|done]. destruct Oc as [g ->].
  mgo. mrun (get_proc_ok _ _ _ Ey2). mgo. set (s3 := with_procs (delete c (procs s2)) s2). unfold release_dir, sdir_fuel. mgo.
  cbn [release with_fam pr_mem].
  assert (Hsd : sdirs s3 = sdirs s) by (unfold s3; cbn; by rewrite E2).
  assert (Hcl : forall q, q ∈ p :: l1 ++ l2 -> q <> c).
  { intros q Hq ->. apply NoDup_cons in Hnd as [_ Hnd]. rewrite app_comm_cons in Hnd. apply NoDup_mid in Hnd as [Hc _]. by apply Hc. }
  assert (Hfin : forall u, reaped s (with_sdirs u s3) p c (l1 ++ l2) y status).
  { intros u. constructor.
    - cbn [procs with_sdirs s3 with_procs]. split; [|split].
      + destruct Hp2 as (z & Ez & Hz). exists z. rewrite lookup_delete_ne; [done|]. intros ->. apply (Hcl p); [apply elem_of_cons; by left|done].
      + eapply sibs_ext; [|exact Hs2]. intros q Hq. apply lookup_delete_ne. intros <-. apply (Hcl c); [apply elem_of_cons; by right|done].
      + rewrite app_comm_cons, app_comm_cons in Hnd. by apply NoDup_mid in Hnd as [_ ?].
    - cbn. by rewrite lookup_delete_eq.
    - intros q z Hq Ez. pose proof (O2 q) as Oq. cbn [procs s1 with_user_mem] in Oq. rewrite Ez in Oq.
      destruct (procs s2 !! q) as [w|] eqn:Ew; [|done]. destruct Oq as [h ->]. exists h. cbn. by rewrite lookup_delete_ne.
    - cbn. by rewrite E2.
    - cbn. by rewrite E2. }
  destruct (p_dir (pr_mem y) =? 0) eqn:Hd0.
  - mgo. exists s3. split; [done|]. replace s3 with (with_sdirs (sdirs s3) s3) by (by destruct s3). apply Hfin.
  - mgo. rewrite Hsd, Ed. cbn [deref]. mgo. rewrite (proj2 (Z.eqb_neq (sd_refs d) 1)) by lia. mgo.
    eexists. split; [reflexivity|]. apply Hfin.
Qed.

(** Which child a call of [waitpid(pid)] takes at once. *)
Definition wanted (pid : Z) (z : proc) : bool := if pid <=? 0 then is_zombie z else ppid z =? pid.

Lemma waitpid_found (s : ps) p x pid status sv l1 c l2 y d :
  cur_proc s = p -> procs s !! p = Some x -> wait_pid (pr_sched x) = 0 -> family (procs s) p (l1 ++ c :: l2) ->
  (forall q z, q ∈ l1 -> procs s !! q = Some z -> wanted pid z = false) ->
  procs s !! c = Some y -> wanted pid y = true -> pstatus y = ZOMBIE -> -1 <= pid -> status <> 0 ->
  sdirs s !! p_dir (pr_mem y) = Some d -> 1 < sd_refs d ->
  exists s', waitpid sg kernel_page_dir pid status 0 sv s = Ok (inl (Val (ppid y)), s') /\
    reaped s s' p c (l1 ++ l2) y status.
Proof.
  intros Hcur Ex Hw Hfam Hl1 Ey Hhit Hz Hpid Hst Ed Hd.
  pose proof (family_fuel _ _ _ Hfam) as Hlen. rewrite length_app in Hlen. cbn [length] in Hlen.
  pose proof Hfam as ((x' & Ex' & Hlc) & Hs & Hnd). assert (x' = x) as -> by congruence.
  apply NoDup_cons in Hnd as [Hz0 _]. apply not_elem_of_cons in Hz0 as [_ Hz0].
  unfold waitpid. cbn [negb Z.eqb]. rewrite (proj2 (Z.eqb_neq status 0) Hst), (proj2 (Z.ltb_ge pid (-1)) Hpid).
  unfold get_current_proc. mgo. rewrite Hcur. mrun (get_proc_ok _ _ _ Ex). rewrite Hw. cbn [asserth Z.eqb]. mgo.
  unfold proc_fuel. mgo. cbv zeta.
  destruct (waitpid_ret_spec s p l1 c l2 y status d Hfam Ey Hst Ed Hd) as (s' & Hrun & Hre).
  assert (Hc0 : c <> 0) by (intros ->; apply Hz0, elem_of_app; right; apply elem_of_cons; by left).
  unfold wanted in *. destruct (pid <=? 0).
  - rewrite Hlc. rewrite (proj2 (Z.eqb_neq (List.hd 0 (l1 ++ c :: l2)) 0)).
    2:{ destruct l1 as [|q l1]; cbn; [done|]. intros ->. apply Hz0. cbn. apply elem_of_cons. by left. }
    mrun (child_loop_spec is_zombie s p l1 c l2 0 (S (size (procs s))) Hs Hz0 ltac:(lia) Hl1 (ex_intro _ y (conj Ey Hhit))).
    rewrite (proj2 (Z.eqb_neq c 0) Hc0). cbn [negb]. mrun Hrun. by exists s'.
  - unfold get_child_pid, proc_fuel. mgo. mrun (get_proc_ok _ _ _ Ex). rewrite Hlc.
    mrun (child_loop_spec (fun y => ppid y =? pid) s p l1 c l2 0 (S (size (procs s))) Hs Hz0 ltac:(lia) Hl1 (ex_intro _ y (conj Ey Hhit))).
    rewrite (proj2 (Z.eqb_neq c 0) Hc0). mrun (get_proc_ok _ _ _ Ey).
    unfold is_zombie. rewrite bool_decide_eq_true_2 by done. mrun Hrun. by exists s'.
Qed.


(** The running process [p] was taken out of the sleep of a [waitpid] by a
    signal. *)
Definition wait_interrupted (s : ps) (p : Z) : Prop :=
  cur_proc s = p /\ p <> 0 /\
  exists x, procs s !! p = Some x /\ interrupted (pr_cpu x) = true /\ wait_pid (pr_sched x) <> 0.

(** a [waitpid] interrupted by a signal returns EINTR but leaves
    [wait_pid] set; the process's next [waitpid] then halts the kernel. *)
Theorem waitpid_after_interrupt_halts (s : ps) p pid status pid' status' sv :
  wait_interrupted s p -> -1 <= pid' -> status' <> 0 ->
  exists s', waitpid_return kernel_page_dir pid status s = Ok (Err EINTR, s') /\
    waitpid sg kernel_page_dir pid' status' 0 sv s' = Stop Panic.
Proof.
  intros (Hcur & Hp & x & Ex & Hi & Hw) Hpid Hst. unfold waitpid_return, schedule_return, check_interrupted, get_current_proc. mgo.
  rewrite Hcur, (proj2 (Z.eqb_neq p 0) Hp). cbn [negb asserth]. mgo. mrun (get_proc_ok _ _ _ Ex).
  mgo. mrun (upd_proc_ok s p (set_interrupted false) x Ex). mgo. rewrite Hi. eexists. split; [reflexivity|].
  unfold waitpid, get_current_proc. cbn [negb Z.eqb]. rewrite (proj2 (Z.eqb_neq status' 0) Hst), (proj2 (Z.ltb_ge pid' (-1)) Hpid). mgo.
  cbn [cur_proc with_procs]. rewrite Hcur.
  assert (E : procs (with_procs (<[p := set_interrupted false x]> (procs s)) s) !! p = Some (set_interrupted false x))
    by (cbn; by rewrite lookup_insert_eq).
  mrun (get_proc_ok _ _ _ E). apply bind_stop. cbn [set_interrupted with_cpu pr_sched]. by rewrite (proj2 (Z.eqb_neq _ 0) Hw).
Qed.
End spec.
