(* ===== verification/CloneSpec.v ===== *)
(** * The [clone] system call

    [process::clone] (kernel/proc/proc.cpp) puts the components together: it
    makes a process with a thread id of its own, clones the caller's address
    space, links the child into the family, and queues and lists it.  The
    invariant [proc_inv] of the process tables is what it needs and keeps. *)

From S2P Require Import Prelude Dll Bitmap LinkedList RbTree RbTreeSpec RbSet MemLayout Buddy BuddySpec PageDir PageDirSpec PageClone PageEnv DirClone Memory Proc Sched ProcCalls ProcSpec WaitSpec.
From stdpp Require Import gmap list.
#[local] Open Scope Z_scope.

(** ** Families *)

(** A family depends on the family links of its members only. *)
Lemma sibs_links m m' pa l : forall pv nx,
  (forall q, q ∈ l -> pr_fam <$> m' !! q = pr_fam <$> m !! q) -> sibs m pa pv l nx -> sibs m' pa pv l nx.
Proof.
  induction l as [|c l IH]; intros pv nx He; [done|]. cbn [sibs]. intros [(x & Ex & Hx) Hl]. split.
  - assert (E := He c ltac:(by apply list_elem_of_here)). rewrite Ex in E.
    destruct (m' !! c) as [y|] eqn:Ey; [|done]. injection E as E. exists y. by rewrite E.
  - apply IH; [|done]. intros d Hd. by apply He, list_elem_of_further.
Qed.

Lemma family_links m m' p l :
  (forall q, q ∈ p :: l -> pr_fam <$> m' !! q = pr_fam <$> m !! q) -> family m p l -> family m' p l.
Proof.
  intros He ((x & Ex & Hx) & Hs & Hnd). split; [|split; [|done]].
  - assert (E := He p ltac:(by apply list_elem_of_here)). rewrite Ex in E.
    destruct (m' !! p) as [y|] eqn:Ey; [|done]. injection E as E. exists y. by rewrite E.
  - eapply sibs_links; [|exact Hs]. intros q Hq. by apply He, list_elem_of_further.
Qed.

(** Changing what is not a family link. *)
Lemma family_insert m p l c x y : m !! c = Some x -> pr_fam y = pr_fam x -> family m p l -> family (<[c := y]> m) p l.
Proof.
  intros Ex E. apply family_links. intros q _. rewrite lookup_insert. case_decide as Hq; [|done].
  subst q. rewrite Ex. cbn. by rewrite E.
Qed.
Lemma family_fresh m p l c y : m !! c = None -> family m p l -> family (<[c := y]> m) p l.
Proof.
  intros Ec Hf. assert (Hf' := Hf). destruct Hf' as ((x & Ex & _) & Hs & _). revert Hf. apply family_links.
  intros q Hq. rewrite lookup_insert_ne; [done|]. intros <-.
  apply elem_of_cons in Hq as [->|Hq]; [congruence|]. destruct (sibs_dom _ _ _ _ _ _ Hs Hq). congruence.
Qed.

Lemma only_links_trans m1 m2 m3 : only_links m1 m2 -> only_links m2 m3 -> only_links m1 m3.
Proof.
  intros H1 H2 q. specialize (H1 q). specialize (H2 q). destruct (m1 !! q), (m2 !! q), (m3 !! q); try done.
  destruct H1 as [f ->], H2 as [g ->]. by exists g.
Qed.

Lemma only_links_keys D m m' : only_links m m' -> same_keys D m m'.
Proof.
  intros Ho q _. specialize (Ho q). destruct (m !! q), (m' !! q); try done. destruct Ho as [f ->]. by split_and!.
Qed.
Lemma only_links_tids m m' : only_links m m' -> tids_unique m -> tids_unique m'.
Proof.
  intros Ho Hu p q x y Ep Eq Ht. pose proof (Ho p) as Hp. pose proof (Ho q) as Hq. rewrite Ep in Hp. rewrite Eq in Hq.
  destruct (m !! p) as [x'|] eqn:Ep'; [|done]. destruct (m !! q) as [y'|] eqn:Eq'; [|done].
  destruct Hp as [f ->], Hq as [g ->]. by apply (Hu p q x' y').
Qed.

Section spec.
Context {F K : Type} `{FrameAlloc F} `{TableAlloc K}.
Variable sg : signums.
Variable kernel_page_dir : Z.
Notation kd := kernel_page_dir.
Notation ps := (@ps F K).
Notation vm := (@vm F K).

(** Linking the new child [c] in front of the children of [pa]. *)
Record child_linked (m m' : gmap Z proc) (c pa : Z) (y : proc) (kids : list Z) : Prop := {
  cl_links : only_links m m';
  cl_family : family m' pa (c :: kids);
  cl_child : m' !! c = Some (with_fam (PFam pa (last_child (pr_fam y)) (List.hd 0 kids) 0) y);
  cl_rest : forall q, q ∉ c :: pa :: kids -> m' !! q = m !! q
}.

Lemma link_child_spec (s : ps) c pa y kids :
  procs s !! c = Some y -> prev_sibling (pr_fam y) = 0 -> family (procs s) pa kids -> c ∉ 0 :: pa :: kids ->
  exists s', link_child c pa s = Ok (tt, s') /\ s' = with_procs (procs s') s /\ child_linked (procs s) (procs s') c pa y kids.
Proof.
  intros Ey Hpv ((z & Ez & Hlc) & Hs & Hnd) Hc. rewrite !not_elem_of_cons in Hc. destruct Hc as (Hc0 & Hcp & Hck).
  unfold link_child.
  destruct (link_step s (procs s) c (set_parent pa) y Ey (only_links_refl _)) as (s1 & R1 & E1 & O1); [by eexists|]. mrun R1.
  assert (Ez1 : procs s1 !! pa = Some z) by (rewrite E1; cbn; by rewrite lookup_insert_ne).
  mrun (get_proc_ok _ _ _ Ez1). rewrite Hlc. cbv zeta.
  assert (Ey1 : procs s1 !! c = Some (set_parent pa y)) by (rewrite E1; cbn; by rewrite lookup_insert_eq).
  destruct (link_step s1 (procs s) c (set_next_sibling (List.hd 0 kids)) _ Ey1 O1) as (s2 & R2 & E2 & O2); [by eexists|]. mrun R2.
  set (y2 := set_next_sibling (List.hd 0 kids) (set_parent pa y)).
  assert (M2 : procs s2 = <[c := y2]> (procs s)) by (rewrite E2, E1; cbn; by rewrite insert_insert_eq).
  apply NoDup_cons in Hnd as [Hz Hnd]. apply NoDup_cons in Hnd as [Hpk Hnd]. apply not_elem_of_cons in Hz as [Hpa0 Hz].
  assert (Hs2 : sibs (procs s2) pa 0 kids 0).
  { eapply sibs_ext; [|exact Hs]. intros q Hq. rewrite M2. apply lookup_insert_ne. by intros <-. }
  destruct (unlink_next_run s2 (procs s) kids c 0 pa c Hz Hs2 O2 eq_refl) as (s3 & R3 & E3 & O3). mrun R3.
  assert (L3 : forall q, q ∉ kids -> procs s3 !! q = <[c := y2]> (procs s) !! q).
  { intros q Hq. rewrite E3. cbn [procs with_procs]. by rewrite unlink_next_other, M2. }
  assert (Ez3 : procs s3 !! pa = Some z) by (rewrite L3, lookup_insert_ne by congruence; done).
  destruct (link_step s3 (procs s) pa (set_last_child c) z Ez3 O3) as (s4 & R4 & E4 & O4); [by eexists|]. rewrite R4.
  assert (L4 : forall q, q <> pa -> procs s4 !! q = procs s3 !! q) by (intros q Hq; rewrite E4; cbn; by rewrite lookup_insert_ne).
  assert (Ey4 : procs s4 !! c = Some y2) by (by rewrite L4, L3, lookup_insert_eq by congruence).
  exists s4. split; [done|]. split; [by rewrite E4, E3, E2, E1|]. split.
  - exact O4.
  - split; [exists (set_last_child c z); rewrite E4; cbn; by rewrite lookup_insert_eq|]. split.
    + cbn [sibs]. split; [exists y2; split; [exact Ey4|]; by split_and!|].
      eapply sibs_ext; [intros q Hq; apply L4; by intros ->|].
      rewrite E3. cbn [procs with_procs]. by eapply unlink_next_sibs.
    + apply NoDup_cons. split; [rewrite !not_elem_of_cons; by split_and!|].
      apply NoDup_cons. split; [rewrite not_elem_of_cons; by split_and!|]. by apply NoDup_cons.
  - rewrite Ey4. unfold y2. destruct y as [? ? ? ? [? ? ? pv] ? ? ?]. cbn in Hpv. by subst pv.
  - intros q Hq. rewrite !not_elem_of_cons in Hq. destruct Hq as (? & ? & ?).
    rewrite L4, L3, lookup_insert_ne by congruence. done.
Qed.

(** ** The process tables *)

(** What holds of the tables between calls: [l] is the run queue, [lp] the list
    of processes.  The list is a tree, but not in order: its keys change. *)
Record proc_inv (s : ps) (l lp : list (Z * Z)) : Prop := {
  pi_run : runq s l;
  pi_list : shaped (rb_nil (proc_list s)) (proc_list s) lp;
  pi_nodes : forall a, a ∈ dom (rb_nodes (proc_list s)) -> a < supply s;
  pi_ptrs : forall q, q ∈ l.*2 \/ q ∈ lp.*2 -> q < supply s;
  pi_procs : forall q, is_Some (procs s !! q) -> 0 < q < supply s;
  pi_tids : forall q y, procs s !! q = Some y -> ptid y < next_tid s;
  pi_dirs : forall d, is_Some (sdirs s !! d) -> 0 < d < supply s;
  pi_supply : 0 < supply s
}.

Lemma runq_frame (s s' : ps) l :
  runq s l -> run_queue s' = run_queue s -> supply s <= supply s' -> tids_unique (procs s') ->
  same_keys (fun p => p ∈ l.*2) (procs s) (procs s') -> runq s' l.
Proof.
  intros [H1 (t & Hr & He & Hs & Hb) H3 H4 H5] Hq Hsu Hu Hk. constructor; rewrite ?Hq; try done.
  - exists t. split_and!; try done. by apply (sorted_same (procs s)).
  - intros a Ha. apply H5 in Ha. lia.
Qed.

Lemma fresh_tids m c y t : tids_unique m -> (forall q z, m !! q = Some z -> ptid z < t) -> ptid y = t ->
  tids_unique (<[c := y]> m).
Proof.
  intros Hu Hlt Ht p q a b. rewrite !lookup_insert. do 2 case_decide; subst; try done; [| |by apply Hu].
  - intros [= <-] Eb Hab. apply Hlt in Eb. lia.
  - intros Ea [= <-] Hab. apply Hlt in Ea. lia.
Qed.

(** [proc_list.insert(p)] of a process that is not in it. *)
Lemma proc_insert_ok (s : ps) lp p x :
  shaped (rb_nil (proc_list s)) (proc_list s) lp -> (forall a, a ∈ dom (rb_nodes (proc_list s)) -> a < supply s) ->
  tids_unique (procs s) -> procs s !! p = Some x -> p ∉ lp.*2 ->
  exists r l1 l2, proc_insert p s = Ok (supply s, with_list r (with_supply (supply s + 1) s)) /\ lp = l1 ++ l2 /\
    shaped (rb_nil r) r (l1 ++ (supply s, p) :: l2) /\ forall a, a ∈ dom (rb_nodes r) -> a < supply s + 1.
Proof.
  intros Hsh Hf Hu Ex Hp. unfold proc_insert, new_addr. mgo. cbn [procs with_supply].
  pose proof (ptr_key_order _ Hu) as HK.
  destruct (rb_insert_shape (ptr_lt (procs s)) (ptr_eq (procs s)) (rb_nil (proc_list s)) (supply s) p (proc_list s) lp Hsh)
    as (r & l1 & l2 & Hrun & El & Hr & Hd & _).
  - apply not_elem_of_dom. intros Hin. apply Hf in Hin. lia.
  - apply Forall_forall. intros [a q] Hq. cbn [snd]. unfold ptr_eq, ptr_cmp. rewrite Ex.
    destruct (procs s !! q) as [y|] eqn:Ey; [|done]. apply Z.eqb_neq. intros Ht. apply Hp, list_elem_of_fmap.
    exists (a, q). split; [|done]. by apply (Hu p q x y).
  - exists r, l1, l2. split; [unfold on_list, zoom; cbn [proc_list with_supply]; by rewrite Hrun|]. split; [done|].
    split; [assert (rb_nil r = rb_nil (proc_list s)) as -> by (by destruct Hr as (t & [] & _)); exact Hr|].
    intros a. rewrite Hd, elem_of_union, elem_of_singleton. intros [->|Ha]; [lia|]. apply Hf in Ha. lia.
Qed.

(** ** Single steps of [clone] *)

Lemma upd_at (s : ps) m c y f :
  upd_proc c f (with_procs (<[c := y]> m) s) = Ok (tt, with_procs (<[c := f y]> m) s).
Proof.
  rewrite (upd_proc_ok _ _ _ y) by (cbn; by rewrite lookup_insert_eq). cbn. by rewrite insert_insert_eq.
Qed.

(** The reference that a cloned directory keeps. *)
Definition retained (d : Z) (m : gmap Z sdir) : gmap Z sdir :=
  if d =? 0 then m
  else match m !! d with Some x => <[d := SDir (sd_dir x) (sd_cloned x) (sd_refs x + 1)]> m | None => m end.

Lemma new_sdir_run (s : ps) nd d : d = 0 \/ is_Some (sdirs s !! d) ->
  new_sdir nd d s = Ok (supply s, with_sdirs (<[supply s := SDir nd d 1]> (retained d (sdirs s))) (with_supply (supply s + 1) s)).
Proof.
  intros Hd. unfold new_sdir, new_addr, retain, retained. mgo. destruct (Z.eqb_spec d 0) as [->|Hne]; mgo; [done|].
  destruct Hd as [?|[e Ee]]; [done|]. cbn [sdirs with_supply]. rewrite Ee. cbn [deref]. by mgo.
Qed.

(** The computation returns with [Q], or halts for lack of memory. *)
Definition pruns {A} (c : outcome (A * ps)) (Q : A -> ps -> Prop) : Prop :=
  match c with Ok (a, s) => Q a s | Stop Panic => oom (F := F) (K := K) | Stop _ => False end.

Lemma pruns_bind {A B} (c : M ps A) (k : A -> M ps B) s Q R :
  pruns (c s) Q -> (forall a s', Q a s' -> pruns (k a s') R) -> pruns (bind c k s) R.
Proof. unfold bind. destruct (c s) as [[a s']|[]]; simpl; auto; done. Qed.
Lemma pruns_ok {A} (c : outcome (A * ps)) a s (Q : A -> ps -> Prop) : c = Ok (a, s) -> Q a s -> pruns c Q.
Proof. by intros ->. Qed.
Lemma pruns_on_vm {A} (c : M vm A) (s : ps) Q :
  runs (c (pvm s)) Q -> pruns (on_vm c s) (fun a s' => exists v, s' = with_pvm v s /\ Q a v).
Proof. unfold on_vm, zoom. destruct (c (pvm s)) as [[a v]|[]]; simpl; auto. by exists v. Qed.

(** ** The call *)

(** [nd] is the clone of the address space that [flags] ask for. *)
Record space_cloned (v v' : vm) (flags nd : Z) (me kdir D : pdir) (X T X' T' : gset Z) : Prop := {
  sc_new : nd ∉ T;
  sc_cur : vm_cur v' = vm_cur v;
  sc_dirs : vm_dirs v' = <[nd := D]> (vm_dirs v);
  sc_ok : vm_ok v' X' T';
  sc_more : T ⊆ T' /\ X ⊆ X';
  sc_rest : undisturbed v X T v';
  sc_slots : forall i, 0 <= i < 1024 -> slot_cloned v flags stack_table stack_table me kdir X T v' D X' i;
  sc_private : frames_private flags stack_table stack_table me v' D;
  sc_frames : accounted flags stack_table stack_table me X v' D X';
  sc_tables : tables_accounted flags stack_table stack_table nd me T v' D T'
}.

Definition has_flag (flags f : Z) : bool := negb (Z.land flags f =? 0).

(** The registers and the FPU state that the child gets. *)
Definition child_regs (sv : regs) (esp : Z) : regs :=
  Regs (r_eflags sv) (r_eip sv) (r_edi sv) (r_esi sv) (r_ebp sv) esp (r_ebx sv) (r_edx sv) (r_ecx sv) (r_eax sv).
Definition child_fpu (s : ps) (x : proc) : Z := if fpu_used (pr_cpu x) then cpu_fpu s else fpu_buf (pr_cpu x).

(** The child of [x], as it is when [clone] returns. *)
Definition child_proc (s : ps) (x : proc) (flags : Z) (sv : regs) (esp sd pa h : Z) (kids : list Z) : proc :=
  Proc (PId (next_tid s) (if has_flag flags CLONE_THREAD then ppid x else next_tid s) (uid (pr_id x)))
    (PSched READY (u64 (min_vruntime s)) (nice (pr_sched x)) RUN_QUEUE (HNode h) 0)
    (PCpu (child_regs sv esp) (child_fpu s x) false false false)
    (PMem sd (brk_start (pr_mem x)) (brk_end (pr_mem x)) (stack_bot (pr_mem x)))
    (PFam pa 0 (List.hd 0 kids) 0) flags 0 (bitmap_new 32 None).

(** The parent of the new process. *)
Definition clone_parent (x : proc) (p flags : Z) : Z := if has_flag flags CLONE_PARENT then parent (pr_fam x) else p.
(** The directory object that the new one keeps alive. *)
Definition shared_dir (x : proc) (flags : Z) : Z := if has_flag flags CLONE_VM then p_dir (pr_mem x) else 0.

(** What [clone] has done, from [s] to [s']: the new process is [c]. *)
Record proc_cloned (s s' : ps) (x : proc) (flags : Z) (sv : regs) (esp c pa nd : Z) (kids : list Z) (l lp : list (Z * Z)) : Prop := {
  pc_new : procs s !! c = None /\ forall q y, procs s !! q = Some y -> ptid y <> next_tid s;
  pc_child : exists sd h, procs s' !! c = Some (child_proc s x flags sv esp sd pa h kids) /\ sdirs s !! sd = None /\
    sdirs s' = <[sd := SDir nd (shared_dir x flags) 1]> (retained (shared_dir x flags) (sdirs s));
  pc_family : family (procs s') pa (c :: kids);
  pc_links : forall q y, procs s !! q = Some y -> exists f, procs s' !! q = Some (with_fam f y);
  pc_others : forall q, q ∉ c :: pa :: kids -> procs s' !! q = procs s !! q;
  pc_inv : exists l' lp', proc_inv s' l' lp' /\ l'.*2 ≡ₚ c :: l.*2 /\ lp'.*2 ≡ₚ c :: lp.*2;
  pc_rest : next_tid s' = next_tid s + 1 /\ cur_proc s' = cur_proc s /\ min_vruntime s' = min_vruntime s /\
    online s' = online s /\ sleep_queue s' = sleep_queue s /\ conds s' = conds s
}.

(** The last part of [clone], from the linking of the new process [c] on. *)
Definition clone_rest (c pa : Z) (x : proc) (sv : regs) (esp : Z) : M ps sysret :=
  link_child c pa;;; s <-- get;; upd_proc c (set_fpu (child_fpu s x) false);;;
  upd_proc c (set_regs (child_regs sv esp));;; _ <-- add_proc_run c false;;
  asserth (Z.land (r_eflags sv) EFLAGS_INT =? 0);;; _ <-- proc_insert c;; y <-- get_proc c;; ret (Val (ppid y)).

(** The invariant once [c] is on the run queue and on the list of processes and
    nothing else changed but family links. *)
Lemma proc_inv_enter (s2 s6 : ps) l lp l' lp' c :
  proc_inv s2 l lp -> is_Some (procs s2 !! c) -> runq s6 l' -> shaped (rb_nil (proc_list s6)) (proc_list s6) lp' ->
  (forall a, a ∈ dom (rb_nodes (proc_list s6)) -> a < supply s6) -> l'.*2 ≡ₚ c :: l.*2 -> lp'.*2 ≡ₚ c :: lp.*2 ->
  (forall q z, procs s6 !! q = Some z -> exists z', procs s2 !! q = Some z' /\ ptid z = ptid z') ->
  supply s2 <= supply s6 -> next_tid s6 = next_tid s2 -> sdirs s6 = sdirs s2 -> proc_inv s6 l' lp'.
Proof.
  intros [Pr Pl Pn Pp Pq Pt Pd Ps] Hc Hq Hsh Hn Hl Hlp Hdom Hsu Ht Hd. constructor; try done.
  - intros q. rewrite Hl, Hlp, !elem_of_cons. destruct (Pq c Hc).
    intros [[->|Hin]|[->|Hin]]; try lia; (assert (q < supply s2) by (apply Pp; tauto)); lia.
  - intros q [z Ez]. destruct (Hdom q z Ez) as (z' & Ez' & _). destruct (Pq q ltac:(by rewrite Ez')). lia.
  - intros q z Ez. destruct (Hdom q z Ez) as (z' & Ez' & ->). rewrite Ht. by apply (Pt q z').
  - intros d Hin. rewrite Hd in Hin. specialize (Pd d Hin). lia.
  - lia.
Qed.

Lemma clone_tail (s1 : ps) m c y x pa kids l lp sv esp :
  let s2 := with_procs (<[c := y]> m) s1 in
  m !! c = None -> prev_sibling (pr_fam y) = 0 -> family m pa kids -> pqueue y = NO_QUEUE ->
  proc_inv s2 l lp -> c ∉ l.*2 -> c ∉ lp.*2 -> Z.of_nat (length l) < 2 ^ 32 - 2 ->
  Z.land (r_eflags sv) EFLAGS_INT = 0 ->
  exists s' h, clone_rest c pa x sv esp s2 = Ok (Val (ppid y), s') /\
    procs s' !! c = Some (queued (min_vruntime s1) h (set_regs (child_regs sv esp) (set_fpu (child_fpu s1 x) false
      (with_fam (PFam pa (last_child (pr_fam y)) (List.hd 0 kids) 0) y)))) /\
    family (procs s') pa (c :: kids) /\
    (forall q z, q <> c -> m !! q = Some z -> exists f, procs s' !! q = Some (with_fam f z)) /\
    (forall q, q ∉ c :: pa :: kids -> procs s' !! q = m !! q) /\
    (exists l' lp', proc_inv s' l' lp' /\ l'.*2 ≡ₚ c :: l.*2 /\ lp'.*2 ≡ₚ c :: lp.*2) /\
    s' = with_list (proc_list s') (with_run (run_queue s') (with_supply (supply s') (with_procs (procs s') s1))).
Proof.
  intros s2 Ec Hpv Hfam Hnq Hinv Hcl Hclp Hlen Hef. assert (Hinv2 := Hinv). destruct Hinv2 as [Pr Pl Pn Pp Pq _ _ _]. unfold clone_rest.
  assert (Ey : procs s2 !! c = Some y) by (cbn; by rewrite lookup_insert_eq).
  assert (Hfc : c ∉ 0 :: pa :: kids).
  { rewrite !not_elem_of_cons. destruct (Pq c ltac:(by rewrite Ey)). destruct Hfam as ((z & Ez & _) & Hs & _).
    split_and!; [lia|congruence|]. intros Hin. destruct (sibs_dom _ _ _ _ _ _ Hs Hin). congruence. }
  destruct (link_child_spec s2 c pa y kids Ey Hpv (family_fresh _ _ _ _ _ Ec Hfam) Hfc) as (s3 & R3 & E3 & [Ho Hf3 Hc3 Hr3]).
  mrun R3. mgo. set (y3 := with_fam _ y) in Hc3.
  assert (child_fpu s3 x = child_fpu s1 x) as -> by (by rewrite E3).
  mrun (upd_proc_ok s3 c (set_fpu (child_fpu s1 x) false) y3 Hc3).
  mrun (upd_at s3 (procs s3) c (set_fpu (child_fpu s1 x) false y3) (set_regs (child_regs sv esp))).
  set (y4 := set_regs (child_regs sv esp) _). set (s4 := with_procs _ s3).
  assert (E4 : procs s4 !! c = Some y4) by (cbn; by rewrite lookup_insert_eq).
  assert (Hf4 : family (procs s4) pa (c :: kids)) by (by apply (family_insert _ _ _ _ y3)).
  assert (Hu4 : tids_unique (procs s4)).
  { eapply insert_tids; [eapply only_links_tids; [exact Ho|apply Pr]|exact Hc3|done]. }
  assert (Hq4 : runq s4 l).
  { eapply runq_frame; [exact Pr|by cbn; rewrite E3|by cbn; rewrite E3|exact Hu4|].
    intros q Hq. unfold s4. cbn [procs with_procs]. rewrite (lookup_insert_ne (procs s3)) by (by intros <-).
    by apply (only_links_keys (fun _ => True) _ _ Ho). }
  destruct (add_proc_run_idle s4 l c y4 Hq4 E4 Hnq Hcl Hlen) as (s5 & R5 & M5 & (l5 & Hq5 & P5) & E5).
  mrun R5. rewrite (proj2 (Z.eqb_eq _ 0) Hef). cbn [asserth]. mgo.
  set (y5 := queued _ _ y4) in M5. assert (Ey5 : procs s5 !! c = Some y5) by (by rewrite M5, lookup_insert_eq).
  assert (Su5 : supply s5 = supply s2 + 1) by (rewrite E5; cbn; by rewrite E3).
  assert (Pl5 : proc_list s5 = proc_list s2) by (rewrite E5; cbn; by rewrite E3).
  destruct (proc_insert_ok s5 lp c y5) as (r & l1 & l2 & R6 & El & Sh6 & N6).
  { by rewrite Pl5. } { intros a. rewrite Pl5. intros Ha. apply Pn in Ha. lia. } { apply Hq5. } { exact Ey5. } { exact Hclp. }
  mrun R6. set (s6 := with_list r _). assert (Ey6 : procs s6 !! c = Some y5) by exact Ey5.
  mrun (get_proc_ok _ _ _ Ey6). cbn [ret].
  assert (L6 : forall q, q <> c -> procs s6 !! q = procs s3 !! q).
  { intros q Hq. cbn. rewrite M5. cbn. by rewrite !lookup_insert_ne by congruence. }
  assert (Hmv : min_vruntime s4 = min_vruntime s1) by (cbn; by rewrite E3).
  exists s6, (supply s4). split; [done|]. split; [rewrite <- Hmv; exact Ey6|]. split.
  { cbn. rewrite M5. by apply (family_insert _ _ _ _ y4). }
  split. { intros q z Hq Ez. rewrite L6 by done. pose proof (Ho q) as Hoq. cbn in Hoq.
    rewrite lookup_insert_ne, Ez in Hoq by congruence. destruct (procs s3 !! q); [|done]. destruct Hoq as [f ->]. by exists f. }
  split. { intros q Hq. assert (Hqc : q <> c) by (intros ->; by apply Hq, list_elem_of_here).
    rewrite L6, Hr3 by done. cbn. by rewrite lookup_insert_ne. }
  split; [|unfold s6; rewrite E5; unfold s4; rewrite E3; reflexivity].
  assert (HPlp : (l1 ++ (supply s5, c) :: l2).*2 ≡ₚ c :: lp.*2).
  { rewrite El, !fmap_app. cbn. by rewrite Permutation_middle. }
  assert (HPl : l5.*2 ≡ₚ c :: l.*2) by (by rewrite P5).
  exists l5, (l1 ++ (supply s5, c) :: l2). split; [|split; [exact HPl|exact HPlp]].
  assert (Hdom : forall q z, procs s6 !! q = Some z -> exists z', procs s2 !! q = Some z' /\ ptid z = ptid z').
  { intros q z Ez. destruct (decide (q = c)) as [->|Hqc]; [exists y; split; [done|]; by simplify_eq|].
    rewrite L6 in Ez by done. pose proof (Ho q) as Hoq. rewrite Ez in Hoq. destruct (procs s2 !! q) as [z'|]; [|done].
    exists z'. destruct Hoq as [f ->]. done. }
  apply (proc_inv_enter s2 s6 l lp _ _ c); try done.
  - eapply runq_frame; [exact Hq5|done|change (supply s6) with (supply s5 + 1); lia|apply Hq5|]. intros q _. cbn. destruct (procs s5 !! q); [apply same_key_refl|done].
  - change (supply s6) with (supply s5 + 1). lia.
  - cbn. rewrite E5. cbn. by rewrite E3.
  - cbn. rewrite E5. cbn. by rewrite E3.
Qed.

(** The new process before it is linked. *)
Definition unlinked_child (s : ps) (x : proc) (flags sd : Z) : proc :=
  Proc (PId (next_tid s) (if has_flag flags CLONE_THREAD then ppid x else next_tid s) (uid (pr_id x)))
    (PSched CREATED 0 (nice (pr_sched x)) NO_QUEUE HNull 0) (PCpu regs0 0 false false false)
    (PMem sd (brk_start (pr_mem x)) (brk_end (pr_mem x)) (stack_bot (pr_mem x))) (PFam 0 0 0 0) flags 0 (bitmap_new 32 None).

(** The tables with the new process and its directory object in them. *)
Lemma proc_inv_new (s s2 : ps) l lp c sd y e :
  proc_inv s l lp -> c = supply s -> sd = supply s + 1 -> ptid y = next_tid s ->
  s2 = with_procs (<[c := y]> (procs s)) (with_sdirs e (with_supply (supply s + 2)
         (with_next_tid (next_tid s + 1) (with_pvm (pvm s2) s)))) ->
  (forall d, is_Some (e !! d) -> d = sd \/ is_Some (sdirs s !! d)) ->
  proc_inv s2 l lp.
Proof.
  intros [Pr Pl Pn Pp Pq Pt Pd Ps] -> -> Ht E2 He.
  assert (Su : supply s2 = supply s + 2) by (by rewrite E2). assert (Hm : procs s2 = <[supply s := y]> (procs s)) by (by rewrite E2).
  assert (Hu : tids_unique (procs s2)) by (rewrite Hm; eapply fresh_tids; [apply Pr|exact Pt|exact Ht]).
  constructor; rewrite ?Su.
  - eapply runq_frame; [exact Pr|by rewrite E2|lia|exact Hu|]. rewrite Hm. apply insert_same_keys.
    intros Hin. specialize (Pp (supply s) (or_introl Hin)). lia.
  - by rewrite E2.
  - rewrite E2. cbn. intros a Ha. apply Pn in Ha. lia.
  - intros q Hq. apply Pp in Hq. lia.
  - intros q. rewrite Hm. intros [z [[<- _]|[_ Ez]]%lookup_insert_Some]; [lia|]. destruct (Pq q ltac:(by rewrite Ez)). lia.
  - intros q z. rewrite Hm. replace (next_tid s2) with (next_tid s + 1) by (by rewrite E2).
    intros [[_ <-]|[_ Ez]]%lookup_insert_Some; [lia|]. apply Pt in Ez. lia.
  - intros d Hd. rewrite E2 in Hd. cbn in Hd. destruct (He d Hd) as [->|Hd']; [lia|]. specialize (Pd d Hd'). lia.
  - lia.
Qed.

Lemma retained_dom d m q : is_Some (retained d m !! q) -> is_Some (m !! q).
Proof.
  unfold retained. destruct (d =? 0); [done|]. destruct (m !! d) as [e|] eqn:E; [|done]. rewrite lookup_insert.
  case_decide as Hd; [|done]. subst. by rewrite E.
Qed.

(** The first part of [clone]: what is left to do, in which state. *)
Definition child_made (s : ps) (x : proc) (flags nd : Z) (v : vm) : ps :=
  with_procs (<[supply s := unlinked_child s x flags (supply s + 1)]> (procs s))
    (with_sdirs (<[supply s + 1 := SDir nd (shared_dir x flags) 1]> (retained (shared_dir x flags) (sdirs s)))
      (with_supply (supply s + 2) (with_next_tid (next_tid s + 1) (with_pvm v s)))).

Lemma clone_front (s : ps) p x flags sv esp e w me kdir X T (P : outcome (sysret * ps) -> Prop) :
  cur_proc s = p -> p <> 0 -> p <> supply s -> procs s !! p = Some x -> Z.land flags CLONE_CSIGNAL_MASK < 32 ->
  sdirs s !! p_dir (pr_mem x) = Some e -> space_ok kd (pvm s) (sd_dir e) w me kdir X T ->
  (oom (F := F) (K := K) -> P (Stop Panic)) ->
  (forall nd v D X' T', space_cloned (pvm s) v flags nd me kdir D X T X' T' ->
     P (clone_rest (supply s) (clone_parent x p flags) x sv esp (child_made s x flags nd v))) ->
  P (clone kd flags sv esp s).
Proof.
  intros Hcur Hp0 Hpc Ex Hsig Ee [V1 V2 V3 V4 V5 V6 V7] Hoom HP.
  unfold clone, get_current_proc. mgo. rewrite Hcur, (proj2 (Z.eqb_neq p 0)) by done. cbn [negb asserth]. mgo.
  rewrite (proj2 (Z.leb_gt 32 _) Hsig). mrun (get_proc_ok _ _ _ Ex).
  unfold new_proc at 1, new_addr at 1, next_id at 1. mgo. cbn [next_tid with_supply].
  set (c := supply s) in *. set (m := procs s) in *. set (t := next_tid s) in *.
  set (B := with_next_tid (t + 1) (with_supply (c + 1) s)). set (y0 := proc_init t 0).
  set (y1 := if has_flag flags CLONE_THREAD then with_id (PId t (ppid x) 0) y0 else y0).
  change (with_procs _ (with_next_tid _ _)) with (with_procs (<[c := y0]> m) B).
  assert (R1 : (if negb (Z.land flags CLONE_THREAD =? 0)
      then upd_proc c (fun y => with_id (PId (ptid y) (ppid x) 0) y) else ret tt) (with_procs (<[c := y0]> m) B) =
    Ok (tt, with_procs (<[c := y1]> m) B)).
  { fold (has_flag flags CLONE_THREAD). unfold y1. destruct (has_flag flags CLONE_THREAD); [by rewrite upd_at|done]. }
  mrun R1. unfold dir_of at 1. mgo.
  assert (Ex1 : procs (with_procs (<[c := y1]> m) B) !! p = Some x) by (cbn; rewrite lookup_insert_ne by congruence; exact Ex).
  mrun (get_proc_ok _ _ _ Ex1). mgo. change (sdirs (with_procs _ B)) with (sdirs s). rewrite Ee. cbn [deref]. mgo.
  pose proof (dir_clone_spec kd (pvm s) (sd_dir e) flags stack_table stack_table w me kdir X T V1 V2 V3 V4 V5 V6 V7) as Hcl.
  unfold bind at 1. unfold on_vm at 1, zoom. change (pvm (with_procs _ B)) with (pvm s).
  destruct (dir_clone kd (sd_dir e) flags stack_table stack_table (pvm s)) as [[nd v]|[]]; cbn [runs] in Hcl; try done; [|by apply Hoom].
  destruct Hcl as (Hnd & Hvc & D & X' & T' & W1 & W2 & W3 & W4 & W5 & W6 & W7 & W8 & W9 & W10).
  fold (has_flag flags CLONE_VM) (shared_dir x flags).
  assert (Hret : shared_dir x flags = 0 \/ is_Some (sdirs s !! shared_dir x flags)).
  { unfold shared_dir. destruct (has_flag flags CLONE_VM); [right; by rewrite Ee|by left]. }
  mrun (new_sdir_run (with_pvm v (with_procs (<[c := y1]> m) B)) nd (shared_dir x flags) Hret).
  set (E := <[c + 1 := SDir nd (shared_dir x flags) 1]> (retained (shared_dir x flags) (sdirs s))).
  set (B2 := with_sdirs E (with_supply (c + 2) (with_next_tid (t + 1) (with_pvm v s)))).
  match goal with |- context [with_sdirs ?u (with_supply ?k ?z)] =>
    replace (with_sdirs u (with_supply k z)) with (with_procs (<[c := y1]> m) B2)
      by (unfold B2; cbn [supply with_pvm with_procs B with_next_tid with_supply]; by replace (c + 1 + 1) with (c + 2) by lia) end.
  match goal with |- context [upd_proc c (fun y => with_pmem (PMem ?u _ _ _) y)] => change u with (c + 1) end.
  do 5 rewrite (bind_ok _ _ _ _ _ (upd_at B2 m c _ _)). cbv beta. specialize (HP nd v D X' T').
  replace (child_made s x flags nd v) with (with_procs (<[c := unlinked_child s x flags (c + 1)]> m) B2) in HP by done.
  unfold y1. destruct (has_flag flags CLONE_THREAD) eqn:Eth; unfold unlinked_child in HP; rewrite Eth in HP; by apply HP.
Qed.

Lemma clone_spec (s : ps) p x flags sv esp kids l lp e w me kdir X T :
  proc_inv s l lp -> cur_proc s = p -> procs s !! p = Some x -> Z.land flags CLONE_CSIGNAL_MASK < 32 ->
  family (procs s) (clone_parent x p flags) kids ->
  sdirs s !! p_dir (pr_mem x) = Some e -> space_ok kd (pvm s) (sd_dir e) w me kdir X T ->
  Z.of_nat (length l) < 2 ^ 32 - 2 -> Z.land (r_eflags sv) EFLAGS_INT = 0 ->
  pruns (clone kd flags sv esp s) (fun r s' => exists nd D X' T',
    r = Val (if has_flag flags CLONE_THREAD then ppid x else next_tid s) /\
    proc_cloned s s' x flags sv esp (supply s) (clone_parent x p flags) nd kids l lp /\
    space_cloned (pvm s) (pvm s') flags nd me kdir D X T X' T').
Proof.
  intros Hinv Hcur Ex Hsig Hfam Ee Hspace Hlen Hef.
  assert (Hinv' := Hinv). destruct Hinv' as [Pr Pl Pn Pp Pq Pt Pd Ps].
  assert (Hp : 0 < p < supply s) by (apply Pq; by rewrite Ex).
  eapply (clone_front s p x flags sv esp e w me kdir X T); try done; try lia. intros nd v D X' T' Hsp.
  set (c := supply s) in *. set (m := procs s) in *. set (sd := c + 1).
  assert (Hc : c ∉ l.*2 /\ c ∉ lp.*2) by (split; intros Hin; [specialize (Pp c (or_introl Hin))|specialize (Pp c (or_intror Hin))]; lia).
  assert (Em : m !! c = None) by (destruct (m !! c) as [z|] eqn:Ez; [|done]; destruct (Pq c ltac:(by rewrite Ez)); lia).
  set (E := <[sd := SDir nd (shared_dir x flags) 1]> (retained (shared_dir x flags) (sdirs s))).
  set (B := with_sdirs E (with_supply (c + 2) (with_next_tid (next_tid s + 1) (with_pvm v s)))).
  destruct (clone_tail B m c (unlinked_child s x flags sd) x (clone_parent x p flags) kids l lp sv esp)
    as (s' & h & Hrun & Hch & Hf' & Hl' & Ho' & Hi' & Hs').
  { exact Em. } { done. } { exact Hfam. } { done. }
  { eapply (proc_inv_new s _ l lp c sd (unlinked_child s x flags sd) E Hinv eq_refl eq_refl); [reflexivity|reflexivity|].
    intros d. unfold E. rewrite lookup_insert. case_decide; [by left|]. intros Hd. right. by eapply retained_dom. }
  { apply Hc. } { apply Hc. } { exact Hlen. } { exact Hef. }
  eapply pruns_ok; [exact Hrun|]. exists nd, D, X', T'. split; [done|]. split.
  - split.
    + split; [exact Em|]. intros q z Ez. apply Pt in Ez. lia.
    + exists sd, h. split; [by rewrite Hch|]. split; [|by rewrite Hs'].
      destruct (sdirs s !! sd) eqn:Esd; [|done]. destruct (Pd sd ltac:(by rewrite Esd)). unfold sd in *. lia.
    + exact Hf'.
    + intros q z Ez. apply Hl'; [|exact Ez]. intros Hq. assert (E1 : m !! c = Some z) by (rewrite <- Hq; exact Ez). congruence.
    + exact Ho'.
    + exact Hi'.
    + rewrite Hs'. by split_and!.
  - replace (pvm s') with v by (by rewrite Hs'). exact Hsp.
Qed.


(** A process without a parent (the first processes, and every orphan) that
    asks for a sibling makes the kernel write through a null pointer. *)
Theorem clone_orphan_faults (s : ps) p x flags sv esp e w me kdir X T :
  cur_proc s = p -> p <> 0 -> p <> supply s -> 0 < supply s -> procs s !! 0 = None -> procs s !! p = Some x ->
  Z.land flags CLONE_CSIGNAL_MASK < 32 -> has_flag flags CLONE_PARENT = true -> parent (pr_fam x) = 0 ->
  sdirs s !! p_dir (pr_mem x) = Some e -> space_ok kd (pvm s) (sd_dir e) w me kdir X T ->
  match clone kd flags sv esp s with Stop Fault => True | Stop Panic => oom (F := F) (K := K) | _ => False end.
Proof.
  intros Hcur Hp Hps Hsu H0p Ex Hsig Hfl Hpar Ee Hsp.
  apply (clone_front s p x flags sv esp e w me kdir X T); try done. intros nd v D X' T' _.
  unfold clone_parent. rewrite Hfl, Hpar. unfold clone_rest, link_child, child_made. mgo.
  rewrite (bind_ok _ _ _ _ _ (upd_at _ _ _ _ _)).
  assert (Hg : forall (s1 : ps), procs s1 !! 0 = None -> get_proc 0 s1 = Stop Fault).
  { intros s1 E1. unfold get_proc. mgo. by rewrite E1. }
  rewrite (bind_stop _ _ _ Fault); [done|]. apply bind_stop, Hg. cbn. by rewrite lookup_insert_ne by lia.
Qed.
End spec.

(** ** A process cloned *)

(** Process 50 runs alone, in the address space of DirClone.v. *)
Definition cloner : proc :=
  Proc (PId 1 1 0) (PSched RUNNING 5 0 RUN_QUEUE (HNode 60) 0) (PCpu regs0 0 false true false) (PMem 80 0 0 0) (PFam 0 0 0 0) 0 0
    (bitmap_new 32 None).
Definition one_node (nil a p : Z) : rb (T := Z) :=
  Rb {[ nil := RNode 0 Black nil nil nil; a := RNode p Black nil nil nil ]} nil a 1.
Definition clone_demo (e : frames) (f : Z) : @ps frames PageEnv.supply :=
  PS {[ 50 := cloner ]} (one_node 5 61 50) (one_node 7 60 50) (rb_new 6 (0, 0) 0) ∅ 50 5 true 0 2 1000 0
    {[ 80 := SDir 16 0 1 ]} 0 ∅ (vm_user e f) 100.

Lemma one_node_rep nil a p : nil <> a -> rep nil (one_node nil a p) [] (Node Black Leaf a p Leaf).
Proof.
  intros Hne. constructor; try reflexivity.
  - split; [|done]. unfold one_node. cbn [rb_nodes]. by rewrite lookup_insert_ne, lookup_singleton_eq.
  - cbn. repeat (apply NoDup_cons; split; [set_solver|]). constructor.
  - exists (RNode 0 Black nil nil nil). split; [apply lookup_insert_eq|reflexivity].
Qed.

Lemma clone_demo_inv e f : proc_inv (clone_demo e f) [(60, 50)] [(61, 50)].
Proof.
  assert (Hnodes : forall nil a x, x ∈ dom (rb_nodes (one_node nil a 50)) -> x = nil \/ x = a).
  { intros nil a x. unfold one_node. cbn [rb_nodes]. rewrite dom_insert_L, dom_singleton_L, elem_of_union, !elem_of_singleton. tauto. }
  assert (Hone : forall q y, procs (clone_demo e f) !! q = Some y -> q = 50 /\ y = cloner).
  { intros q y Hq. unfold clone_demo in Hq. cbn [procs] in Hq. by apply lookup_singleton_Some in Hq as [<- <-]. }
  constructor.
  - constructor.
    + intros p q x y [-> _]%Hone [-> _]%Hone _. reflexivity.
    + exists (Node Black Leaf 60 50 Leaf). split; [apply one_node_rep; lia|]. split; [reflexivity|]. split; [by repeat constructor|done].
    + reflexivity.
    + cbn. lia.
    + intros x Hx. destruct (Hnodes 7 60 x Hx) as [-> | ->]; cbn; lia.
  - exists (Node Black Leaf 61 50 Leaf). split; [apply one_node_rep; lia|]. split; [reflexivity|done].
  - intros x Hx. destruct (Hnodes 5 61 x Hx) as [-> | ->]; cbn; lia.
  - cbn. intros q [Hq|Hq]; apply list_elem_of_singleton in Hq as ->; lia.
  - intros q [x [-> _]%Hone]. cbn. lia.
  - intros q y [_ ->]%Hone. cbn. lia.
  - intros d [x Hd]. unfold clone_demo in Hd. cbn [sdirs] in Hd. apply lookup_singleton_Some in Hd as [<- _]. cbn. lia.
  - cbn. lia.
Qed.

