(* ===== verification/ProcEnv.v ===== *)
(** * Process states evaluated

    A small machine (no memory left to allocate, two or three processes) on
    which the results of ProcSpec.v and WaitSpec.v apply, and on which the
    system calls are run. *)

From S2P Require Import Prelude Dll Bitmap LinkedList RbTree RbTreeSpec RbSet MemLayout PageDir Memory Proc Sched ProcCalls ProcSpec WaitSpec.
From stdpp Require Import gmap list.
#[local] Open Scope Z_scope.

(** An allocator that never has a frame, and one whose every request halts. *)
#[export] Instance no_frames : FrameAlloc unit := {
  fa_alloc := ret 0; fa_free _ := ret tt; fa_inv _ _ := True;
  fa_alloc_ok e X _ := ex_intro _ 0 (ex_intro _ e (conj eq_refl (or_introl (conj eq_refl I))));
  fa_free_ok e X f _ _ := ex_intro _ e (conj eq_refl I) }.
#[export] Instance no_tables : TableAlloc unit := {
  ta_alloc := halt Panic; ta_free _ := ret tt; ta_inv _ _ := True;
  ta_alloc_ok k X _ := or_introl eq_refl;
  ta_free_ok k X v _ _ := ex_intro _ k (conj eq_refl I) }.

Definition vm0 : @vm unit unit := Vm tt tt ∅ ∅ 0 ∅.
(** The numbers of a common [signal.h]. *)
Definition sigs : signums := SigNums 9 20 11 [6; 14; 10; 8; 4; 2; 13; 23; 27; 3; 11; 12; 15; 5; 30; 31; 26; 24; 25].

Definition mk_proc (t vrun : Z) (st : status) (q : queue) (h : qhandle) (f : p_fam) : proc :=
  Proc (PId t t 0) (PSched st vrun 0 q h 0) (PCpu regs0 0 false true false) (PMem 80 0 0 0) f 0 42 (bitmap_new 32 None).
Definition fam0 : p_fam := PFam 0 0 0 0.

(** A run queue of the processes 50 and 51, in this order. *)
Definition queue2 : rb (T := Z) :=
  Rb {[ 7 := RNode 0 Black 7 7 7; 60 := RNode 50 Black 7 61 7; 61 := RNode 51 Red 7 7 60 ]} 7 60 2.

Definition demo (ps0 : gmap Z proc) (rq : rb (T := Z)) (cs : gmap Z (llist Z)) (cur minvt : Z) : @ps unit unit :=
  PS ps0 (rb_new 5 0 0) rq (rb_new 6 (0, 0) 0) cs cur minvt true 0 3 1000 0 {[ 80 := SDir 90 0 2 ]} 0 ∅ vm0 100.

Definition two : gmap Z proc :=
  {[ 50 := mk_proc 1 5 READY RUN_QUEUE (HNode 60) fam0; 51 := mk_proc 2 9 READY RUN_QUEUE (HNode 61) fam0 ]}.
Definition tree2 : @tree Z := Node Black Leaf 60 50 (Node Red Leaf 61 51 Leaf).

Lemma tids_small (m : gmap Z proc) :
  map_Forall (fun p x => map_Forall (fun q y => ptid x = ptid y -> p = q) m) m -> tids_unique m.
Proof. intros Hm p q x y Ex Ey. exact (Hm p x Ex q y Ey). Qed.

Lemma queue2_rep : rep 7 queue2 [] tree2.
Proof.
  constructor; try reflexivity.
  - repeat split; reflexivity.
  - cbn. repeat (apply NoDup_cons; split; [set_solver|]). constructor.
  - by exists (RNode 0 Black 7 7 7).
Qed.

Lemma demo_runq cs cur minvt : runq (demo two queue2 cs cur minvt) [(60, 50); (61, 51)].
Proof.
  constructor.
  - apply tids_small. apply (bool_decide_unpack _). vm_compute. exact I.
  - exists tree2. split; [exact queue2_rep|]. split; [done|]. split; [|done].
    cbn [sorted]. split; [|split; [constructor|done]]. repeat constructor.
  - done.
  - cbn. lia.
  - intros a. unfold demo, queue2. cbn [run_queue rb_nodes supply]. rewrite !dom_insert_L, dom_singleton_L, !elem_of_union, !elem_of_singleton. lia.
Qed.


(** Process 51 waits on the condition variable 9, process 50 is queued. *)
Definition one_waits : gmap Z proc :=
  {[ 50 := mk_proc 1 5 READY RUN_QUEUE (HNode 60) fam0;
     51 := mk_proc 2 9 WAITING EVENT_QUEUE (HIter 9 (LNode 70)) fam0 ]}.
Definition queue1 : rb (T := Z) := Rb {[ 7 := RNode 0 Black 7 7 7; 60 := RNode 50 Black 7 7 7 ]} 7 60 1.
Definition waiters : llist Z :=
  LList {[ LNil := Link (LNode 70) (LNode 70); LNode 70 := Link LNil LNil ]} {[ LNode 70 := 51 ]} 1.

Lemma one_runq : runq (demo one_waits queue1 {[ 9 := waiters ]} 0 5) [(60, 50)].
Proof.
  constructor.
  - apply tids_small. apply (bool_decide_unpack _). vm_compute. exact I.
  - exists (Node Black Leaf 60 50 Leaf). split; [|split; [done|split; [cbn; by repeat constructor|done]]].
    constructor; try reflexivity.
    + repeat split; reflexivity.
    + cbn. repeat (apply NoDup_cons; split; [set_solver|]). constructor.
    + by exists (RNode 0 Black 7 7 7).
  - done.
  - cbn. lia.
  - intros a. unfold demo, queue1. cbn [run_queue rb_nodes supply]. rewrite !dom_insert_L, dom_singleton_L, !elem_of_union, !elem_of_singleton. lia.
Qed.

Lemma one_waiting : waiting (demo one_waits queue1 {[ 9 := waiters ]} 0 5) 9 [(70, 51)].
Proof.
  constructor.
  - exists waiters. split; [reflexivity|]. split_and!.
    + split; [vm_compute; split_and!; reflexivity|]. apply NoDup_cons. split; [|apply NoDup_singleton].
      simpl. rewrite list_elem_of_singleton. done.
    + intros p Hp. apply list_elem_of_singleton in Hp as ->. reflexivity.
    + done.
    + cbn. lia.
  - intros a p Hp. apply list_elem_of_singleton in Hp. injection Hp as -> ->. eexists. split; [reflexivity|]. by split_and!.
  - apply NoDup_singleton.
Qed.

Lemma cond_wake_all_correct_witness :
  exists s' h, cond_wake 9 (-1) (demo one_waits queue1 {[ 9 := waiters ]} 0 5) = Ok (Val 0, s') /\
    procs s' !! 51 = Some (queued 5 h (mk_proc 2 9 WAITING EVENT_QUEUE (HIter 9 (LNode 70)) fam0)).
Proof.
  destruct (cond_wake_all_correct (demo one_waits queue1 {[ 9 := waiters ]} 0 5) 9 [(70, 51)] [(60, 50)]
              one_waiting one_runq) as (s' & Hrun & HA).
  { cbn. intros p Hp. apply list_elem_of_singleton in Hp as ->. rewrite list_elem_of_singleton. done. }
  { cbn. lia. }
  destruct HA as [_ _ HW _]. destruct (HW 51 (mk_proc 2 9 WAITING EVENT_QUEUE (HIter 9 (LNode 70)) fam0)) as [h Hh];
    [apply list_elem_of_singleton; reflexivity|reflexivity|].
  exists s', h. split; [exact Hrun|exact Hh].
Defined.

(** Process 50 has the children 53 (alive) and 52 (a zombie, exit status 42). *)
Definition with_children : gmap Z proc :=
  {[ 50 := mk_proc 1 5 RUNNING RUN_QUEUE (HNode 60) (PFam 0 53 0 0);
     53 := mk_proc 3 9 READY RUN_QUEUE (HNode 61) (PFam 50 0 52 0);
     52 := mk_proc 2 0 ZOMBIE NO_QUEUE HNull (PFam 50 0 0 53) ]}.

Lemma children_family : family with_children 50 [53; 52].
Proof.
  split; [by eexists|]. split.
  - cbn. split; [by eexists|]. split; [by eexists|done].
  - repeat (apply NoDup_cons; split; [set_solver|]). constructor.
Qed.


(** Process 50 was interrupted while waiting for any child. *)
Definition interrupted_wait : gmap Z proc :=
  {[ 50 := set_interrupted true (set_wait_pid (-1) (mk_proc 1 5 RUNNING RUN_QUEUE (HNode 60) fam0)) ]}.

Lemma waitpid_after_interrupt_halts_witness :
  exists s', waitpid_return 0 (-1) 4096 (demo interrupted_wait queue1 ∅ 50 5) = Ok (Err EINTR, s') /\
    waitpid sigs 0 (-1) 4096 0 regs0 s' = Stop Panic.
Proof.
  eapply (waitpid_after_interrupt_halts sigs 0 (demo interrupted_wait queue1 ∅ 50 5) 50 (-1) 4096 (-1) 4096 regs0); [|lia|lia].
  split; [reflexivity|]. split; [lia|]. eexists. split; [reflexivity|]. split; [reflexivity|cbn; lia].
Defined.

(** ** System calls evaluated *)

Definition running : gmap Z proc :=
  {[ 50 := mk_proc 1 5 RUNNING RUN_QUEUE (HNode 60) fam0; 51 := mk_proc 2 9 READY RUN_QUEUE (HNode 61) fam0 ]}.

(** [setnice] puts the process back into the run queue but does not say so
    in [cur_queue]; when the process then sleeps for a second, its entry stays
    behind, and the scheduler goes on running the sleeping process at once. *)
Theorem setnice_keeps_sleeper_running :
  exists s1 s2, setnice 1 (demo running queue2 ∅ 50 5) = Ok (Val 0, s1) /\
    nanosleep sigs 0 1000000000 regs0 s1 = Ok (inr (SRun 50 false), s2) /\
    rb_size (sleep_queue s2) = Ok (1, sleep_queue s2) /\ rb_size (run_queue s2) = Ok (2, run_queue s2).
Proof. do 2 eexists. split; [vm_compute; reflexivity|]. split; [vm_compute; reflexivity|]. vm_compute. auto. Qed.

(** The list of processes is ordered by run time and searched by thread id:
    process 51 (thread 2) is alive and in the list, and cannot be killed. *)
Definition reordered : gmap Z proc :=
  {[ 50 := mk_proc 3 0 READY NO_QUEUE HNull fam0; 51 := mk_proc 2 10 READY NO_QUEUE HNull fam0 ]}.
Theorem tkill_misses_live_process :
  exists s, (proc_insert 50;;; proc_insert 51) (demo reordered queue1 ∅ 0 0) = Ok (101, s) /\
    tkill 2 9 s = Ok (Err ESRCH, s).
Proof. eexists. split; [vm_compute; reflexivity|]. vm_compute. reflexivity. Qed.

(** [tkill] does not bound the signal number by the 32 bits of [signals]. *)
Theorem tkill_signal_out_of_bounds :
  exists s, proc_insert 50 (demo reordered queue1 ∅ 0 0) = Ok (100, s) /\ tkill 3 100 s = Stop Fault.
Proof. eexists. split; [vm_compute; reflexivity|]. vm_compute. reflexivity. Qed.

(** Two zombies, 3 before 2 in the list: a [waitpid(2)] that slept until 2
    exited reaps 3. *)
Definition two_zombies : gmap Z proc :=
  {[ 50 := set_wait_pid 2 (mk_proc 1 5 RUNNING RUN_QUEUE (HNode 60) (PFam 0 53 0 0));
     53 := mk_proc 3 0 ZOMBIE NO_QUEUE HNull (PFam 50 0 52 0);
     52 := mk_proc 2 0 ZOMBIE NO_QUEUE HNull (PFam 50 0 0 53) ]}.
Theorem waitpid_return_reaps_wrong_child :
  exists s, waitpid_return 0 2 4096 (demo two_zombies queue2 ∅ 50 5) = Ok (Val 3, s) /\
    procs s !! 53 = None /\ is_Some (procs s !! 52).
Proof. eexists. split; [vm_compute; reflexivity|]. vm_compute. eauto. Qed.
