(* ===== verification/Locks.v ===== *)
(** * Locks (kernel/include/lib/spinlock.h, mutex.h, semaphore.h)

    Each lock is a record; an operation runs to its end, to the point where it
    sleeps on a condition variable, or finds the spinlock taken and spins.  A
    condition variable appears as the list of processes waiting on it, which a
    [wake] empties (what [cond_wake] does to its list and to the processes is
    shown in ProcSpec.v); the order of that list plays no role here.  The processes that use a lock are a step relation:
    any process may call, run, be woken, be interrupted by a signal or resume
    at any time. *)

From S2P Require Import Prelude Proc.
From stdpp Require Import gmap list.
#[local] Open Scope Z_scope.

(** How far an operation gets. *)
Inductive progress : Type := Done (r : sysret) | Sleeps | Spins.

(** ** Spinlocks *)

(** [atomic_flag::test_and_set]: the old value; the flag is set. *)
Definition test_and_set (l : bool) : bool * bool := (l, true).
(** One round of [lock()]'s loop. *)
Definition spin_lock (l : bool) : progress * bool :=
  let (old, l') := test_and_set l in (if old then Spins else Done (Val 0), l').
Definition spin_try_lock (l : bool) : progress * bool :=
  let (old, l') := test_and_set l in (Done (if old then Err EBUSY else Val 0), l').
Definition spin_unlock (l : bool) : progress * bool := (Done (Val 0), false).
Definition spin_is_locked (l : bool) : bool * bool :=
  let (old, l') := test_and_set l in if old then (true, l') else (false, false).

(** ** Semaphores *)

(** [up] waits on [notmax] and wakes [notmin]; [down] the other way round. *)
Inductive semop : Type := Up | Down.

Record sem : Type := Sem {
  s_lock : bool; s_count : Z; s_max : Z; s_notmax : list Z; s_notmin : list Z }.

Definition sem_new (val maxval : Z) : sem := Sem false val maxval [] [].

Definition set_lock (b : bool) (s : sem) : sem := Sem b (s_count s) (s_max s) (s_notmax s) (s_notmin s).
Definition must_wait (k : semop) (s : sem) : bool :=
  match k with Up => s_max s <=? s_count s | Down => s_count s <=? 0 end.
Definition waiters (k : semop) (s : sem) : list Z := match k with Up => s_notmax s | Down => s_notmin s end.
(** count++; notmin.wake() or count--; notmax.wake() *)
Definition advance (k : semop) (s : sem) : sem :=
  match k with
  | Up => Sem (s_lock s) (u32 (s_count s + 1)) (s_max s) (s_notmax s) []
  | Down => Sem (s_lock s) (u32 (s_count s - 1)) (s_max s) [] (s_notmin s)
  end.
Definition add_waiter (k : semop) (t : Z) (s : sem) : sem :=
  match k with
  | Up => Sem (s_lock s) (s_count s) (s_max s) (t :: s_notmax s) (s_notmin s)
  | Down => Sem (s_lock s) (s_count s) (s_max s) (s_notmax s) (t :: s_notmin s)
  end.
Definition drop_waiter (k : semop) (t : Z) (s : sem) : sem :=
  match k with
  | Up => Sem (s_lock s) (s_count s) (s_max s) (filter (fun u => u <> t) (s_notmax s)) (s_notmin s)
  | Down => Sem (s_lock s) (s_count s) (s_max s) (s_notmax s) (filter (fun u => u <> t) (s_notmin s))
  end.

(** The loop of [up]/[down], the spinlock held: [wait] releases it. *)
Definition sem_loop (k : semop) (t : Z) (s : sem) : progress * sem :=
  if must_wait k s then (Sleeps, set_lock false (add_waiter k t s))
  else (Done (Val 0), set_lock false (advance k s)).
Definition sem_op (k : semop) (t : Z) (s : sem) : progress * sem :=
  if s_lock s then (Spins, s) else sem_loop k t (set_lock true s).
(** After the wait, which takes the spinlock again: an interrupted wait
    returns at once. *)
Definition sem_resume (k : semop) (t : Z) (interrupted : bool) (s : sem) : progress * sem :=
  if s_lock s then (Spins, s)
  else let s := set_lock true s in
       if interrupted then (Done (Err EINTR), s) else sem_loop k t s.
(** [try_up]/[try_down] *)
Definition sem_try (k : semop) (s : sem) : progress * sem :=
  if s_lock s then (Spins, s)
  else if must_wait k s then (Done (Err EBUSY), s)
  else (Done (Val 0), advance k s).

(** ** Mutexes *)

Record mutex : Type := Mutex { m_lock : bool; m_owner : Z; m_waiting : list Z }.
Definition mutex_new : mutex := Mutex false 0 [].

Definition mutex_loop (t : Z) (m : mutex) : progress * mutex :=
  if negb (m_owner m =? 0) then (Sleeps, Mutex false (m_owner m) (t :: m_waiting m))
  else (Done (Val 0), Mutex false t (m_waiting m)).
Definition mutex_lock (t : Z) (m : mutex) : progress * mutex :=
  if m_lock m then (Spins, m) else mutex_loop t (Mutex true (m_owner m) (m_waiting m)).
Definition mutex_resume (t : Z) (interrupted : bool) (m : mutex) : progress * mutex :=
  if m_lock m then (Spins, m)
  else let m := Mutex true (m_owner m) (m_waiting m) in
       if interrupted then (Done (Err EINTR), m) else mutex_loop t m.
Definition mutex_try_lock (t : Z) (m : mutex) : progress * mutex :=
  if m_lock m then (Spins, m)
  else if negb (m_owner m =? 0) then (Done (Err EBUSY), m)
  else (Done (Val 0), Mutex false t (m_waiting m)).
Definition mutex_unlock (t : Z) (m : mutex) : progress * mutex :=
  if m_lock m then (Spins, m)
  else if negb (m_owner m =? t) then (Done (Err EACCES), m)
  else (Done (Val 0), Mutex false 0 (m_waiting m)).

(** ** Semaphores under any interleaving *)

(** Where a process is: outside, at the start of an operation, asleep, or
    taken out of its sleep by a signal. *)
Inductive pc : Type := Out | At (k : semop) | Asleep (k : semop) | Signalled (k : semop).

(** The processes, with the number of completed operations and of operations
    that returned interrupted. *)
Record sconf : Type := SConf { c_sem : sem; c_pc : Z -> pc; c_ups : Z; c_downs : Z; c_intr : nat }.

Definition move (t : Z) (p : pc) (f : Z -> pc) : Z -> pc := fun u => if u =? t then p else f u.
Definition completed (k : semop) (s : sem) (f : Z -> pc) (c : sconf) : sconf :=
  match k with
  | Up => SConf s f (c_ups c + 1) (c_downs c) (c_intr c)
  | Down => SConf s f (c_ups c) (c_downs c + 1) (c_intr c)
  end.

(** What becomes of process [t] when its operation [k] got as far as [r]. *)
Inductive outcome_of (k : semop) (t : Z) (c : sconf) (s : sem) : progress -> sconf -> Prop :=
| o_done n : outcome_of k t c s (Done (Val n)) (completed k s (move t Out (c_pc c)) c)
| o_busy : outcome_of k t c s (Done (Err EBUSY)) (SConf s (move t Out (c_pc c)) (c_ups c) (c_downs c) (c_intr c))
| o_intr : outcome_of k t c s (Done (Err EINTR)) (SConf s (move t Out (c_pc c)) (c_ups c) (c_downs c) (S (c_intr c)))
| o_sleep : outcome_of k t c s Sleeps (SConf s (move t (Asleep k) (c_pc c)) (c_ups c) (c_downs c) (c_intr c)).

Inductive sstep (c : sconf) : sconf -> Prop :=
| s_call t k : c_pc c t = Out ->
    sstep c (SConf (c_sem c) (move t (At k) (c_pc c)) (c_ups c) (c_downs c) (c_intr c))
| s_run t k r s c' : c_pc c t = At k -> sem_op k t (c_sem c) = (r, s) -> outcome_of k t c s r c' -> sstep c c'
| s_try t k r s c' : c_pc c t = Out -> sem_try k (c_sem c) = (r, s) -> outcome_of k t c s r c' -> sstep c c'
| s_signal t k : c_pc c t = Asleep k -> t ∈ waiters k (c_sem c) ->
    sstep c (SConf (drop_waiter k t (c_sem c)) (move t (Signalled k) (c_pc c)) (c_ups c) (c_downs c) (c_intr c))
| s_woken t k r s c' : c_pc c t = Asleep k -> t ∉ waiters k (c_sem c) ->
    sem_resume k t false (c_sem c) = (r, s) -> outcome_of k t c s r c' -> sstep c c'
| s_interrupted t k r s c' : c_pc c t = Signalled k ->
    sem_resume k t true (c_sem c) = (r, s) -> outcome_of k t c s r c' -> sstep c c'.

Definition sem_init (val maxval : Z) : sconf := SConf (sem_new val maxval) (fun _ => Out) 0 0 0.

Inductive sreach (val maxval : Z) : sconf -> Prop :=
| sr_init : sreach val maxval (sem_init val maxval)
| sr_step c c' : sreach val maxval c -> sstep c c' -> sreach val maxval c'.

(** *** The invariant *)

Definition sem_ok (val maxval : Z) (c : sconf) : Prop :=
  let s := c_sem c in
  s_max s = maxval /\ 0 <= s_count s <= maxval /\
  s_count s = val + c_ups c - c_downs c /\
  (forall k, waiters k s <> [] -> must_wait k s = true) /\
  (s_lock s = false <-> c_intr c = 0%nat) /\ (c_intr c <= 1)%nat.

(** What an operation that finds the spinlock free leaves: [Done (Val _)] moves
    the counter by one, [Sleeps] and [EBUSY] leave it, and the spinlock is free
    again except after an interruption. *)
Definition sem_next (k : semop) (s : sem) (r : progress) (s' : sem) : Prop :=
  s_max s' = s_max s /\
  match r with
  | Done (Val _) =>
      must_wait k s = false /\ s_lock s' = false /\
      s_count s' = s_count s + match k with Up => 1 | Down => -1 end /\
      match k with
      | Up => s_notmax s' = s_notmax s /\ s_notmin s' = []
      | Down => s_notmin s' = s_notmin s /\ s_notmax s' = []
      end
  | Sleeps => s_lock s' = false /\ s_count s' = s_count s /\
      (forall j, waiters j s' <> [] -> waiters j s <> [] \/ (j = k /\ must_wait k s = true))
  | Done (Err e) => s_count s' = s_count s /\ (forall j, waiters j s' = waiters j s) /\
      (e = EBUSY /\ s_lock s' = false \/ e = EINTR /\ s_lock s' = true)
  | Spins => False
  end.

Lemma advance_count k s :
  0 <= s_count s <= s_max s -> s_max s < 2 ^ 32 -> must_wait k s = false ->
  s_count (advance k s) = s_count s + match k with Up => 1 | Down => -1 end.
Proof.
  destruct k; unfold must_wait; simpl; intros H Hm Hw; apply Z.leb_gt in Hw; rewrite u32_small; lia.
Qed.
Lemma sem_loop_next k t s :
  0 <= s_count s <= s_max s -> s_max s < 2 ^ 32 ->
  sem_next k s (fst (sem_loop k t (set_lock true s))) (snd (sem_loop k t (set_lock true s))).
Proof.
  intros H Hm. unfold sem_loop. replace (must_wait k (set_lock true s)) with (must_wait k s) by (destruct k; reflexivity).
  destruct (must_wait k s) eqn:Hw; simpl.
  - destruct k; split_and!; simpl; try reflexivity; intros [] Hj; simpl in *; auto.
  - pose proof (advance_count k s H Hm Hw) as Hc. destruct k; split_and!; simpl in *; auto.
Qed.
Lemma sem_op_next k t s r s' :
  0 <= s_count s <= s_max s -> s_max s < 2 ^ 32 -> s_lock s = false ->
  sem_op k t s = (r, s') -> sem_next k s r s'.
Proof.
  intros H Hm Hl. unfold sem_op. rewrite Hl. pose proof (sem_loop_next k t s H Hm) as Hn.
  destruct (sem_loop k t (set_lock true s)). intros [= <- <-]. exact Hn.
Qed.
Lemma sem_resume_next k t i s r s' :
  0 <= s_count s <= s_max s -> s_max s < 2 ^ 32 -> s_lock s = false ->
  sem_resume k t i s = (r, s') -> sem_next k s r s'.
Proof.
  intros H Hm Hl. unfold sem_resume. rewrite Hl. destruct i.
  - intros [= <- <-]. split_and!; simpl; auto.
  - pose proof (sem_loop_next k t s H Hm) as Hn.
    destruct (sem_loop k t (set_lock true s)). intros [= <- <-]. exact Hn.
Qed.
Lemma sem_try_next k s r s' :
  0 <= s_count s <= s_max s -> s_max s < 2 ^ 32 -> s_lock s = false ->
  sem_try k s = (r, s') -> sem_next k s r s'.
Proof.
  intros H Hm Hl. unfold sem_try. rewrite Hl. destruct (must_wait k s) eqn:Hw; intros [= <- <-].
  - split_and!; simpl; auto.
  - pose proof (advance_count k s H Hm Hw) as Hc. destruct k; split_and!; simpl in *; auto.
Qed.

Lemma sem_ok_next val maxval k t c r s' c' :
  maxval < 2 ^ 32 -> sem_ok val maxval c -> s_lock (c_sem c) = false ->
  sem_next k (c_sem c) r s' -> outcome_of k t c s' r c' -> sem_ok val maxval c'.
Proof.
  intros Hmax (Hm & Hc & Hsum & Hw & Hlock & Hi) Hl Hn Ho.
  assert (Hi0 : c_intr c = 0%nat) by (apply Hlock; exact Hl).
  destruct Ho as [n| | |]; destruct Hn as [Hm' Hn].
  - destruct Hn as (Hmw & Hl' & Hcnt & Hlists).
    assert (Hb : 0 <= s_count s' <= maxval)
      by (destruct k; unfold must_wait in Hmw; apply Z.leb_gt in Hmw; lia).
    assert (Hw' : forall j, waiters j s' <> [] -> must_wait j s' = true).
    { intros j Hj. destruct k, Hlists as [H1 H2], j; simpl in *; try congruence;
        rewrite H1 in Hj; [specialize (Hw Up Hj) | specialize (Hw Down Hj)]; simpl in Hw; congruence. }
    destruct k; unfold sem_ok; simpl; rewrite Hm', Hi0; split_and!; auto; try lia; tauto.
  - destruct Hn as (Hcnt & Hlists & [[_ Hl']|[? _]]); [|discriminate].
    unfold sem_ok; simpl; rewrite Hm', Hcnt, Hi0; split_and!; auto; try lia; try tauto.
    intros j Hj. rewrite Hlists in Hj. destruct j; simpl; rewrite Hcnt, ?Hm'; apply (Hw _ Hj).
  - destruct Hn as (Hcnt & Hlists & [[? _]|[_ Hl']]); [discriminate|].
    unfold sem_ok; simpl; rewrite Hm', Hcnt, Hi0, Hl'; split_and!; auto; try lia; try (intros; discriminate).
    intros j Hj. rewrite Hlists in Hj. destruct j; simpl; rewrite Hcnt, ?Hm'; apply (Hw _ Hj).
  - destruct Hn as (Hl' & Hcnt & Hlists).
    unfold sem_ok; simpl; rewrite Hm', Hcnt, Hi0; split_and!; auto; try lia; try tauto.
    intros j Hj. destruct (Hlists j Hj) as [Hj'|[-> Hk]].
    + destruct j; simpl; rewrite Hcnt, ?Hm'; apply (Hw _ Hj').
    + destruct k; simpl; rewrite Hcnt, ?Hm'; exact Hk.
Qed.

(** With the spinlock taken every operation spins. *)
Lemma locked_spins k t i s :
  s_lock s = true -> sem_op k t s = (Spins, s) /\ sem_resume k t i s = (Spins, s) /\ sem_try k s = (Spins, s).
Proof. intros Hl. unfold sem_op, sem_resume, sem_try. rewrite Hl. auto. Qed.
Lemma spinning_stays k t c s c' : outcome_of k t c s Spins c' -> False.
Proof. inversion 1. Qed.

Lemma drop_waiter_empty k j t s : waiters j (drop_waiter k t s) <> [] -> waiters j s <> [].
Proof. destruct k, j; simpl; auto; intros H E; apply H; rewrite E; reflexivity. Qed.

(** Running any operation keeps the invariant. *)
Lemma sem_ok_run val maxval k t c r s c' :
  maxval < 2 ^ 32 -> sem_ok val maxval c ->
  (exists t', sem_op k t' (c_sem c) = (r, s)) \/ sem_try k (c_sem c) = (r, s) \/
    (exists t' i, sem_resume k t' i (c_sem c) = (r, s)) ->
  outcome_of k t c s r c' -> sem_ok val maxval c'.
Proof.
  intros Hmax Hok He Ho. pose proof Hok as (Hm & Hc & _).
  destruct (s_lock (c_sem c)) eqn:Hl.
  - exfalso. destruct (locked_spins k 0 false _ Hl) as (_ & _ & E).
    assert (r = Spins) as ->; [|exact (spinning_stays _ _ _ _ _ Ho)].
    destruct He as [[t' He]|[He|(t' & i & He)]]; [|congruence|];
      pose proof (locked_spins k t' true _ Hl); [|destruct i; pose proof (locked_spins k t' false _ Hl)];
      naive_solver congruence.
  - rewrite <- Hm in Hmax. eapply sem_ok_next; [rewrite <- Hm; exact Hmax|exact Hok|exact Hl| |exact Ho].
    rewrite <- Hm in Hc.
    destruct He as [[t' He]|[He|(t' & i & He)]];
      [eapply sem_op_next|eapply sem_try_next|eapply sem_resume_next]; eauto.
Qed.

Lemma sem_ok_step val maxval c c' : maxval < 2 ^ 32 -> sem_ok val maxval c -> sstep c c' -> sem_ok val maxval c'.
Proof.
  intros Hmax Hok Hstep.
  destruct Hstep as [t k Hp|t k r s c' Hp He Ho|t k r s c' Hp He Ho|t k Hp Hw|t k r s c' Hp Hnw He Ho|t k r s c' Hp He Ho].
  - exact Hok.
  - eapply sem_ok_run; eauto.
  - eapply sem_ok_run; eauto.
  - pose proof Hok as (Hm & Hc & Hsum & Hws & Hlock & Hi).
    unfold sem_ok; split_and!; simpl; auto; try (destruct k; simpl; auto; lia); intros j Hj;
      apply drop_waiter_empty in Hj; specialize (Hws j Hj); destruct k, j; exact Hws.
  - eapply sem_ok_run; eauto 6.
  - eapply sem_ok_run; eauto 6.
Qed.

Lemma sem_reach_ok val maxval c : 0 <= val <= maxval -> maxval < 2 ^ 32 -> sreach val maxval c -> sem_ok val maxval c.
Proof.
  intros Hv Hmax Hr. induction Hr as [|c c' Hr IH Hs]; [|eapply sem_ok_step; eauto].
  unfold sem_ok; simpl; split_and!; try lia; try (intros []; simpl; congruence); tauto.
Qed.


(** A run of a binary semaphore: process 1 takes it, process 2 sleeps, process
    1 releases it, process 2 takes it. *)
Definition sem_run1 : sconf := completed Down (Sem false 0 1 [] []) (move 1 Out (move 1 (At Down) (fun _ => Out))) (sem_init 1 1).
Lemma sem_run1_reach : sreach 1 1 sem_run1.
Proof.
  eapply sr_step; [eapply sr_step; [apply sr_init|apply (s_call _ 1 Down); reflexivity]|].
  eapply (s_run _ 1 Down (Done (Val 0))); [reflexivity|reflexivity|].
  exact (o_done Down 1 (SConf (sem_new 1 1) (move 1 (At Down) (fun _ => Out)) 0 0 0) (Sem false 0 1 [] []) 0).
Qed.
Definition sem_run2 : sconf :=
  SConf (Sem false 0 1 [] [2]) (move 2 (Asleep Down) (move 2 (At Down) (c_pc sem_run1))) 0 1 0.
Lemma sem_run2_reach : sreach 1 1 sem_run2.
Proof.
  eapply sr_step; [eapply sr_step; [apply sem_run1_reach|apply (s_call _ 2 Down); reflexivity]|].
  eapply (s_run _ 2 Down Sleeps); [reflexivity|reflexivity|].
  exact (o_sleep Down 2 (SConf (Sem false 0 1 [] []) (move 2 (At Down) (c_pc sem_run1)) 0 1 0) (Sem false 0 1 [] [2])).
Qed.


(** *** An interrupted operation *)

Lemma stuck_step c c' : s_lock (c_sem c) = true -> sstep c c' ->
  s_lock (c_sem c') = true /\ c_ups c' = c_ups c /\ c_downs c' = c_downs c /\ c_intr c' = c_intr c /\
  s_count (c_sem c') = s_count (c_sem c).
Proof.
  intros Hl Hstep.
  destruct Hstep as [t k Hp|t k r s c' Hp He Ho|t k r s c' Hp He Ho|t k Hp Hw|t k r s c' Hp Hnw He Ho|t k r s c' Hp He Ho].
  1: auto.
  3: destruct k; simpl; auto.
  all: exfalso.
  all: destruct (locked_spins k t false _ Hl) as (E1 & E2 & E3); destruct (locked_spins k t true _ Hl) as (_ & E4 & _).
  all: assert (r = Spins) as -> by congruence; exact (spinning_stays _ _ _ _ _ Ho).
Qed.

(** C39: [up] and [down] return with the spinlock still held when a signal
    interrupts their wait: from then on no operation on the semaphore, by any
    process, ever completes or returns. *)
Theorem interrupted_semaphore_stuck (val maxval : Z) (c c' : sconf) :
  0 <= val <= maxval -> maxval < 2 ^ 32 -> sreach val maxval c -> c_intr c <> 0%nat -> rtc sstep c c' ->
  c_ups c' = c_ups c /\ c_downs c' = c_downs c /\ c_intr c' = c_intr c /\ s_count (c_sem c') = s_count (c_sem c) /\
  (forall k t i, fst (sem_op k t (c_sem c')) = Spins /\ fst (sem_resume k t i (c_sem c')) = Spins /\
                 fst (sem_try k (c_sem c')) = Spins).
Proof.
  intros Hv Hm Hr Hi Hs.
  assert (Hl : s_lock (c_sem c) = true).
  { destruct (sem_reach_ok val maxval c Hv Hm Hr) as (_ & _ & _ & _ & [Hf _] & _).
    destruct (s_lock (c_sem c)); [reflexivity|]. exfalso. apply Hi, Hf. reflexivity. }
  clear Hr Hi. induction Hs as [c|c1 c2 c3 Hs1 Hs IH].
  - split_and!; auto. intros k t i. destruct (locked_spins k t i _ Hl) as (-> & -> & ->). auto.
  - destruct (stuck_step _ _ Hl Hs1) as (Hl' & E1 & E2 & E3 & E4). rewrite <- E1, <- E2, <- E3, <- E4. auto.
Qed.

(** From the run above: process 2 is signalled and returns [EINTR]. *)
Definition sem_run3 : sconf :=
  SConf (Sem true 0 1 [] []) (move 2 Out (move 2 (Signalled Down) (c_pc sem_run2))) 0 1 1.
Lemma sem_run3_reach : sreach 1 1 sem_run3.
Proof.
  eapply sr_step; [eapply sr_step; [apply sem_run2_reach|apply (s_signal _ 2 Down); [reflexivity|left]]|].
  eapply (s_interrupted _ 2 Down (Done (Err EINTR))); [reflexivity|reflexivity|].
  exact (o_intr Down 2 (SConf (Sem false 0 1 [] []) (move 2 (Signalled Down) (c_pc sem_run2)) 0 1 0) (Sem true 0 1 [] [])).
Qed.
(** Process 1 then tries to release the semaphore. *)
Definition sem_run4 : sconf := SConf (Sem true 0 1 [] []) (move 1 (At Up) (c_pc sem_run3)) 0 1 1.
Lemma interrupted_semaphore_stuck_witness :
  rtc sstep sem_run3 sem_run4 /\ fst (sem_op Up 1 (c_sem sem_run4)) = Spins.
Proof.
  assert (Hs : rtc sstep sem_run3 sem_run4)
    by (eapply rtc_l; [apply (s_call _ 1 Up); reflexivity|apply rtc_refl]).
  split; [exact Hs|].
  pose proof (interrupted_semaphore_stuck 1 1 sem_run3 sem_run4 ltac:(lia) ltac:(lia) sem_run3_reach
                ltac:(simpl; lia) Hs) as (_ & _ & _ & _ & Hst).
  exact (proj1 (Hst Up 1 false)).
Defined.

(** ** Mutexes under any interleaving *)

(** Where a process is with respect to the mutex; [MHolds] after a [lock] or
    [try_lock] that returned zero and before a successful [unlock]. *)
Inductive mpc : Type := MOut | MAt | MAsleep | MSignalled | MHolds.
Record mconf : Type := MConf { mc_mutex : mutex; mc_pc : Z -> mpc }.

Definition mmove (t : Z) (p : mpc) (m : mutex) (c : mconf) : mconf :=
  MConf m (fun u => if u =? t then p else mc_pc c u).

(** The result of a [lock] or [try_lock] of process [t]. *)
Definition locked_pc (r : progress) : option mpc :=
  match r with
  | Done (Val _) => Some MHolds
  | Done (Err _) => Some MOut
  | Sleeps => Some MAsleep
  | Spins => None
  end.

(** Tids are non-zero (a null [lockproc] is the free mutex).  [mstep c t b c']:
    process [t] takes a step ([false]) or is signalled ([true]). *)
Inductive mstep (c : mconf) (t : Z) : bool -> mconf -> Prop :=
| ms_call : mc_pc c t = MOut -> mstep c t false (mmove t MAt (mc_mutex c) c)
| ms_run r m p : mc_pc c t = MAt -> mutex_lock t (mc_mutex c) = (r, m) -> locked_pc r = Some p ->
    mstep c t false (mmove t p m c)
| ms_try r m p : mc_pc c t = MOut -> mutex_try_lock t (mc_mutex c) = (r, m) -> locked_pc r = Some p ->
    mstep c t false (mmove t p m c)
| ms_unlock m : mc_pc c t = MHolds -> mutex_unlock t (mc_mutex c) = (Done (Val 0), m) ->
    mstep c t false (mmove t MOut m c)
| ms_unlock_foreign e m : mc_pc c t = MOut -> mutex_unlock t (mc_mutex c) = (Done (Err e), m) ->
    mstep c t false (mmove t MOut m c)
| ms_signal : mc_pc c t = MAsleep ->
    mstep c t true (mmove t MSignalled
      (Mutex (m_lock (mc_mutex c)) (m_owner (mc_mutex c)) (filter (fun u => u <> t) (m_waiting (mc_mutex c)))) c)
| ms_woken r m p : mc_pc c t = MAsleep -> t ∉ m_waiting (mc_mutex c) ->
    mutex_resume t false (mc_mutex c) = (r, m) -> locked_pc r = Some p ->
    mstep c t false (mmove t p m c)
| ms_interrupted r m p : mc_pc c t = MSignalled ->
    mutex_resume t true (mc_mutex c) = (r, m) -> locked_pc r = Some p ->
    mstep c t false (mmove t p m c).

Definition mutex_init : mconf := MConf mutex_new (fun _ => MOut).

(** An execution, the set of signalled processes an index. *)
Inductive mexec : mconf -> list Z -> mconf -> Prop :=
| me_refl c : mexec c [] c
| me_step c c1 c2 t sig : t <> 0 -> mexec c sig c1 -> mstep c1 t false c2 -> mexec c sig c2
| me_signal c c1 c2 t sig : t <> 0 -> mexec c sig c1 -> mstep c1 t true c2 -> mexec c (t :: sig) c2.

(** The owner field names exactly the process that holds the mutex, and every
    sleeper is on the wait list. *)
Definition mutex_ok (c : mconf) : Prop :=
  (forall t, t <> 0 -> (mc_pc c t = MHolds <-> m_owner (mc_mutex c) = t)) /\
  (forall t, mc_pc c t = MAsleep -> t ∈ m_waiting (mc_mutex c)).

(** What [lock] does, first or after its wait. *)
Definition mutex_next (t : Z) (m : mutex) (p : mpc) (m' : mutex) : Prop :=
  match p with
  | MHolds => m_owner m = 0 /\ m_owner m' = t /\ m_waiting m' = m_waiting m
  | MAsleep => m_owner m' = m_owner m /\ m_waiting m' = t :: m_waiting m
  | MOut => m_owner m' = m_owner m /\ m_waiting m' = m_waiting m
  | _ => False
  end.

Lemma mutex_loop_next t m r m' p :
  mutex_loop t m = (r, m') -> locked_pc r = Some p -> mutex_next t m p m'.
Proof.
  unfold mutex_loop. destruct (Z.eqb_spec (m_owner m) 0) as [E|E]; simpl; intros [= <- <-] [= <-]; simpl; auto.
Qed.
Lemma mutex_lock_next t m r m' p :
  mutex_lock t m = (r, m') -> locked_pc r = Some p -> mutex_next t m p m'.
Proof.
  unfold mutex_lock. destruct (m_lock m); [intros [= <- <-]; discriminate|].
  intros H Hp. exact (mutex_loop_next _ _ _ _ _ H Hp).
Qed.
Lemma mutex_resume_next t i m r m' p :
  mutex_resume t i m = (r, m') -> locked_pc r = Some p -> mutex_next t m p m'.
Proof.
  unfold mutex_resume. destruct (m_lock m); [intros [= <- <-]; discriminate|]. destruct i.
  - intros [= <- <-] [= <-]. simpl. auto.
  - intros H Hp. exact (mutex_loop_next _ _ _ _ _ H Hp).
Qed.
Lemma mutex_try_next t m r m' p :
  mutex_try_lock t m = (r, m') -> locked_pc r = Some p -> mutex_next t m p m'.
Proof.
  unfold mutex_try_lock. destruct (m_lock m); [intros [= <- <-]; discriminate|].
  destruct (Z.eqb_spec (m_owner m) 0) as [E|E]; simpl; intros [= <- <-] [= <-]; simpl; auto.
Qed.
Lemma mutex_unlock_next t m r m' :
  mutex_unlock t m = (r, m') ->
  m_waiting m' = m_waiting m /\
  match r with
  | Done (Val _) => m_owner m = t /\ m_owner m' = 0
  | _ => m_owner m' = m_owner m
  end.
Proof.
  unfold mutex_unlock. destruct (m_lock m); [intros [= <- <-]; auto|].
  destruct (Z.eqb_spec (m_owner m) t) as [E|E]; simpl; intros [= <- <-]; simpl; auto.
Qed.

Lemma mutex_ok_next c t p m :
  t <> 0 -> mutex_ok c -> mc_pc c t <> MHolds -> mutex_next t (mc_mutex c) p m -> mutex_ok (mmove t p m c).
Proof.
  intros Ht [Ho Hw] Hp Hn. pose proof (Ho t Ht) as Hot.
  split; intros u; simpl; destruct (Z.eqb_spec u t) as [->|Hu].
  - intros _. destruct p; simpl in Hn; try contradiction.
    + destruct Hn as [-> _]. rewrite <- Hot. split; congruence.
    + destruct Hn as [-> _]. rewrite <- Hot. split; congruence.
    + destruct Hn as (_ & -> & _). tauto.
  - intros Hu0. rewrite (Ho u Hu0). destruct p; simpl in Hn; try contradiction.
    + destruct Hn as [-> _]. reflexivity.
    + destruct Hn as [-> _]. reflexivity.
    + destruct Hn as (-> & -> & _). split; congruence.
  - intros ->. destruct Hn as [_ ->]. left.
  - intros Hu'. apply Hw in Hu'. destruct p; simpl in Hn; try contradiction.
    + destruct Hn as [_ ->]. exact Hu'.
    + destruct Hn as [_ ->]. right. exact Hu'.
    + destruct Hn as (_ & _ & ->). exact Hu'.
Qed.

Lemma mutex_ok_step c t b c' : t <> 0 -> mutex_ok c -> mstep c t b c' -> mutex_ok c'.
Proof.
  intros Ht Hok Hs. pose proof Hok as [Ho Hw]. destruct Hs as
    [Hp|r m p Hp He Hr|r m p Hp He Hr|m Hp He|e m Hp He|Hp|r m p Hp Hn He Hr|r m p Hp He Hr].
  - split; intros u; simpl; destruct (Z.eqb_spec u t) as [->|Hu]; auto; [|discriminate].
    intros _. rewrite <- (Ho t Ht). split; congruence.
  - apply mutex_ok_next; auto; [congruence|]. eapply mutex_lock_next; eauto.
  - apply mutex_ok_next; auto; [congruence|]. eapply mutex_try_next; eauto.
  - apply mutex_unlock_next in He as (Hwt & Hot & Hm). split; intros u; simpl; rewrite ?Hm, ?Hwt;
      destruct (Z.eqb_spec u t) as [->|Hu]; auto; intros Hu0; [split; congruence| |discriminate].
    rewrite (Ho u Hu0). split; congruence.
  - apply mutex_unlock_next in He as (Hwt & Hm). apply mutex_ok_next; auto; [congruence|]. simpl. auto.
  - split; intros u; simpl; destruct (Z.eqb_spec u t) as [->|Hu]; auto; [|discriminate|].
    + intros _. rewrite <- (Ho t Ht). split; congruence.
    + intros Hu'. apply list_elem_of_filter. auto.
  - exfalso. exact (Hn (Hw _ Hp)).
  - apply mutex_ok_next; auto; [congruence|]. eapply mutex_resume_next; eauto.
Qed.
Lemma mutex_ok_exec c sig c' : mutex_ok c -> mexec c sig c' -> mutex_ok c'.
Proof. intros Hok He. induction He; eauto using mutex_ok_step. Qed.
Lemma mutex_init_ok : mutex_ok mutex_init.
Proof. split; simpl; [|discriminate]. intros t Ht. split; congruence. Qed.


(** [unlock] wakes nobody: a process that went to sleep in [lock] sleeps
    on until it is signalled, however often the mutex is released. *)
Theorem mutex_sleeper_never_woken (sig0 sig : list Z) (c c' : mconf) (t : Z) :
  mexec mutex_init sig0 c -> t <> 0 -> mc_pc c t = MAsleep -> mexec c sig c' -> t ∉ sig -> mc_pc c' t = MAsleep.
Proof.
  intros H0 Ht Hp He. assert (Hok := mutex_ok_exec _ _ _ mutex_init_ok H0). clear H0.
  induction He as [c|c c1 c2 u sig Hu He IH Hs|c c1 c2 u sig Hu He IH Hs]; intros Hsig; [exact Hp| |].
  - specialize (IH Hp Hok Hsig). destruct (decide (u = t)) as [->|Hut].
    + destruct (mutex_ok_exec _ _ _ Hok He) as [_ Hw]. specialize (Hw _ IH). inversion Hs; congruence.
    + inversion Hs; subst; simpl; destruct (Z.eqb_spec t u) as [->|]; congruence.
  - apply not_elem_of_cons in Hsig as [Hut Hsig]. specialize (IH Hp Hok Hsig).
    inversion Hs; subst; simpl; destruct (Z.eqb_spec t u) as [->|]; congruence.
Qed.

(** Process 1 locks, process 2 sleeps, process 1 unlocks. *)
Definition mx1 : mconf := mmove 1 MHolds (Mutex false 1 []) mutex_init.
Definition mx2 : mconf := mmove 2 MAsleep (Mutex false 1 [2]) (mmove 2 MAt (Mutex false 1 []) mx1).
Definition mx3 : mconf := mmove 1 MOut (Mutex false 0 [2]) mx2.
Lemma mx1_exec : mexec mutex_init [] mx1.
Proof. eapply (me_step _ _ _ 1); [lia|apply me_refl|]. eapply ms_try; reflexivity. Qed.
Lemma mx2_exec : mexec mutex_init [] mx2.
Proof.
  eapply (me_step _ _ _ 2); [lia|eapply (me_step _ _ _ 2); [lia|apply mx1_exec|apply ms_call; reflexivity]|].
  eapply ms_run; reflexivity.
Qed.
Lemma mx3_exec : mexec mx2 [] mx3.
Proof. eapply (me_step _ _ _ 1); [lia|apply me_refl|]. eapply ms_unlock; reflexivity. Qed.

Lemma mutex_sleeper_never_woken_witness : m_owner (mc_mutex mx3) = 0 /\ mc_pc mx3 2 = MAsleep.
Proof.
  split; [reflexivity|].
  apply (mutex_sleeper_never_woken [] [] mx2 mx3 2 mx2_exec); [lia|reflexivity|exact mx3_exec|apply not_elem_of_nil].
Defined.
