(* ===== verification/Fs.v ===== *)
(** * The file system tree (kernel/include/fs.h, kernel/fs/vfs.cpp, devfs.cpp)

    Nodes and superblocks are records in a store, their addresses the
    [shared_ptr]s (0 is null); the lists of children and bind points are
    sequences in list order (what [linked_list] implements, LinkedList.v).
    Paths are C strings in memory.  [node::get] recurses through bind points;
    its fuel is the depth of that recursion. *)

From Stdlib Require Import Ascii String.
From S2P Require Import Prelude StringLib Proc.
From stdpp Require Import gmap list.
#[local] Open Scope Z_scope.

Definition MAX_NAME_LEN : nat := 256.

Record inode : Type := Inode { ino : Z; i_uid : Z; i_gid : Z; i_size : Z; i_mode : Z; i_dirty : bool }.

(** Which overrides of [open] a node has, and of [read] and [write] a file. *)
Inductive dev : Type := Plain | Tty.

Record node : Type := Node {
  nd_ind : option inode;
  nd_parent : Z;               (** [weak_ptr] *)
  nd_name : list Z;
  nd_binds : list Z;
  nd_children : list Z;
  nd_dev : dev
}.

Record superblock : Type := Superblock { sb_size : Z; sb_type : list Z; sb_mode : Z; sb_root : Z }.

(** The file mode numbers of the C library's [sys/stat.h]. *)
Record statnums : Type := StatNums { S_IFMT : Z; S_IFDIR : Z; S_IFCHR : Z; S_IFREG : Z; S_IFBLK : Z; S_IFLNK : Z }.

Record tree : Type := Tree { t_nodes : gmap Z node; t_sbs : gmap Z superblock }.

(** Characters, and the bytes of a string literal. *)
Definition SLASH : Z := 47.
Definition DOT : Z := 46.
Definition bytes (s : string) : list Z := (fun c => Z.of_nat (nat_of_ascii c)) <$> list_ascii_of_string s.
(** A string literal in memory. *)
Fixpoint lit (a : Z) (l : list Z) : gmap Z Z :=
  match l with [] => {[ a := 0 ]} | c :: r => <[a := c]> (lit (u32 (a + 1)) r) end.
Definition LIT : Z := 4096.
Lemma lit_cstr a l :
  forallb (fun c => (0 <? c) && (c <? 256)) l = true -> 0 <= a -> a + Z.of_nat (length l) < 2 ^ 32 -> cstr (lit a l) a l.
Proof.
  revert a. induction l as [|c r IH]; intros a Hl Ha Hr; cbn [forallb lit cstr length] in *; [by simplify_map_eq|].
  apply andb_true_iff in Hl as [Hc Hl]. split; [by simplify_map_eq|]. split; [lia|].
  rewrite (u32_small (a + 1)) by lia. apply cstr_insert_below; [lia|lia|lia|]. apply IH; [exact Hl|lia|lia].
Qed.

Section tree.
Variable sn : statnums.

Definition s_is (kind : statnums -> Z) (mode : Z) : bool := Z.land mode (S_IFMT sn) =? kind sn.

Definition is_dir (x : node) : bool :=
  match nd_ind x with Some i => s_is S_IFDIR (i_mode i) | None => false end.

(** ** [node::get] *)

(** The child whose name is [name]; null children and children without inode
    are passed over. *)
Fixpoint get_child (t : tree) (l : list Z) (name : list Z) : outcome Z :=
  match l with
  | [] => Ok 0
  | c :: r =>
    if c =? 0 then get_child t r name
    else match t_nodes t !! c with
         | None => Stop Fault
         | Some x => if bool_decide (is_Some (nd_ind x) /\ nd_name x = name) then Ok c else get_child t r name
         end
  end.

(** The first bind point that knows [name], then the children. *)
Fixpoint get_bind (f : Z -> outcome Z) (t : tree) (l : list Z) (rest : outcome Z) : outcome Z :=
  match l with
  | [] => rest
  | b :: r =>
    match t_sbs t !! b with
    | None => Stop Fault
    | Some sb =>
      match f (sb_root sb) with
      | Ok n => if n =? 0 then get_bind f t r rest else Ok n
      | Stop e => Stop e
      end
    end
  end.

Fixpoint node_get (fuel : nat) (t : tree) (nd : Z) (name : list Z) : outcome Z :=
  match fuel with
  | O => Stop Fuel
  | S k =>
    match t_nodes t !! nd with
    | None => Stop Fault
    | Some x =>
      if negb (is_dir x) then Ok 0
      else get_bind (fun n => node_get k t n name) t (nd_binds x) (get_child t (nd_children x) name)
    end
  end.
(** A chain of distinct superblocks is no longer than the number of them. *)
Definition get_fuel (t : tree) : nat := S (size (t_sbs t)).

(** [parent.lock()] *)
Definition get_parent (t : tree) (nd : Z) : outcome Z :=
  match t_nodes t !! nd with
  | None => Stop Fault
  | Some x => Ok (if bool_decide (is_Some (t_nodes t !! nd_parent x)) then nd_parent x else 0)
  end.

(** ** [node::walk] *)

(** The inner loop: [n] characters still fit [buf].  The result is the name,
    the rest of the path, and whether the name was cut off. *)
Fixpoint scan_name (n : nat) (m : gmap Z Z) (path : Z) (buf : list Z) : outcome (list Z * Z * bool) :=
  match m !! path with
  | None => Stop Fault
  | Some c =>
    if (c =? 0) || (c =? SLASH) then Ok (buf, path, false)
    else match n with
         | O => Ok (buf, path, true)
         | S k => scan_name k m (u32 (path + 1)) (buf ++ [c])
         end
  end.

Definition enter (t : tree) (nd : Z) (name : list Z) : outcome Z :=
  if decide (name = [DOT; DOT]) then get_parent t nd else node_get (get_fuel t) t nd name.

Fixpoint walk_loop (fuel : nat) (t : tree) (m : gmap Z Z) (path nd : Z) : outcome Z :=
  match fuel with
  | O => Stop Fuel
  | S k =>
    match m !! path with
    | None => Stop Fault
    | Some c =>
      if c =? 0 then Ok nd
      else
        let path := if c =? SLASH then u32 (path + 1) else path in
        match scan_name MAX_NAME_LEN m path [] with
        | Stop e => Stop e
        | Ok (buf, path, cut) =>
          if cut : bool then Ok 0
          else if bool_decide (buf = [] \/ buf = [DOT]) then walk_loop k t m path nd
          else match enter t nd buf with
               | Stop e => Stop e
               | Ok n => if n =? 0 then Ok 0 else walk_loop k t m path n
               end
        end
    end
  end.
(** [path] is null, or the address of a string. *)
Definition walk (fuel : nat) (t : tree) (m : gmap Z Z) (path nd : Z) : outcome Z :=
  if path =? 0 then Ok 0 else walk_loop fuel t m path nd.

(** [superblock::get] and [superblock::walk] *)
Definition sb_get (t : tree) (b : Z) (name : list Z) : outcome Z :=
  match t_sbs t !! b with Some sb => node_get (get_fuel t) t (sb_root sb) name | None => Stop Fault end.
Definition sb_walk (fuel : nat) (t : tree) (m : gmap Z Z) (path b : Z) : outcome Z :=
  match t_sbs t !! b with Some sb => walk fuel t m path (sb_root sb) | None => Stop Fault end.

(** ** What a path means

    The components of a path are its non-empty parts between slashes. *)

Definition emit (cur : list Z) (l : list (list Z)) : list (list Z) := match cur with [] => l | _ => cur :: l end.
Fixpoint comps (cur l : list Z) : list (list Z) :=
  match l with
  | [] => emit cur []
  | c :: r => if c =? SLASH then emit cur (comps [] r) else comps (cur ++ [c]) r
  end.

(** Entering the components one after the other. *)
Fixpoint resolve (t : tree) (nd : Z) (l : list (list Z)) : outcome Z :=
  match l with
  | [] => Ok nd
  | w :: r =>
    if (MAX_NAME_LEN <? length w)%nat then Ok 0
    else if decide (w = [DOT]) then resolve t nd r
    else match enter t nd w with
         | Stop e => Stop e
         | Ok n => if n =? 0 then Ok 0 else resolve t n r
         end
  end.

(** A string splits into its first part and a rest that is empty or starts
    with a slash. *)
Fixpoint first_part (l : list Z) : list Z :=
  match l with [] => [] | c :: r => if c =? SLASH then [] else c :: first_part r end.
Fixpoint after_part (l : list Z) : list Z :=
  match l with [] => [] | c :: r => if c =? SLASH then l else after_part r end.

Lemma comps_parts cur l : comps cur l = emit (cur ++ first_part l) (comps [] (after_part l)).
Proof.
  revert cur. induction l as [|c r IH]; intros cur; simpl.
  - rewrite app_nil_r. by destruct cur.
  - destruct (Z.eqb_spec c SLASH) as [->|Hc].
    + rewrite app_nil_r. destruct cur; reflexivity.
    + rewrite IH. by rewrite <- app_assoc.
Qed.
Lemma after_part_le l : (length (after_part l) <= length l)%nat.
Proof. induction l as [|c r IH]; simpl; [lia|]. destruct (c =? SLASH); simpl; lia. Qed.
Lemma after_part_lt c r : c <> SLASH -> (length (after_part (c :: r)) <= length r)%nat.
Proof. intros Hc. simpl. destruct (Z.eqb_spec c SLASH); [done|]. apply after_part_le. Qed.

(** The inner loop reads the first part, if it fits. *)
Lemma scan_name_spec n m p l buf :
  cstr m p l ->
  exists p', (length (first_part l) <= n)%nat /\ scan_name n m p buf = Ok (buf ++ first_part l, p', false) /\
               cstr m p' (after_part l)
    \/ (n < length (first_part l))%nat /\ exists b, scan_name n m p buf = Ok (b, p', true).
Proof.
  revert p l buf. induction n as [|k IH]; intros p l buf Hl.
  - destruct l as [|c r]; cbn [cstr first_part after_part] in *; unfold scan_name.
    + rewrite Hl. exists p. left. rewrite app_nil_r. cbn. auto.
    + destruct Hl as (Hc & Hr & Hl). rewrite Hc. destruct (Z.eqb_spec c 0); [lia|]. cbn [orb].
      destruct (Z.eqb_spec c SLASH) as [->|Hs].
      * exists p. left. rewrite app_nil_r. cbn. split_and!; auto; lia.
      * exists p. right. cbn. split; [lia|]. eauto.
  - destruct l as [|c r]; cbn [cstr first_part after_part] in *; cbn [scan_name].
    + rewrite Hl. exists p. left. rewrite app_nil_r. cbn. split_and!; auto; lia.
    + destruct Hl as (Hc & Hr & Hl). rewrite Hc. destruct (Z.eqb_spec c 0); [lia|]. cbn [orb].
      destruct (Z.eqb_spec c SLASH) as [->|Hs].
      * exists p. left. rewrite app_nil_r. cbn. split_and!; auto; lia.
      * destruct (IH (u32 (p + 1)) r (buf ++ [c]) Hl) as (p' & [(Hn & E & Hp)|(Hn & b & E)]); exists p'.
        -- left. rewrite <- app_assoc in E. cbn [length]. split_and!; auto; lia.
        -- right. cbn [length]. split; [lia|]. eauto.
Qed.

Lemma resolve_emit t nd w l :
  resolve t nd (emit w l) =
    (if (MAX_NAME_LEN <? length w)%nat then Ok 0
     else if bool_decide (w = [] \/ w = [DOT]) then resolve t nd l
     else match enter t nd w with
          | Stop e => Stop e
          | Ok n => if n =? 0 then Ok 0 else resolve t n l
          end).
Proof.
  destruct w as [|c w].
  - destruct (Nat.ltb_spec MAX_NAME_LEN (length (@nil Z))) as [H|_]; [unfold MAX_NAME_LEN in H; cbn in H; lia|].
    rewrite bool_decide_true by auto. reflexivity.
  - cbn [emit resolve]. destruct (MAX_NAME_LEN <? length (c :: w))%nat; [reflexivity|].
    destruct (decide (c :: w = [DOT])) as [E|E].
    + rewrite bool_decide_true by auto. reflexivity.
    + rewrite bool_decide_false by (intros [?|?]; congruence). reflexivity.
Qed.

Lemma walk_loop_resolve fuel t m l p nd :
  cstr m p l -> (length l < fuel)%nat -> walk_loop fuel t m p nd = resolve t nd (comps [] l).
Proof.
  revert l p nd. induction fuel as [|k IH]; intros l p nd Hl Hf; [lia|].
  cbn [walk_loop]. destruct l as [|c r]; cbn [cstr] in Hl.
  { rewrite Hl. reflexivity. }
  destruct Hl as (Hc & Hr & Hl). rewrite Hc. destruct (Z.eqb_spec c 0); [lia|]. cbv zeta.
  assert (exists p1 l1, (if c =? SLASH then u32 (p + 1) else p) = p1 /\ cstr m p1 l1 /\
            comps [] (c :: r) = comps [] l1 /\ (length (after_part l1) <= length r)%nat)
    as (p1 & l1 & -> & Hl1 & -> & Hlen).
  { destruct (Z.eqb_spec c SLASH) as [->|Hs].
    - exists (u32 (p + 1)), r. split_and!; auto using after_part_le.
    - exists p, (c :: r). split_and!; auto; [cbn [cstr]; auto|]. by apply after_part_lt. }
  rewrite (comps_parts [] l1), resolve_emit. cbn [app length] in *.
  destruct (scan_name_spec MAX_NAME_LEN m p1 l1 [] Hl1) as (p' & [(Hn & -> & Hp)|(Hn & b & ->)]).
  - destruct (Nat.ltb_spec MAX_NAME_LEN (length (first_part l1))); [lia|]. cbn [app].
    assert (IH' : forall n, walk_loop k t m p' n = resolve t n (comps [] (after_part l1)))
      by (intros; apply IH; [exact Hp|lia]).
    case_bool_decide; [apply IH'|]. destruct (enter t nd (first_part l1)) as [n1|]; [|reflexivity].
    destruct (n1 =? 0); [reflexivity|apply IH'].
  - destruct (Nat.ltb_spec MAX_NAME_LEN (length (first_part l1))); [reflexivity|lia].
Qed.

(** C25: [walk] is the reference meaning of a path: it terminates on every
    C string within one round per character, and enters exactly the non-empty
    components between slashes from left to right, where [.] stays, [..] goes
    to the parent, anything else is looked up, and a component of more than
    [MAX_NAME_LEN] characters or one that is not found ends with null. *)
Theorem walk_resolves (t : tree) (m : gmap Z Z) (path nd : Z) (l : list Z) (fuel : nat) :
  path <> 0 -> cstr m path l -> (length l < fuel)%nat -> walk fuel t m path nd = resolve t nd (comps [] l).
Proof.
  intros Hp Hl Hf. unfold walk. destruct (Z.eqb_spec path 0); [done|]. by apply walk_loop_resolve.
Qed.

(** ** A well-formed tree

    No dangling pointers, and bind points that lead to ever smaller ranks, so
    that the recursion of [get] ends. *)

Record tree_ok (rank : Z -> nat) (t : tree) : Prop := {
  to_child : forall n x c, t_nodes t !! n = Some x -> c ∈ nd_children x -> c = 0 \/ is_Some (t_nodes t !! c);
  to_bind : forall n x b, t_nodes t !! n = Some x -> b ∈ nd_binds x ->
    exists sb, t_sbs t !! b = Some sb /\ is_Some (t_nodes t !! sb_root sb) /\ (rank (sb_root sb) < rank n)%nat;
  to_rank : forall n, (rank n <= size (t_sbs t))%nat }.

(** A pointer to a node, or null. *)
Definition node_or_null (t : tree) (r : outcome Z) : Prop :=
  exists n, r = Ok n /\ (n = 0 \/ is_Some (t_nodes t !! n)).

Lemma get_child_total t l name :
  (forall c, c ∈ l -> c = 0 \/ is_Some (t_nodes t !! c)) -> node_or_null t (get_child t l name).
Proof.
  induction l as [|c r IH]; intros Hl; cbn [get_child]; [exists 0; auto|].
  assert (Hr : node_or_null t (get_child t r name)) by (apply IH; intros; apply Hl; by right).
  destruct (Z.eqb_spec c 0) as [->|Hc]; [exact Hr|].
  destruct (Hl c ltac:(left)) as [->|[x Hx]]; [done|]. rewrite Hx.
  case_bool_decide; [exists c; rewrite Hx; eauto|exact Hr].
Qed.
Lemma get_bind_total f t l rest :
  (forall b, b ∈ l -> exists sb, t_sbs t !! b = Some sb /\ node_or_null t (f (sb_root sb))) ->
  node_or_null t rest -> node_or_null t (get_bind f t l rest).
Proof.
  intros Hl Hrest. induction l as [|b r IH]; cbn [get_bind]; [exact Hrest|].
  destruct (Hl b ltac:(left)) as (sb & -> & n & -> & Hn).
  destruct (Z.eqb_spec n 0); [apply IH; intros; apply Hl; by right|]. exists n. auto.
Qed.
Lemma node_get_total rank t fuel nd name :
  tree_ok rank t -> is_Some (t_nodes t !! nd) -> (rank nd < fuel)%nat -> node_or_null t (node_get fuel t nd name).
Proof.
  intros Hok. revert nd. induction fuel as [|k IH]; intros nd [x Hx] Hf; [lia|].
  cbn [node_get]. rewrite Hx. destruct (negb (is_dir x)); [exists 0; auto|].
  apply get_bind_total.
  - intros b Hb. destruct (to_bind _ _ Hok nd x b Hx Hb) as (sb & Hs & Hn & Hlt).
    exists sb. split; [exact Hs|]. apply IH; [exact Hn|lia].
  - apply get_child_total. intros c Hc. exact (to_child _ _ Hok nd x c Hx Hc).
Qed.
Lemma enter_total rank t nd w :
  tree_ok rank t -> is_Some (t_nodes t !! nd) -> node_or_null t (enter t nd w).
Proof.
  intros Hok Hnd. unfold enter. destruct (decide (w = [DOT; DOT])).
  - unfold get_parent. destruct Hnd as [x ->]. case_bool_decide; eexists; eauto.
  - apply (node_get_total rank); auto. unfold get_fuel. pose proof (to_rank _ _ Hok nd). lia.
Qed.
Lemma resolve_total rank t nd l :
  tree_ok rank t -> is_Some (t_nodes t !! nd) -> node_or_null t (resolve t nd l).
Proof.
  intros Hok. revert nd. induction l as [|w r IH]; intros nd Hnd; cbn [resolve]; [exists nd; auto|].
  destruct (_ <? _)%nat; [exists 0; auto|]. destruct (decide (w = [DOT])); [auto|].
  destruct (enter_total rank t nd w Hok Hnd) as (n1 & -> & Hn).
  destruct (Z.eqb_spec n1 0); [exists 0; auto|]. apply IH. naive_solver.
Qed.

(** C26: On a well-formed tree [walk] always returns: it neither faults nor
    recurses for ever, whatever the path, and what it returns is null or a
    node of the tree. *)
Theorem walk_total (rank : Z -> nat) (t : tree) (m : gmap Z Z) (path nd : Z) (l : list Z) (fuel : nat) :
  tree_ok rank t -> is_Some (t_nodes t !! nd) -> cstr m path l -> (length l < fuel)%nat ->
  exists n, walk fuel t m path nd = Ok n /\ (n = 0 \/ is_Some (t_nodes t !! n)).
Proof.
  intros Hok Hnd Hl Hf. unfold walk. destruct (path =? 0); [eauto|].
  rewrite (walk_loop_resolve fuel t m l path nd Hl Hf). exact (resolve_total rank t nd _ Hok Hnd).
Qed.

(** ** Building the tree *)

Definition upd_node (n : Z) (f : node -> node) (t : tree) : tree :=
  Tree (alter f n (t_nodes t)) (t_sbs t).
Definition add_child (nd child : Z) (t : tree) : outcome tree :=
  if child =? 0 then Stop Panic
  else Ok (upd_node nd (fun x => Node (nd_ind x) (nd_parent x) (nd_name x) (nd_binds x) (nd_children x ++ [child]) (nd_dev x))
            (upd_node child (fun x => Node (nd_ind x) nd (nd_name x) (nd_binds x) (nd_children x) (nd_dev x)) t)).
(** [bind] through the pointer that [walk] returned. *)
Definition bind_sb (nd b : Z) (t : tree) : outcome tree :=
  match t_nodes t !! nd with
  | None => Stop Fault
  | Some _ => Ok (upd_node nd (fun x => Node (nd_ind x) (nd_parent x) (nd_name x) (nd_binds x ++ [b]) (nd_children x) (nd_dev x)) t)
  end.

Definition dir_inode (n : Z) : inode := Inode n 0 0 0 (Z.lor (S_IFDIR sn) 511) false.
Definition new_node (i : inode) (name : string) (d : dev) : node := Node (Some i) 0 (bytes name) [] [] d.

(** [fs::init]: [root_sb] is the static superblock, [root] and [devn] the
    addresses of the new nodes. *)
Definition fs_init (root_sb root devn : Z) : outcome tree :=
  add_child root devn
    (Tree (<[root := new_node (dir_inode 0) "root" Plain]> {[ devn := new_node (dir_inode 1) "dev" Plain ]})
          {[ root_sb := Superblock 0 (bytes "vfs_root") (Z.lor (S_IFDIR sn) 511) root ]}).

(** [fs::devfs::init] *)
Definition tty_inode : inode := Inode 1 0 0 0 (Z.lor (S_IFCHR sn) 384) false.
Definition devfs_init (root_sb devfs_sb root_nd tty_nd : Z) (t : tree) : outcome tree :=
  let t := Tree (<[root_nd := new_node (dir_inode 0) "dev" Plain]>
                 (<[tty_nd := new_node tty_inode "tty" Tty]> (t_nodes t))) (t_sbs t) in
  match add_child root_nd tty_nd t with
  | Stop e => Stop e
  | Ok t =>
    let t := Tree (t_nodes t)
                  (<[devfs_sb := Superblock 0 (bytes "devfs") (Z.lor (S_IFDIR sn) 511) root_nd]> (t_sbs t)) in
    match sb_walk 5 t (lit LIT (bytes "/dev")) LIT root_sb with
    | Stop e => Stop e
    | Ok n => bind_sb n devfs_sb t
    end
  end.

Definition boot_fs (root_sb root devn devfs_sb root_nd tty_nd : Z) : outcome tree :=
  match fs_init root_sb root devn with
  | Stop e => Stop e
  | Ok t => devfs_init root_sb devfs_sb root_nd tty_nd t
  end.

(** ** The tree after start-up *)

(** What the header [sys/stat.h] promises of its numbers. *)
Record stat_ok : Prop := {
  so_dir : Z.land (Z.lor (S_IFDIR sn) 511) (S_IFMT sn) = S_IFDIR sn;
  so_chr : Z.land (Z.lor (S_IFCHR sn) 384) (S_IFMT sn) = S_IFCHR sn;
  so_distinct : NoDup [S_IFCHR sn; S_IFDIR sn; S_IFREG sn; S_IFBLK sn; S_IFLNK sn] }.

Section boot.
Variables root_sb root devn devfs_sb root_nd tty_nd : Z.
Hypothesis Hsn : stat_ok.
Hypothesis Hnodes : NoDup [0; root; devn; root_nd; tty_nd].
Hypothesis Hsbs : root_sb <> devfs_sb.

Definition boot_tree : tree :=
  Tree (<[root := Node (Some (dir_inode 0)) 0 (bytes "root") [] [devn] Plain]>
        (<[devn := Node (Some (dir_inode 1)) root (bytes "dev") [devfs_sb] [] Plain]>
         (<[root_nd := Node (Some (dir_inode 0)) 0 (bytes "dev") [] [tty_nd] Plain]>
          {[ tty_nd := Node (Some tty_inode) root_nd (bytes "tty") [] [] Tty ]})))
       (<[root_sb := Superblock 0 (bytes "vfs_root") (Z.lor (S_IFDIR sn) 511) root]>
        {[ devfs_sb := Superblock 0 (bytes "devfs") (Z.lor (S_IFDIR sn) 511) root_nd ]}).

Lemma distinct_nodes :
  root <> 0 /\ devn <> 0 /\ root_nd <> 0 /\ tty_nd <> 0 /\ root <> devn /\ root <> root_nd /\ root <> tty_nd /\
  devn <> root_nd /\ devn <> tty_nd /\ root_nd <> tty_nd.
Proof.
  revert Hnodes. rewrite !NoDup_cons, !not_elem_of_cons. intros H. decompose [and] H. clear H. split_and!; auto.
Qed.

Lemma dir_mode i n b c d : is_dir (Node (Some (dir_inode i)) n b c d Plain) = true.
Proof. unfold is_dir, s_is; simpl. rewrite (so_dir Hsn). apply Z.eqb_refl. Qed.
Lemma tty_mode n b c d : is_dir (Node (Some tty_inode) n b c d Tty) = false.
Proof.
  unfold is_dir, s_is; simpl. rewrite (so_chr Hsn). apply Z.eqb_neq. intros E.
  pose proof (so_distinct Hsn) as Hd. rewrite NoDup_cons, E in Hd. apply Hd. left.
Qed.

Lemma map_ext4 {A} (m1 m2 : gmap Z A) a b c d :
  m1 !! a = m2 !! a -> m1 !! b = m2 !! b -> m1 !! c = m2 !! c -> m1 !! d = m2 !! d ->
  (forall k, k <> a -> k <> b -> k <> c -> k <> d -> m1 !! k = m2 !! k) -> m1 = m2.
Proof.
  intros Ha Hb Hc Hd Hk. apply map_eq. intros k.
  destruct (decide (k = a)) as [->|]; [done|]. destruct (decide (k = b)) as [->|]; [done|].
  destruct (decide (k = c)) as [->|]; [done|]. destruct (decide (k = d)) as [->|]; [done|]. by apply Hk.
Qed.

Lemma boot_fs_eq : boot_fs root_sb root devn devfs_sb root_nd tty_nd = Ok boot_tree.
Proof.
  destruct distinct_nodes as (H1 & H2 & H3 & H4 & H5 & H6 & H7 & H8 & H9 & H10).
  unfold boot_fs, fs_init, add_child. rewrite (proj2 (Z.eqb_neq devn 0) H2).
  unfold devfs_init, add_child. rewrite (proj2 (Z.eqb_neq tty_nd 0) H4).
  set (t := Tree _ (<[devfs_sb := _]> _)).
  assert (Hroot : t_nodes t !! root = Some (Node (Some (dir_inode 0)) 0 (bytes "root") [] [devn] Plain)).
  { subst t. simpl. simplify_map_eq. reflexivity. }
  assert (Hdev : t_nodes t !! devn = Some (Node (Some (dir_inode 1)) root (bytes "dev") [] [] Plain)).
  { subst t. simpl. simplify_map_eq. reflexivity. }
  assert (E : sb_walk 5 t (lit LIT (bytes "/dev")) LIT root_sb = Ok devn).
  { unfold sb_walk. replace (t_sbs t !! root_sb) with (Some (Superblock 0 (bytes "vfs_root") (Z.lor (S_IFDIR sn) 511) root))
      by (subst t; simpl; by simplify_map_eq).
    unfold walk. cbn [sb_root]. change (LIT =? 0) with false. cbv iota.
    rewrite (walk_loop_resolve 5 t _ (bytes "/dev") LIT root (lit_cstr LIT (bytes "/dev") eq_refl ltac:(easy) ltac:(easy)) ltac:(simpl; lia)).
    change (comps [] (bytes "/dev")) with [bytes "dev"]. cbn [resolve].
    change (MAX_NAME_LEN <? length (bytes "dev"))%nat with false. cbv iota.
    rewrite decide_False by (vm_compute; congruence). unfold enter. rewrite decide_False by (vm_compute; congruence).
    unfold get_fuel. cbn [node_get]. rewrite Hroot, dir_mode. cbn [negb nd_binds nd_children get_bind get_child].
    rewrite (proj2 (Z.eqb_neq devn 0) H2), Hdev. rewrite bool_decide_true by (split; [eexists|]; reflexivity).
    by rewrite (proj2 (Z.eqb_neq devn 0) H2). }
  cbn [sb_root]. rewrite E. unfold bind_sb. rewrite Hdev. f_equal. unfold upd_node, boot_tree. f_equal.
  - apply (map_ext4 _ _ root devn root_nd tty_nd); subst t; simpl; simplify_map_eq; try reflexivity.
    intros k K1 K2 K3 K4. by simplify_map_eq.
  - subst t. simpl. apply insert_insert_ne. auto.
Qed.

Definition boot_rank (n : Z) : nat := if n =? devn then 1 else 0.

Lemma boot_tree_ok : tree_ok boot_rank boot_tree.
Proof.
  destruct distinct_nodes as (H1 & H2 & H3 & H4 & H5 & H6 & H7 & H8 & H9 & H10).
  split.
  - intros n x c Hx Hc. right. revert Hx. simpl. rewrite !lookup_insert_Some, lookup_singleton_Some.
    intros Hx. decompose [or and] Hx; clear Hx; subst; simpl in Hc; try (by apply elem_of_nil in Hc);
      apply list_elem_of_singleton in Hc as ->; simplify_map_eq; eauto.
  - intros n x b Hx Hb. revert Hx. simpl. rewrite !lookup_insert_Some, lookup_singleton_Some.
    intros Hx. decompose [or and] Hx; clear Hx; subst; simpl in Hb; try (by apply elem_of_nil in Hb).
    apply list_elem_of_singleton in Hb as ->. eexists. split; [by simplify_map_eq|]. simpl. split.
    + simplify_map_eq; eauto.
    + unfold boot_rank. rewrite Z.eqb_refl, (proj2 (Z.eqb_neq root_nd devn)); auto.
  - intros n. simpl. rewrite map_size_insert_None by (by simplify_map_eq). rewrite map_size_singleton.
    unfold boot_rank. destruct (n =? devn); lia.
Qed.

Lemma boot_walk_tty : sb_walk 9 boot_tree (lit LIT (bytes "/dev/tty")) LIT root_sb = Ok tty_nd.
Proof.
  destruct distinct_nodes as (H1 & H2 & H3 & H4 & H5 & H6 & H7 & H8 & H9 & H10).
  unfold sb_walk. simpl (t_sbs boot_tree). rewrite lookup_insert_eq. unfold walk. cbn [sb_root]. change (LIT =? 0) with false. cbv iota.
  rewrite (walk_loop_resolve 9 boot_tree _ (bytes "/dev/tty") LIT root
             (lit_cstr LIT (bytes "/dev/tty") eq_refl ltac:(easy) ltac:(easy)) ltac:(simpl; lia)).
  change (comps [] (bytes "/dev/tty")) with [bytes "dev"; bytes "tty"]. cbn [resolve].
  change (MAX_NAME_LEN <? length (bytes "dev"))%nat with false.
  change (MAX_NAME_LEN <? length (bytes "tty"))%nat with false. cbv iota.
  rewrite !decide_False by (vm_compute; congruence). unfold enter. rewrite !decide_False by (vm_compute; congruence).
  assert (G1 : node_get (get_fuel boot_tree) boot_tree root (bytes "dev") = Ok devn).
  { unfold get_fuel. cbn [node_get]. simpl (t_nodes boot_tree). rewrite lookup_insert_eq, dir_mode.
    cbn [negb nd_binds nd_children get_bind get_child]. rewrite (proj2 (Z.eqb_neq devn 0) H2). simpl (t_nodes boot_tree).
    rewrite lookup_insert_ne, lookup_insert_eq by auto. by rewrite bool_decide_true by (split; [eexists|]; reflexivity). }
  rewrite G1, (proj2 (Z.eqb_neq devn 0) H2).
  assert (G2 : forall k, node_get (S (S k)) boot_tree devn (bytes "tty") = Ok tty_nd).
  { intros k. cbn [node_get]. simpl (t_nodes boot_tree). rewrite lookup_insert_ne, lookup_insert_eq, dir_mode by auto.
    cbn [negb nd_binds nd_children get_bind]. simpl (t_sbs boot_tree). rewrite lookup_insert_ne, lookup_singleton_eq by auto.
    cbn [sb_root node_get]. simpl (t_nodes boot_tree). do 2 rewrite lookup_insert_ne by auto. rewrite lookup_insert_eq, dir_mode.
    cbn [negb nd_binds nd_children get_bind get_child]. rewrite (proj2 (Z.eqb_neq tty_nd 0) H4). simpl (t_nodes boot_tree).
    do 3 rewrite lookup_insert_ne by auto. rewrite lookup_singleton_eq.
    rewrite bool_decide_true by (split; [eexists|]; reflexivity). by rewrite (proj2 (Z.eqb_neq tty_nd 0) H4). }
  replace (get_fuel boot_tree) with 3%nat.
  - rewrite !decide_False by (vm_compute; congruence). by rewrite G2, (proj2 (Z.eqb_neq tty_nd 0) H4).
  - unfold get_fuel. simpl. rewrite map_size_insert_None by (by simplify_map_eq). by rewrite map_size_singleton.
Qed.

(** Start-up builds a well-formed tree in which [/dev/tty] is the terminal:
    [fs::init] and [devfs::init] neither fault nor halt, and the walk that every
    new descriptor table makes finds the tty node through the bind point. *)
Theorem boot_fs_correct :
  exists t, boot_fs root_sb root devn devfs_sb root_nd tty_nd = Ok t /\ tree_ok boot_rank t /\
    sb_walk 9 t (lit LIT (bytes "/dev/tty")) LIT root_sb = Ok tty_nd /\
    (exists x, t_nodes t !! tty_nd = Some x /\ nd_dev x = Tty /\ is_dir x = false).
Proof.
  exists boot_tree. rewrite boot_fs_eq. split; [reflexivity|]. split; [apply boot_tree_ok|].
  split; [apply boot_walk_tty|]. exists (Node (Some tty_inode) root_nd (bytes "tty") [] [] Tty).
  destruct distinct_nodes as (H1 & H2 & H3 & H4 & H5 & H6 & H7 & H8 & H9 & H10).
  split; [simpl; by simplify_map_eq|]. split; [reflexivity|apply tty_mode].
Qed.
End boot.
End tree.

(** ** Witnesses: the numbers of the usual headers *)

Definition posix_stat : statnums := StatNums 61440 16384 8192 32768 24576 40960.
Lemma posix_stat_ok : stat_ok posix_stat.
Proof. split; try reflexivity. apply (bool_decide_unpack _). vm_compute. exact I. Qed.
Lemma nodes5 : NoDup [0; 10; 11; 12; 13].
Proof. apply (bool_decide_unpack _). vm_compute. exact I. Qed.

Lemma boot_fs_correct_witness :
  exists t, boot_fs posix_stat 1 10 11 2 12 13 = Ok t /\ sb_walk posix_stat 9 t (lit LIT (bytes "/dev/tty")) LIT 1 = Ok 13.
Proof.
  destruct (boot_fs_correct posix_stat 1 10 11 2 12 13 posix_stat_ok nodes5 ltac:(lia)) as (t & E & _ & W & _).
  exists t. split; [exact E|exact W].
Defined.

(** A path with repeated slashes, dots and a step back. *)
Definition odd_path : list Z := bytes "//dev/./../dev//tty/".
Lemma walk_resolves_witness :
  comps [] odd_path = [bytes "dev"; bytes "."; bytes ".."; bytes "dev"; bytes "tty"] /\
  walk posix_stat 30 (boot_tree posix_stat 1 10 11 2 12 13) (lit LIT odd_path) LIT 10 = Ok 13.
Proof.
  split; [reflexivity|].
  rewrite (walk_resolves posix_stat (boot_tree posix_stat 1 10 11 2 12 13) (lit LIT odd_path) LIT 10 odd_path 30
             ltac:(easy) (lit_cstr LIT odd_path eq_refl ltac:(easy) ltac:(easy)) ltac:(simpl; lia)).
  vm_compute. reflexivity.
Defined.
Lemma walk_total_witness :
  exists n, walk posix_stat 30 (boot_tree posix_stat 1 10 11 2 12 13) (lit LIT odd_path) LIT 10 = Ok n /\
    (n = 0 \/ is_Some (t_nodes (boot_tree posix_stat 1 10 11 2 12 13) !! n)).
Proof.
  apply (walk_total posix_stat (boot_rank 11) (boot_tree posix_stat 1 10 11 2 12 13) (lit LIT odd_path) LIT 10 odd_path 30);
    [apply boot_tree_ok; [exact nodes5|lia]|vm_compute; eauto|
     exact (lit_cstr LIT odd_path eq_refl ltac:(easy) ltac:(easy))|simpl; lia].
Defined.
