(* ===== verification/FsCalls.v ===== *)
(** * File descriptors and the file system calls
      (kernel/fs/syscall.cpp, devfs.cpp, kernel/include/fs.h, proc.h)

    The state is the tree, the open [file] objects with their reference counts,
    the descriptor table of the running process (a [vector] of [shared_ptr]s,
    0 the empty one, as Vector.v models it), user memory, and the terminal: the
    characters [keyboard::getch] will return and those [console::put] was given. *)

From Stdlib Require Import Ascii String.
From S2P Require Import Prelude StringLib Vector UserPtr Proc Fs.
From stdpp Require Import gmap list.
#[local] Open Scope Z_scope.

Definition PROC_MAX_FDS : Z := 1024.

Record file : Type := File { f_nd : Z; f_oflags : Z; f_mode : Z; f_pos : Z; f_dev : dev; f_refs : nat }.
Record fdtab : Type := FdTab { next_fd : Z; fds : Vector.vec (T := Z) }.

(** The numbers of the C library's [fcntl.h] and [unistd.h]. *)
Record filenums : Type := FileNums {
  O_ACCMODE : Z; O_RDONLY : Z; O_WRONLY : Z; O_RDWR : Z; SEEK_SET : Z; SEEK_CUR : Z; SEEK_END : Z }.

Record fss : Type := Fss {
  fs_tree : tree; fs_files : gmap Z file; fs_tab : option fdtab; fs_mem : gmap Z Z;
  fs_kbd : nat; fs_out : list Z; fs_new : Z }.

Definition with_files x s := Fss (fs_tree s) x (fs_tab s) (fs_mem s) (fs_kbd s) (fs_out s) (fs_new s).
Definition with_tab x s := Fss (fs_tree s) (fs_files s) x (fs_mem s) (fs_kbd s) (fs_out s) (fs_new s).
Definition with_umem x s := Fss (fs_tree s) (fs_files s) (fs_tab s) x (fs_kbd s) (fs_out s) (fs_new s).
Definition with_kbd x s := Fss (fs_tree s) (fs_files s) (fs_tab s) (fs_mem s) x (fs_out s) (fs_new s).
Definition with_out x s := Fss (fs_tree s) (fs_files s) (fs_tab s) (fs_mem s) (fs_kbd s) x (fs_new s).
Definition with_new x s := Fss (fs_tree s) (fs_files s) (fs_tab s) (fs_mem s) (fs_kbd s) (fs_out s) x.

Definition lift {S A} (o : outcome A) : M S A := fun s => match o with Ok a => Ok (a, s) | Stop e => Stop e end.

Section calls.
Variable sn : statnums.
Variable fn : filenums.
(** The page table entries of the current directory (UserPtr.v). *)
Variable page_entry : Z -> option Z.
(** The characters [getch] returns, one after the other. *)
Variable input : nat -> Z.
(** [sizeof(std::shared_ptr)] and [sizeof(off_t)]. *)
Variable ptr_size : Z.
Variable off_w : nat.
(** The superblock of the process's root and a bound for the length of paths. *)
Variable root_sb : Z.
Variable walk_fuel : nat.

(** ** Files *)

Definition get_file (f : Z) : M fss file := s <-- get;; deref (fs_files s !! f).
Definition upd_file (f : Z) (g : file -> file) : M fss unit :=
  x <-- get_file f;; s <-- get;; put (with_files (<[f := g x]> (fs_files s)) s).
Definition set_refs (n : nat) (x : file) : file := File (f_nd x) (f_oflags x) (f_mode x) (f_pos x) (f_dev x) n.
Definition set_pos (p : Z) (x : file) : file := File (f_nd x) (f_oflags x) (f_mode x) p (f_dev x) (f_refs x).
Definition set_oflags (o : Z) (x : file) : file := File (f_nd x) o (f_mode x) (f_pos x) (f_dev x) (f_refs x).

(** A [shared_ptr] gives up the file; the last one destroys it. *)
Definition file_release (f : Z) : M fss unit :=
  x <-- get_file f;; s <-- get;;
  put (with_files (if (f_refs x <=? 1)%nat then delete f (fs_files s)
                   else <[f := set_refs (pred (f_refs x)) x]> (fs_files s)) s).

(** [nd->open(fp)]: only the tty overrides it. *)
Definition node_open (nd : Z) (refs : nat) : M fss sysret :=
  s <-- get;; x <-- deref (t_nodes (fs_tree s) !! nd);;
  match nd_dev x with
  | Plain => ret (Err ENOSYS)
  | Tty =>
    let f := fs_new s in
    put (with_new (f + 1)
          (with_files (<[f := File nd 0 (Z.lor (S_IFCHR sn) 384) 0 Tty refs]> (fs_files s)) s));;;
    ret (Val f)
  end.

(** [file::is_pipe] and [file::seek] *)
Definition is_pipe (f : Z) : M fss bool :=
  x <-- get_file f;; s <-- get;; nd <-- deref (t_nodes (fs_tree s) !! f_nd x);; i <-- deref (nd_ind nd);;
  ret (negb (s_is sn S_IFREG (i_mode i)) && negb (s_is sn S_IFBLK (i_mode i)) && negb (s_is sn S_IFLNK (i_mode i))).
Definition seek (f newpos : Z) : M fss sysret :=
  b <-- is_pipe f;;
  if (b : bool) then ret (Err ESPIPE) else upd_file f (set_pos newpos);;; ret (Val 0).

(** ** The terminal (devfs.cpp) *)

Definition getch : M fss Z := s <-- get;; put (with_kbd (S (fs_kbd s)) s);;; ret (input (fs_kbd s)).
Definition con_put (c : Z) : M fss unit := modify (fun s => with_out (fs_out s ++ [c]) s).
Definition ustore (a c : Z) : M fss unit :=
  s <-- get;; _ <-- deref (fs_mem s !! a);; put (with_umem (<[a := c]> (fs_mem s)) s).
Definition uload (a : Z) : M fss Z := s <-- get;; deref (fs_mem s !! a).

(** [n] characters still fit the buffer, [tot] were read. *)
Fixpoint tty_read_loop (n : nat) (buf tot : Z) : M fss Z :=
  match n with
  | O => ret tot
  | S k =>
    ch <-- getch;;
    if ch =? 10 then ret tot else ustore buf ch;;; tty_read_loop k (u32 (buf + 1)) (tot + 1)
  end.
Definition tty_read (f buf count : Z) : M fss sysret :=
  tot <-- tty_read_loop (Z.to_nat count) buf 0;; upd_file f (set_pos 0);;; ret (Val (i32 tot)).

Fixpoint tty_write_loop (n : nat) (cur : Z) : M fss unit :=
  match n with
  | O => ret tt
  | S k => c <-- uload cur;; con_put c;;; tty_write_loop k (u32 (cur + 1))
  end.
Definition tty_write (f buf count : Z) : M fss sysret :=
  tty_write_loop (Z.to_nat count) buf;;; upd_file f (set_pos 0);;; ret (Val (i32 count)).

Definition file_read (f buf count : Z) : M fss sysret :=
  x <-- get_file f;; match f_dev x with Plain => ret (Err EINVAL) | Tty => tty_read f buf count end.
Definition file_write (f buf count : Z) : M fss sysret :=
  x <-- get_file f;; match f_dev x with Plain => ret (Err EINVAL) | Tty => tty_write f buf count end.

(** ** The descriptor table *)

Definition on_fds {A} (c : M (Vector.vec (T := Z)) A) : M fss A := fun s =>
  match fs_tab s with
  | None => Stop Fault
  | Some t => match c (fds t) with
              | Ok (a, v) => Ok (a, with_tab (Some (FdTab (next_fd t) v)) s)
              | Stop e => Stop e
              end
  end.
Definition get_tab : M fss fdtab := s <-- get;; deref (fs_tab s).
Definition set_next_fd (n : Z) : M fss unit :=
  t <-- get_tab;; modify (with_tab (Some (FdTab n (fds t)))).
Definition fds_size : M fss Z := t <-- get_tab;; ret (v_size (fds t)).

(** [fd_table_t()]: the three standard descriptors share one terminal file. *)
Definition new_fd_table : M fss unit :=
  s <-- get;;
  nd <-- lift (sb_walk sn 9 (fs_tree s) (lit LIT (bytes "/dev/tty")) LIT root_sb);;
  asserth (negb (nd =? 0));;;
  r <-- node_open nd 3;;
  match r with
  | Err _ => halt Panic
  | Val f =>
    upd_file f (set_oflags (O_RDWR fn));;;
    modify (with_tab (Some (FdTab 3 (vec_new ptr_size 0 true PROC_MAX_FDS))));;;
    on_fds (vec_resize ptr_size 3 f)
  end.

Definition get_fd (fd : Z) : M fss sysret :=
  if fd <? 0 then ret (Err EBADF)
  else
    s <-- get;;
    match fs_tab s with
    | None => ret (Err EFAULT)
    | Some t =>
      if v_size (fds t) <=? u32 fd then ret (Err EBADF)
      else f <-- on_fds (vec_get (u32 fd));; ret (if f =? 0 then Err EBADF else Val f)
    end.

(** The search for the next free descriptor; the table has as many rounds. *)
Fixpoint next_loop (fuel : nat) : M fss unit :=
  t <-- get_tab;; sz <-- fds_size;;
  if next_fd t <? i32 sz then
    f <-- on_fds (vec_get (next_fd t));;
    if f =? 0 then ret tt
    else match fuel with
         | O => halt Fuel
         | S k => set_next_fd (next_fd t + 1);;; next_loop k
         end
  else ret tt.

(** Putting an open file into slot [fd]. *)
Definition install (fd f : Z) : M fss unit :=
  sz <-- fds_size;;
  if fd <? i32 sz then
    old <-- on_fds (vec_get fd);; on_fds (vec_set fd f);;;
    if old =? 0 then ret tt else file_release old
  else
    asserth (sz =? u32 fd);;;
    r <-- on_fds (vec_push_back ptr_size f);;
    match r with Some _ => ret tt | None => file_release f end.

Definition open (path flags : Z) : M fss sysret :=
  s <-- get;;
  match fs_tab s with
  | None => ret (Err EFAULT)
  | Some t =>
    if PROC_MAX_FDS <=? next_fd t then ret (Err EMFILE)
    else
      let fd := next_fd t in
      let path := up_get_const page_entry path in
      if path =? 0 then ret (Err EFAULT)
      else
        nd <-- lift (sb_walk sn walk_fuel (fs_tree s) (fs_mem s) path root_sb);;
        if nd =? 0 then ret (Err ENOENT)
        else
          x <-- deref (t_nodes (fs_tree s) !! nd);; i <-- deref (nd_ind x);;
          if s_is sn S_IFDIR (i_mode i) &&
             (negb (Z.land flags (O_WRONLY fn) =? 0) || negb (Z.land flags (O_RDWR fn) =? 0))
          then ret (Err EISDIR)
          else
            r <-- node_open nd 1;;
            match r with
            | Err e => ret (Err e)
            | Val f =>
              upd_file f (set_oflags flags);;;
              install fd f;;;
              set_next_fd (fd + 1);;;
              sz <-- fds_size;; next_loop (Z.to_nat sz);;;
              ret (Val fd)
            end
  end.

Definition close (fd : Z) : M fss sysret :=
  s <-- get;;
  match fs_tab s with
  | None => ret (Err EFAULT)
  | Some t =>
    if v_size (fds t) <=? u32 fd then ret (Err EBADF)
    else
      f <-- on_fds (vec_get (u32 fd));;
      if f =? 0 then ret (Err EBADF)
      else on_fds (vec_set (u32 fd) 0);;; file_release f;;; ret (Val 0)
  end.

(** The pages [count] bytes from [buf] on lie in. *)
Definition region (buf count : Z) (write : bool) : M fss bool :=
  lift (check_region page_entry (Z.to_nat (2 ^ 20)) buf (u32 (buf + count)) write).

Definition read (fd buf count : Z) : M fss sysret :=
  r <-- get_fd fd;;
  match r with
  | Err e => ret (Err e)
  | Val f =>
    x <-- get_file f;;
    if Z.land (f_oflags x) (O_ACCMODE fn) =? O_WRONLY fn then ret (Err EACCES)
    else
      let buf := up_get page_entry buf in
      if buf =? 0 then ret (Err EFAULT)
      else ok <-- region buf count true;;
           if (ok : bool) then file_read f buf count else ret (Err EFAULT)
  end.

Definition write (fd buf count : Z) : M fss sysret :=
  r <-- get_fd fd;;
  match r with
  | Err e => ret (Err e)
  | Val f =>
    x <-- get_file f;;
    if Z.land (f_oflags x) (O_ACCMODE fn) =? O_RDONLY fn then ret (Err EACCES)
    else
      let buf := up_get_const page_entry buf in
      if buf =? 0 then ret (Err EFAULT)
      else ok <-- region buf count false;;
           if (ok : bool) then file_write f buf count else ret (Err EFAULT)
  end.

(** [off_t] in memory, little endian. *)
Fixpoint le_value (l : list Z) : Z := match l with [] => 0 | b :: r => b + 256 * le_value r end.
Definition off_t (x : Z) : Z := to_signed (8 * Z.of_nat off_w) x.
Definition load_off (a : Z) : M fss Z :=
  s <-- get;; bs <-- deref (load_bytes (fs_mem s) a off_w);; ret (off_t (le_value bs)).
Definition store_off (a v : Z) : M fss unit :=
  s <-- get;; m <-- deref (store_bytes (fs_mem s) a (le_bytes off_w v));; put (with_umem m s).

Definition lseek (fd poffset whence : Z) : M fss sysret :=
  let poffset := up_get page_entry poffset in
  if poffset =? 0 then ret (Err EFAULT)
  else
    r <-- get_fd fd;;
    match r with
    | Err e => ret (Err e)
    | Val f =>
      x <-- get_file f;;
      pos <-- (if whence =? SEEK_SET fn then off <-- load_off poffset;; ret (Some off)
               else if whence =? SEEK_CUR fn then off <-- load_off poffset;; ret (Some (off_t (f_pos x + off)))
               else if whence =? SEEK_END fn then
                 s <-- get;; nd <-- deref (t_nodes (fs_tree s) !! f_nd x);; i <-- deref (nd_ind nd);;
                 off <-- load_off poffset;; ret (Some (off_t (i_size i + off)))
               else ret None);;
      match pos with
      | None => ret (Err EINVAL)
      | Some pos =>
        r <-- seek f pos;;
        match r with
        | Val _ => store_off poffset pos;;; ret r
        | Err _ => ret r
        end
      end
    end.
End calls.
