(* ===== verification/FsSpec.v ===== *)
(** * The descriptor table as an append-only sequence

    The table of a process is a sequence of files, 0 an empty slot; [open] only
    ever appends to it, [close] empties a slot, and every file object is held by
    exactly the slots that name it. *)

From Stdlib Require Import Ascii String.
From S2P Require Import Prelude StringLib Vector UserPtr Proc Fs FsCalls.
From stdpp Require Import gmap list.
#[local] Open Scope Z_scope.

Section spec.
Variable sn : statnums.
Variable fn : filenums.
Variable page_entry : Z -> option Z.
Variable ptr_size : Z.
Variable root_sb : Z.
Variable walk_fuel : nat.
(** What [sizeof(std::shared_ptr)] has to be for the table to fit memory. *)
Hypothesis ptr_size_ok : 0 < ptr_size <= 4096.

Notation open := (open sn fn page_entry ptr_size root_sb walk_fuel).

Definition refs_in (l : list Z) (f : Z) : nat := count_occ Z.eq_dec l f.

Record fd_ok (s : fss) (l : list Z) : Prop := {
  fo_tab : exists v, fs_tab s = Some (FdTab (Z.of_nat (length l)) v) /\ vec_inv ptr_size PROC_MAX_FDS v l;
  fo_len : 3 <= Z.of_nat (length l) <= PROC_MAX_FDS;
  fo_files : forall f x, fs_files s !! f = Some x -> 0 < f < fs_new s /\ f_refs x = refs_in l f;
  fo_slots : forall f, f ∈ l -> f = 0 \/ is_Some (fs_files s !! f);
  fo_new : 0 < fs_new s }.

(** The part of the state the calls on descriptors leave alone. *)
Definition same_rest (s s' : fss) : Prop :=
  fs_tree s' = fs_tree s /\ fs_mem s' = fs_mem s /\ fs_kbd s' = fs_kbd s /\ fs_out s' = fs_out s.

(** The file a descriptor names. *)
Definition slot (l : list Z) (fd : Z) : option Z :=
  if fd <? 0 then None
  else match l !! Z.to_nat fd with Some f => if f =? 0 then None else Some f | None => None end.

Lemma ptr_fits : PROC_MAX_FDS * ptr_size < 2 ^ 32.
Proof. unfold PROC_MAX_FDS. lia. Qed.

Lemma refs_app l l' f : refs_in (l ++ l') f = (refs_in l f + refs_in l' f)%nat.
Proof. apply count_occ_app. Qed.
Lemma refs_notin l f : f ∉ l -> refs_in l f = 0%nat.
Proof. intros H. apply count_occ_not_In. intros Hin. apply H. by apply list_elem_of_In. Qed.
Lemma refs_in_pos l f : f ∈ l -> (0 < refs_in l f)%nat.
Proof. intros H. apply count_occ_In. by apply list_elem_of_In. Qed.

Lemma i32_small x : 0 <= x < 2 ^ 31 -> i32 x = x.
Proof.
  intros Hx. unfold i32, to_signed. rewrite wrap_small by lia. cbv zeta. destruct (Z.ltb_spec x (2 ^ (32 - 1))); lia.
Qed.

(** ** The vector behind the table *)

Lemma with_tab_same s t : fs_tab s = Some t -> with_tab (Some t) s = s.
Proof. unfold with_tab. destruct s; simpl. by intros ->. Qed.

Lemma fds_get s l i f :
  fd_ok s l -> 0 <= i -> l !! Z.to_nat i = Some f -> on_fds (vec_get i) s = Ok (f, s).
Proof.
  intros Hok Hi Hf. destruct (fo_tab _ _ Hok) as (v & Ht & Hrep & _). unfold on_fds. rewrite Ht. simpl.
  rewrite (vec_get_spec ptr_size v 0 l i Hrep Hi), Hf. do 2 f_equal. by apply with_tab_same.
Qed.
Lemma fds_size_ok s l : fd_ok s l -> fds_size s = Ok (Z.of_nat (length l), s).
Proof.
  intros Hok. destruct (fo_tab _ _ Hok) as (v & Ht & Hrep & _). unfold fds_size, get_tab. mgo.
  rewrite Ht. mrun (deref_some (Some (FdTab (Z.of_nat (length l)) v)) _ s eq_refl). simpl.
  by rewrite (vec_rep_size _ _ _ _ Hrep).
Qed.
Lemma get_file_ok s f x : fs_files s !! f = Some x -> get_file f s = Ok (x, s).
Proof. intros H. unfold get_file. mgo. by apply deref_some. Qed.

(** ** Looking a descriptor up *)

Lemma get_fd_spec s l fd :
  fd_ok s l -> -2 ^ 31 <= fd < 2 ^ 31 ->
  get_fd fd s = Ok (match slot l fd with Some f => Val f | None => Err EBADF end, s).
Proof.
  intros Hok Hfd. unfold get_fd, slot. destruct (Z.ltb_spec fd 0) as [|H0]; [reflexivity|].
  mgo. destruct (fo_tab _ _ Hok) as (v & Ht & Hrep & _). rewrite Ht. cbn [fds].
  rewrite (vec_rep_size _ _ _ _ Hrep), u32_small by lia. destruct (Z.leb_spec (Z.of_nat (length l)) fd).
  - rewrite lookup_ge_None_2 by lia. reflexivity.
  - destruct (lookup_lt_is_Some_2 l (Z.to_nat fd)) as [f Hf]; [lia|]. rewrite Hf.
    mrun (fds_get s l fd f Hok H0 Hf). destruct (f =? 0); reflexivity.
Qed.

(** ** [close] *)

(** One slot that named [f] is emptied: [f] loses one reference. *)
Lemma refs_clear l i f g :
  l !! i = Some f -> f <> 0 -> g <> 0 ->
  refs_in (<[i := 0]> l) g = if Z.eq_dec f g then pred (refs_in l g) else refs_in l g.
Proof.
  intros Hf Hf0 Hg. assert (Hi : (i < length l)%nat) by (apply lookup_lt_is_Some_1; eauto).
  assert (E : l = take i l ++ f :: drop (S i) l) by (by rewrite take_drop_middle).
  assert (Er : refs_in l g = (refs_in (take i l) g + (if Z.eq_dec f g then 1 else 0) + refs_in (drop (S i) l) g)%nat).
  { rewrite E at 1. rewrite refs_app. unfold refs_in. cbn [count_occ]. destruct (Z.eq_dec f g); lia. }
  rewrite Er, (insert_take_drop l i 0 Hi), refs_app. unfold refs_in. cbn [count_occ].
  destruct (Z.eq_dec 0 g); [lia|]. destruct (Z.eq_dec f g); lia.
Qed.

Lemma close_spec s l fd :
  fd_ok s l -> -2 ^ 31 <= fd < 2 ^ 31 ->
  match slot l fd with
  | None => close fd s = Ok (Err EBADF, s)
  | Some f => exists s', close fd s = Ok (Val 0, s') /\ fd_ok s' (<[Z.to_nat fd := 0]> l) /\ same_rest s s' /\
      fs_new s' = fs_new s /\ forall g, g <> f -> fs_files s' !! g = fs_files s !! g
  end.
Proof.
  intros Hok Hfd. destruct (fo_tab _ _ Hok) as (v & Ht & Hinv). pose proof Hinv as (Hrep & Hmx & Hcap).
  pose proof (fo_len _ _ Hok) as Hlen. unfold PROC_MAX_FDS in Hlen.
  unfold close, slot. mgo. rewrite Ht. cbn [fds]. rewrite (vec_rep_size _ _ _ _ Hrep).
  destruct (Z.ltb_spec fd 0) as [Hneg|H0].
  { assert (E : u32 fd = fd + 2 ^ 32) by (unfold u32, wrap; rewrite <- (Z.mod_add _ 1) by lia; apply Z.mod_small; lia).
    rewrite E. destruct (Z.leb_spec (Z.of_nat (length l)) (fd + 2 ^ 32)); [reflexivity|lia]. }
  rewrite u32_small by lia. destruct (Z.leb_spec (Z.of_nat (length l)) fd).
  { rewrite lookup_ge_None_2 by lia. reflexivity. }
  destruct (lookup_lt_is_Some_2 l (Z.to_nat fd)) as [f Hf]; [lia|]. rewrite Hf.
  mrun (fds_get s l fd f Hok H0 Hf). destruct (Z.eqb_spec f 0) as [|Hf0]; [reflexivity|].
  destruct (vec_set_spec ptr_size v 0 l fd 0 Hrep ltac:(lia)) as (v' & Ev & Hrep' & [_ Hmx'] & Hcap').
  assert (Es : on_fds (vec_set fd 0) s = Ok (tt, with_tab (Some (FdTab (Z.of_nat (length l)) v')) s))
    by (unfold on_fds; rewrite Ht; cbn [fds]; by rewrite Ev).
  mrun Es. destruct (fo_slots _ _ Hok f) as [|[x Hx]]; [by eapply list_elem_of_lookup_2|done|].
  unfold file_release. mgo. mrun (get_file_ok (with_tab (Some (FdTab (Z.of_nat (length l)) v')) s) f x Hx). mgo.
  eexists. split; [reflexivity|]. destruct (fo_files _ _ Hok f x Hx) as (Hfb & Hrx).
  assert (Hpos : (0 < refs_in l f)%nat) by (apply refs_in_pos; by eapply list_elem_of_lookup_2).
  split; [|split; [repeat split|split; [reflexivity|]]].
  - split; simpl; rewrite ?length_insert.
    + exists v'. split; [reflexivity|]. split; [exact Hrep'|]. split; [congruence|lia].
    + exact Hlen.
    + intros g y Hg. destruct (decide (g = f)) as [->|Hgf].
      * destruct (Nat.leb_spec (f_refs x) 1); [by rewrite lookup_delete_eq in Hg|].
        rewrite lookup_insert_eq in Hg. injection Hg as <-. simpl. split; [exact Hfb|].
        rewrite (refs_clear _ _ _ _ Hf Hf0 Hf0). destruct (Z.eq_dec f f); congruence.
      * assert (Hg' : fs_files s !! g = Some y)
          by (destruct (f_refs x <=? 1)%nat; [rewrite lookup_delete_ne in Hg|rewrite lookup_insert_ne in Hg]; auto).
        destruct (fo_files _ _ Hok g y Hg') as (Hgb & Hry). split; [exact Hgb|].
        rewrite (refs_clear _ _ _ _ Hf Hf0) by lia. destruct (Z.eq_dec f g); congruence.
    + intros g Hg. destruct (decide (g = 0)) as [|Hg0]; [by left|right].
      pose proof (refs_in_pos _ _ Hg) as Hgl.
      rewrite (refs_clear _ _ _ _ Hf Hf0 Hg0) in Hgl.
      assert (Hin : g ∈ l) by (apply list_elem_of_In, (count_occ_In Z.eq_dec); unfold refs_in in Hgl; destruct (Z.eq_dec f g); lia).
      destruct (fo_slots _ _ Hok g Hin) as [|[y Hy]]; [done|].
      destruct (Z.eq_dec f g) as [<-|Hfg].
      * destruct (Nat.leb_spec (f_refs x) 1); [lia|]. rewrite lookup_insert_eq. eauto.
      * destruct (f_refs x <=? 1)%nat; [rewrite lookup_delete_ne by auto|rewrite lookup_insert_ne by auto]; eauto.
    + apply Hok.
  - intros g Hg. simpl. destruct (f_refs x <=? 1)%nat; [by rewrite lookup_delete_ne|by rewrite lookup_insert_ne].
Qed.

(** ** [open] *)

(** The tree is well-formed, its nodes have inodes, and the root exists. *)
Record fs_wf (s : fss) : Prop := {
  fw_tree : exists rank, tree_ok rank (fs_tree s);
  fw_ind : forall n x, t_nodes (fs_tree s) !! n = Some x -> is_Some (nd_ind x);
  fw_root : exists sb, t_sbs (fs_tree s) !! root_sb = Some sb /\ is_Some (t_nodes (fs_tree s) !! sb_root sb) }.

Lemma walk_from_root s path p :
  fs_wf s -> cstr (fs_mem s) path p -> (length p < walk_fuel)%nat ->
  exists n, sb_walk sn walk_fuel (fs_tree s) (fs_mem s) path root_sb = Ok n /\
    (n = 0 \/ is_Some (t_nodes (fs_tree s) !! n)).
Proof.
  intros Hwf Hp Hf. destruct (fw_tree _ Hwf) as [rank Hok]. destruct (fw_root _ Hwf) as (sb & Hsb & Hn).
  unfold sb_walk, walk. rewrite Hsb. destruct (path =? 0); [eauto|].
  rewrite (walk_loop_resolve sn walk_fuel _ _ _ _ _ Hp Hf). exact (resolve_total sn rank _ _ _ Hok Hn).
Qed.

(** The state after a new file [f] of the terminal node [nd] was appended. *)
Definition opened (s : fss) (l : list Z) (nd flags : Z) (v : Vector.vec (T := Z)) : fss :=
  Fss (fs_tree s) (<[fs_new s := File nd flags (Z.lor (S_IFCHR sn) 384) 0 Tty 1]> (fs_files s))
      (Some (FdTab (Z.of_nat (length l) + 1) v)) (fs_mem s) (fs_kbd s) (fs_out s) (fs_new s + 1).

Lemma opened_ok s l nd flags v :
  fd_ok s l -> vec_inv ptr_size PROC_MAX_FDS v (l ++ [fs_new s]) -> Z.of_nat (length l) < PROC_MAX_FDS ->
  fs_new s ∉ l /\ fd_ok (opened s l nd flags v) (l ++ [fs_new s]).
Proof.
  intros Hok Hinv Hlt. pose proof (fo_len _ _ Hok) as Hlen. pose proof (fo_new _ _ Hok) as Hnew.
  assert (Hfresh : fs_files s !! fs_new s = None).
  { destruct (fs_files s !! fs_new s) as [x|] eqn:Hx; [|reflexivity].
    destruct (fo_files _ _ Hok _ _ Hx) as [? _]. lia. }
  assert (Hnin : fs_new s ∉ l).
  { intros Hin. destruct (fo_slots _ _ Hok _ Hin) as [|[x Hx]]; [lia|congruence]. }
  split; [exact Hnin|]. split; simpl; rewrite ?length_app; cbn [length].
  - exists v. split; [do 2 f_equal; lia|exact Hinv].
  - lia.
  - intros f x Hx. rewrite refs_app. destruct (decide (f = fs_new s)) as [->|Hf].
    + rewrite lookup_insert_eq in Hx. injection Hx as <-. simpl. rewrite (refs_notin l _ Hnin).
      destruct (Z.eq_dec (fs_new s) (fs_new s)); [split; [lia|reflexivity]|done].
    + rewrite lookup_insert_ne in Hx by auto. destruct (fo_files _ _ Hok _ _ Hx) as [Hb ->]. split; [lia|].
      unfold refs_in. simpl. destruct (Z.eq_dec (fs_new s) f); [congruence|lia].
  - intros f Hf. apply elem_of_app in Hf as [Hf|Hf].
    + destruct (fo_slots _ _ Hok f Hf) as [|[x Hx]]; [by left|right].
      destruct (decide (f = fs_new s)) as [->|]; [rewrite lookup_insert_eq|rewrite lookup_insert_ne by auto]; eauto.
    + apply list_elem_of_singleton in Hf as ->. right. rewrite lookup_insert_eq. eauto.
  - lia.
Qed.

(** Installing the file appends it: the other branch is never taken. *)
Lemma install_appends s l f :
  fd_ok s l -> Z.of_nat (length l) < PROC_MAX_FDS ->
  exists v, vec_inv ptr_size PROC_MAX_FDS v (l ++ [f]) /\
    forall s1, fs_tab s1 = fs_tab s ->
      install ptr_size (Z.of_nat (length l)) f s1 = Ok (tt, with_tab (Some (FdTab (Z.of_nat (length l)) v)) s1).
Proof.
  intros Hok Hlt. destruct (fo_tab _ _ Hok) as (v & Ht & Hrep & Hmx & Hcap). pose proof (fo_len _ _ Hok) as Hlen.
  pose proof ptr_fits as Hfits.
  pose proof (vec_push_back_spec ptr_size ltac:(lia) v 0 l f Hrep ltac:(rewrite Hmx; exact Hfits) ltac:(auto)) as Hp.
  rewrite Hmx, (proj2 (Z.leb_gt _ _) Hlt) in Hp. destruct Hp as (v' & b' & Ev & Hrep' & Hb & [_ Hmx'] & Hcap').
  rewrite (Hb eq_refl) in *. exists v'. split; [split; [exact Hrep'|split; [congruence|auto]]|].
  intros s1 Hs1. unfold install, fds_size, get_tab. mgo. rewrite Hs1, Ht.
  mrun (deref_some (Some (FdTab (Z.of_nat (length l)) v)) _ s1 eq_refl). mgo. cbn [fds].
  rewrite (vec_rep_size _ _ _ _ Hrep). unfold PROC_MAX_FDS in *.
  rewrite i32_small, Z.ltb_irrefl, u32_small, Z.eqb_refl by lia. mrun (asserth_true true s1 eq_refl).
  unfold bind, on_fds. rewrite Hs1, Ht. cbn [fds]. rewrite Ev. reflexivity.
Qed.

(** With all slots in use up to [next_fd] the search for a free one is over. *)
Lemma next_loop_full s l n : fd_ok s l -> next_loop n s = Ok (tt, s).
Proof.
  intros Hok. destruct (fo_tab _ _ Hok) as (v & Ht & _). pose proof (fo_len _ _ Hok) as Hlen. unfold PROC_MAX_FDS in Hlen.
  destruct n; cbn [next_loop]; unfold get_tab; mgo; rewrite Ht;
    mrun (deref_some (Some (FdTab (Z.of_nat (length l)) v)) _ s eq_refl); mrun (fds_size_ok _ _ Hok); cbn [next_fd];
    rewrite i32_small, Z.ltb_irrefl by lia; reflexivity.
Qed.

(** The checks [open] makes before the walk. *)
Ltac open_checks Ht Hlt :=
  unfold FsCalls.open; mgo; rewrite Ht; cbn [next_fd]; rewrite (proj2 (Z.leb_gt _ _) Hlt); cbv zeta.
(** ... and up to the test of the node [nd] it found. *)
Ltac open_walks Ht Hlt Epath Hp0 Hwalk :=
  open_checks Ht Hlt; rewrite Epath, (proj2 (Z.eqb_neq _ 0) Hp0); unfold lift at 1, bind at 1; rewrite Hwalk.

(** A path that leads to a terminal node opens it. *)
Lemma open_tty s l path flags nd x :
  fd_ok s l -> fs_wf s -> Z.of_nat (length l) < PROC_MAX_FDS -> up_get_const page_entry path = path -> path <> 0 ->
  sb_walk sn walk_fuel (fs_tree s) (fs_mem s) path root_sb = Ok nd -> nd <> 0 ->
  t_nodes (fs_tree s) !! nd = Some x -> nd_dev x = Tty ->
  (is_dir sn x && (negb (Z.land flags (O_WRONLY fn) =? 0) || negb (Z.land flags (O_RDWR fn) =? 0))) = false ->
  exists v, vec_inv ptr_size PROC_MAX_FDS v (l ++ [fs_new s]) /\
    open path flags s = Ok (Val (Z.of_nat (length l)), opened s l nd flags v).
Proof.
  intros Hok Hwf Hlt Hpath Hp0 Hwalk Hnd Hx Hdev Hdir.
  destruct (fo_tab _ _ Hok) as (v & Ht & Hrep & Hmx & Hcap). pose proof (fo_len _ _ Hok) as Hlen.
  destruct (install_appends s l (fs_new s) Hok Hlt) as (v' & Hinv & Hinst). exists v'. split; [exact Hinv|].
  destruct (fw_ind _ Hwf nd x Hx) as [i Hi]. unfold is_dir in Hdir. rewrite Hi in Hdir.
  open_walks Ht Hlt Hpath Hp0 Hwalk. rewrite (proj2 (Z.eqb_neq nd 0) Hnd).
  mrun (deref_some _ x s Hx). mrun (deref_some _ i s Hi). rewrite Hdir.
  unfold node_open. mgo. mrun (deref_some _ x s Hx). rewrite Hdev. cbv zeta. mgo.
  unfold upd_file. mgo. mrun (get_file_ok (with_new (fs_new s + 1) (with_files
     (<[fs_new s := File nd 0 (Z.lor (S_IFCHR sn) 384) 0 Tty 1]> (fs_files s)) s)) (fs_new s)
     (File nd 0 (Z.lor (S_IFCHR sn) 384) 0 Tty 1) ltac:(simpl; apply lookup_insert_eq)). mgo.
  match goal with |- bind _ _ ?s2 = _ => mrun (Hinst s2 eq_refl) end.
  unfold set_next_fd, get_tab. mgo. match goal with |- bind _ _ ?s2 = _ => mrun (deref_some (fs_tab s2) _ s2 eq_refl) end. mgo.
  match goal with |- bind _ _ ?s2 = _ => set (s3 := s2) end.
  assert (E3 : s3 = opened s l nd flags v').
  { subst s3. unfold opened, with_tab, with_files, with_new, set_oflags. simpl. by rewrite insert_insert_eq. }
  rewrite E3. pose proof (proj2 (opened_ok s l nd flags v' Hok Hinv Hlt)) as Hok'.
  mrun (fds_size_ok _ _ Hok'). rewrite (bind_ok _ _ _ tt (opened s l nd flags v')); [reflexivity|].
  apply (next_loop_full _ (l ++ [fs_new s]) _ Hok').
Qed.

(** Anything else leaves the table as it is. *)
Lemma open_cases s l path flags p :
  fd_ok s l -> fs_wf s -> cstr (fs_mem s) path p -> (length p < walk_fuel)%nat ->
  (Z.of_nat (length l) = PROC_MAX_FDS /\ open path flags s = Ok (Err EMFILE, s)) \/
  (Z.of_nat (length l) < PROC_MAX_FDS /\
   ((exists e, e <> EMFILE /\ open path flags s = Ok (Err e, s)) \/
    (exists nd v, vec_inv ptr_size PROC_MAX_FDS v (l ++ [fs_new s]) /\
       open path flags s = Ok (Val (Z.of_nat (length l)), opened s l nd flags v)))).
Proof.
  intros Hok Hwf Hp Hf. destruct (fo_tab _ _ Hok) as (v & Ht & _). pose proof (fo_len _ _ Hok) as Hlen.
  destruct (Z_lt_dec (Z.of_nat (length l)) PROC_MAX_FDS) as [Hlt|Hge].
  2:{ left. split; [lia|]. unfold FsCalls.open. mgo. rewrite Ht. cbn [next_fd].
      destruct (Z.leb_spec PROC_MAX_FDS (Z.of_nat (length l))); [reflexivity|lia]. }
  right. split; [exact Hlt|]. destruct (walk_from_root s path p Hwf Hp Hf) as (nd & Hwalk & Hnd).
  destruct (Z.eq_dec (up_get_const page_entry path) 0) as [E0|E0].
  { left. exists EFAULT. split; [discriminate|]. open_checks Ht Hlt. by rewrite E0. }
  assert (Epath : up_get_const page_entry path = path /\ path <> 0)
    by (unfold up_get_const in *; destruct (check_ptr _ _ _); [auto|done]). destruct Epath as [Epath Hp0].
  destruct (Z.eq_dec nd 0) as [->|Hnd0].
  { left. exists ENOENT. split; [discriminate|]. by open_walks Ht Hlt Epath Hp0 Hwalk. }
  destruct Hnd as [|[x Hx]]; [done|]. destruct (fw_ind _ Hwf nd x Hx) as [i Hi].
  destruct (is_dir sn x && (negb (Z.land flags (O_WRONLY fn) =? 0) || negb (Z.land flags (O_RDWR fn) =? 0))) eqn:Hdir.
  { left. exists EISDIR. split; [discriminate|]. open_walks Ht Hlt Epath Hp0 Hwalk. rewrite (proj2 (Z.eqb_neq nd 0) Hnd0).
    mrun (deref_some _ x s Hx). mrun (deref_some _ i s Hi). unfold is_dir in Hdir. rewrite Hi in Hdir. by rewrite Hdir. }
  destruct (nd_dev x) eqn:Hdev.
  { left. exists ENOSYS. split; [discriminate|]. open_walks Ht Hlt Epath Hp0 Hwalk. rewrite (proj2 (Z.eqb_neq nd 0) Hnd0).
    mrun (deref_some _ x s Hx). mrun (deref_some _ i s Hi). unfold is_dir in Hdir. rewrite Hi in Hdir. rewrite Hdir.
    unfold node_open. mgo. mrun (deref_some _ x s Hx). by rewrite Hdev. }
  right. destruct (open_tty s l path flags nd x) as (v' & Hinv & E); auto. eauto.
Qed.

(** C19: The descriptor table is an append-only sequence of slots.  In every
    reachable state [open] either fails, changing nothing, with [EMFILE] exactly
    when 1024 descriptors were ever used, or returns the length of the sequence
    and appends a file object of its own; its assertion never fails.  [close]
    empties the slot of an open descriptor and destroys the file when no other
    slot holds it; on any other [int] it returns [EBADF].  [get_fd] finds exactly
    the open descriptors. *)
Theorem fd_table_refines_append_only (s : fss) (l : list Z) :
  fd_ok s l -> fs_wf s ->
  (forall path flags p, cstr (fs_mem s) path p -> (length p < walk_fuel)%nat ->
     exists r s', open path flags s = Ok (r, s') /\
       (r = Err EMFILE <-> Z.of_nat (length l) = PROC_MAX_FDS) /\
       match r with
       | Err _ => s' = s
       | Val fd => fd = Z.of_nat (length l) /\ same_rest s s' /\
           exists f x, f ∉ l /\ fd_ok s' (l ++ [f]) /\ fs_files s' = <[f := x]> (fs_files s) /\
             f_oflags x = flags /\ f_pos x = 0
       end) /\
  (forall fd, -2 ^ 31 <= fd < 2 ^ 31 ->
     match slot l fd with
     | None => close fd s = Ok (Err EBADF, s)
     | Some f => exists s', close fd s = Ok (Val 0, s') /\ fd_ok s' (<[Z.to_nat fd := 0]> l) /\ same_rest s s' /\
         fs_new s' = fs_new s /\ forall g, g <> f -> fs_files s' !! g = fs_files s !! g
     end) /\
  (forall fd, -2 ^ 31 <= fd < 2 ^ 31 ->
     get_fd fd s = Ok (match slot l fd with Some f => Val f | None => Err EBADF end, s)).
Proof.
  intros Hok Hwf. split; [|split; intros fd Hfd; [by apply close_spec|by apply get_fd_spec]].
  intros path flags p Hp Hf.
  destruct (open_cases s l path flags p Hok Hwf Hp Hf) as [[Hl E]|[Hl [(e & He & E)|(nd & v & Hinv & E)]]].
  - exists (Err EMFILE), s. split; [exact E|]. split; [tauto|reflexivity].
  - exists (Err e), s. split; [exact E|]. split; [split; [congruence|lia]|reflexivity].
  - destruct (opened_ok s l nd flags v Hok Hinv Hl) as [Hn Hok'].
    exists (Val (Z.of_nat (length l))), (opened s l nd flags v). split; [exact E|].
    split; [split; [discriminate|lia]|]. split; [reflexivity|]. split; [repeat split|].
    exists (fs_new s), (File nd flags (Z.lor (S_IFCHR sn) 384) 0 Tty 1). auto.
Qed.

(** ** Closed descriptors *)

(** A process that opens a file and closes it again, [n] times. *)
Fixpoint open_close (n : nat) (path flags : Z) : M fss unit :=
  match n with
  | O => ret tt
  | S k =>
    r <-- open path flags;;
    match r with Val fd => close fd;;; open_close k path flags | Err _ => halt Panic end
  end.

(** [path] leads to a terminal that may be opened with [flags]. *)
Record opens_tty (s : fss) (path flags nd : Z) : Prop := {
  ot_path : up_get_const page_entry path = path /\ path <> 0;
  ot_walk : sb_walk sn walk_fuel (fs_tree s) (fs_mem s) path root_sb = Ok nd /\ nd <> 0;
  ot_node : exists x, t_nodes (fs_tree s) !! nd = Some x /\ nd_dev x = Tty /\ is_dir sn x = false }.

Lemma opens_tty_same s s' path flags nd : same_rest s s' -> opens_tty s path flags nd -> opens_tty s' path flags nd.
Proof. intros (Et & Em & _) [H1 H2 H3]. split; rewrite ?Et, ?Em; auto. Qed.
Lemma fs_wf_same s s' : same_rest s s' -> fs_wf s -> fs_wf s'.
Proof. intros (Et & _) [H1 H2 H3]. split; rewrite ?Et; auto. Qed.

Lemma open_close_once s l path flags nd :
  fd_ok s l -> fs_wf s -> Z.of_nat (length l) < PROC_MAX_FDS -> opens_tty s path flags nd ->
  exists s1 s2, open path flags s = Ok (Val (Z.of_nat (length l)), s1) /\
    close (Z.of_nat (length l)) s1 = Ok (Val 0, s2) /\ same_rest s s2 /\ fd_ok s2 (l ++ [0]).
Proof.
  intros Hok Hwf Hlt [[Hp1 Hp2] [Hw Hn] (x & Hx & Hd & Hdir)].
  destruct (open_tty s l path flags nd x) as (v & Hinv & E); auto; [by rewrite Hdir|].
  destruct (opened_ok s l nd flags v Hok Hinv Hlt) as [_ Hok1]. pose proof (fo_new _ _ Hok) as Hnew.
  pose proof (close_spec (opened s l nd flags v) _ (Z.of_nat (length l)) Hok1) as Hc.
  unfold PROC_MAX_FDS in Hlt. specialize (Hc ltac:(lia)). unfold slot in Hc.
  rewrite (proj2 (Z.ltb_ge (Z.of_nat (length l)) 0)), Nat2Z.id, list_lookup_middle in Hc by lia.
  rewrite (proj2 (Z.eqb_neq (fs_new s) 0)) in Hc by lia.
  destruct Hc as (s2 & Ec & Hok2 & Hsame & _). exists (opened s l nd flags v), s2.
  split; [exact E|]. split; [exact Ec|]. split; [exact Hsame|].
  replace (<[length l := 0]> (l ++ [fs_new s])) with (l ++ [0]) in Hok2; [exact Hok2|].
  rewrite <- (Nat.add_0_r (length l)). by rewrite insert_app_r.
Qed.

Lemma open_close_run n s l path flags nd :
  fd_ok s l -> fs_wf s -> opens_tty s path flags nd -> Z.of_nat (length l) + Z.of_nat n <= PROC_MAX_FDS ->
  exists s', open_close n path flags s = Ok (tt, s') /\ same_rest s s' /\ fd_ok s' (l ++ replicate n 0).
Proof.
  revert s l. induction n as [|n IH]; intros s l Hok Hwf Ho Hn.
  { exists s. rewrite app_nil_r. split; [reflexivity|]. split; [repeat split|exact Hok]. }
  destruct (open_close_once s l path flags nd Hok Hwf ltac:(lia) Ho) as (s1 & s2 & E1 & E2 & Hs & Hok2).
  destruct (IH s2 (l ++ [0]) Hok2 (fs_wf_same _ _ Hs Hwf) (opens_tty_same _ _ _ _ _ Hs Ho)) as (s' & E & Hs' & Hok');
    [rewrite length_app; simpl; lia|].
  exists s'. cbn [open_close]. mrun E1. mrun E2. split; [exact E|]. split.
  - destruct Hs as (? & ? & ? & ?), Hs' as (? & ? & ? & ?). repeat split; congruence.
  - rewrite <- app_assoc in Hok'. exact Hok'.
Qed.

(** Closed descriptors are never handed out again: a process that opens and
    closes a terminal over and over succeeds exactly until 1024 descriptors have
    been used, and from then on every [open] fails with [EMFILE] although all the
    descriptors it opened are closed. *)
Theorem closed_fds_are_lost (s : fss) (l : list Z) (path flags nd : Z) :
  fd_ok s l -> fs_wf s -> opens_tty s path flags nd ->
  let n := (Z.to_nat PROC_MAX_FDS - length l)%nat in
  exists s', open_close n path flags s = Ok (tt, s') /\ fd_ok s' (l ++ replicate n 0) /\
    (forall fd, Z.of_nat (length l) <= fd -> slot (l ++ replicate n 0) fd = None) /\
    forall path' flags', open path' flags' s' = Ok (Err EMFILE, s').
Proof.
  intros Hok Hwf Ho n. pose proof (fo_len _ _ Hok) as Hlen.
  destruct (open_close_run n s l path flags nd Hok Hwf Ho ltac:(subst n; lia)) as (s' & E & Hs & Hok').
  exists s'. split; [exact E|]. split; [exact Hok'|]. split.
  - intros fd Hfd. unfold slot. rewrite (proj2 (Z.ltb_ge fd 0)) by lia.
    rewrite lookup_app_r by lia. destruct (replicate n 0 !! _) as [f|] eqn:Ef; [|reflexivity].
    by apply lookup_replicate in Ef as [-> _].
  - intros path' flags'. destruct (fo_tab _ _ Hok') as (v & Ht & _). unfold FsCalls.open. mgo. rewrite Ht. cbn [next_fd].
    rewrite length_app, length_replicate. destruct (Z.leb_spec PROC_MAX_FDS (Z.of_nat (length l + n))); [reflexivity|subst n; lia].
Qed.

(** ** Reading and writing the terminal *)

Variable input : nat -> Z.

(** The line that comes next: at most [n] characters, up to a newline. *)
Fixpoint line (n : nat) (pos : nat) : list Z :=
  match n with
  | O => []
  | S k => if input pos =? 10 then [] else input pos :: line k (S pos)
  end.
(** The characters the read takes from the keyboard: the newline is consumed. *)
Definition taken (n : nat) (pos : nat) : nat :=
  let k := length (line n pos) in if (k <? n)%nat then S k else k.

Lemma line_le n pos : (length (line n pos) <= n)%nat.
Proof. revert pos. induction n as [|k IH]; intros pos; simpl; [lia|]. destruct (input pos =? 10); simpl; [lia|]. specialize (IH (S pos)). lia. Qed.

Lemma taken_newline k pos : input pos = 10 -> taken (S k) pos = 1%nat.
Proof. intros E. unfold taken. cbn [line]. by rewrite E. Qed.
Lemma taken_char k pos : input pos <> 10 -> taken (S k) pos = S (taken k (S pos)).
Proof.
  intros E. unfold taken. cbn [line]. rewrite (proj2 (Z.eqb_neq _ _) E). cbn [length]. cbv zeta.
  destruct (Nat.ltb_spec (S (length (line k (S pos)))) (S k)), (Nat.ltb_spec (length (line k (S pos))) k); lia.
Qed.

Lemma tty_read_loop_spec n buf tot s m :
  store_bytes (fs_mem s) buf (line n (fs_kbd s)) = Some m ->
  tty_read_loop input n buf tot s =
    Ok (tot + Z.of_nat (length (line n (fs_kbd s))), with_kbd (fs_kbd s + taken n (fs_kbd s))%nat (with_umem m s)).
Proof.
  revert buf tot s m. induction n as [|k IH]; intros buf tot s m; cbn [tty_read_loop].
  - cbn [line store_bytes]. intros [= <-]. unfold ret, taken, with_kbd, with_umem. simpl.
    rewrite Nat.add_0_r, Z.add_0_r. by destruct s.
  - unfold getch. mgo. destruct (Z.eq_dec (input (fs_kbd s)) 10) as [E|E].
    + rewrite (taken_newline _ _ E). cbn [line]. rewrite E. cbn [Z.eqb Pos.eqb store_bytes length].
      intros [= <-]. unfold ret, with_kbd, with_umem. simpl. rewrite Z.add_0_r, Nat.add_1_r. by destruct s.
    + rewrite (taken_char _ _ E). cbn [line]. rewrite (proj2 (Z.eqb_neq _ _) E). cbn [store_bytes length].
      destruct (fs_mem s !! buf) as [c|] eqn:Hc; [|discriminate]. intros Hm. unfold ustore. mgo.
      mrun (deref_some (fs_mem (with_kbd (S (fs_kbd s)) s) !! buf) c (with_kbd (S (fs_kbd s)) s) Hc). mgo.
      match goal with |- tty_read_loop _ _ _ _ ?s1 = _ => rewrite (IH (u32 (buf + 1)) (tot + 1) s1 m Hm) end. unfold with_kbd, with_umem. cbn [fs_kbd fs_tree fs_files fs_tab fs_mem fs_out fs_new].
      do 2 f_equal; [lia|f_equal; lia].
Qed.

Lemma tty_write_loop_spec n cur s bs :
  load_bytes (fs_mem s) cur n = Some bs ->
  tty_write_loop n cur s = Ok (tt, with_out (fs_out s ++ bs) s).
Proof.
  revert cur s bs. induction n as [|k IH]; intros cur s bs; cbn [load_bytes tty_write_loop].
  - intros [= <-]. unfold ret. rewrite app_nil_r. by destruct s.
  - destruct (fs_mem s !! cur) as [c|] eqn:Hc; [|discriminate]. cbn [mbind option_bind].
    destruct (load_bytes (fs_mem s) (u32 (cur + 1)) k) as [r|] eqn:Hr; [|discriminate]. intros [= <-].
    unfold uload. mgo. mrun (deref_some _ c s Hc). unfold con_put. mgo.
    rewrite (IH (u32 (cur + 1)) (with_out (fs_out s ++ [c]) s) r Hr). simpl. by rewrite <- app_assoc.
Qed.

(** Descriptor [fd] is the terminal file [f], opened with flags [o]. *)
Definition is_tty (s : fss) (l : list Z) (fd f o : Z) : Prop :=
  slot l fd = Some f /\ exists x, fs_files s !! f = Some x /\ f_dev x = Tty /\ f_oflags x = o.
(** A user buffer that is accessible and mapped. *)
Definition user_buf (s : fss) (buf count : Z) (w : bool) : Prop :=
  0 < buf /\ 0 < count < 2 ^ 31 /\ buf + count <= 2 ^ 32 - 4096 /\
  (forall a, buf <= a < buf + count -> page_accessible page_entry w (Z.shiftr a 12)) /\
  mapped (fs_mem s) buf count.

Lemma user_buf_checked s buf count w :
  user_buf s buf count w -> (if w then up_get page_entry buf else up_get_const page_entry buf) = buf /\
    check_region page_entry (Z.to_nat (2 ^ 20)) buf (u32 (buf + count)) w = Ok true.
Proof.
  intros (Hb & Hc & He & Ha & _). split.
  - assert (E : check_ptr page_entry buf w = true) by (apply check_ptr_iff, Ha; lia).
    destruct w; unfold up_get, up_get_const; by rewrite E.
  - rewrite u32_small by lia. destruct (check_region_spec page_entry buf (buf + count) w ltac:(lia) ltac:(lia)) as (b & -> & Hiff).
    f_equal. apply Hiff. exact Ha.
Qed.

(** C27: Terminal input and output through a descriptor.  [read] returns when the
    buffer is full or a line ends: it stores exactly the characters of the next
    line, at most [count], in the buffer and nowhere else, returns their number
    and consumes the newline that ended the line.  [write] puts exactly the
    [count] bytes of the buffer on the console and returns [count]. *)
Theorem terminal_io_correct (s : fss) (l : list Z) (fd f o buf count : Z) :
  fd_ok s l -> -2 ^ 31 <= fd < 2 ^ 31 -> is_tty s l fd f o ->
  (Z.land o (O_ACCMODE fn) <> O_WRONLY fn -> user_buf s buf count true ->
     let w := line (Z.to_nat count) (fs_kbd s) in
     exists s', read fn page_entry input fd buf count s = Ok (Val (Z.of_nat (length w)), s') /\
       (forall a, fs_mem s' !! a = if (buf <=? a) && (a <? buf + Z.of_nat (length w))
                                   then w !! Z.to_nat (a - buf) else fs_mem s !! a) /\
       fs_kbd s' = (fs_kbd s + taken (Z.to_nat count) (fs_kbd s))%nat /\ fs_out s' = fs_out s) /\
  (Z.land o (O_ACCMODE fn) <> O_RDONLY fn -> user_buf s buf count false ->
     exists s' bs, write fn page_entry fd buf count s = Ok (Val count, s') /\
       fs_out s' = fs_out s ++ bs /\ Z.of_nat (length bs) = count /\
       (forall i, 0 <= i < count -> bs !! Z.to_nat i = fs_mem s !! (buf + i)) /\
       fs_mem s' = fs_mem s /\ fs_kbd s' = fs_kbd s).
Proof.
  intros Hok Hfd (Hslot & x & Hx & Hdev & Ho). split; intros Hacc Hbuf.
  - pose proof (user_buf_checked _ _ _ _ Hbuf) as [Hget Hreg]. destruct Hbuf as (Hb & Hc & He & _ & Hmap).
    intros w. pose proof (line_le (Z.to_nat count) (fs_kbd s)) as Hle. fold w in Hle.
    destruct (store_bytes_spec (fs_mem s) buf w ltac:(lia) ltac:(lia)) as (m & Hm & Hspec).
    { intros i Hi. apply Hmap. lia. }
    unfold read. mrun (get_fd_spec s l fd Hok Hfd). rewrite Hslot. mrun (get_file_ok s f x Hx).
    rewrite Ho, (proj2 (Z.eqb_neq _ _) Hacc). cbv zeta. rewrite Hget, (proj2 (Z.eqb_neq buf 0)) by lia.
    unfold region, lift, bind at 1. rewrite Hreg. unfold file_read. mrun (get_file_ok s f x Hx). rewrite Hdev.
    unfold tty_read. mrun (tty_read_loop_spec (Z.to_nat count) buf 0 s m Hm). unfold upd_file. mgo.
    match goal with |- context [bind _ _ ?s1] => mrun (get_file_ok s1 f x Hx) end. mgo.
    eexists. split; [unfold ret; do 3 f_equal; fold w; rewrite i32_small; lia|]. simpl. auto.
  - pose proof (user_buf_checked _ _ _ _ Hbuf) as [Hget Hreg]. destruct Hbuf as (Hb & Hc & He & _ & Hmap).
    destruct (load_bytes_spec (fs_mem s) buf (Z.to_nat count)) as (bs & Hbs & Hlen & Hspec); [lia|lia|rewrite Z2Nat.id by lia; exact Hmap|].
    rewrite Z2Nat.id in Hspec by lia.
    unfold write. mrun (get_fd_spec s l fd Hok Hfd). rewrite Hslot. mrun (get_file_ok s f x Hx).
    rewrite Ho, (proj2 (Z.eqb_neq _ _) Hacc). cbv zeta. rewrite Hget, (proj2 (Z.eqb_neq buf 0)) by lia.
    unfold region, lift, bind at 1. rewrite Hreg. unfold file_write. mrun (get_file_ok s f x Hx). rewrite Hdev.
    unfold tty_write. mrun (tty_write_loop_spec (Z.to_nat count) buf s bs Hbs). unfold upd_file. mgo.
    match goal with |- context [bind _ _ ?s1] => mrun (get_file_ok s1 f x Hx) end. mgo.
    eexists _, bs. split; [unfold ret; do 3 f_equal; apply i32_small; lia|]. simpl. split_and!; auto. lia.
Qed.

(** ** A new process *)

Lemma vec_resize_three (f : Z) (v : Vector.vec (T := Z)) :
  vec_inv ptr_size PROC_MAX_FDS v [] ->
  exists v', vec_resize ptr_size 3 f v = Ok (tt, v') /\ vec_inv ptr_size PROC_MAX_FDS v' [f; f; f].
Proof.
  intros (Hrep & Hmx & Hcap). pose proof ptr_fits as Hfits.
  destruct (vec_resize_spec ptr_size ltac:(lia) v [] 3 f Hrep) as (v' & E & Hrep' & Hc & [_ Hm]);
    [by rewrite Hmx|rewrite Hmx; unfold PROC_MAX_FDS; lia|].
  exists v'. split; [exact E|]. split; [exact Hrep'|]. split; [congruence|]. rewrite Hc. unfold PROC_MAX_FDS. lia.
Qed.

(** The constructor of the table never halts once the terminal is bound, and
    the three descriptors share one file. *)
Lemma new_fd_table_ok s nd x :
  fs_files s = ∅ -> 0 < fs_new s ->
  sb_walk sn 9 (fs_tree s) (lit LIT (bytes "/dev/tty")) LIT root_sb = Ok nd -> nd <> 0 ->
  t_nodes (fs_tree s) !! nd = Some x -> nd_dev x = Tty ->
  exists s', new_fd_table sn fn ptr_size root_sb s = Ok (tt, s') /\ same_rest s s' /\
    fd_ok s' [fs_new s; fs_new s; fs_new s] /\
    fs_files s' = {[ fs_new s := File nd (O_RDWR fn) (Z.lor (S_IFCHR sn) 384) 0 Tty 3 ]}.
Proof.
  intros Hf Hn Hw Hnd Hx Hdev. pose proof ptr_fits as Hfits.
  pose proof (vec_new_inv (T := Z) ptr_size ltac:(lia) 0 true PROC_MAX_FDS ltac:(lia) ltac:(easy) Hfits) as Hv.
  destruct (vec_resize_three (fs_new s) _ Hv) as (v & Ev & Hv').
  unfold new_fd_table. mgo. unfold lift, bind at 1. rewrite Hw, (proj2 (Z.eqb_neq nd 0) Hnd). cbn [negb].
  mrun (asserth_true true s eq_refl). unfold node_open. mgo. mrun (deref_some _ x s Hx). rewrite Hdev. cbv zeta. mgo.
  unfold upd_file. mgo. mrun (get_file_ok (with_new (fs_new s + 1) (with_files
     (<[fs_new s := File nd 0 (Z.lor (S_IFCHR sn) 384) 0 Tty 3]> (fs_files s)) s)) (fs_new s)
     (File nd 0 (Z.lor (S_IFCHR sn) 384) 0 Tty 3) ltac:(simpl; apply lookup_insert_eq)). mgo.
  unfold on_fds. cbn [fs_tab with_tab fds next_fd]. rewrite Ev. eexists. split; [reflexivity|].
  split; [repeat split|]. simpl. rewrite Hf, insert_insert_eq, insert_empty. split; [|reflexivity].
  split; simpl.
  - eauto.
  - unfold PROC_MAX_FDS. lia.
  - intros f y Hy. apply lookup_singleton_Some in Hy as [<- <-].
    unfold refs_in. simpl. destruct (Z.eq_dec (fs_new s) (fs_new s)); [split; [lia|reflexivity]|done].
  - intros f Hin. right. rewrite !elem_of_cons in Hin.
    assert (f = fs_new s) as -> by (destruct Hin as [|[|[|Hin]]]; [done|done|done|by apply elem_of_nil in Hin]).
    rewrite lookup_singleton_eq. eauto.
  - lia.
Qed.
End spec.

(** ** Witnesses: the first process after start-up

    [/dev/tty] lies at address 4096 and a 16-byte buffer at 5000, both in the
    one user page; the user types [hi] and a newline. *)

Definition posix_file : filenums := FileNums 3 0 1 2 0 1 2.
Definition tree0 : tree := boot_tree posix_stat 1 10 11 2 12 13.
Definition mem0 : gmap Z Z :=
  list_to_map ((fun i => (Z.of_nat i, 7)) <$> seq 5000 16) ∪ lit LIT (bytes "/dev/tty").
Definition fs0 : fss := Fss tree0 ∅ None mem0 0 [] 100.
Definition page1 (i : Z) : option Z := if i =? 1 then Some 0x5007 else None.
Definition typed (n : nat) : Z := nth n [104; 105; 10] 0.

Lemma fs1_exists :
  exists s, new_fd_table posix_stat posix_file 8 1 fs0 = Ok (tt, s) /\ same_rest fs0 s /\ fd_ok 8 s [100; 100; 100] /\
    fs_files s = {[ 100 := File 13 2 8576 0 Tty 3 ]}.
Proof.
  destruct (new_fd_table_ok posix_stat posix_file 8 1 ltac:(lia) fs0 13
              (Node (Some (tty_inode posix_stat)) 12 (bytes "tty") [] [] Tty)) as (s & H).
  - reflexivity.
  - reflexivity.
  - apply (boot_walk_tty posix_stat 1 10 11 2 12 13 posix_stat_ok nodes5). lia.
  - lia.
  - reflexivity.
  - reflexivity.
  - exists s. exact H.
Qed.

Lemma fs_wf0 s : same_rest fs0 s -> fs_wf 1 s.
Proof.
  intros Hs. apply (fs_wf_same 1 fs0 s Hs). split.
  - exists (boot_rank 11). apply boot_tree_ok; [exact nodes5|lia].
  - change (map_Forall (fun _ x => is_Some (nd_ind x)) (t_nodes tree0)).
    apply (bool_decide_unpack _). vm_compute. exact I.
  - eexists. split; [reflexivity|]. vm_compute. eauto.
Qed.
Lemma path0 : cstr mem0 LIT (bytes "/dev/tty").
Proof. vm_compute. repeat (split; [reflexivity|split; [split; reflexivity|]]). reflexivity. Qed.
Lemma opens0 s flags : same_rest fs0 s -> opens_tty posix_stat page1 1 9 s LIT flags 13.
Proof.
  intros Hs. apply (opens_tty_same posix_stat page1 1 9 fs0 s LIT flags 13 Hs). split.
  - split; [reflexivity|easy].
  - split; [|lia]. unfold sb_walk, walk. change (t_sbs (fs_tree fs0) !! 1)
      with (Some (Superblock 0 (bytes "vfs_root") (Z.lor (S_IFDIR posix_stat) 511) 10)).
    change (LIT =? 0) with false. cbv iota. cbn [sb_root].
    etransitivity; [exact (walk_loop_resolve posix_stat 9 (fs_tree fs0) _ _ _ 10 path0 ltac:(simpl; lia))|].
    vm_compute. reflexivity.
  - eexists. split; [reflexivity|]. split; reflexivity.
Qed.

Lemma fd_table_refines_append_only_witness :
  exists s, fd_ok 8 s [100; 100; 100] /\ get_fd 1 s = Ok (Val 100, s) /\ get_fd 3 s = Ok (Err EBADF, s) /\
    exists r s', open posix_stat posix_file page1 8 1 9 LIT 0 s = Ok (r, s') /\ (r <> Err EMFILE).
Proof.
  destruct fs1_exists as (s & _ & Hs & Hok & _). exists s. split; [exact Hok|].
  destruct (fd_table_refines_append_only posix_stat posix_file page1 8 1 9 ltac:(lia) s _ Hok (fs_wf0 s Hs)) as (Ho & _ & Hg).
  split; [apply (Hg 1); lia|]. split; [apply (Hg 3); lia|].
  destruct (Ho LIT 0 (bytes "/dev/tty")) as (r & s' & E & Hm & _);
    [rewrite (proj1 (proj2 Hs)); exact path0|simpl; lia|].
  exists r, s'. split; [exact E|]. rewrite Hm. easy.
Defined.

Lemma closed_fds_are_lost_witness :
  exists s s', open_close posix_stat posix_file page1 8 1 9 1021 LIT 2 s = Ok (tt, s') /\
    open posix_stat posix_file page1 8 1 9 LIT 2 s' = Ok (Err EMFILE, s').
Proof.
  destruct fs1_exists as (s & _ & Hs & Hok & _).
  destruct (closed_fds_are_lost posix_stat posix_file page1 8 1 9 ltac:(lia) s _ LIT 2 13 Hok (fs_wf0 s Hs) (opens0 s 2 Hs))
    as (s' & E & _ & _ & He).
  exists s, s'. split; [exact E|apply He].
Defined.

Lemma buf0 s w : same_rest fs0 s -> user_buf page1 s 5000 8 w.
Proof.
  intros (_ & Hm & _). split_and!; try lia.
  - intros a Ha. assert (Z.shiftr a 12 = 1) as -> by (rewrite Z.shiftr_div_pow2 by lia; symmetry; apply Z.div_unique with (a - 4096); lia).
    exists 0x5007. split_and!; reflexivity.
  - intros i Hi. rewrite Hm. assert (i = 0 \/ i = 1 \/ i = 2 \/ i = 3 \/ i = 4 \/ i = 5 \/ i = 6 \/ i = 7)
      as Hc by lia. destruct Hc as [->|[->|[->|[->|[->|[->|[->| ->]]]]]]]; vm_compute; eauto.
Qed.
Lemma terminal_io_correct_witness :
  exists s s' s'', read posix_file page1 typed 0 5000 8 s = Ok (Val 2, s') /\
    fs_mem s' !! 5000 = Some 104 /\ fs_mem s' !! 5001 = Some 105 /\ fs_kbd s' = 3%nat /\
    write posix_file page1 1 5000 8 s = Ok (Val 8, s'').
Proof.
  destruct fs1_exists as (s & _ & Hs & Hok & Hf).
  assert (Htty : forall fd, 0 <= fd < 3 -> is_tty s [100; 100; 100] fd 100 2).
  { intros fd Hfd. split; [|eexists; split; [rewrite Hf; reflexivity|split; reflexivity]].
    assert (fd = 0 \/ fd = 1 \/ fd = 2) as [->|[-> | ->]] by lia; reflexivity. }
  destruct (terminal_io_correct posix_file page1 8 typed s _ 0 100 2 5000 8 Hok ltac:(lia) (Htty 0 ltac:(lia))) as [Hr _].
  destruct (terminal_io_correct posix_file page1 8 typed s _ 1 100 2 5000 8 Hok ltac:(lia) (Htty 1 ltac:(lia))) as [_ Hw].
  destruct (Hr ltac:(easy) (buf0 s true Hs)) as (s' & Er & Hm & Hk & _).
  destruct (Hw ltac:(easy) (buf0 s false Hs)) as (s'' & bs & Ew & _).
  destruct Hs as (_ & _ & Hkb & _).
  assert (Hl : line typed (Z.to_nat 8) (fs_kbd s) = [104; 105]) by (rewrite Hkb; reflexivity).
  assert (Ht : (fs_kbd s + taken typed (Z.to_nat 8) (fs_kbd s))%nat = 3%nat) by (rewrite Hkb; reflexivity).
  rewrite Hl in Er, Hm. rewrite Ht in Hk. exists s, s', s''. split; [exact Er|].
  split; [apply (Hm 5000)|]. split; [apply (Hm 5001)|]. split; [exact Hk|exact Ew].
Defined.
