(* ===== verification/Console.v ===== *)
(** * The console (kernel/devices/console.cpp)

    Video memory is the sequence of its 2000 cells, 80 to a row.  The copy and
    the fill of [scroll] are those of StringLib.v on cells: [memmoved] of
    80*24/2 double words moves 1920 cells one row up, its source above its
    destination.  [char] is signed: bytes from 128 on are below the blank.  The
    writes of [move_cursor] to the controller's ports are recorded as the last
    index sent. *)

From S2P Require Import Prelude.
From stdpp Require Import gmap list.
#[local] Open Scope Z_scope.

Definition COLS : Z := 80.
Definition ROWS : Z := 25.
Definition attbyte : Z := Z.lor (Z.shiftl 0 4) (Z.land 15 15).
Definition blank : Z := Z.lor 32 (Z.shiftl 15 8).

Record console : Type := Console { video_mem : list Z; cursor_x : Z; cursor_y : Z; crtc : Z }.

(** The port writes of [move_cursor]: 14 and 15 select the high and the low
    byte of the cursor index. *)
Definition port_writes (y x : Z) : list (Z * Z) :=
  let index := u16 (y * 80 + x) in
  [(0x3D4, 14); (0x3D5, u8 (Z.shiftr index 8)); (0x3D4, 15); (0x3D5, u8 index)].
(** What the controller holds after them. *)
Fixpoint crtc_run (sel hi lo : Z) (l : list (Z * Z)) : Z :=
  match l with
  | [] => 256 * hi + lo
  | (p, v) :: r =>
    if p =? 0x3D4 then crtc_run v hi lo r
    else if sel =? 14 then crtc_run sel v lo r else if sel =? 15 then crtc_run sel hi v r else crtc_run sel hi lo r
  end.
Definition move_cursor (y x : Z) (c : console) : console :=
  Console (video_mem c) (cursor_x c) (cursor_y c) (crtc_run 0 (Z.shiftr (crtc c) 8) (u8 (crtc c)) (port_writes y x)).

Definition scroll (c : console) : console :=
  if ROWS <=? cursor_y c then
    Console (take 1920 (drop 80 (video_mem c)) ++ replicate 80 blank) (cursor_x c) 24 (crtc c)
  else c.

(** A write to a cell; outside of video memory it faults. *)
Definition poke (i v : Z) (c : console) : outcome console :=
  if (i <? 0) || (Z.of_nat (length (video_mem c)) <=? i) then Stop Fault
  else Ok (Console (<[Z.to_nat i := v]> (video_mem c)) (cursor_x c) (cursor_y c) (crtc c)).

Definition at_cursor (x y : Z) (c : console) : console := Console (video_mem c) (u8 x) (u8 y) (crtc c).

(** The [switch] of [put]. *)
Definition put_char (ch : Z) (c : console) : outcome console :=
  let x := cursor_x c in
  let y := cursor_y c in
  if ch =? 8 then Ok (if x =? 0 then c else at_cursor (x - 1) y c)
  else if ch =? 9 then Ok (at_cursor (Z.land (x + 8) (Z.lnot 7)) y c)
  else if ch =? 10 then Ok (at_cursor 0 (y + 1) c)
  else if ch =? 13 then Ok (at_cursor 0 y c)
  else if 32 <=? i8 ch then
    match poke (y * 80 + x) (u16 (Z.lor ch (u16 (Z.shiftl attbyte 8)))) c with
    | Stop e => Stop e
    | Ok c => Ok (at_cursor (x + 1) y c)
    end
  else Ok c.

Definition wrap_line (c : console) : console :=
  if COLS <=? cursor_x c then at_cursor 0 (cursor_y c + 1) c else c.

Definition put (ch : Z) (c : console) : outcome console :=
  match put_char ch c with
  | Stop e => Stop e
  | Ok c => let c := scroll (wrap_line c) in Ok (move_cursor (cursor_y c) (cursor_x c) c)
  end.

(** [puts]: the characters before the terminating zero. *)
Fixpoint puts (s : list Z) (c : console) : outcome console :=
  match s with
  | [] => Ok c
  | ch :: r => match put ch c with Stop e => Stop e | Ok c => puts r c end
  end.

(** [clear]: the fill covers the 80*25 cells. *)
Definition clear (c : console) : console :=
  move_cursor 0 0 (Console (replicate 2000 blank ++ drop 2000 (video_mem c)) 0 0 (crtc c)).

(** ** Paper

    What the console shows is a window over unlimited paper: [paper] is the
    paper, a cell per index, and a print head that only moves down. *)

Record paper : Type := Paper { sheet : Z -> Z; head_x : Z; head_y : Z }.

Definition head_to (x y : Z) (p : paper) : paper := Paper (sheet p) x y.
(** Past the right edge the head starts the next row. *)
Definition carriage (p : paper) : paper := if COLS <=? head_x p then head_to 0 (head_y p + 1) p else p.
(** One character at the head. *)
Definition strike (ch : Z) (p : paper) : paper :=
  let x := head_x p in
  let y := head_y p in
  if ch =? 8 then head_to (Z.max 0 (x - 1)) y p
  else if ch =? 9 then head_to (8 * (x / 8 + 1)) y p
  else if ch =? 10 then head_to 0 (y + 1) p
  else if ch =? 13 then head_to 0 y p
  else if 32 <=? i8 ch then
    Paper (fun i => if i =? 80 * y + x then ch + 0x0F00 else sheet p i) (x + 1) y
  else p.
Definition print (ch : Z) (p : paper) : paper := carriage (strike ch p).
Definition print_all (s : list Z) (p : paper) : paper := fold_left (fun p ch => print ch p) s p.
Definition fresh_paper : paper := Paper (fun _ => blank) 0 0.

(** The window starts at row [t]; below it the paper is blank. *)
Record window (t : Z) (p : paper) (c : console) : Prop := {
  w_top : 0 <= t;
  w_len : length (video_mem c) = 2000%nat;
  w_x : cursor_x c = head_x p;
  w_y : cursor_y c = head_y p - t;
  w_xr : 0 <= head_x p < 80;
  w_yr : t <= head_y p < t + 25;
  w_cells : forall i, 0 <= i < 2000 -> video_mem c !! Z.to_nat i = Some (sheet p (80 * t + i));
  w_below : forall j, 80 * (t + 25) <= j -> sheet p j = blank;
  w_crtc : crtc c = 80 * cursor_y c + cursor_x c }.

Lemma crtc_index y x hi lo : 0 <= y * 80 + x < 2 ^ 16 -> crtc_run 0 hi lo (port_writes y x) = 80 * y + x.
Proof.
  intros Hr. unfold port_writes. cbn [crtc_run Z.eqb Pos.eqb]. unfold u16. rewrite wrap_small by exact Hr.
  rewrite Z.shiftr_div_pow2 by lia. unfold u8, wrap.
  rewrite (Z.mod_small (_ / _)) by (split; [apply Z.div_pos; lia|apply Z.div_lt_upper_bound; lia]).
  change (2 ^ 8) with 256. pose proof (Z.div_mod (y * 80 + x) 256). lia.
Qed.

(** The window while [put] is at work: the cursor may be [xm] columns and [ym]
    rows into it, one more than the screen has. *)
Record draft (xm ym t : Z) (p : paper) (c : console) : Prop := {
  d_top : 0 <= t;
  d_len : length (video_mem c) = 2000%nat;
  d_x : cursor_x c = head_x p;
  d_y : cursor_y c = head_y p - t;
  d_xr : 0 <= head_x p <= xm;
  d_yr : t <= head_y p <= t + ym;
  d_cells : forall i, 0 <= i < 2000 -> video_mem c !! Z.to_nat i = Some (sheet p (80 * t + i));
  d_below : forall j, 80 * (t + 25) <= j -> sheet p j = blank }.

Lemma window_draft t p c : window t p c -> draft 79 24 t p c.
Proof. intros []. split; auto; lia. Qed.

(** Moving the cursor moves the head. *)
Lemma draft_move xm ym xm' ym' t p c x y :
  draft xm ym t p c -> 0 <= x <= xm' -> xm' < 256 -> t <= y <= t + ym' -> ym' < 256 ->
  draft xm' ym' t (head_to x y p) (at_cursor x (y - t) c).
Proof.
  intros [H1 H2 _ _ _ _ H7 H8] Hx Hxm Hy Hym. unfold at_cursor, head_to, u8.
  split; simpl; auto; rewrite wrap_small; lia.
Qed.
Lemma draft_weaken xm ym xm' ym' t p c : draft xm ym t p c -> xm <= xm' -> ym <= ym' -> draft xm' ym' t p c.
Proof. intros [] ? ?. split; auto; lia. Qed.

Lemma tab_stop x : 0 <= x -> Z.land (x + 8) (Z.lnot 7) = 8 * (x / 8 + 1).
Proof.
  intros Hx. rewrite <- Z.ldiff_land. change 7 with (Z.ones 3). rewrite Z.ldiff_ones_r, Z.shiftl_mul_pow2, Z.shiftr_div_pow2 by lia.
  change (2 ^ 3) with 8. replace (x + 8) with (x + 1 * 8) by lia. rewrite Z.div_add by lia. lia.
Qed.

Lemma cell_value ch : 0 <= ch < 256 -> u16 (Z.lor ch (u16 (Z.shiftl attbyte 8))) = ch + 0x0F00.
Proof.
  intros Hc. change (u16 (Z.shiftl attbyte 8)) with 3840.
  assert (E : Z.land ch 3840 = 0).
  { rewrite <- (Z.mod_small ch (2 ^ 8)) by lia. rewrite <- Z.land_ones, <- Z.land_assoc by lia. apply Z.land_0_r. }
  rewrite <- Z.lxor_lor by exact E. rewrite <- Z.add_nocarry_lxor by exact E. unfold u16. rewrite wrap_small; lia.
Qed.

Lemma poke_draft t p c ch :
  draft 79 24 t p c -> 0 <= ch < 256 ->
  exists c', poke (cursor_y c * 80 + cursor_x c) (ch + 0x0F00) c = Ok c' /\ cursor_y c' = cursor_y c /\
    draft 79 24 t (Paper (fun i => if i =? 80 * head_y p + head_x p then ch + 0x0F00 else sheet p i) (head_x p) (head_y p)) c'.
Proof.
  intros [H1 H2 H3 H4 H5 H6 H7 H8] Hc. unfold poke. rewrite H2, H3, H4.
  destruct (Z.ltb_spec ((head_y p - t) * 80 + head_x p) 0); [lia|].
  destruct (Z.leb_spec (Z.of_nat 2000) ((head_y p - t) * 80 + head_x p)); [lia|]. cbn [orb].
  eexists. split; [reflexivity|]. split; [simpl; lia|]. split; simpl; auto.
  - by rewrite length_insert.
  - intros i Hi. destruct (Z.eqb_spec (80 * t + i) (80 * head_y p + head_x p)) as [E|E].
    + replace ((head_y p - t) * 80 + head_x p) with i by lia. apply list_lookup_insert_eq. lia.
    + rewrite list_lookup_insert_ne by lia. auto.
  - intros j Hj. destruct (Z.eqb_spec j (80 * head_y p + head_x p)); [lia|auto].
Qed.

Lemma put_char_draft t p c ch :
  draft 79 24 t p c -> 0 <= ch < 256 ->
  exists c', put_char ch c = Ok c' /\ (draft 80 24 t (strike ch p) c' \/ draft 0 25 t (strike ch p) c').
Proof.
  intros Hd Hc. pose proof Hd as [H1 H2 H3 H4 H5 H6 H7 H8]. unfold put_char, strike. cbv zeta.
  assert (Hrow : cursor_y c = head_y p - t) by exact H4.
  destruct (ch =? 8).
  { eexists. split; [reflexivity|left]. rewrite H3. destruct (Z.eqb_spec (head_x p) 0) as [E|E].
    - rewrite E. change (Z.max 0 (0 - 1)) with 0. split; simpl; auto; try lia.
    - replace (Z.max 0 (head_x p - 1)) with (head_x p - 1) by lia. rewrite H4. eapply draft_move; eauto; lia. }
  destruct (ch =? 9).
  { eexists. split; [reflexivity|left]. rewrite H3, tab_stop, H4 by lia.
    assert (0 <= head_x p / 8 <= 9) by (split; [apply Z.div_pos; lia|apply Z.lt_succ_r, Z.div_lt_upper_bound; lia]).
    eapply draft_move; eauto; lia. }
  destruct (ch =? 10).
  { eexists. split; [reflexivity|right]. replace (cursor_y c + 1) with (head_y p + 1 - t) by lia. eapply draft_move; eauto; lia. }
  destruct (ch =? 13).
  { eexists. split; [reflexivity|left]. rewrite H4. eapply draft_move; eauto; lia. }
  destruct (32 <=? i8 ch); [|eexists; split; [reflexivity|left]; eapply draft_weaken; eauto; lia].
  rewrite cell_value by exact Hc. destruct (poke_draft t p c ch Hd Hc) as (c' & -> & Hy & Hd').
  eexists. split; [reflexivity|left]. rewrite H3, H4. eapply draft_move in Hd'; [exact Hd'|lia..].
Qed.

Lemma wrap_line_draft t p c :
  draft 80 24 t p c \/ draft 0 25 t p c -> draft 79 25 t (carriage p) (wrap_line c).
Proof.
  intros Hd. unfold wrap_line, carriage, COLS.
  assert (Hx : cursor_x c = head_x p) by (destruct Hd as [[]|[]]; auto).
  assert (Hy : cursor_y c = head_y p - t) by (destruct Hd as [[]|[]]; auto).
  rewrite Hx. destruct (Z.leb_spec 80 (head_x p)).
  - destruct Hd as [Hd|Hd]; [|pose proof (d_xr _ _ _ _ _ Hd); lia]. pose proof (d_yr _ _ _ _ _ Hd).
    replace (cursor_y c + 1) with (head_y p + 1 - t) by lia. eapply draft_move; eauto; lia.
  - destruct Hd as [[]|[]]; split; auto; lia.
Qed.

Lemma scroll_draft t p c : draft 79 25 t p c -> exists t', t <= t' <= t + 1 /\ draft 79 24 t' p (scroll c).
Proof.
  intros [H1 H2 H3 H4 H5 H6 H7 H8]. unfold scroll, ROWS. destruct (Z.leb_spec 25 (cursor_y c)) as [Hs|Hs].
  2:{ exists t. split; [lia|]. split; auto; lia. }
  exists (t + 1). split; [lia|]. split; cbn [video_mem cursor_x cursor_y crtc]; try lia.
  - rewrite length_app, length_take, length_drop, length_replicate. lia.
  - intros i Hi. destruct (Z_lt_dec i 1920) as [Hlt|Hge].
    + rewrite lookup_app_l by (rewrite length_take, length_drop; lia).
      rewrite lookup_take_lt, lookup_drop by lia. replace (80 + Z.to_nat i)%nat with (Z.to_nat (80 + i)) by lia.
      rewrite H7 by lia. f_equal. f_equal. lia.
    + rewrite lookup_app_r by (rewrite length_take, length_drop; lia).
      rewrite length_take, length_drop, H2. rewrite lookup_replicate_2 by lia. f_equal. symmetry. apply H8. lia.
  - intros j Hj. apply H8. lia.
Qed.

Lemma put_window t p c ch :
  window t p c -> 0 <= ch < 256 -> exists t' c', put ch c = Ok c' /\ t <= t' <= t + 1 /\ window t' (print ch p) c'.
Proof.
  intros Hw Hc. unfold put. destruct (put_char_draft t p c ch (window_draft _ _ _ Hw) Hc) as (c1 & -> & Hd).
  apply wrap_line_draft in Hd. apply scroll_draft in Hd as (t' & Ht & [H1 H2 H3 H4 H5 H6 H7 H8]).
  eexists t', _. split; [reflexivity|]. split; [exact Ht|].
  unfold print. split; cbn [move_cursor video_mem cursor_x cursor_y crtc]; auto; try lia. rewrite crtc_index; [lia|]. rewrite H3, H4. lia.
Qed.

Lemma puts_window s t p c :
  window t p c -> Forall (fun ch => 0 <= ch < 256) s ->
  exists t' c', puts s c = Ok c' /\ t <= t' /\ window t' (print_all s p) c'.
Proof.
  intros Hw Hs. revert t p c Hw. induction Hs as [|ch s Hc Hs IH]; intros t p c Hw; cbn [puts print_all fold_left].
  - exists t, c. split; [reflexivity|]. split; [lia|exact Hw].
  - destruct (put_window t p c ch Hw Hc) as (t1 & c1 & -> & Ht & Hw1).
    destruct (IH t1 _ c1 Hw1) as (t' & c' & E & Ht' & Hw'). exists t', c'. split; [exact E|]. split; [lia|exact Hw'].
Qed.

Lemma clear_window c : length (video_mem c) = 2000%nat -> window 0 fresh_paper (clear c).
Proof.
  intros Hl. unfold clear, move_cursor. generalize (crtc c). intros k.
  assert (Hn : length (replicate 2000 blank) = 2000%nat) by apply length_replicate.
  assert (Hb : forall i, (i < 2000)%nat -> replicate 2000 blank !! i = Some blank) by (intros; by apply lookup_replicate_2).
  revert Hn Hb. generalize (replicate 2000 blank). intros r Hn Hb.
  split; cbn [video_mem cursor_x cursor_y crtc fresh_paper head_x head_y sheet]; try lia; auto.
  - rewrite length_app, length_drop. lia.
  - intros i Hi. rewrite lookup_app_l by lia. apply Hb. lia.
Qed.

(** C28: The screen is a window over unlimited paper: after [clear], whatever
    characters are put, no access leaves video memory, the screen shows 25
    consecutive rows of what a printer without scrolling would have printed, the
    row under the cursor among them, everything below is blank, and the hardware
    cursor is at the position of the print head. *)
Theorem console_refines_paper (c : console) (s : list Z) :
  length (video_mem c) = 2000%nat -> Forall (fun ch => 0 <= ch < 256) s ->
  exists t c', puts s (clear c) = Ok c' /\ window t (print_all s fresh_paper) c'.
Proof.
  intros Hl Hs. destruct (puts_window s 0 _ _ (clear_window c Hl) Hs) as (t & c' & E & _ & Hw). eauto.
Qed.

(** Thirty lines: five have left the screen. *)
Definition thirty : list Z := concat (replicate 30 [65; 10]).
Definition dark : console := Console (replicate 2000 0) 3 7 0.
Lemma console_refines_paper_witness :
  exists t c', puts thirty (clear dark) = Ok c' /\ window t (print_all thirty fresh_paper) c' /\
    head_y (print_all thirty fresh_paper) = 30.
Proof.
  destruct (console_refines_paper dark thirty) as (t & c' & E & Hw); [reflexivity| |].
  - apply (bool_decide_unpack _). vm_compute. exact I.
  - exists t, c'. split; [exact E|]. split; [exact Hw|]. reflexivity.
Defined.
