(* ===== verification/Keyboard.v ===== *)
(** * The keyboard driver (kernel/devices/keyboard.cpp, keycodes.h)

    A ring buffer of 4096 bytes between the interrupt handler, which decodes
    scan codes, and [getch].  What the handler echoes goes to the console
    (Console.v); waking the readers is [condvar::wake] (Sched.v). *)

From Stdlib Require Import Ascii String.
From S2P Require Import Prelude.
From stdpp Require Import gmap list.
#[local] Open Scope Z_scope.

Definition BUFSIZE : Z := 4096.

Definition KEY_CNTRL : Z := 0x1D.
Definition KEY_LSHIFT : Z := 0x2A.
Definition KEY_RSHIFT : Z := 0x36.
Definition KEY_ALT : Z := 0x38.

Definition chr (s : string) : list Z := (fun c => Z.of_nat (nat_of_ascii c)) <$> list_ascii_of_string s.

(** [kbdus]: the character of each key. *)
Definition kbdus : list Z :=
  let l := [0; 27] ++ chr "1234567890-=" ++ [8; 9] ++ chr "qwertyuiop[]" ++ [10; 0] ++ chr "asdfghjkl;'`" ++ [0] ++
           chr "\zxcvbnm,./" ++ [0; 42; 0; 32; 0] ++ replicate 10 0 ++ [0; 0; 0; 0; 0; 45; 0; 0; 0; 43; 0; 0; 0; 0; 0] in
  l ++ replicate (128 - length l) 0.

(** The table of shifted characters, as [init] fills it. *)
Definition shift_pairs : list (Z * Z) :=
  zip (chr "1234567890`-=[]\;',./") (chr "!@#$%^&*()~_+{}|:" ++ [34] ++ chr "<>?").
Definition shift_init : list Z :=
  let l := Z.of_nat <$> seq 0 128 in
  let l := fold_left (fun l i => <[Z.to_nat (i + 97) := i + 65]> l) (Z.of_nat <$> seq 0 26) l in
  fold_left (fun l '(a, b) => <[Z.to_nat a := b]> l) shift_pairs l.

Record modifiers : Type := Modi { m_ctrl : bool; m_alt : bool; m_lshift : bool; m_rshift : bool }.

Record kbd : Type := Kbd {
  buffer : list Z; buffer_begin : Z; buffer_end : Z; modifier_pressed : modifiers; shift_table : list Z }.

Definition kbd_init : kbd := Kbd (replicate 4096 0) 0 0 (Modi false false false false) shift_init.

Definition press (sc : Z) (b : bool) (m : modifiers) : option modifiers :=
  if sc =? KEY_CNTRL then Some (Modi b (m_alt m) (m_lshift m) (m_rshift m))
  else if sc =? KEY_ALT then Some (Modi (m_ctrl m) b (m_lshift m) (m_rshift m))
  else if sc =? KEY_LSHIFT then Some (Modi (m_ctrl m) (m_alt m) b (m_rshift m))
  else if sc =? KEY_RSHIFT then Some (Modi (m_ctrl m) (m_alt m) (m_lshift m) b)
  else None.

(** What the handler made of a scan code: the character it queued and woke the
    readers for (0: none), and the one it echoed. *)
Record scanned : Type := Scanned { queued : Z; echoed : option Z }.

Definition lookup_key (tbl : list Z) (i : Z) : outcome Z :=
  if i <? 0 then Stop Fault else match tbl !! Z.to_nat i with Some c => Ok c | None => Stop Fault end.

(** [buffer[buffer_end] = ch], then the index moves on. *)
Definition enqueue (ch : Z) (k : kbd) : outcome kbd :=
  if (buffer_end k <? 0) || (Z.of_nat (length (buffer k)) <=? buffer_end k) then Stop Fault
  else Ok (Kbd (<[Z.to_nat (buffer_end k) := ch]> (buffer k)) (buffer_begin k)
               (u32 (buffer_end k + 1) mod BUFSIZE) (modifier_pressed k) (shift_table k)).

Definition with_modi (m : modifiers) (k : kbd) : kbd :=
  Kbd (buffer k) (buffer_begin k) (buffer_end k) m (shift_table k).

(** The handler; [None] when the buffer is full and the scan code is left in
    the controller. *)
Definition read_scancode (sc : Z) (k : kbd) : outcome (option scanned * kbd) :=
  if u32 (buffer_end k + 1) mod BUFSIZE =? buffer_begin k then Ok (None, k)
  else if negb (Z.land sc 0x80 =? 0) then
    Ok (Some (Scanned 0 None),
        match press (Z.land sc 0x7F) false (modifier_pressed k) with Some m => with_modi m k | None => k end)
  else
    match press sc true (modifier_pressed k) with
    | Some m => Ok (Some (Scanned 0 None), with_modi m k)
    | None =>
      match lookup_key kbdus sc with
      | Stop e => Stop e
      | Ok c =>
        match (if m_lshift (modifier_pressed k) || m_rshift (modifier_pressed k)
               then lookup_key (shift_table k) c else Ok c) with
        | Stop e => Stop e
        | Ok ch =>
          if ch =? 0 then Ok (Some (Scanned 0 (Some 0)), k)
          else match enqueue ch k with
               | Stop e => Stop e
               | Ok k' => Ok (Some (Scanned ch (Some ch)), k')
               end
        end
      end
    end.

(** [getch]: [None] while it waits for a key. *)
Definition getch (k : kbd) : outcome (option Z * kbd) :=
  if buffer_begin k =? buffer_end k then Ok (None, k)
  else
    match lookup_key (buffer k) (buffer_begin k) with
    | Stop e => Stop e
    | Ok ch => Ok (Some ch, Kbd (buffer k) (u32 (buffer_begin k + 1) mod BUFSIZE) (buffer_end k) (modifier_pressed k) (shift_table k))
    end.

(** ** The abstract keyboard: a bounded queue of characters *)

(** Upper case of a letter, the other character of a key that has two. *)
Definition shifted (c : Z) : Z :=
  if (97 <=? c) && (c <=? 122) then c - 32
  else match list_find (fun p => p.1 = c) shift_pairs with Some (_, p) => p.2 | None => c end.

Record keys : Type := Keys { kq : list Z; kmod : modifiers }.

Definition key_spec (sc : Z) (q : keys) : option scanned * keys :=
  if (4095 <=? length (kq q))%nat then (None, q)
  else if 128 <=? sc then
    (Some (Scanned 0 None),
     match press (sc - 128) false (kmod q) with Some m => Keys (kq q) m | None => q end)
  else match press sc true (kmod q) with
       | Some m => (Some (Scanned 0 None), Keys (kq q) m)
       | None =>
         let c := nth (Z.to_nat sc) kbdus 0 in
         let ch := if m_lshift (kmod q) || m_rshift (kmod q) then shifted c else c in
         (Some (Scanned ch (Some ch)), if ch =? 0 then q else Keys (kq q ++ [ch]) (kmod q))
       end.
Definition getch_spec (q : keys) : option Z * keys :=
  match kq q with [] => (None, q) | c :: r => (Some c, Keys r (kmod q)) end.

(** The ring buffer holds the queue. *)
Record ring (k : kbd) (q : keys) : Prop := {
  r_len : length (buffer k) = 4096%nat;
  r_begin : 0 <= buffer_begin k < 4096;
  r_end : buffer_end k = (buffer_begin k + Z.of_nat (length (kq q))) mod 4096;
  r_max : (length (kq q) <= 4095)%nat;
  r_cells : forall i c, kq q !! i = Some c -> buffer k !! Z.to_nat ((buffer_begin k + Z.of_nat i) mod 4096) = Some c;
  r_mod : modifier_pressed k = kmod q;
  r_shift : shift_table k = shift_init }.

(** ** The tables *)

Lemma lookup_key_ok tbl i : 0 <= i < Z.of_nat (length tbl) -> lookup_key tbl i = Ok (nth (Z.to_nat i) tbl 0).
Proof.
  intros Hi. unfold lookup_key. rewrite (proj2 (Z.ltb_ge i 0)) by lia.
  destruct (lookup_lt_is_Some_2 tbl (Z.to_nat i)) as [c Hc]; [lia|]. rewrite Hc. f_equal. symmetry.
  by apply nth_lookup_Some.
Qed.
(** A property of the 128 table positions is checked position by position. *)
Lemma check128 (f : nat -> bool) i : forallb f (seq 0 128) = true -> 0 <= i < 128 -> f (Z.to_nat i) = true.
Proof. intros Hf Hi. rewrite forallb_forall in Hf. apply Hf, in_seq. lia. Qed.

Lemma kbdus_range sc : 0 <= sc < 128 -> 0 <= nth (Z.to_nat sc) kbdus 0 < 128.
Proof.
  intros Hs. pose proof (check128 (fun n => (0 <=? nth n kbdus 0) && (nth n kbdus 0 <? 128)) sc ltac:(vm_compute; reflexivity) Hs) as H. cbv beta in H. lia.
Qed.
Lemma shift_ok c : 0 <= c < 128 -> nth (Z.to_nat c) shift_init 0 = shifted c.
Proof.
  intros Hc. pose proof (check128 (fun n => nth n shift_init 0 =? shifted (Z.of_nat n)) c ltac:(vm_compute; reflexivity) Hc) as H.
  cbv beta in H. rewrite Z2Nat.id in H by lia. lia.
Qed.

Lemma bit7 sc : 0 <= sc < 256 ->
  (Z.land sc 0x80 =? 0) = (sc <? 128) /\ (128 <= sc -> Z.land sc 0x7F = sc - 128).
Proof.
  intros Hs. change 0x7F with (Z.ones 7). rewrite Z.land_ones by lia. split.
  - destruct (Z.ltb_spec sc 128).
    + apply Z.eqb_eq. rewrite <- (Z.mod_small sc (2 ^ 7)), <- Z.land_ones, <- Z.land_assoc by lia. apply Z.land_0_r.
    + apply Z.eqb_neq. intros E. assert (Hb : Z.testbit (Z.land sc 128) 7 = true).
      { rewrite Z.land_spec. change (Z.testbit 128 7) with true. rewrite andb_true_r.
        apply Z.testbit_true; [lia|]. change (2 ^ 7) with 128.
        replace (sc / 128) with 1 by (apply Z.div_unique with (sc - 128); lia). reflexivity. }
      rewrite E in Hb. discriminate.
  - intros H. symmetry. apply Z.mod_unique with 1; lia.
Qed.

(** ** The ring *)

Lemma ring_full k q : ring k q ->
  (u32 (buffer_end k + 1) mod BUFSIZE =? buffer_begin k) = (4095 <=? length (kq q))%nat.
Proof.
  intros [H1 H2 H3 H4 _ _ _]. unfold BUFSIZE. rewrite H3.
  assert (Hm := Z.mod_pos_bound (buffer_begin k + Z.of_nat (length (kq q))) 4096 ltac:(lia)).
  rewrite u32_small, Zplus_mod_idemp_l by lia.
  destruct (Nat.leb_spec 4095 (length (kq q))).
  - apply Z.eqb_eq. replace (buffer_begin k + Z.of_nat (length (kq q)) + 1) with (buffer_begin k + 1 * 4096) by lia.
    rewrite Z.mod_add, Z.mod_small by lia. reflexivity.
  - apply Z.eqb_neq. intros E. destruct (Z_lt_dec (buffer_begin k + Z.of_nat (length (kq q)) + 1) 4096) as [Hl|Hl].
    + rewrite Z.mod_small in E by lia. lia.
    + rewrite <- (Z.mod_add _ (-1)), Z.mod_small in E by lia. lia.
Qed.
Lemma ring_empty k q : ring k q -> (buffer_begin k =? buffer_end k) = bool_decide (kq q = []).
Proof.
  intros [H1 H2 H3 H4 _ _ _]. rewrite H3. destruct (kq q) as [|c r]; cbn [length] in *.
  - rewrite Z.add_0_r, Z.mod_small by lia. by rewrite Z.eqb_refl.
  - rewrite bool_decide_false by done. apply Z.eqb_neq. intros E.
    destruct (Z_lt_dec (buffer_begin k + Z.of_nat (S (length r))) 4096).
    + rewrite Z.mod_small in E by lia. lia.
    + rewrite <- (Z.mod_add _ (-1)), Z.mod_small in E by lia. lia.
Qed.

(** Distinct offsets into the ring are distinct cells. *)
Lemma ring_inj b i j : 0 <= i < 4096 -> 0 <= j < 4096 -> (b + i) mod 4096 = (b + j) mod 4096 -> i = j.
Proof.
  intros Hi Hj E. assert (E' : (i - j) mod 4096 = 0).
  { replace (i - j) with ((b + i) - (b + j)) by lia. rewrite Zminus_mod, E, Z.sub_diag. reflexivity. }
  apply Z.mod_divide in E' as [d Hd]; lia.
Qed.

Lemma enqueue_ring k q ch :
  ring k q -> (length (kq q) < 4095)%nat -> exists k', enqueue ch k = Ok k' /\ ring k' (Keys (kq q ++ [ch]) (kmod q)).
Proof.
  intros [H1 H2 H3 H4 H5 H6 H7] Hl. unfold enqueue. rewrite H1.
  assert (He : 0 <= buffer_end k < 4096) by (rewrite H3; apply Z.mod_pos_bound; lia).
  destruct (Z.ltb_spec (buffer_end k) 0); [lia|]. destruct (Z.leb_spec (Z.of_nat 4096) (buffer_end k)); [lia|]. cbn [orb].
  eexists. split; [reflexivity|]. split; cbn [buffer buffer_begin buffer_end kq kmod modifier_pressed shift_table]; auto.
  - by rewrite length_insert.
  - unfold BUFSIZE. rewrite u32_small by lia. rewrite H3, Zplus_mod_idemp_l, length_app. f_equal. simpl. lia.
  - rewrite length_app. simpl. lia.
  - intros i c Hc. assert (Hi : (i < length (kq q ++ [ch]))%nat) by (apply lookup_lt_is_Some_1; eauto).
    rewrite length_app in Hi. simpl in Hi. destruct (Nat.eq_dec i (length (kq q))) as [->|Hne].
    + rewrite list_lookup_middle in Hc by done. injection Hc as <-. rewrite <- H3. apply list_lookup_insert_eq. lia.
    + rewrite lookup_app_l in Hc by lia. rewrite list_lookup_insert_ne; [auto|]. rewrite H3. intros E.
      apply Z2Nat.inj in E; [|apply Z.mod_pos_bound; lia..]. apply ring_inj in E; lia.
Qed.

Lemma read_scancode_refines k q sc :
  ring k q -> 0 <= sc < 256 ->
  exists k', read_scancode sc k = Ok ((key_spec sc q).1, k') /\ ring k' (key_spec sc q).2.
Proof.
  intros Hr Hs. pose proof (ring_full k q Hr) as Hf. destruct (bit7 sc Hs) as [Hb Hlow]. unfold read_scancode, key_spec.
  pose proof Hr as [H1 H2 H3 H4 H5 H6 H7].
  rewrite Hf. destruct (Nat.leb_spec 4095 (length (kq q))); [eauto|]. rewrite Hb, H6.
  assert (Hmod : forall m, ring (with_modi m k) (Keys (kq q) m)) by (intros m; split; auto).
  destruct (Z.ltb_spec sc 128); cbn [negb]; [|destruct (Z.leb_spec 128 sc); [|lia]].
  - destruct (Z.leb_spec 128 sc); [lia|]. destruct (press sc true (kmod q)) as [m|]; [eauto|]. cbv zeta.
    pose proof (kbdus_range sc ltac:(lia)) as Hc. set (c := nth (Z.to_nat sc) kbdus 0) in *.
    rewrite (lookup_key_ok kbdus sc) by (change (length kbdus) with 128%nat; lia). fold c.
    assert (E : (if m_lshift (kmod q) || m_rshift (kmod q) then lookup_key (shift_table k) c else Ok c) =
                Ok (if m_lshift (kmod q) || m_rshift (kmod q) then shifted c else c)).
    { destruct (_ || _); [|reflexivity]. rewrite H7, lookup_key_ok by (change (length shift_init) with 128%nat; lia).
      by rewrite shift_ok. }
    rewrite E. set (ch := if _ || _ then shifted c else c). destruct (Z.eqb_spec ch 0) as [->|Hch]; [eauto|].
    destruct (enqueue_ring k q ch Hr ltac:(lia)) as (k' & -> & Hr'). eauto.
  - rewrite Hlow by lia. destruct (press (sc - 128) false (kmod q)) as [m|]; eauto.
Qed.

Lemma getch_refines k q :
  ring k q -> exists k', getch k = Ok ((getch_spec q).1, k') /\ ring k' (getch_spec q).2.
Proof.
  intros Hr. pose proof (ring_empty k q Hr) as He. pose proof Hr as [H1 H2 H3 H4 H5 H6 H7]. unfold getch, getch_spec.
  rewrite He. destruct (kq q) as [|c r] eqn:Eq.
  { rewrite bool_decide_true by done. exists k. split; [reflexivity|]. by simpl. }
  rewrite bool_decide_false by done. pose proof (H5 0%nat c eq_refl) as Hc. rewrite Z.add_0_r, Z.mod_small in Hc by lia.
  unfold lookup_key. rewrite (proj2 (Z.ltb_ge (buffer_begin k) 0)) by lia. rewrite Hc. eexists. split; [reflexivity|].
  cbn [length] in *. split; cbn [buffer buffer_begin buffer_end kq kmod modifier_pressed shift_table snd]; auto.
  - unfold BUFSIZE. apply Z.mod_pos_bound. lia.
  - unfold BUFSIZE. rewrite u32_small, Zplus_mod_idemp_l, H3 by lia. f_equal. lia.
  - lia.
  - intros i d Hd. unfold BUFSIZE. rewrite u32_small, Zplus_mod_idemp_l by lia.
    rewrite <- (H5 (S i) d Hd). do 2 f_equal. f_equal. lia.
Qed.

(** ** Any interleaving of key strokes and reads *)

Inductive kevent : Type := Scan (sc : Z) | Getch.
Inductive kanswer : Type := AScan (r : option scanned) | AGet (r : option Z).

Definition kstep (e : kevent) (k : kbd) : outcome (kanswer * kbd) :=
  match e with
  | Scan sc => match read_scancode sc k with Ok (r, k) => Ok (AScan r, k) | Stop s => Stop s end
  | Getch => match getch k with Ok (r, k) => Ok (AGet r, k) | Stop s => Stop s end
  end.
Fixpoint kexec (l : list kevent) (k : kbd) : outcome (list kanswer) :=
  match l with
  | [] => Ok []
  | e :: r =>
    match kstep e k with
    | Stop s => Stop s
    | Ok (a, k) => match kexec r k with Ok as_ => Ok (a :: as_) | Stop s => Stop s end
    end
  end.
Fixpoint kspec (l : list kevent) (q : keys) : list kanswer :=
  match l with
  | [] => []
  | Scan sc :: r => let '(a, q) := key_spec sc q in AScan a :: kspec r q
  | Getch :: r => let '(a, q) := getch_spec q in AGet a :: kspec r q
  end.
Definition event_ok (e : kevent) : Prop := match e with Scan sc => 0 <= sc < 256 | Getch => True end.

Lemma kexec_refines l k q : ring k q -> Forall event_ok l -> kexec l k = Ok (kspec l q).
Proof.
  intros Hr Hl. revert k q Hr. induction Hl as [|e l He Hl IH]; intros k q Hr; [reflexivity|].
  destruct e as [sc|]; cbn [kexec kspec kstep].
  - destruct (read_scancode_refines k q sc Hr He) as (k' & -> & Hr'). destruct (key_spec sc q) as [a q'].
    by rewrite (IH k' q' Hr').
  - destruct (getch_refines k q Hr) as (k' & -> & Hr'). destruct (getch_spec q) as [a q'].
    by rewrite (IH k' q' Hr').
Qed.

Lemma kbd_init_ring : ring kbd_init (Keys [] (Modi false false false false)).
Proof.
  split; cbn [kbd_init buffer buffer_begin buffer_end modifier_pressed shift_table kq kmod]; try reflexivity; try (simpl; lia).
  intros i c Hc. rewrite lookup_nil in Hc. discriminate.
Qed.

(** C29: The driver is a first-in first-out queue of at most 4095 characters:
    under any interleaving of scan codes and [getch] calls from start-up, every
    answer is that of the abstract keyboard; no access leaves the tables or the
    ring; the shift state follows the presses and releases of the two shift
    keys, and a shifted key gives the character the other half of the key
    shows; a scan code that arrives while the queue is full is left unread,
    modifiers included. *)
Theorem keyboard_refines_queue (l : list kevent) :
  Forall event_ok l -> kexec l kbd_init = Ok (kspec l (Keys [] (Modi false false false false))).
Proof. apply kexec_refines, kbd_init_ring. Qed.

(** Shift down, [a], shift up, [b], then three reads. *)
Lemma keyboard_refines_queue_witness :
  kexec [Scan 0x2A; Scan 0x1E; Scan 0xAA; Scan 0x30; Getch; Getch; Getch] kbd_init =
    Ok [AScan (Some (Scanned 0 None)); AScan (Some (Scanned 65 (Some 65))); AScan (Some (Scanned 0 None));
        AScan (Some (Scanned 98 (Some 98))); AGet (Some 65); AGet (Some 98); AGet None].
Proof.
  rewrite (keyboard_refines_queue [Scan 0x2A; Scan 0x1E; Scan 0xAA; Scan 0x30; Getch; Getch; Getch]).
  - vm_compute. reflexivity.
  - repeat (constructor; [simpl; first [lia|exact I]|]). constructor.
Defined.
