(* ===== verification/Printf.v ===== *)
(** * Formatted output (kernel/devices/consoleprintf.cpp)

    The conversions of [_vprintf] and [number] only ever hand characters to
    [put_n]: they are modelled by the sequence of characters they hand over, and
    [put_n] folds over that sequence.  A format string is the list of its bytes
    before the terminating zero.  The values in [args] are 32-bit words,
    strings, or (for [%n]) the address of an [int]; reading an argument that is
    not there or not of that kind has no meaning in C and faults. *)

From Stdlib Require Import Ascii String.
From S2P Require Import Prelude Console.
From stdpp Require Import gmap list.
#[local] Open Scope Z_scope.

Definition text (s : string) : list Z := (fun c => Z.of_nat (nat_of_ascii c)) <$> list_ascii_of_string s.

Definition ZEROPAD : Z := 1.
Definition SIGN : Z := 2.
Definition PLUS : Z := 4.
Definition SPACE : Z := 8.
Definition LEFT : Z := 16.
Definition SPECIAL : Z := 32.
Definition SMALL : Z := 64.

Definition has (flag type : Z) : bool := negb (Z.land type flag =? 0).
Definition is_digit (c : Z) : bool := (48 <=? c) && (c <=? 57).

(** while (n-- > 0) put_n(c); the characters, and what is left of [n]. *)
Definition pad (n c : Z) : list Z := replicate (Z.to_nat n) c.
Definition rest (n : Z) : Z := Z.min n 0 - 1.

(** ** [number] *)

Definition upper : list Z := text "0123456789ABCDEFGHIJKLMNOPQRSTUVWXYZ".
Definition lower : list Z := text "0123456789abcdefghijklmnopqrstuvwxyz".

(** The digit loop, least significant digit first; [num] is the unsigned
    reading.  A 32-bit number has at most 32 digits, the size of [tmp] is 65. *)
Fixpoint tmp_loop (fuel : nat) (digits : list Z) (num base : Z) : list Z :=
  match fuel with
  | O => []
  | S k => if num =? 0 then [] else nth (Z.to_nat (num mod base)) digits 0 :: tmp_loop k digits (num / base) base
  end.

Definition number (num base size precision type : Z) : list Z :=
  if (base <? 2) || (36 <? base) then []
  else
    let digits := if has SMALL type then lower else upper in
    let type := if has LEFT type then Z.land type (Z.lnot ZEROPAD) else type in
    let c := if has ZEROPAD type then 48 else 32 in
    let neg := has SIGN type && (num <? 0) in
    let sign := if neg then 45 else if has PLUS type then 43 else if has SPACE type then 32 else 0 in
    let num := if neg then i32 (- num) else num in
    let size := if sign =? 0 then size else size - 1 in
    let size := if has SPECIAL type then (if base =? 16 then size - 2 else if base =? 8 then size - 1 else size) else size in
    let tmp := if num =? 0 then [48] else tmp_loop 32 digits (u32 num) base in
    let i := Z.of_nat (length tmp) in
    let precision := if precision <? i then i else precision in
    let size := size - precision in
    let plain := negb (has (ZEROPAD + LEFT) type) in
    let s1 := if plain then pad size 32 else [] in
    let size := if plain then rest size else size in
    let s2 := if sign =? 0 then [] else [sign] in
    let s3 := if has SPECIAL type then
                (if base =? 8 then [48] else if base =? 16 then [48; nth 33 digits 0] else []) else [] in
    let s4 := if has LEFT type then [] else pad size c in
    let size := if has LEFT type then size else rest size in
    s1 ++ s2 ++ s3 ++ s4 ++ pad (precision - i) 48 ++ rev tmp ++ pad size 32.

(** ** [_vprintf] *)

Inductive varg : Type := VWord (w : Z) | VStr (s : list Z) | VRef (a : Z).

(** The characters handed to [put_n], and the stores of [%n]: address and the
    number of characters printed before it. *)
Record rendered : Type := Rendered { chars : list Z; stores : list (Z * Z) }.

Fixpoint flags_loop (flags : Z) (fmt : list Z) : Z * list Z :=
  match fmt with
  | c :: r =>
    if c =? 45 then flags_loop (Z.lor flags LEFT) r
    else if c =? 43 then flags_loop (Z.lor flags PLUS) r
    else if c =? 32 then flags_loop (Z.lor flags SPACE) r
    else if c =? 35 then flags_loop (Z.lor flags SPECIAL) r
    else if c =? 48 then flags_loop (Z.lor flags ZEROPAD) r
    else (flags, fmt)
  | [] => (flags, fmt)
  end.

Fixpoint skip_atoi (i : Z) (fmt : list Z) : Z * list Z :=
  match fmt with
  | c :: r => if is_digit c then skip_atoi (i32 (i * 10 + c - 48)) r else (i, fmt)
  | [] => (i, fmt)
  end.

Definition next_word (args : list varg) : outcome (Z * list varg) :=
  match args with VWord w :: r => Ok (i32 w, r) | _ => Stop Fault end.

(** The field width; a star takes the next argument and stays in place. *)
Definition get_width (flags : Z) (fmt : list Z) (args : list varg) : outcome (Z * Z * list Z * list varg) :=
  match fmt with
  | c :: _ =>
    if is_digit c then let '(w, fmt) := skip_atoi 0 fmt in Ok (w, flags, fmt, args)
    else if c =? 42 then
      match next_word args with
      | Stop e => Stop e
      | Ok (w, args) => Ok (if w <? 0 then (i32 (- w), Z.lor flags LEFT, fmt, args) else (w, flags, fmt, args))
      end
    else Ok (-1, flags, fmt, args)
  | [] => Ok (-1, flags, fmt, args)
  end.

Definition get_precision (fmt : list Z) (args : list varg) : outcome (Z * list Z * list varg) :=
  match fmt with
  | 46 :: fmt =>
    match fmt with
    | c :: _ =>
      if is_digit c then let '(p, fmt) := skip_atoi 0 fmt in Ok (Z.max p 0, fmt, args)
      else if c =? 42 then
        match next_word args with Stop e => Stop e | Ok (p, args) => Ok (Z.max p 0, fmt, args) end
      else Ok (0, fmt, args)
    | [] => Ok (0, fmt, args)
    end
  | _ => Ok (-1, fmt, args)
  end.

Definition skip_qualifier (fmt : list Z) : list Z :=
  match fmt with c :: r => if (c =? 104) || (c =? 108) || (c =? 76) then r else fmt | [] => fmt end.

(** [%c] and [%s] with their padding. *)
Definition put_chr (flags width c : Z) : list Z :=
  let before := if has LEFT flags then [] else pad (width - 1) 32 in
  let width := if has LEFT flags then width else Z.min (width - 1) 0 in
  before ++ [u8 c] ++ pad (width - 1) 32.
Definition put_str (flags width precision : Z) (s : list Z) : list Z :=
  let len := Z.of_nat (length s) in
  let len := if (precision <? 0) || (len <=? precision) then len else precision in
  let before := if has LEFT flags then [] else pad (width - len) 32 in
  let width := if has LEFT flags then width else Z.min width len - 1 in
  before ++ take (Z.to_nat len) s ++ pad (width - len) 32.

(** The [switch] on the conversion character [fmt] starts with: what is put, the
    arguments left and a [%n] store.  [n] characters were put before. *)
Definition convert (flags width precision : Z) (fmt : list Z) (args : list varg) : outcome (list Z * list varg * option Z) :=
  let int base flags width :=
    match next_word args with
    | Stop e => Stop e
    | Ok (w, args) => Ok (number w base width precision flags, args, None)
    end in
  match fmt with
  | [] => Ok ([37], args, None)
  | c :: _ =>
    if c =? 99 then
      match next_word args with Stop e => Stop e | Ok (w, args) => Ok (put_chr flags width w, args, None) end
    else if c =? 115 then
      match args with
      | VStr s :: args => Ok (put_str flags width precision s, args, None)
      | _ => Stop Fault
      end
    else if c =? 111 then int 8 flags width
    else if c =? 112 then if width =? -1 then int 16 (Z.lor flags ZEROPAD) 8 else int 16 flags width
    else if c =? 120 then int 16 (Z.lor flags SMALL) width
    else if c =? 88 then int 16 flags width
    else if (c =? 100) || (c =? 105) then int 10 (Z.lor flags SIGN) width
    else if c =? 117 then int 10 flags width
    else if c =? 110 then match args with VRef a :: args => Ok ([], args, Some a) | _ => Stop Fault end
    else if c =? 37 then Ok ([37], args, None)
    else Ok ([37; c], args, None)
  end.

(** The loop over the format; [n] characters were put before. *)
Fixpoint render (fuel : nat) (fmt : list Z) (args : list varg) (n : Z) : outcome rendered :=
  match fuel with
  | O => Stop Fuel
  | S k =>
    match fmt with
    | [] => Ok (Rendered [] [])
    | c :: r =>
      if negb (c =? 37) then
        match render k r args (i32 (n + 1)) with
        | Stop e => Stop e
        | Ok x => Ok (Rendered (c :: chars x) (stores x))
        end
      else
        let '(flags, fmt) := flags_loop 0 r in
        match get_width flags fmt args with
        | Stop e => Stop e
        | Ok (width, flags, fmt, args) =>
          match get_precision fmt args with
          | Stop e => Stop e
          | Ok (precision, fmt, args) =>
            let fmt := skip_qualifier fmt in
            match convert flags width precision fmt args with
            | Stop e => Stop e
            | Ok (w, args, st) =>
              match render k (tail fmt) args (i32 (n + Z.of_nat (length w))) with
              | Stop e => Stop e
              | Ok x => Ok (Rendered (w ++ chars x) (match st with Some a => (a, n) :: stores x | None => stores x end))
              end
            end
          end
        end
    end
  end.

(** ** [put_n] and the buffer *)

(** [buf]: the characters between [buffer] and [cur_loc]. *)
Record pst : Type := Pst { buf : list Z; num_printed : Z; con : console }.

(** What [puts] shows of a buffer: the characters before the first zero. *)
Fixpoint until_nul (l : list Z) : list Z :=
  match l with [] => [] | c :: r => if c =? 0 then [] else c :: until_nul r end.
Definition flush (s : pst) : outcome pst :=
  match puts (until_nul (buf s)) (con s) with Stop e => Stop e | Ok c => Ok (Pst [] (num_printed s) c) end.

Definition put_n (ch : Z) (s : pst) : outcome pst :=
  match (if (1022 <? length (buf s))%nat then flush s else Ok (Pst (buf s ++ [ch]) (num_printed s) (con s))) with
  | Stop e => Stop e
  | Ok s => Ok (Pst (buf s) (i32 (num_printed s + 1)) (con s))
  end.
Fixpoint put_all (w : list Z) (s : pst) : outcome pst :=
  match w with [] => Ok s | c :: r => match put_n c s with Stop e => Stop e | Ok s => put_all r s end end.

(** [_vprintf] and [printf]: the number of characters, the stores of [%n] and
    the console. *)
Definition vprintf (fmt : list Z) (args : list varg) (c : console) : outcome (Z * list (Z * Z) * console) :=
  match render (S (length fmt)) fmt args 0 with
  | Stop e => Stop e
  | Ok x =>
    match put_all (chars x) (Pst [] 0 c) with
    | Stop e => Stop e
    | Ok s =>
      match (if bool_decide (buf s = []) then Ok s else flush s) with
      | Stop e => Stop e
      | Ok s => Ok (num_printed s, stores x, con s)
      end
    end
  end.
Definition printf : list Z -> list varg -> console -> outcome (Z * list (Z * Z) * console) := vprintf.

(** ** The loop over the format ends *)

Lemma flags_loop_len fl l : (length (flags_loop fl l).2 <= length l)%nat.
Proof.
  revert fl. induction l as [|c r IH]; intros fl; cbn [flags_loop]; [simpl; lia|].
  repeat (match goal with |- context [if ?b then _ else _] => destruct b end;
          [etransitivity; [apply IH|simpl; lia]|]). simpl. lia.
Qed.
Lemma skip_atoi_len i l : (length (skip_atoi i l).2 <= length l)%nat.
Proof.
  revert i. induction l as [|c r IH]; intros i; cbn [skip_atoi]; [simpl; lia|].
  destruct (is_digit c); [etransitivity; [apply IH|simpl; lia]|]. simpl. lia.
Qed.
Lemma get_width_len fl l args w fl' l' args' :
  get_width fl l args = Ok (w, fl', l', args') -> (length l' <= length l)%nat.
Proof.
  unfold get_width. destruct l as [|c r]; [by intros [= _ _ <- _]|]. destruct (is_digit c).
  - pose proof (skip_atoi_len 0 (c :: r)) as H. destruct (skip_atoi 0 (c :: r)) as [w' l1]. by intros [= _ _ <- _].
  - destruct (c =? 42); [|by intros [= _ _ <- _]]. destruct (next_word args) as [[w' a']|]; [|discriminate].
    destruct (w' <? 0); by intros [= _ _ <- _].
Qed.
Lemma get_precision_len l args p l' args' :
  get_precision l args = Ok (p, l', args') -> (length l' <= length l)%nat.
Proof.
  unfold get_precision. intros H.
  assert (Hsame : Ok (-1, l, args) = Ok (p, l', args') -> (length l' <= length l)%nat) by (by intros [= _ <- _]).
  destruct l as [|c r]; [auto|]. destruct (Z.eq_dec c 46) as [->|Hc].
  - destruct r as [|d r']; [by injection H as _ <- _; simpl; lia|]. destruct (is_digit d).
    + pose proof (skip_atoi_len 0 (d :: r')) as Hl. destruct (skip_atoi 0 (d :: r')) as [w l1].
      injection H as _ <- _. simpl in *. lia.
    + destruct (d =? 42); [destruct (next_word args) as [[w a]|]; [|discriminate]|]; injection H as _ <- _; simpl; lia.
  - apply Hsame. rewrite <- H. destruct c as [|q|q]; try reflexivity.
    repeat (destruct q as [q|q|]; try reflexivity). exfalso. by apply Hc.
Qed.
Lemma skip_qualifier_len l : (length (skip_qualifier l) <= length l)%nat.
Proof. destruct l as [|c r]; simpl; [lia|]. destruct (_ || _); simpl; lia. Qed.

Lemma render_total fuel fmt args n : (length fmt < fuel)%nat -> render fuel fmt args n <> Stop Fuel.
Proof.
  revert fmt args n. induction fuel as [|k IH]; intros fmt args n Hf; [lia|]. cbn [render].
  destruct fmt as [|c r]; [discriminate|]. cbn [length] in Hf.
  destruct (negb (c =? 37)).
  { specialize (IH r args (i32 (n + 1)) ltac:(lia)). destruct (render k r args (i32 (n + 1))); [discriminate|congruence]. }
  pose proof (flags_loop_len 0 r) as H1. destruct (flags_loop 0 r) as [fl l1]. cbn [snd] in H1.
  destruct (get_width fl l1 args) as [[[[w fl'] l2] a2]|e] eqn:E2.
  2:{ unfold get_width in E2. destruct l1 as [|d l1]; [discriminate|]. destruct (is_digit d); [destruct (skip_atoi 0 (d :: l1)); discriminate|].
      destruct (d =? 42); [|discriminate]. unfold next_word in E2. destruct args as [|[]]; try congruence. }
  apply get_width_len in E2.
  destruct (get_precision l2 a2) as [[[p l3] a3]|e] eqn:E3.
  2:{ intros [= ->]. revert E3. clear. unfold get_precision. destruct l2 as [|d l2]; [discriminate|].
      destruct (Z.eq_dec d 46) as [->|Hd].
      - destruct l2 as [|d l2]; [discriminate|]. destruct (is_digit d); [destruct (skip_atoi 0 (d :: l2)); discriminate|].
        destruct (d =? 42); [|discriminate]. unfold next_word. destruct a2 as [|[]]; congruence.
      - destruct d as [|q|q]; try discriminate. repeat (destruct q as [q|q|]; try discriminate). by exfalso. }
  apply get_precision_len in E3. pose proof (skip_qualifier_len l3) as H4. set (l4 := skip_qualifier l3) in *.
  assert (Hconv : convert fl' w p l4 a3 <> Stop Fuel).
  { unfold convert, next_word. destruct l4 as [|d l4]; [discriminate|].
    repeat match goal with
    | |- context [if ?b then _ else _] => destruct b
    | |- context [match ?a with [] => _ | _ => _ end] => destruct a as [|[] ?]
    end; congruence. }
  destruct (convert fl' w p l4 a3) as [[[o a4] st]|e]; [|congruence].
  assert (Hlen : (length (tail l4) < k)%nat) by (destruct l4; simpl in *; lia).
  specialize (IH (tail l4) a4 (i32 (n + Z.of_nat (length o))) Hlen).
  destruct (render k (tail l4) a4 _); [discriminate|congruence].
Qed.

(** ** What reaches the console *)

(** A full buffer (1023 characters) is flushed instead of taking the next
    character: [k] characters are buffered. *)
Fixpoint lossy (k : nat) (w : list Z) : list Z :=
  match w with
  | [] => []
  | c :: r => if (k =? 1023)%nat then lossy 0 r else c :: lossy (S k) r
  end.

Lemma lossy_short k w : (k + length w <= 1023)%nat -> lossy k w = w.
Proof.
  revert k. induction w as [|c r IH]; intros k Hk; cbn [lossy]; [reflexivity|]. cbn [length] in Hk.
  destruct (Nat.eqb_spec k 1023); [lia|]. by rewrite IH by lia.
Qed.
Lemma puts_app a b c : puts (a ++ b) c = match puts a c with Stop e => Stop e | Ok c => puts b c end.
Proof. revert c. induction a as [|x a IH]; intros c; cbn [puts app]; [reflexivity|]. destruct (put x c); auto. Qed.
Lemma until_nul_id l : Forall (fun ch => ch <> 0) l -> until_nul l = l.
Proof.
  induction 1 as [|c l Hc _ IH]; cbn [until_nul]; [reflexivity|]. destruct (Z.eqb_spec c 0); [done|]. by rewrite IH.
Qed.
Lemma i32_add_l x y : i32 (i32 x + y) = i32 (x + y).
Proof.
  assert (E : forall a b, wrap 32 a = wrap 32 b -> i32 a = i32 b) by (intros a b H; unfold i32, to_signed; by rewrite H).
  apply E. unfold i32, to_signed. cbv zeta. unfold wrap. destruct (_ <? _); [by rewrite Zplus_mod_idemp_l|].
  rewrite <- Zplus_mod_idemp_l, Zminus_mod_idemp_l, Zminus_mod, Z_mod_same_full, Z.sub_0_r, !Zmod_mod. by rewrite Zplus_mod_idemp_l.
Qed.
Lemma i32_small_int x : -2 ^ 31 <= x < 2 ^ 31 -> i32 x = x.
Proof.
  intros Hx. unfold i32, to_signed, wrap. cbv zeta. destruct (Z_lt_dec x 0) as [Hn|Hn].
  - rewrite <- (Z.mod_add _ 1), Z.mod_small by lia. destruct (Z.ltb_spec (x + 1 * 2 ^ 32) (2 ^ (32 - 1))); lia.
  - rewrite Z.mod_small by lia. destruct (Z.ltb_spec x (2 ^ (32 - 1))); lia.
Qed.

Definition finish (s : pst) : outcome pst := if bool_decide (buf s = []) then Ok s else flush s.
Lemma put_all_output w b n c :
  (length b <= 1023)%nat -> Forall (fun ch => ch <> 0) b -> Forall (fun ch => ch <> 0) w ->
  match put_all w (Pst b (i32 n) c) with Stop e => Stop e | Ok s => finish s end =
  match puts (b ++ lossy (length b) w) c with
  | Stop e => Stop e
  | Ok c' => Ok (Pst [] (i32 (n + Z.of_nat (length w))) c')
  end.
Proof.
  revert b n c. induction w as [|ch r IH]; intros b n c Hb Hzb Hzw; cbn [put_all lossy].
  - rewrite app_nil_r, Z.add_0_r. unfold finish; cbn [buf]. case_bool_decide as E; [by subst b|].
    unfold flush; cbn [buf con num_printed]. by rewrite (until_nul_id b Hzb).
  - apply Forall_cons in Hzw as [Hch Hzr]. unfold put_n; cbn [buf con num_printed].
    destruct (Nat.ltb_spec 1022 (length b)) as [Hf|Hf].
    + replace (length b =? 1023)%nat with true by (symmetry; apply Nat.eqb_eq; lia).
      unfold flush; cbn [buf con num_printed]. rewrite (until_nul_id b Hzb), puts_app.
      destruct (puts b c) as [c1|e]; [|reflexivity]. cbn [buf con num_printed]. rewrite i32_add_l.
      rewrite (IH [] (n + 1) c1) by (auto; simpl; lia). cbn [app length]. by replace (n + 1 + Z.of_nat (length r)) with (n + Z.of_nat (S (length r))) by lia.
    + replace (length b =? 1023)%nat with false by (symmetry; apply Nat.eqb_neq; lia). cbn [buf con num_printed].
      rewrite i32_add_l, (IH (b ++ [ch]) (n + 1) c); [|rewrite length_app; simpl; lia|apply Forall_app; auto|auto].
      rewrite length_app, <- app_assoc, Nat.add_1_r. cbn [app length]. by replace (n + 1 + Z.of_nat (length r)) with (n + Z.of_nat (S (length r))) by lia.
Qed.

Lemma printf_render fmt args c x :
  render (S (length fmt)) fmt args 0 = Ok x -> Forall (fun ch => ch <> 0) (chars x) ->
  printf fmt args c =
    match puts (lossy 0 (chars x)) c with
    | Stop e => Stop e
    | Ok c' => Ok (i32 (Z.of_nat (length (chars x))), stores x, c')
    end.
Proof.
  intros E Hx. unfold printf, vprintf. rewrite E.
  pose proof (put_all_output (chars x) [] 0 c ltac:(simpl; lia) ltac:(constructor) Hx) as H.
  change (i32 0) with 0 in H. unfold finish in H. cbn [app length] in H. rewrite Z.add_0_l in H.
  destruct (put_all (chars x) (Pst [] 0 c)) as [s|e].
  - rewrite H. destruct (puts _ c); reflexivity.
  - destruct (puts _ c); [discriminate|]. by injection H as ->.
Qed.

(** C31: [printf] terminates on every format, and what it shows is what the
    conversions render: for text without zero bytes the console receives exactly
    the rendered characters as long as they are at most 1023, the result is their
    number; in longer output every 1024th character is lost, because the full
    buffer is flushed without it. *)
Theorem printf_output (fmt : list Z) (args : list varg) (c : console) :
  render (S (length fmt)) fmt args 0 <> Stop Fuel /\
  (forall x, render (S (length fmt)) fmt args 0 = Ok x -> Forall (fun ch => ch <> 0) (chars x) ->
     printf fmt args c =
       match puts (lossy 0 (chars x)) c with
       | Stop e => Stop e
       | Ok c' => Ok (i32 (Z.of_nat (length (chars x))), stores x, c')
       end /\
     ((length (chars x) <= 1023)%nat -> lossy 0 (chars x) = chars x)).
Proof.
  split; [apply render_total; lia|]. intros x E Hx. split; [by apply printf_render|intros; by apply lossy_short].
Qed.

(** ** What [number] writes *)

(** The value of a digit character, and of a digit string, most significant
    digit first. *)
Definition digit_value (c : Z) : Z := if c <=? 57 then c - 48 else if c <=? 90 then c - 55 else c - 87.
Definition digits_value (base : Z) (l : list Z) : Z := fold_left (fun v c => v * base + digit_value c) l 0.

Lemma digits_value_app base l c : digits_value base (l ++ [c]) = digits_value base l * base + digit_value c.
Proof. unfold digits_value. by rewrite fold_left_app. Qed.

Definition alphabet (small : bool) : list Z := if small then lower else upper.
Lemma alphabet_value small d : 0 <= d < 36 -> digit_value (nth (Z.to_nat d) (alphabet small) 0) = d.
Proof.
  intros Hd. assert (H : forallb (fun n => digit_value (nth n (alphabet small) 0) =? Z.of_nat n) (seq 0 36) = true)
    by (destruct small; vm_compute; reflexivity).
  rewrite forallb_forall in H. specialize (H (Z.to_nat d)). rewrite Z2Nat.id in H by lia.
  apply Z.eqb_eq, H, in_seq. lia.
Qed.

Lemma tmp_loop_value fuel small num base :
  2 <= base <= 36 -> 0 <= num < 2 ^ Z.of_nat fuel -> digits_value base (rev (tmp_loop fuel (alphabet small) num base)) = num.
Proof.
  intros Hb. revert num. induction fuel as [|k IH]; intros num Hn; cbn [tmp_loop].
  { simpl in Hn. simpl. unfold digits_value. simpl. lia. }
  destruct (Z.eqb_spec num 0) as [->|H0]; [reflexivity|]. cbn [rev]. rewrite digits_value_app.
  assert (Hdiv : 0 <= num / base < 2 ^ Z.of_nat k).
  { split; [apply Z.div_pos; lia|]. apply Z.div_lt_upper_bound; [lia|]. rewrite Nat2Z.inj_succ, Z.pow_succ_r in Hn by lia. nia. }
  pose proof (Z.mod_pos_bound num base ltac:(lia)). rewrite IH, alphabet_value by lia.
  pose proof (Z.div_mod num base ltac:(lia)). lia.
Qed.
(** No leading zero. *)
Lemma tmp_loop_head fuel small num base :
  2 <= base <= 36 -> 0 < num < 2 ^ Z.of_nat fuel -> exists d l, rev (tmp_loop fuel (alphabet small) num base) = d :: l /\ digit_value d <> 0.
Proof.
  intros Hb. revert num. induction fuel as [|k IH]; intros num Hn; [simpl in Hn; lia|]. cbn [tmp_loop].
  destruct (Z.eqb_spec num 0); [lia|]. cbn [rev]. pose proof (Z.mod_pos_bound num base ltac:(lia)) as Hm.
  destruct (Z_lt_dec num base) as [Hlt|Hge].
  - rewrite (Z.div_small num base), (Z.mod_small num base) by lia. destruct k; cbn [tmp_loop Z.eqb rev app].
    all: eexists _, []; split; [reflexivity|]; rewrite alphabet_value; lia.
  - destruct (IH (num / base)) as (d & l & E & Hd).
    { split; [apply Z.div_str_pos; lia|]. apply Z.div_lt_upper_bound; [lia|]. rewrite Nat2Z.inj_succ, Z.pow_succ_r in Hn by lia. nia. }
    rewrite E. exists d. eexists. split; [reflexivity|exact Hd].
Qed.

(** Flags are single bits. *)
Lemma has_bit k t : 0 <= k -> has (2 ^ k) t = Z.testbit t k.
Proof.
  intros Hk. unfold has. assert (E : Z.land t (2 ^ k) = if Z.testbit t k then 2 ^ k else 0).
  { apply Z.bits_inj'. intros n Hn. rewrite Z.land_spec, Z.pow2_bits_eqb by lia.
    destruct (Z.testbit t k) eqn:Et; rewrite ?Z.pow2_bits_eqb, ?Z.bits_0 by lia;
      (destruct (Z.eqb_spec k n) as [<-|]; [by rewrite Et|apply andb_false_r]). }
  rewrite E. destruct (Z.testbit t k); [|reflexivity]. pose proof (Z.pow_pos_nonneg 2 k ltac:(lia) Hk).
  by rewrite (proj2 (Z.eqb_neq (2 ^ k) 0)) by lia.
Qed.
Lemma has_cleared k t : 0 < k -> has (2 ^ k) (Z.land t (Z.lnot ZEROPAD)) = has (2 ^ k) t.
Proof.
  intros Hk. rewrite !has_bit, Z.land_spec, Z.lnot_spec by lia. change ZEROPAD with (2 ^ 0).
  rewrite Z.pow2_bits_eqb by lia. destruct (Z.eqb_spec 0 k); [lia|]. apply andb_true_r.
Qed.
Lemma has_zeropad_cleared t : has ZEROPAD (Z.land t (Z.lnot ZEROPAD)) = false.
Proof. change ZEROPAD with (2 ^ 0) at 1. rewrite has_bit, Z.land_spec, Z.lnot_spec by lia. apply andb_false_r. Qed.
Lemma has_either t : has (ZEROPAD + LEFT) t = has ZEROPAD t || has LEFT t.
Proof.
  unfold has. change (ZEROPAD + LEFT) with (Z.lor ZEROPAD LEFT). rewrite Z.land_lor_distr_r.
  destruct (Z.eqb_spec (Z.lor (Z.land t ZEROPAD) (Z.land t LEFT)) 0) as [E|E].
  - apply Z.lor_eq_0_iff in E as [-> ->]. reflexivity.
  - destruct (Z.eqb_spec (Z.land t ZEROPAD) 0) as [E1|], (Z.eqb_spec (Z.land t LEFT) 0) as [E2|]; try reflexivity.
    rewrite E1, E2 in E. by contradict E.
Qed.

(** The sign and the prefix of a number, and how a body is laid out in a field
    of [size] columns. *)
Definition sign_of (num type : Z) : list Z :=
  if has SIGN type && (num <? 0) then [45] else if has PLUS type then [43] else if has SPACE type then [32] else [].
Definition prefix_of (base type : Z) : list Z :=
  if has SPECIAL type then
    (if base =? 8 then [48] else if base =? 16 then [48; if has SMALL type then 120 else 88] else []) else [].
Definition in_field (size type : Z) (head body : list Z) : list Z :=
  let fill := size - Z.of_nat (length head) - Z.of_nat (length body) in
  if has LEFT type then head ++ body ++ pad fill 32
  else if has ZEROPAD type then head ++ pad fill 48 ++ body
  else pad fill 32 ++ head ++ body.

Lemma pad_rest n c : pad (rest n) c = [].
Proof. unfold pad, rest. by replace (Z.to_nat (Z.min n 0 - 1)) with 0%nat by lia. Qed.
Lemma pad_length n c : Z.of_nat (length (pad n c)) = Z.max 0 n.
Proof. unfold pad. rewrite length_replicate. lia. Qed.
Lemma in_field_length size type head body :
  Z.of_nat (length (in_field size type head body)) = Z.max size (Z.of_nat (length (head ++ body))).
Proof.
  unfold in_field. cbv zeta. destruct (has LEFT type); [|destruct (has ZEROPAD type)];
    rewrite !length_app, !Nat2Z.inj_add, pad_length; lia.
Qed.

(** The digits of a value, as the loop leaves them. *)
Definition number_digits (num base type : Z) : list Z :=
  let v := if has SIGN type && (num <? 0) then - num else u32 num in
  if v =? 0 then [48] else rev (tmp_loop 32 (alphabet (has SMALL type)) v base).

Lemma number_value num type :
  -2 ^ 31 <= num < 2 ^ 31 ->
  let neg := has SIGN type && (num <? 0) in
  u32 (if neg then i32 (- num) else num) = (if neg then - num else u32 num) /\
  ((if neg then i32 (- num) else num) =? 0) = ((if neg then - num else u32 num) =? 0).
Proof.
  intros Hn neg. destruct neg eqn:En.
  - assert (Hneg : num < 0) by (unfold neg in En; apply andb_true_iff in En as [_ H]; lia).
    assert (E : u32 (i32 (- num)) = - num).
    { unfold i32, to_signed. cbv zeta. rewrite wrap_small by lia. destruct (Z.ltb_spec (- num) (2 ^ (32 - 1))).
      - apply u32_small. lia.
      - unfold u32, wrap. rewrite <- (Z.mod_add _ 1), Z.mod_small by lia. lia. }
    split; [exact E|]. rewrite (proj2 (Z.eqb_neq (- num) 0)) by lia. apply Z.eqb_neq. intros E0. rewrite E0 in E.
    change (u32 0) with 0 in E. lia.
  - split; [reflexivity|]. destruct (Z.eqb_spec num 0) as [->|H0]; [reflexivity|]. symmetry. apply Z.eqb_neq. unfold u32, wrap.
    destruct (Z_lt_dec num 0); [rewrite <- (Z.mod_add _ 1) by lia|]; rewrite Z.mod_small; lia.
Qed.

Lemma sign_chars num type :
  let sg := if has SIGN type && (num <? 0) then 45 else if has PLUS type then 43 else if has SPACE type then 32 else 0 in
  (if sg =? 0 then [] else [sg]) = sign_of num type.
Proof. unfold sign_of. destruct (has SIGN type && (num <? 0)), (has PLUS type), (has SPACE type); reflexivity. Qed.
Lemma prefix_chars base type :
  (if has SPECIAL type then
     (if base =? 8 then [48] else if base =? 16 then [48; nth 33 (alphabet (has SMALL type)) 0] else []) else []) = prefix_of base type.
Proof. unfold prefix_of. destruct (has SPECIAL type), (base =? 8), (base =? 16), (has SMALL type); reflexivity. Qed.

(** Clearing [ZEROPAD] for a left-justified field concerns no other flag. *)
Lemma justified_flags type :
  let t' := if has LEFT type then Z.land type (Z.lnot ZEROPAD) else type in
  has SIGN t' = has SIGN type /\ has PLUS t' = has PLUS type /\ has SPACE t' = has SPACE type /\
  has LEFT t' = has LEFT type /\ has SPECIAL t' = has SPECIAL type /\
  has ZEROPAD t' = negb (has LEFT type) && has ZEROPAD type.
Proof.
  intros t'. assert (Hk : forall k, 0 < k -> has (2 ^ k) t' = has (2 ^ k) type)
    by (intros k Hk; unfold t'; destruct (has LEFT type); [by apply has_cleared|reflexivity]).
  split_and!; [apply (Hk 1)|apply (Hk 2)|apply (Hk 3)|apply (Hk 4)|apply (Hk 5)|]; try lia.
  unfold t'. destruct (has LEFT type); [apply has_zeropad_cleared|reflexivity].
Qed.

Lemma number_in_field num base size precision type :
  2 <= base <= 36 -> -2 ^ 31 <= num < 2 ^ 31 ->
  let ds := number_digits num base type in
  number num base size precision type =
    in_field size type (sign_of num type ++ prefix_of base type) (pad (precision - Z.of_nat (length ds)) 48 ++ ds).
Proof.
  intros Hb Hn ds. unfold number. rewrite (proj2 (Z.ltb_ge base 2)), (proj2 (Z.ltb_ge 36 base)) by lia. cbn [orb]. cbv zeta.
  destruct (justified_flags type) as (Hs & Hp & Hsp & Hl & Hx & Hz). cbv zeta in Hs, Hp, Hsp, Hl, Hx, Hz.
  rewrite has_either, Hs, Hp, Hsp, Hl, Hx, Hz. destruct (number_value num type Hn) as [Ev E0]. cbv zeta in Ev, E0.
  rewrite Ev, E0. change (if has SMALL type then lower else upper) with (alphabet (has SMALL type)).
  set (tmp := if _ =? 0 then [48] else tmp_loop 32 _ _ base).
  assert (Hds : ds = rev tmp) by (unfold ds, number_digits, tmp; cbv zeta; clear E0; destruct (_ =? 0); reflexivity).
  assert (Hdl : length ds = length tmp) by (rewrite Hds; apply length_rev). rewrite Hdl, <- Hds.
  set (i := Z.of_nat (length tmp)).
  assert (Hpr : pad ((if precision <? i then i else precision) - i) 48 = pad (precision - i) 48).
  { destruct (Z.ltb_spec precision i); [|reflexivity]. unfold pad. by replace (Z.to_nat (i - i)) with (Z.to_nat (precision - i)) by lia. }
  rewrite Hpr. set (body := pad (precision - i) 48 ++ ds).
  assert (Hbody : Z.of_nat (length body) = if precision <? i then i else precision).
  { unfold body. rewrite length_app, Nat2Z.inj_add, pad_length, Hdl. fold i. destruct (Z.ltb_spec precision i); lia. }
  rewrite <- Hbody.
  set (sg := if has SIGN type && (num <? 0) then 45 else if has PLUS type then 43 else if has SPACE type then 32 else 0).
  assert (Hsign : (if sg =? 0 then [] else [sg]) = sign_of num type)
    by apply sign_chars.
  assert (Hpre : (if has SPECIAL type then (if base =? 8 then [48] else if base =? 16 then [48; nth 33 (alphabet (has SMALL type)) 0] else []) else [])
                 = prefix_of base type)
    by apply prefix_chars.
  rewrite Hsign, Hpre. unfold in_field. cbv zeta. set (fill := size - _ - _).
  match goal with |- context [pad (?e - Z.of_nat (length body)) 32] => assert (Hfill : e - Z.of_nat (length body) = fill) end.
  { unfold fill. rewrite length_app, Nat2Z.inj_add, <- Hsign, <- Hpre.
    destruct (sg =? 0), (has SPECIAL type); cbn [length]; try lia;
      destruct (Z.eqb_spec base 16), (Z.eqb_spec base 8); cbn [length]; lia. }
  rewrite Hfill. destruct (has LEFT type); cbn [negb andb orb].
  - cbn [negb app]. unfold body. by rewrite <- !app_assoc.
  - rewrite ?orb_false_r. destruct (has ZEROPAD type); cbn [negb app]; rewrite !pad_rest; unfold body; rewrite ?app_nil_r, <- ?app_assoc; reflexivity.
Qed.

(** C30: [number] writes a number as printf's documentation lays it out: the
    digits, which read back in the base give the number (its two's complement
    reading unless the conversion is signed) and have no leading zero, padded
    with zeros to the precision; before them the sign and the base prefix; and
    the whole in a field of [size] columns, left-justified, zero-padded after the
    prefix or blank-padded in front as the flags say.  The output is as long as
    the field unless the number needs more. *)
Theorem number_layout (num base size precision type : Z) :
  2 <= base <= 36 -> -2 ^ 31 <= num < 2 ^ 31 ->
  exists ds, digits_value base ds = (if has SIGN type && (num <? 0) then - num else u32 num) /\
    (ds = [48] \/ exists d r, ds = d :: r /\ digit_value d <> 0) /\
    let head := sign_of num type ++ prefix_of base type in
    let body := pad (precision - Z.of_nat (length ds)) 48 ++ ds in
    number num base size precision type = in_field size type head body /\
    Z.of_nat (length (number num base size precision type)) = Z.max size (Z.of_nat (length (head ++ body))).
Proof.
  intros Hb Hn. exists (number_digits num base type). cbv zeta. rewrite number_in_field by assumption. rewrite in_field_length.
  assert (Hv : 0 <= (if has SIGN type && (num <? 0) then - num else u32 num) < 2 ^ 32).
  { destruct (has SIGN type); cbn [andb]; [|apply u32_range]. destruct (Z.ltb_spec num 0); [lia|apply u32_range]. }
  unfold number_digits. cbv zeta. destruct (Z.eqb_spec (if has SIGN type && (num <? 0) then - num else u32 num) 0) as [E|E].
  - rewrite E. split; [reflexivity|]. split; [by left|]. split; reflexivity.
  - split; [by apply (tmp_loop_value 32)|]. split; [|split; reflexivity]. right.
    destruct (tmp_loop_head 32 (has SMALL type) (if has SIGN type && (num <? 0) then - num else u32 num) base Hb)
      as (d & r & Ed & Hd); [change (Z.of_nat 32) with 32; lia|]. exists d, r. auto.
Qed.

(** ** Witnesses *)

Definition shown (fmt : string) (args : list varg) : list Z :=
  match render (S (length (text fmt))) (text fmt) args 0 with Ok x => chars x | Stop _ => [] end.

Lemma number_layout_witness :
  exists ds, digits_value 16 ds = 48879 /\
    number 48879 16 10 (-1) (SPECIAL + SMALL + ZEROPAD) =
      in_field 10 (SPECIAL + SMALL + ZEROPAD) (text "0x") (pad (-1 - Z.of_nat (length ds)) 48 ++ ds) /\
    number 48879 16 10 (-1) (SPECIAL + SMALL + ZEROPAD) = text "0x0000beef".
Proof.
  destruct (number_layout 48879 16 10 (-1) (SPECIAL + SMALL + ZEROPAD) ltac:(lia) ltac:(lia)) as (ds & Hv & _ & E & _).
  exists ds. split; [exact Hv|]. split; [exact E|vm_compute; reflexivity].
Defined.

(** A format of the kernel's own, with a string, numbers and a character. *)
Definition demo_fmt : list Z := text "%s: %-4d|%#010X|%c%%".
Definition demo_args : list varg := [VStr (text "pid"); VWord 7; VWord 0xC0100000; VWord 33].
Definition screen0 : console := clear (Console (replicate 2000 0) 0 0 0).
Lemma printf_output_witness :
  exists x, render (S (length demo_fmt)) demo_fmt demo_args 0 = Ok x /\ chars x = text "pid: 7   |0XC0100000|!%" /\
    printf demo_fmt demo_args screen0 =
      match puts (lossy 0 (chars x)) screen0 with Stop e => Stop e | Ok c' => Ok (23, [], c') end.
Proof.
  destruct (printf_output demo_fmt demo_args screen0) as [_ H].
  assert (E : exists x, render (S (length demo_fmt)) demo_fmt demo_args 0 = Ok x /\ chars x = text "pid: 7   |0XC0100000|!%" /\ stores x = [])
    by (vm_compute; eexists; split; [reflexivity|split; reflexivity]).
  destruct E as (x & E & Hx & Hst). exists x. split; [exact E|]. split; [exact Hx|].
  destruct (H x E) as [-> _].
  - rewrite Hx. apply (bool_decide_unpack _). vm_compute. exact I.
  - rewrite Hx, Hst. destruct (puts _ screen0); reflexivity.
Defined.

(** A star as the width is taken for an unknown conversion. *)
Lemma star_width_not_skipped : shown "[%*d]" [VWord 5; VWord 42] = text "[%*d]".
Proof. vm_compute. reflexivity. Qed.
