(* ===== verification/Support.v ===== *)
(** * Kernel support (kernel/lib/klib.cpp, langsupport.cpp, include/lib/lock.h)

    Panics and assertions, which print through [Printf] and stop the machine;
    the hooks the compiler calls for static locals, [new] and [delete]; and
    [lock_guard], the scope that holds a mutex. *)

From Stdlib Require Import String.
From S2P Require Import Prelude LinkedList Dll Heap Memory Proc Console Printf Locks.
From stdpp Require Import gmap list.
#[local] Open Scope Z_scope.

(** ** Panics and assertions *)

(** Whether the machine was halted, and the screen it shows. *)
Inductive kept : Type := Halted (c : console) | Goes_on (c : console).

Definition kpanic (msg file : list Z) (line : Z) (c : console) : outcome kept :=
  match printf (text "KPANIC at %s:%d: %s") [VStr file; VWord line; VStr msg] c with
  | Stop e => Stop e
  | Ok (_, _, c) => Ok (Halted c)
  end.

Definition kassert (sexp file : list Z) (line : Z) (halt : bool) (c : console) : outcome kept :=
  match printf (text "KERNEL: %s:%d: Assertion `%s' failed.") [VStr file; VWord line; VStr sexp] c with
  | Stop e => Stop e
  | Ok (_, _, c) =>
    if halt then match puts (text " System halt.") c with Stop e => Stop e | Ok c => Ok (Halted c) end
    else match put 10 c with Stop e => Stop e | Ok c => Ok (Goes_on c) end
  end.

Definition ASSERT (e : bool) (sexp file : list Z) (line : Z) (c : console) : outcome kept :=
  if e then Ok (Goes_on c) else kassert sexp file line false c.
Definition ASSERTH (e : bool) (sexp file : list Z) (line : Z) (c : console) : outcome kept :=
  if e then Ok (Goes_on c) else kassert sexp file line true c.

(** [abort], and the hooks that only panic; [__FILE__] is a parameter. *)
Definition c_abort (file : list Z) (line : Z) : console -> outcome kept := kpanic (text "abort called") file line.
Definition cxa_pure_virtual (file : list Z) (line : Z) : console -> outcome kept :=
  kpanic (text "pure virutal function called") file line.
Definition stack_chk_fail (file : list Z) (line : Z) : console -> outcome kept := kpanic (text "stack blew up") file line.
Definition throw_bad_function_call (file : list Z) (line : Z) : console -> outcome kept :=
  kpanic (text "bad function call") file line.

(** A C string, and a line number in decimal. *)
Definition cstring (s : list Z) : Prop := Forall (fun ch => ch <> 0) s.
Definition decimal (n : Z) : list Z := number_digits n 10 SIGN.

Lemma decimal_number n : 0 <= n < 2 ^ 31 -> number (i32 n) 10 (-1) (-1) SIGN = decimal n.
Proof.
  intros Hn. replace (i32 n) with n by (unfold i32, to_signed; rewrite wrap_small by lia; by rewrite (proj2 (Z.ltb_lt _ _)) by lia).
  rewrite number_in_field by lia. unfold sign_of. rewrite (proj2 (Z.ltb_ge n 0)) by lia. unfold in_field, pad. cbn -[number_digits Z.sub Z.of_nat Z.to_nat].
  fold (decimal n). rewrite !(Z2Nat.nonpos _ : _ <= 0 -> Z.to_nat _ = 0%nat) by lia. done.
Qed.

Lemma tmp_loop_chars fuel n : Forall (fun ch => ch <> 0) (tmp_loop fuel (alphabet false) n 10).
Proof.
  revert n. induction fuel as [|fuel IH]; intros n; cbn [tmp_loop]; [constructor|]. destruct (n =? 0); [constructor|]. constructor; [|apply IH].
  pose proof (Z.mod_pos_bound n 10 ltac:(lia)) as Hm. pose proof (alphabet_value false (n mod 10) ltac:(lia)) as Ha.
  intros E. rewrite E in Ha. unfold digit_value in Ha. cbn in Ha. lia.
Qed.
Lemma decimal_chars n : cstring (decimal n).
Proof.
  unfold decimal, number_digits, cstring. cbv zeta. destruct (_ =? 0); [by repeat constructor|]. apply Forall_rev, tmp_loop_chars.
Qed.

Lemma put_str_plain s : put_str 0 (-1) (-1) s = s.
Proof.
  unfold put_str. change (has LEFT 0) with false. change (-1 <? 0) with true. cbn [orb]. rewrite Nat2Z.id, firstn_all. unfold pad.
  rewrite !(Z2Nat.nonpos _ : _ <= 0 -> Z.to_nat _ = 0%nat) by lia. cbn. by rewrite app_nil_r.
Qed.

Definition panic_text (msg file : list Z) (line : Z) : list Z :=
  text "KPANIC at " ++ file ++ text ":" ++ decimal line ++ text ": " ++ msg.
Definition assert_text (sexp file : list Z) (line : Z) : list Z :=
  text "KERNEL: " ++ file ++ text ":" ++ decimal line ++ text ": Assertion `" ++ sexp ++ text "' failed.".

Lemma render_plain k c r args n w st : c <> 37 -> render k r args (i32 (n + 1)) = Ok (Rendered w st) ->
  render (S k) (c :: r) args n = Ok (Rendered (c :: w) st).
Proof. intros Hc E. cbn [render]. rewrite (proj2 (Z.eqb_neq _ _) Hc). cbn [negb]. by rewrite E. Qed.

Lemma render_str k r s args n w st : render k r args (i32 (n + Z.of_nat (length s))) = Ok (Rendered w st) ->
  render (S k) (37 :: 115 :: r) (VStr s :: args) n = Ok (Rendered (s ++ w) st).
Proof. intros E. cbn -[put_str]. rewrite put_str_plain. by rewrite E. Qed.

Lemma render_dec k r v args n w st : 0 <= v < 2 ^ 31 -> render k r args (i32 (n + Z.of_nat (length (decimal v)))) = Ok (Rendered w st) ->
  render (S k) (37 :: 100 :: r) (VWord v :: args) n = Ok (Rendered (decimal v ++ w) st).
Proof. intros Hw E. cbn -[number]. rewrite decimal_number by done. by rewrite E. Qed.

Ltac run_format :=
  match goal with |- context [text ?s] => let v := eval vm_compute in (text s) in change (text s) with v end;
  cbn [length]; eexists; split;
  [repeat lazymatch goal with
   | |- render _ (37 :: 115 :: _) _ _ = _ => apply render_str
   | |- render _ (37 :: 100 :: _) _ _ = _ => apply render_dec; [assumption|]
   | |- render _ (_ :: _) _ _ = _ => apply render_plain; [discriminate|]
   | |- render _ [] _ _ = _ => reflexivity
   end|].

Lemma render_panic msg file line : 0 <= line < 2 ^ 31 ->
  let fmt := text "KPANIC at %s:%d: %s" in
  exists x, render (S (length fmt)) fmt [VStr file; VWord line; VStr msg] 0 = Ok x /\ chars x = panic_text msg file line.
Proof. intros Hl fmt. unfold fmt. run_format. cbn [chars]. unfold panic_text. cbn. by rewrite app_nil_r. Qed.

Lemma render_assert sexp file line : 0 <= line < 2 ^ 31 ->
  let fmt := text "KERNEL: %s:%d: Assertion `%s' failed." in
  exists x, render (S (length fmt)) fmt [VStr file; VWord line; VStr sexp] 0 = Ok x /\ chars x = assert_text sexp file line.
Proof. intros Hl fmt. unfold fmt. run_format. cbn [chars]. unfold assert_text. cbn. by repeat (rewrite <- app_assoc; cbn). Qed.

Section messages.
Context (s file : list Z) (line : Z) (c : console).
Hypotheses (Hs : cstring s) (Hf : cstring file) (Hl : 0 <= line < 2 ^ 31).

Lemma message_chars : cstring (panic_text s file line) /\ cstring (assert_text s file line).
Proof.
  unfold panic_text, assert_text, cstring in *. rewrite !Forall_app. pose proof (decimal_chars line).
  split; split_and!; try done; by repeat constructor.
Qed.

(** A panic shows where it happened and why, and the machine stops. *)
Theorem kpanic_shows : (length (panic_text s file line) <= 1023)%nat ->
  kpanic s file line c = match puts (panic_text s file line) c with Stop e => Stop e | Ok c => Ok (Halted c) end.
Proof.
  intros Hn. destruct (render_panic s file line Hl) as (x & E & Hx). unfold kpanic. rewrite (printf_render _ _ _ _ E); rewrite Hx.
  - rewrite lossy_short by done. by destruct (puts _ c).
  - apply message_chars.
Qed.

(** A failed assertion shows itself; it stops the machine only when it is asked
    to, and otherwise the program goes on on a new line. *)
Theorem kassert_shows halt : (length (assert_text s file line) <= 1023)%nat ->
  kassert s file line halt c =
  match puts (assert_text s file line ++ (if halt then text " System halt." else [10])) c with
  | Stop e => Stop e
  | Ok c => Ok (if halt then Halted c else Goes_on c)
  end.
Proof.
  intros Hn. destruct (render_assert s file line Hl) as (x & E & Hx). unfold kassert. rewrite (printf_render _ _ _ _ E); rewrite Hx.
  - rewrite lossy_short, puts_app by done. destruct (puts _ c) as [c1|]; [|done]. destruct halt; [by destruct (puts _ c1)|].
    cbn [puts]. by destruct (put 10 c1).
  - apply message_chars.
Qed.
End messages.


(** ** Static locals *)

(** A guard is 64 bits wide; only its first byte is used. *)
Definition cxa_guard_acquire (g : Z) : Z := if Z.land g 255 =? 0 then 1 else 0.
Definition cxa_guard_release (g : Z) : Z := Z.lor (Z.land g (Z.lnot 255)) 1.
Definition cxa_guard_abort (g : Z) : Z := g.

(** What the compiler emits where control passes the declaration of a static
    local (the C++ ABI): the initialiser runs between [acquire] and
    [release].  [n] passes, with the number of times it ran. *)
Fixpoint passes (n : nat) (g : Z) : Z * nat :=
  match n with
  | O => (g, O)
  | S k =>
    if cxa_guard_acquire g =? 0 then passes k g
    else let '(g, m) := passes k (cxa_guard_release g) in (g, S m)
  end.

Lemma released_byte g : Z.land (cxa_guard_release g) 255 = 1.
Proof.
  unfold cxa_guard_release. rewrite Z.land_lor_distr_l, <- Z.land_assoc, (Z.land_comm (Z.lnot 255)), Z.land_lnot_diag, Z.land_0_r. reflexivity.
Qed.

Lemma passes_after n g : Z.land g 255 <> 0 -> passes n g = (g, O).
Proof.
  intros Hg. induction n as [|n IH]; [done|]. cbn [passes]. unfold cxa_guard_acquire. rewrite (proj2 (Z.eqb_neq _ _) Hg). exact IH.
Qed.

(** However often control passes, a static local is initialised exactly once,
    and the other bytes of the guard are left alone. *)
Theorem static_initialised_once n g : Z.land g 255 = 0 -> passes (S n) g = (Z.lor g 1, 1%nat).
Proof.
  intros Hg. cbn [passes]. unfold cxa_guard_acquire. rewrite Hg. change (0 =? 0) with true. change (1 =? 0) with false. cbv iota.
  assert (Hr : Z.land (cxa_guard_release g) 255 <> 0) by (rewrite released_byte; lia). rewrite (passes_after n _ Hr).
  f_equal. unfold cxa_guard_release. f_equal.
  apply Z.bits_inj'. intros i Hi. rewrite Z.land_spec, Z.lnot_spec by done.
  assert (Hb : Z.testbit (Z.land g 255) i = false) by (by rewrite Hg, Z.bits_0). rewrite Z.land_spec in Hb.
  destruct (Z.testbit g i), (Z.testbit 255 i); done.
Qed.

Definition stack_chk_guard_setup : Z := 0x42afde69.

(** ** [new] and [delete] *)

Section operators.
Variable junk : link nptr.
Variable kernel_page : Z -> option Z.

Definition operator_new (size : Z) : M kmem Z := malloc junk kernel_page size.
Definition operator_delete (p : Z) : M kmem unit := c_free p.
End operators.

(** ** [lock_guard] *)

(** The constructor calls [lock] and drops its result; the destructor does the
    same with [unlock]. *)
Definition forget (p : progress) : progress := match p with Done _ => Done (Val 0) | _ => p end.
Definition guard_enter (t : Z) (m : mutex) : progress * mutex := let '(p, m) := mutex_lock t m in (forget p, m).
Definition guard_woken (t : Z) (interrupted : bool) (m : mutex) : progress * mutex :=
  let '(p, m) := mutex_resume t interrupted m in (forget p, m).
Definition guard_adopt (t : Z) (m : mutex) : progress * mutex := (Done (Val 0), m).
Definition guard_leave (t : Z) (m : mutex) : progress * mutex := let '(p, m) := mutex_unlock t m in (forget p, m).

(** A scope on a free mutex: the process owns it inside and it is free again
    afterwards. *)
Theorem guard_scoped t ws : t <> 0 ->
  exists m, guard_enter t (Mutex false 0 ws) = (Done (Val 0), m) /\ m_owner m = t /\
    guard_leave t m = (Done (Val 0), Mutex false 0 ws).
Proof.
  intros Ht. exists (Mutex false t ws). split; [done|]. split; [done|]. unfold guard_leave, mutex_unlock. cbn. by rewrite Z.eqb_refl.
Qed.

(** An interrupted wait enters the scope all the same: the body runs although
    another process owns the mutex, and the destructor never returns, because
    the spinlock was left taken. *)
Theorem guard_enters_unowned t u ws : u <> 0 -> u <> t ->
  exists m, guard_woken t true (Mutex false u ws) = (Done (Val 0), m) /\ m_owner m = u /\
    forall n, Nat.iter n (fun pm => guard_leave t pm.2) (Spins, m) = (Spins, m).
Proof.
  intros Hu Ht. exists (Mutex true u ws). split; [done|]. split; [done|]. intros n. induction n as [|n IH]; [done|]. by rewrite Nat.iter_succ, IH.
Qed.
