(* ===== verification/Desc.v ===== *)
(** * Descriptor tables, interrupt dispatch and the timer chip
      (kernel/gdt.cpp, idt.cpp, isr.cpp, include/desc_tables.h, isr.h,
       devices/pit.cpp, include/ports.h)

    The entries are the records [set_gate] fills; how the processor reads an
    entry back is given by [gdt_read] and [idt_read] (the layout of the 8-byte
    descriptors).  Port writes are recorded in the order they are made. *)

From S2P Require Import Prelude.
From stdpp Require Import gmap list.
#[local] Open Scope Z_scope.

(** ** The global descriptor table *)

Record gdt_entry : Type := GdtEntry {
  limit_lo : Z; g_base_lo : Z; base_mid : Z; access : Z; granularity : Z; g_base_hi : Z }.

Definition gdt_gate (base limit access gran : Z) : gdt_entry :=
  GdtEntry (Z.land limit 0xFFFF) (Z.land base 0xFFFF) (Z.land (Z.shiftr base 16) 0xFF) access
           (Z.lor (Z.land (Z.shiftr limit 16) 0x0F) (Z.land gran 0xF0)) (Z.land (Z.shiftr base 24) 0xFF).

(** [entries[num] = ...] *)
Definition set_gdt (num : nat) (e : gdt_entry) (l : list gdt_entry) : outcome (list gdt_entry) :=
  if decide (num < length l)%nat then Ok (<[num := e]> l) else Stop Fault.

(** The task state segment: 25 double words and two words. *)
Record tss : Type := Tss {
  prev_tss : Z; esp0 : Z; ss0 : Z; esp1 : Z; ss1 : Z; esp2 : Z; ss2 : Z; cr3 : Z; t_eip : Z; t_eflags : Z;
  t_eax : Z; t_ecx : Z; t_edx : Z; t_ebx : Z; t_esp : Z; t_ebp : Z; t_esi : Z; t_edi : Z;
  t_es : Z; t_cs : Z; t_ss : Z; t_ds : Z; t_fs : Z; t_gs : Z; ldt : Z; trap : Z; iomap_base : Z }.
Definition TSS_SIZE : Z := 25 * 4 + 2 * 2.
Definition KERNEL_CODE_SEG : Z := 0x8.
Definition KERNEL_DATA_SEG : Z := 0x10.
(** The part of [process::init] that fills it; interrupts use [irq_stack]. *)
Definition tss_init (irq_stack : Z) (t : tss) : tss :=
  let seg := Z.lor KERNEL_DATA_SEG 3 in
  Tss (prev_tss t) irq_stack KERNEL_DATA_SEG (esp1 t) (ss1 t) (esp2 t) (ss2 t) (cr3 t) (t_eip t) (t_eflags t)
      (t_eax t) (t_ecx t) (t_edx t) (t_ebx t) (t_esp t) (t_ebp t) (t_esi t) (t_edi t)
      seg (Z.lor KERNEL_CODE_SEG 3) seg seg seg seg (ldt t) (trap t) (iomap_base t).

(** [gdt::init], [tss_base] the address of the task state segment. *)
Definition gdt_gates (tss_base : Z) : list (Z * Z * Z * Z) :=
  [(0, 0, 0, 0); (0, 0xFFFFFFFF, 0x9A, 0xCF); (0, 0xFFFFFFFF, 0x92, 0xCF);
   (0, 0xFFFFFFFF, 0xFA, 0xCF); (0, 0xFFFFFFFF, 0xF2, 0xCF);
   (tss_base, u32 (tss_base + TSS_SIZE), 0xE9, 0x00)].
Fixpoint gdt_fill (num : nat) (gates : list (Z * Z * Z * Z)) (l : list gdt_entry) : outcome (list gdt_entry) :=
  match gates with
  | [] => Ok l
  | (b, lim, a, g) :: r =>
    match set_gdt num (gdt_gate b lim a g) l with Stop e => Stop e | Ok l => gdt_fill (S num) r l end
  end.
Definition gdt_init (tss_base : Z) (entries : list gdt_entry) : outcome (list gdt_entry) :=
  gdt_fill 0 (gdt_gates tss_base) entries.

(** A segment as the processor sees it: base, limit in units of the
    granularity, access byte and flag nibble. *)
Record segment : Type := Segment { s_base : Z; s_limit : Z; s_access : Z; s_flags : Z }.
Definition gdt_read (e : gdt_entry) : segment :=
  Segment (g_base_lo e + 2 ^ 16 * base_mid e + 2 ^ 24 * g_base_hi e)
          (limit_lo e + 2 ^ 16 * (granularity e mod 16)) (access e) (granularity e / 16).

(** ** The interrupt descriptor table *)

Record idt_entry : Type := IdtEntry { i_base_lo : Z; sel : Z; always0 : Z; i_flags : Z; i_base_hi : Z }.

Definition idt_gate (base sel flags : Z) : idt_entry :=
  IdtEntry (Z.land base 0xFFFF) sel 0 flags (Z.land (Z.shiftr base 16) 0xFFFF).
Definition idt_zero : idt_entry := IdtEntry 0 0 0 0 0.

Fixpoint idt_fill (n num : nat) (ptrs : nat -> Z) (l : list idt_entry) : list idt_entry :=
  match n with
  | O => l
  | S k => idt_fill k (S num) (fun i => ptrs (S i)) (<[num := idt_gate (ptrs 0%nat) 0x08 0x8E]> l)
  end.
(** [idt::init]: the table is cleared (256 entries), then the 32 exceptions and
    the 17 interrupts get their gates. *)
Definition idt_init (isr_ptrs irq_ptrs : nat -> Z) : list idt_entry :=
  idt_fill 17 32 irq_ptrs (idt_fill 32 0 isr_ptrs (replicate 256 idt_zero)).

(** The initialisation words of the two interrupt controllers. *)
Definition PIC_MASTER_CMD : Z := 0x20.
Definition PIC_MASTER_DATA : Z := 0x21.
Definition PIC_SLAVE_CMD : Z := 0xA0.
Definition PIC_SLAVE_DATA : Z := 0xA1.
Definition PIC_EOI : Z := 0x20.
Definition ICW1_ICW4 : Z := 0x01.
Definition ICW1_INIT : Z := 0x10.
Definition ICW4_8086 : Z := 0x01.
Definition pic_remap : list (Z * Z) :=
  [(PIC_MASTER_CMD, Z.lor ICW1_INIT ICW1_ICW4); (PIC_SLAVE_CMD, Z.lor ICW1_INIT ICW1_ICW4);
   (PIC_MASTER_DATA, 0x20); (PIC_SLAVE_DATA, 0x28); (PIC_MASTER_DATA, 0x04); (PIC_SLAVE_DATA, 0x02);
   (PIC_MASTER_DATA, ICW4_8086); (PIC_SLAVE_DATA, ICW4_8086); (PIC_MASTER_DATA, 0x00); (PIC_SLAVE_DATA, 0x00)].

(** A gate as the processor sees it; [None] when the present bit is clear. *)
Record gate : Type := Gate { gt_offset : Z; gt_selector : Z; gt_type : Z; gt_dpl : Z }.
Definition idt_read (e : idt_entry) : option gate :=
  if Z.testbit (i_flags e) 7
  then Some (Gate (i_base_lo e + 2 ^ 16 * i_base_hi e) (sel e) (i_flags e mod 16) (i_flags e / 32 mod 4))
  else None.

(** ** Interrupt dispatch (isr.cpp) *)

Definition IRQ0 : Z := 32.
(** The fields of [registers] the dispatcher looks at. *)
Record iregs : Type := IRegs { r_int_no : Z; r_cs : Z; r_esp : Z; r_espcpu : Z }.
(** What a dispatch does, in order. *)
Inductive action (H : Type) : Type := Outb (port val : Z) | Call (h : H) (r : iregs) | Unhandled (no : Z) | Khalt.
Arguments Outb {H} port val.
Arguments Call {H} h r.
Arguments Unhandled {H} no.
Arguments Khalt {H}.

Section dispatch.
Context {H : Type}.
Definition register_int_handler (num : Z) (h : H) (t : gmap Z H) : gmap Z H := <[u8 num := h]> t.

(** The stack pointer of the interrupted code. *)
Definition fix_esp (r : iregs) : iregs :=
  IRegs (r_int_no r) (r_cs r) (if negb (Z.land (r_cs r) 3 =? 0) then r_espcpu r else u32 (r_esp r + 20)) (r_espcpu r).
Definition run_handler (t : gmap Z H) (r : iregs) : list (action H) :=
  match t !! r_int_no r with Some h => [Call h r] | None => [Unhandled (r_int_no r)] end.

Definition isr_handler (t : gmap Z H) (r : iregs) : list (action H) :=
  let r := fix_esp r in
  run_handler t r ++ (if r_int_no r =? 13 then [Khalt] else []).
Definition irq_handler (t : gmap Z H) (r : iregs) : list (action H) :=
  let r := fix_esp r in
  (if r_int_no r <? IRQ0 + 16 then
     (if IRQ0 + 7 <? r_int_no r then [Outb PIC_SLAVE_CMD PIC_EOI] else []) ++ [Outb PIC_MASTER_CMD PIC_EOI]
   else []) ++ run_handler t r.
End dispatch.

(** ** Splitting numbers into bytes *)

Lemma land_ones_mod x n : 0 <= n -> Z.land x (Z.ones n) = x mod 2 ^ n.
Proof. apply Z.land_ones. Qed.
Lemma shiftr_pow x n : 0 <= n -> Z.shiftr x n = x / 2 ^ n.
Proof. apply Z.shiftr_div_pow2. Qed.

Lemma split_base base :
  0 <= base < 2 ^ 32 ->
  Z.land base 0xFFFF + 2 ^ 16 * Z.land (Z.shiftr base 16) 0xFF + 2 ^ 24 * Z.land (Z.shiftr base 24) 0xFF = base.
Proof.
  intros Hb. change 0xFFFF with (Z.ones 16). change 0xFF with (Z.ones 8).
  rewrite !land_ones_mod, !shiftr_pow by lia.
  change (2 ^ 24) with (2 ^ 16 * 2 ^ 8) at 2. rewrite <- Z.div_div by lia.
  rewrite (Z.mod_small (base / 2 ^ 16 / 2 ^ 8)) by (split; [apply Z.div_pos; [apply Z.div_pos|]; lia|apply Z.div_lt_upper_bound; [|apply Z.div_lt_upper_bound]; lia]).
  pose proof (Z.div_mod base (2 ^ 16)). pose proof (Z.div_mod (base / 2 ^ 16) (2 ^ 8)). lia.
Qed.
Lemma split_word base : 0 <= base < 2 ^ 32 -> Z.land base 0xFFFF + 2 ^ 16 * Z.land (Z.shiftr base 16) 0xFFFF = base.
Proof.
  intros Hb. change 0xFFFF with (Z.ones 16). rewrite !land_ones_mod, shiftr_pow by lia.
  rewrite (Z.mod_small (base / 2 ^ 16)) by (split; [apply Z.div_pos|apply Z.div_lt_upper_bound]; lia).
  pose proof (Z.div_mod base (2 ^ 16)). lia.
Qed.
(** A nibble and the upper nibble of a byte side by side. *)
Lemma nibbles a g : 0 <= a < 16 -> 0 <= g < 256 -> Z.lor a (Z.land g 0xF0) = a + 16 * (g / 16).
Proof.
  intros Ha Hg. assert (E : Z.land g 0xF0 = Z.shiftl (g / 16) 4).
  { apply Z.bits_inj'. intros n Hn. rewrite Z.land_spec. change (g / 16) with (g / 2 ^ 4). rewrite <- shiftr_pow by lia.
    rewrite Z.shiftl_spec by lia. destruct (Z_lt_dec n 4).
    - rewrite (Z.testbit_neg_r _ (n - 4)) by lia. assert (n = 0 \/ n = 1 \/ n = 2 \/ n = 3) as [->|[->|[->| ->]]] by lia; apply andb_false_r.
    - rewrite Z.shiftr_spec, Z.sub_add by lia. destruct (Z_lt_dec n 8).
      + assert (n = 4 \/ n = 5 \/ n = 6 \/ n = 7) as [->|[->|[->| ->]]] by lia; apply andb_true_r.
      + rewrite (Z.bits_above_log2 g n); [reflexivity|lia|].
        destruct (Z.eq_dec g 0) as [->|]; [simpl; lia|]. apply Z.log2_lt_pow2; [lia|].
        apply Z.lt_le_trans with (2 ^ 8); [lia|apply Z.pow_le_mono_r; lia]. }
  rewrite E. assert (Hd : Z.land a (Z.shiftl (g / 16) 4) = 0).
  { rewrite <- (Z.mod_small a (2 ^ 4)), <- Z.land_ones by lia. rewrite <- Z.land_assoc.
    replace (Z.land (Z.ones 4) (Z.shiftl (g / 16) 4)) with 0; [apply Z.land_0_r|].
    rewrite Z.land_comm, Z.land_ones, Z.shiftl_mul_pow2 by lia. symmetry. apply Z.mod_mul. lia. }
  rewrite <- Z.lxor_lor, <- Z.add_nocarry_lxor by exact Hd. rewrite Z.shiftl_mul_pow2 by lia. lia.
Qed.

Lemma gdt_gate_read base limit acc gran :
  0 <= base < 2 ^ 32 -> 0 <= limit < 2 ^ 32 -> 0 <= gran < 256 ->
  gdt_read (gdt_gate base limit acc gran) = Segment base (limit mod 2 ^ 20) acc (gran / 16).
Proof.
  intros Hb Hl Hg. unfold gdt_read, gdt_gate; simpl. f_equal.
  - by apply split_base.
  - rewrite nibbles; [|change 0x0F with (Z.ones 4); rewrite land_ones_mod by lia; apply Z.mod_pos_bound; lia|exact Hg].
    rewrite (Z.mul_comm 16), Z.mod_add by lia. change 0x0F with (Z.ones 4). change 0xFFFF with (Z.ones 16).
    rewrite !land_ones_mod, shiftr_pow by lia. rewrite (Z.mod_small (_ mod 2 ^ 4)) by (apply Z.mod_pos_bound; lia).
    change (2 ^ 20) with (2 ^ 16 * 2 ^ 4). rewrite Z.rem_mul_r by lia. reflexivity.
  - rewrite nibbles; [|change 0x0F with (Z.ones 4); rewrite land_ones_mod by lia; apply Z.mod_pos_bound; lia|exact Hg].
    rewrite (Z.mul_comm 16), Z.div_add by lia. rewrite Z.div_small; [lia|].
    change 0x0F with (Z.ones 4). rewrite land_ones_mod by lia. apply Z.mod_pos_bound; lia.
Qed.
Lemma idt_gate_read base s : 0 <= base < 2 ^ 32 -> idt_read (idt_gate base s 0x8E) = Some (Gate base s 14 0).
Proof. intros Hb. unfold idt_read, idt_gate. cbn [i_flags i_base_lo i_base_hi sel]. by rewrite split_word. Qed.

Lemma idt_fill_length n num ptrs l : length (idt_fill n num ptrs l) = length l.
Proof. revert num ptrs l. induction n as [|n IH]; intros num ptrs l; cbn [idt_fill]; [reflexivity|]. by rewrite IH, length_insert. Qed.
Lemma idt_fill_lookup n num ptrs l i :
  (num + n <= length l)%nat ->
  idt_fill n num ptrs l !! i =
    if decide (num <= i < num + n)%nat then Some (idt_gate (ptrs (i - num)%nat) 0x08 0x8E) else l !! i.
Proof.
  revert num ptrs l. induction n as [|n IH]; intros num ptrs l Hl; cbn [idt_fill].
  { rewrite decide_False by lia. reflexivity. }
  rewrite IH by (rewrite length_insert; lia). destruct (decide (i = num)) as [->|Hne].
  - rewrite decide_False, decide_True, list_lookup_insert_eq by lia. by rewrite Nat.sub_diag.
  - rewrite list_lookup_insert_ne by lia. destruct (decide (S num <= i < S num + n)%nat).
    + rewrite decide_True by lia. do 3 f_equal. lia.
    + rewrite decide_False by lia. reflexivity.
Qed.

(** The processor's view of vector [v]. *)
Definition vector_of (t : list idt_entry) (v : nat) : option gate := e ← t !! v; idt_read e.

Lemma idt_init_vectors isr_ptrs irq_ptrs v :
  (forall i, 0 <= isr_ptrs i < 2 ^ 32) -> (forall i, 0 <= irq_ptrs i < 2 ^ 32) ->
  vector_of (idt_init isr_ptrs irq_ptrs) v =
    if decide (v < 32)%nat then Some (Gate (isr_ptrs v) 8 14 0)
    else if decide (v < 49)%nat then Some (Gate (irq_ptrs (v - 32)%nat) 8 14 0)
    else None.
Proof.
  intros H1 H2. unfold vector_of, idt_init.
  assert (Hr : length (replicate 256 idt_zero) = 256%nat) by apply length_replicate.
  assert (Hz : forall k e, replicate 256 idt_zero !! k = Some e -> e = idt_zero)
    by (intros k e Hk; by apply lookup_replicate in Hk as [-> _]).
  revert Hr Hz. generalize (replicate 256 idt_zero). intros z Hr Hz.
  rewrite idt_fill_lookup by (rewrite idt_fill_length, Hr; lia). rewrite idt_fill_lookup by (rewrite Hr; lia).
  destruct (decide (v < 32)%nat).
  - rewrite decide_False, decide_True by lia. cbn [mbind option_bind]. rewrite idt_gate_read by auto. by rewrite Nat.sub_0_r.
  - destruct (decide (v < 49)%nat).
    + rewrite decide_True by lia. cbn [mbind option_bind]. by rewrite idt_gate_read by auto.
    + rewrite !decide_False by lia. destruct (z !! v) as [e|] eqn:E; [|reflexivity]. by rewrite (Hz v e E).
Qed.

Lemma gdt_init_segments tss_base entries :
  0 <= tss_base < 2 ^ 32 -> length entries = 6%nat ->
  exists l, gdt_init tss_base entries = Ok l /\
    gdt_read <$> l =
      [Segment 0 0 0 0; Segment 0 0xFFFFF 0x9A 12; Segment 0 0xFFFFF 0x92 12; Segment 0 0xFFFFF 0xFA 12;
       Segment 0 0xFFFFF 0xF2 12; Segment tss_base (u32 (tss_base + TSS_SIZE) mod 2 ^ 20) 0xE9 0].
Proof.
  intros Hb Hl. destruct entries as [|e0 [|e1 [|e2 [|e3 [|e4 [|e5 [|]]]]]]]; try discriminate.
  unfold gdt_init, gdt_gates, gdt_fill, set_gdt. cbn [length].
  repeat (rewrite decide_True by lia; cbn [length insert list_insert]). eexists. split; [reflexivity|].
  cbn [fmap list_fmap]. rewrite !gdt_gate_read by (first [lia|apply u32_range]). reflexivity.
Qed.


Definition isr_at (n : nat) : Z := Z.min (0xC0101000 + 16 * Z.of_nat n) 0xC0102000.
Lemma isr_at_range n : 0 <= isr_at n < 2 ^ 32.
Proof. unfold isr_at. lia. Qed.

(** ** The timer chip (pit.cpp) *)

Definition PIT_FREQ : Z := 1193180.
Definition PIT_HZ : Z := 250.
Definition PIT_CMD : Z := 0x43.
Definition PIT0_DATA : Z := 0x40.

(** [pit_failed]: the number of failed [ASSERT]s, which only print. *)
Record pit : Type := Pit { tick : Z; frequency : Z; ticklen : Z; pit_out : list (Z * Z); pit_failed : nat }.

Definition set_frequency (freq : Z) (p : pit) : outcome pit :=
  if freq =? 0 then Stop Fault
  else
    let divisor := u32 PIT_FREQ / freq in
    Ok (Pit (tick p) freq (1000000000 / freq)
            (pit_out p ++ [(PIT_CMD, 0x36); (PIT0_DATA, Z.land (u8 divisor) 0xFF);
                           (PIT0_DATA, Z.land (u8 (Z.shiftr divisor 8)) 0xFF)])
            (if divisor <? 65536 then pit_failed p else S (pit_failed p))).
(** The interrupt: the tick, then the scheduler's [timer_tick] (Sched.v). *)
Definition pit_callback (p : pit) : pit := Pit (u64 (tick p + 1)) (frequency p) (ticklen p) (pit_out p) (pit_failed p).
Definition get_tick (p : pit) : Z := tick p.
Definition get_ns_passed (p : pit) : Z := u64 (tick p * ticklen p).
Definition pit_zero : pit := Pit 0 0 0 [] 0.
Definition pit_init (freq : Z) (p : pit) : outcome pit := set_frequency freq p.

Fixpoint pit_run (n : nat) (p : pit) : pit := match n with O => p | S k => pit_run k (pit_callback p) end.
Lemma pit_run_ticks n p : 0 <= tick p -> tick p + Z.of_nat n < 2 ^ 64 ->
  pit_run n p = Pit (tick p + Z.of_nat n) (frequency p) (ticklen p) (pit_out p) (pit_failed p).
Proof.
  revert p. induction n as [|n IH]; intros p H0 Hn; cbn [pit_run].
  - rewrite Z.add_0_r. by destruct p.
  - unfold pit_callback, u64. rewrite wrap_small by lia. rewrite IH by (simpl; lia). simpl. f_equal. lia.
Qed.
Lemma pit_ns n p : tick p = 0 -> 1 <= ticklen p -> Z.of_nat n * ticklen p < 2 ^ 64 ->
  get_ns_passed (pit_run n p) = Z.of_nat n * ticklen p.
Proof.
  intros H0 Ht Hn. rewrite pit_run_ticks by nia. unfold get_ns_passed, u64; simpl. rewrite H0, wrap_small; [reflexivity|]. nia.
Qed.

