(* ===== verification/Pci.v ===== *)
(** * PCI enumeration (kernel/devices/pci.cpp, include/devices/pci.h)

    Configuration space is what the data port shows for each value of the
    address port: a function from the 32-bit address to a double word.  The
    list of buses is the state; constructing a bus scans its 32 slots, and a
    bridge found on the way adds the bus behind it. *)

From S2P Require Import Prelude.
From stdpp Require Import gmap list.
#[local] Open Scope Z_scope.

Definition conf : Type := Z -> Z.

Definition REG_VENDOR : Z := 0.
Definition REG_FUNINFO : Z := 8.
Definition REG_HEADERTYPE : Z := 14.
Definition REG_BAR0 : Z := 0x10.
Definition REG_BUS_NUM : Z := 0x18.
Definition NONEXISTENT : Z := 0xffff.
Definition NUM_SLOTS : nat := 32.
Definition CLASSCODE_PCI_BRIDGE : Z := 0x060400.

(** ** Configuration accesses *)

Definition config_addr (bus slot fun_ offset : Z) : Z :=
  Z.lor (Z.lor (Z.lor (Z.lor (Z.shiftl 1 31) (Z.shiftl bus 16)) (Z.shiftl slot 11)) (Z.shiftl fun_ 8)) offset.

Definition readd (m : conf) (bus slot fun_ offset : Z) : outcome Z :=
  if Z.land offset 3 =? 0 then Ok (m (config_addr bus slot fun_ offset)) else Stop Panic.
Definition readw (m : conf) (bus slot fun_ offset : Z) : outcome Z :=
  match readd m bus slot fun_ (Z.land offset (Z.lnot 3)) with
  | Stop e => Stop e
  | Ok v => Ok (u16 (Z.shiftr v (Z.land offset 3 * 8)))
  end.
Definition conf_put (a v : Z) (m : conf) : conf := fun b => if b =? a then v else m b.
Definition writed (m : conf) (bus slot fun_ offset data : Z) : outcome conf :=
  if Z.land offset 3 =? 0 then Ok (conf_put (config_addr bus slot fun_ offset) data m) else Stop Panic.
Definition writew (m : conf) (bus slot fun_ offset data : Z) : conf :=
  let a := config_addr bus slot fun_ (Z.land offset (Z.lnot 3)) in
  let shift := Z.land offset 3 * 8 in
  conf_put a (u32 (Z.lor (Z.land (m a) (Z.lnot (u32 (Z.shiftl 0xFFFF shift)))) (u32 (Z.shiftl data shift)))) m.

(** ** Devices, slots and buses *)

Section pci.
Context {D : Type}.

Record device_t : Type := Device { d_bus : Z; d_slot : Z; d_fun : Z; d_classcode : Z; d_revision : Z; d_driver : option D }.
Record slot_t : Type := Slot { sl_id : Z; sl_vendor : Z; sl_device : Z; sl_devs : list device_t }.
Record bus_t : Type := Bus { b_id : Z; b_slots : list slot_t }.

(** The bytes of the [classcode_t] union, lowest first. *)
Definition classid (d : device_t) : Z := u8 (d_classcode d).
Definition subclass (d : device_t) : Z := u8 (Z.shiftr (d_classcode d) 8).
Definition progif (d : device_t) : Z := u8 (Z.shiftr (d_classcode d) 16).
(** [bar] returns a [uint8_t]. *)
Definition bar (m : conf) (d : device_t) (i : Z) : outcome Z :=
  match readd m (d_bus d) (d_slot d) (d_fun d) (u8 (REG_BAR0 + 4 * i)) with Ok v => Ok (u8 v) | Stop e => Stop e end.

Definition exists_slot (s : slot_t) : bool := negb (sl_vendor s =? NONEXISTENT).

Variable m : conf.
Notation st := (list bus_t).
Definition from (o : outcome Z) : M st Z := fun s => match o with Ok v => Ok (v, s) | Stop e => Stop e end.

Section scan.
(** [bus_t::add_bus], called by the constructors of devices. *)
Variable add : Z -> M st unit.

Definition device_new (bus slot fun_ : Z) : M st device_t :=
  fund <-- from (readd m bus slot fun_ REG_FUNINFO);;
  let code := Z.shiftr fund 8 in
  (if code =? CLASSCODE_PCI_BRIDGE then
     n <-- from (readd m bus slot fun_ REG_BUS_NUM);; add (u8 (Z.shiftr n 16))
   else ret tt);;;
  ret (Device bus slot fun_ code (u8 fund) None).

(** for (fun = ...; fun < 8; fun++) *)
Fixpoint funs_loop (n : nat) (bus slot fun_ : Z) : M st (list device_t) :=
  match n with
  | O => ret []
  | S k =>
    v <-- from (readw m bus slot fun_ REG_VENDOR);;
    ds <-- (if v =? NONEXISTENT then ret [] else d <-- device_new bus slot fun_;; ret [d]);;
    r <-- funs_loop k bus slot (fun_ + 1);; ret (ds ++ r)
  end.

Definition slot_new (bus slot : Z) : M st slot_t :=
  vendord <-- from (readd m bus slot 0 0);;
  let vendor := u16 vendord in
  let device := u16 (Z.shiftr vendord 16) in
  if vendor =? NONEXISTENT then ret (Slot slot vendor device [])
  else
    d <-- device_new bus slot 0;;
    h <-- from (readw m bus slot 0 REG_HEADERTYPE);;
    r <-- (if Z.land h 0x80 =? 0 then ret [] else funs_loop 7 bus slot 1);;
    ret (Slot slot vendor device (d :: r)).

Fixpoint slots_loop (n : nat) (bus slot : Z) : M st (list slot_t) :=
  match n with
  | O => ret []
  | S k => s <-- slot_new bus slot;; r <-- slots_loop k bus (slot + 1);; ret (s :: r)
  end.
Definition bus_new (bus : Z) : M st bus_t := l <-- slots_loop NUM_SLOTS bus 0;; ret (Bus bus l).
End scan.

Fixpoint add_bus (fuel : nat) (bus : Z) : M st unit :=
  match fuel with
  | O => halt Fuel
  | S k =>
    l <-- get;;
    if existsb (fun b => b_id b =? bus) l then ret tt
    else b <-- bus_new (add_bus k) bus;; modify (fun l => l ++ [b])
  end.

(** [pci::init]; 256 buses bound the recursion. *)
Definition scan_fuel : nat := 257.
Fixpoint hosts_loop (n : nat) (bus : Z) : M st unit :=
  match n with
  | O => ret tt
  | S k =>
    v <-- from (readw m 0 0 bus REG_VENDOR);;
    if negb (v =? NONEXISTENT) then ret tt else add_bus scan_fuel bus;;; hosts_loop k (bus + 1)
  end.
Definition pci_init : M st unit :=
  h <-- from (readw m 0 0 0 REG_HEADERTYPE);;
  if Z.land h 0x80 =? 0 then add_bus scan_fuel 0 else hosts_loop 8 0.

(** [probe] and [register_driver] *)
Definition probe (factory : device_t -> option D) (d : device_t) : device_t :=
  match d_driver d with
  | Some _ => d
  | None => Device (d_bus d) (d_slot d) (d_fun d) (d_classcode d) (d_revision d) (factory d)
  end.
Definition register_driver (factory : device_t -> option D) : M st unit :=
  modify (fmap (fun b => Bus (b_id b)
    (fmap (fun s => if exists_slot s then Slot (sl_id s) (sl_vendor s) (sl_device s) (probe factory <$> sl_devs s) else s)
          (b_slots b)))).

(** ** What there is on a bus *)

Definition dword (bus slot fun_ offset : Z) : Z := m (config_addr bus slot fun_ offset).
Definition device_at (bus slot fun_ : Z) : device_t :=
  let f := dword bus slot fun_ REG_FUNINFO in Device bus slot fun_ (Z.shiftr f 8) (u8 f) None.
Definition vendor_at (bus slot fun_ : Z) : Z := u16 (dword bus slot fun_ 0).
Definition multifunction (bus slot : Z) : bool := Z.testbit (dword bus slot 0 12) 23.
(** The functions of a slot: function 0, and the others if it is a
    multi-function device. *)
Definition functions (bus slot : Z) : list Z :=
  if vendor_at bus slot 0 =? NONEXISTENT then []
  else 0 :: (if multifunction bus slot
             then filter (fun f => vendor_at bus slot f <> NONEXISTENT) (Z.of_nat <$> seq 1 7) else []).
Definition slot_at (bus slot : Z) : slot_t :=
  Slot slot (vendor_at bus slot 0) (u16 (Z.shiftr (dword bus slot 0 0) 16)) (device_at bus slot <$> functions bus slot).
Definition bus_at (bus : Z) : bus_t := Bus bus (slot_at bus <$> (Z.of_nat <$> seq 0 32)).
(** The bus number a bridge announces, and those of all bridges of a bus. *)
Definition behind (bus slot fun_ : Z) : list Z :=
  if Z.shiftr (dword bus slot fun_ REG_FUNINFO) 8 =? CLASSCODE_PCI_BRIDGE
  then [u8 (Z.shiftr (dword bus slot fun_ REG_BUS_NUM) 16)] else [].
Definition slot_bridges (bus slot : Z) : list Z := f ← functions bus slot; behind bus slot f.
Definition bridges (bus : Z) : list Z := s ← Z.of_nat <$> seq 0 32; slot_bridges bus s.

(** ** Scanning a bus is adding the buses behind its bridges *)

Section runs.
Variable add : Z -> M st unit.
Fixpoint adds (l : list Z) : M st unit := match l with [] => ret tt | b :: r => add b;;; adds r end.
Definition runs {A} (c : M st A) (l : list Z) (a : A) : Prop := forall s, c s = (adds l;;; ret a) s.

Lemma adds_app l1 l2 s : adds (l1 ++ l2) s = (adds l1;;; adds l2) s.
Proof.
  revert s. induction l1 as [|b r IH]; intros s; [reflexivity|]. cbn [app adds]. rewrite bind_assoc. unfold bind at 1 2.
  destruct (add b s) as [[? s']|]; [apply IH|reflexivity].
Qed.
Lemma runs_ret {A} (a : A) : runs (ret a) [] a.
Proof. intros s. reflexivity. Qed.
Lemma runs_from v : runs (from (Ok v)) [] v.
Proof. intros s. reflexivity. Qed.
Lemma pci_runs_bind {A B} (c : M st A) (f : A -> M st B) l1 l2 a b : runs c l1 a -> runs (f a) l2 b -> runs (bind c f) (l1 ++ l2) b.
Proof.
  intros Hc Hf s. unfold bind at 1. rewrite Hc. unfold bind at 1 2. rewrite adds_app. unfold bind at 1.
  destruct (adds l1 s) as [[[] s']|]; [|reflexivity]. unfold ret at 1. apply Hf.
Qed.
(** A step that adds nothing in front, and a result computed at the end. *)
Lemma runs_then {A B} (c : M st A) (f : A -> M st B) l a b : runs c [] a -> runs (f a) l b -> runs (bind c f) l b.
Proof. intros Hc Hf. exact (pci_runs_bind c f [] l a b Hc Hf). Qed.
Lemma runs_map {A B} (c : M st A) (f : A -> M st B) l a b : runs c l a -> f a = ret b -> runs (bind c f) l b.
Proof. intros Hc Hf. rewrite <- (app_nil_r l). apply (pci_runs_bind c f l [] a b Hc). rewrite Hf. apply runs_ret. Qed.
Lemma runs_add b : runs (add b) [b] tt.
Proof. intros s. cbn [adds]. unfold bind, ret. destruct (add b s) as [[[] s']|]; reflexivity. Qed.

Lemma device_new_runs bus slot f : runs (device_new add bus slot f) (behind bus slot f) (device_at bus slot f).
Proof.
  unfold device_new. eapply runs_then; [apply runs_from|]. cbv zeta.
  eapply (runs_map _ _ _ tt); [|reflexivity].
  unfold behind. change (m (config_addr bus slot f REG_FUNINFO)) with (dword bus slot f REG_FUNINFO).
  destruct (_ =? _); [|apply runs_ret]. eapply runs_then; [apply runs_from|apply runs_add].
Qed.
Lemma readw_vendor bus slot f : readw m bus slot f REG_VENDOR = Ok (vendor_at bus slot f).
Proof. reflexivity. Qed.
Lemma funs_loop_runs n bus slot f :
  let fs := filter (fun f => vendor_at bus slot f <> NONEXISTENT) ((fun i => f + Z.of_nat i) <$> seq 0 n) in
  runs (funs_loop add n bus slot f) (fs ≫= behind bus slot) (device_at bus slot <$> fs).
Proof.
  revert f. induction n as [|n IH]; intros f; cbn [funs_loop]; [apply runs_ret|]. cbv zeta.
  assert (Eseq : ((fun i => f + Z.of_nat i) <$> seq 0 (S n)) = f :: ((fun i => f + 1 + Z.of_nat i) <$> seq 0 n)).
  { cbn [seq fmap list_fmap]. f_equal; [lia|]. rewrite <- seq_shift, <- list_fmap_compose. apply list_fmap_ext. intros; simpl; lia. }
  rewrite Eseq, filter_cons. specialize (IH (f + 1)). cbv zeta in IH.
  set (fs := filter _ ((fun i => f + 1 + Z.of_nat i) <$> seq 0 n)) in *.
  rewrite readw_vendor. eapply runs_then; [apply runs_from|].
  destruct (Z.eqb_spec (vendor_at bus slot f) NONEXISTENT) as [E|E].
  - rewrite decide_False by (intros Hn; exact (Hn E)).
    eapply runs_then; [apply runs_ret|]. eapply runs_map; [exact IH|reflexivity].
  - rewrite decide_True by exact E. cbn [mbind list_bind fmap list_fmap].
    eapply pci_runs_bind; [eapply runs_map; [apply device_new_runs|reflexivity]|].
    eapply runs_map; [exact IH|reflexivity].
Qed.

Lemma header_bit bus slot :
  readw m bus slot 0 REG_HEADERTYPE = Ok (u16 (Z.shiftr (dword bus slot 0 12) 16)) /\
  (Z.land (u16 (Z.shiftr (dword bus slot 0 12) 16)) 0x80 =? 0) = negb (multifunction bus slot).
Proof.
  split; [reflexivity|]. unfold multifunction. set (x := dword bus slot 0 12).
  assert (Hb : Z.testbit (u16 (Z.shiftr x 16)) 7 = Z.testbit x 23).
  { unfold u16, wrap. rewrite Z.mod_pow2_bits_low by lia. rewrite Z.shiftr_spec by lia. reflexivity. }
  rewrite <- Hb. generalize (u16 (Z.shiftr x 16)). intros y.
  destruct (Z.testbit y 7) eqn:E.
  - apply Z.eqb_neq. intros E0. assert (H : Z.testbit (Z.land y 128) 7 = true) by (rewrite Z.land_spec, E; reflexivity).
    rewrite E0 in H. discriminate.
  - apply Z.eqb_eq. apply Z.bits_inj'. intros n Hn. rewrite Z.land_spec, Z.bits_0. change 128 with (2 ^ 7).
    rewrite Z.pow2_bits_eqb by lia. destruct (Z.eqb_spec 7 n) as [<-|]; [by rewrite E|apply andb_false_r].
Qed.

Lemma slot_new_runs bus slot : runs (slot_new add bus slot) (slot_bridges bus slot) (slot_at bus slot).
Proof.
  unfold slot_new, slot_bridges, slot_at, functions. eapply runs_then; [apply runs_from|]. cbv zeta.
  change (u16 (m (config_addr bus slot 0 0))) with (vendor_at bus slot 0).
  destruct (vendor_at bus slot 0 =? NONEXISTENT); [apply runs_ret|].
  cbn [mbind list_bind fmap list_fmap]. eapply pci_runs_bind; [apply device_new_runs|].
  destruct (header_bit bus slot) as [-> Hb]. eapply runs_then; [apply runs_from|]. rewrite Hb.
  destruct (multifunction bus slot); cbn [negb].
  - eapply runs_map; [|reflexivity]. change (Z.of_nat <$> seq 1 7) with ((fun i => 1 + Z.of_nat i) <$> seq 0 7).
    apply (funs_loop_runs 7 bus slot 1).
  - eapply runs_map; [apply runs_ret|reflexivity].
Qed.
Lemma slots_loop_runs n bus s :
  let ss := (fun i => s + Z.of_nat i) <$> seq 0 n in
  runs (slots_loop add n bus s) (ss ≫= slot_bridges bus) (slot_at bus <$> ss).
Proof.
  revert s. induction n as [|n IH]; intros s; cbn [slots_loop]; [apply runs_ret|]. cbv zeta.
  assert (Eseq : ((fun i => s + Z.of_nat i) <$> seq 0 (S n)) = s :: ((fun i => s + 1 + Z.of_nat i) <$> seq 0 n)).
  { cbn [seq fmap list_fmap]. f_equal; [lia|]. rewrite <- seq_shift, <- list_fmap_compose. apply list_fmap_ext. intros; simpl; lia. }
  rewrite Eseq. cbn [mbind list_bind fmap list_fmap]. eapply pci_runs_bind; [apply slot_new_runs|].
  eapply runs_map; [apply (IH (s + 1))|reflexivity].
Qed.
Lemma bus_new_runs bus : runs (bus_new add bus) (bridges bus) (bus_at bus).
Proof. unfold bus_new. eapply runs_map; [apply (slots_loop_runs 32 bus 0)|reflexivity]. Qed.
End runs.

(** ** The whole enumeration *)

Definition ids (l : st) : list Z := b_id <$> l.

(** The buses found so far: no bus twice, each with exactly the devices that
    are there, and with each bus all the buses behind its bridges. *)
Record scanned (l : st) : Prop := {
  sc_nodup : NoDup (ids l);
  sc_bus : forall b, b ∈ l -> b = bus_at (b_id b);
  sc_closed : forall i k, i ∈ ids l -> k ∈ bridges i -> k ∈ ids l }.

(** Firmware numbers the buses so that a bridge leads to a higher number. *)
Definition bridges_ascend : Prop := forall i k, 0 <= i < 256 -> k ∈ bridges i -> i < k.

Lemma bridges_range i k : k ∈ bridges i -> 0 <= k < 256.
Proof.
  intros Hk. unfold bridges in Hk. apply list_elem_of_bind in Hk as (s & Hk & _). unfold slot_bridges in Hk.
  apply list_elem_of_bind in Hk as (f & Hk & _). unfold behind in Hk. destruct (_ =? _); [|by apply elem_of_nil in Hk].
  apply list_elem_of_singleton in Hk as ->. apply (wrap_range 8). lia.
Qed.

Lemma existsb_ids bus (l : st) : existsb (fun b => b_id b =? bus) l = true <-> bus ∈ ids l.
Proof.
  unfold ids. rewrite existsb_exists, list_elem_of_fmap. split.
  - intros (b & Hb & E). exists b. apply Z.eqb_eq in E. split; [done|by apply list_elem_of_In].
  - intros (b & -> & Hb). exists b. split; [by apply list_elem_of_In|apply Z.eqb_refl].
Qed.

(** [l'] extends [l] by buses numbered [lo] or more. *)
Definition extends (lo : Z) (l l' : st) : Prop := exists new, l' = l ++ new /\ forall i, i ∈ ids new -> lo <= i.

Lemma extends_refl lo l : extends lo l l.
Proof. exists []. rewrite app_nil_r. split; [reflexivity|]. intros i Hi. by apply elem_of_nil in Hi. Qed.
Lemma extends_trans lo lo' l1 l2 l3 : extends lo l1 l2 -> extends lo' l2 l3 -> lo <= lo' -> extends lo l1 l3.
Proof.
  intros (n1 & -> & H1) (n2 & -> & H2) Hle. exists (n1 ++ n2). rewrite app_assoc. split; [reflexivity|].
  intros i Hi. unfold ids in *. rewrite fmap_app, elem_of_app in Hi. destruct Hi as [Hi|Hi]; [auto|specialize (H2 i Hi); lia].
Qed.
Lemma extends_ids lo l l' i : extends lo l l' -> i ∈ ids l -> i ∈ ids l'.
Proof. intros (n & -> & _) Hi. unfold ids in *. rewrite fmap_app, elem_of_app. auto. Qed.

(** Adding a list of buses, each of which can be added. *)
Lemma adds_spec (add : Z -> M st unit) lo ks l :
  (forall k l, k ∈ ks -> scanned l -> exists l', add k l = Ok (tt, l') /\ scanned l' /\ extends k l l' /\ k ∈ ids l') ->
  (forall k, k ∈ ks -> lo <= k) -> scanned l ->
  exists l', adds add ks l = Ok (tt, l') /\ scanned l' /\ extends lo l l' /\ forall k, k ∈ ks -> k ∈ ids l'.
Proof.
  intros Hadd Hlo. revert l. induction ks as [|k ks IH]; intros l Hl; cbn [adds].
  { exists l. split; [reflexivity|]. split; [exact Hl|]. split; [apply extends_refl|]. intros k Hk. by apply elem_of_nil in Hk. }
  destruct (Hadd k l ltac:(left) Hl) as (l1 & E1 & H1 & X1 & K1).
  destruct (IH ltac:(intros; apply Hadd; [by right|done]) ltac:(intros; apply Hlo; by right) l1 H1) as (l2 & E2 & H2 & X2 & K2).
  exists l2. rewrite (bind_ok _ _ _ _ _ E1). split; [exact E2|]. split; [exact H2|].
  assert (Hk : lo <= k) by (apply Hlo; left).
  split.
  - destruct X1 as (n1 & -> & Hn1). apply (extends_trans lo lo _ (l ++ n1)); [|exact X2|lia].
    exists n1. split; [reflexivity|]. intros i Hi. specialize (Hn1 i Hi). lia.
  - intros j Hj. apply elem_of_cons in Hj as [->|Hj]; [eapply extends_ids; eauto|auto].
Qed.

Lemma add_bus_spec fuel bus l :
  bridges_ascend -> 0 <= bus < 256 -> 256 - bus < Z.of_nat fuel -> scanned l ->
  exists l', add_bus fuel bus l = Ok (tt, l') /\ scanned l' /\ extends bus l l' /\ bus ∈ ids l'.
Proof.
  intros Hup. revert bus l. induction fuel as [|k IH]; intros bus l Hb Hf Hl; [lia|]. cbn [add_bus].
  rewrite (bind_ok get _ _ _ _ eq_refl). destruct (existsb _ l) eqn:E.
  { exists l. apply existsb_ids in E. split; [reflexivity|]. split; [exact Hl|]. split; [apply extends_refl|exact E]. }
  destruct (adds_spec (add_bus k) (bus + 1) (bridges bus) l) as (l1 & E1 & H1 & X1 & K1).
  - intros j l0 Hj Hl0. pose proof (bridges_range bus j Hj). pose proof (Hup bus j Hb Hj). apply IH; [lia|lia|exact Hl0].
  - intros j Hj. pose proof (Hup bus j Hb Hj). lia.
  - exact Hl.
  - assert (Enew : bus_new (add_bus k) bus l = Ok (bus_at bus, l1)).
    { rewrite (bus_new_runs (add_bus k) bus l). by rewrite (bind_ok _ _ _ _ _ E1). }
    rewrite (bind_ok _ _ _ _ _ Enew). exists (l1 ++ [bus_at bus]). split; [reflexivity|].
    assert (Hnot : bus ∉ ids l1).
    { destruct X1 as (n & -> & Hn). unfold ids. rewrite fmap_app, elem_of_app. intros [Hi|Hi].
      - apply existsb_ids in Hi. congruence.
      - specialize (Hn bus Hi). lia. }
    assert (Hids : ids (l1 ++ [bus_at bus]) = ids l1 ++ [bus]) by (unfold ids; by rewrite fmap_app).
    split; [|split].
    + split; rewrite ?Hids.
      * apply NoDup_app. split; [apply H1|]. split; [|apply NoDup_singleton].
        intros i Hi Hi'. apply list_elem_of_singleton in Hi' as ->. done.
      * intros b Hbin. apply elem_of_app in Hbin as [Hbin|Hbin]; [by apply H1|]. by apply list_elem_of_singleton in Hbin as ->.
      * intros i j Hi Hj. rewrite elem_of_app in Hi |- *. destruct Hi as [Hi|Hi].
        -- left. by apply (sc_closed _ H1 i).
        -- apply list_elem_of_singleton in Hi as ->. left. by apply K1.
    + destruct X1 as (n & -> & Hn). exists (n ++ [bus_at bus]). rewrite app_assoc. split; [reflexivity|].
      intros i Hi. unfold ids in Hi. rewrite fmap_app, elem_of_app in Hi. destruct Hi as [Hi|Hi].
      * specialize (Hn i Hi). lia.
      * apply list_elem_of_singleton in Hi as ->. simpl. lia.
    + rewrite Hids, elem_of_app. right. left.
Qed.


(** With a host controller of several functions nothing is enumerated: the loop
    over the controllers ends at the first one that exists. *)
Theorem pci_init_skips_existing_hosts l :
  multifunction 0 0 = true -> vendor_at 0 0 0 <> NONEXISTENT -> pci_init l = Ok (tt, l).
Proof.
  intros Hm Hv. unfold pci_init. destruct (header_bit 0 0) as [-> Hb]. unfold from. unfold bind at 1. rewrite Hb, Hm. cbn [negb hosts_loop].
  rewrite readw_vendor. unfold from, bind. by rewrite (proj2 (Z.eqb_neq _ _) Hv).
Qed.
End pci.

(** ** Configuration words *)

(** The address port names one double word of one function: no two are mixed up. *)
Lemma config_addr_sum bus slot f off :
  0 <= bus < 256 -> 0 <= slot < 32 -> 0 <= f < 8 -> 0 <= off < 256 ->
  config_addr bus slot f off = 2 ^ 31 + bus * 2 ^ 16 + slot * 2 ^ 11 + f * 2 ^ 8 + off.
Proof.
  intros Hb Hs Hf Ho. unfold config_addr.
  assert (L : forall hi k lo, 0 <= k -> 0 <= lo < 2 ^ k -> Z.lor (Z.shiftl hi k) lo = hi * 2 ^ k + lo).
  { intros hi k lo Hk Hlo. rewrite <- Z.shiftl_mul_pow2 by lia.
    assert (Hd : Z.land (Z.shiftl hi k) lo = 0).
    { rewrite <- (Z.mod_small lo (2 ^ k)), <- Z.land_ones, Z.land_assoc, (Z.land_comm _ lo), <- Z.land_assoc by lia.
      rewrite Z.land_ones, Z.shiftl_mul_pow2, Z.mod_mul by lia. apply Z.land_0_r. }
    rewrite <- Z.lxor_lor, <- Z.add_nocarry_lxor by exact Hd. reflexivity. }
  assert (E1 : Z.lor (Z.shiftl 1 31) (Z.shiftl bus 16) = Z.shiftl (2 ^ 15 + bus) 16).
  { rewrite L by (rewrite ?Z.shiftl_mul_pow2; lia). rewrite !Z.shiftl_mul_pow2 by lia. lia. }
  assert (E2 : Z.lor (Z.shiftl (2 ^ 15 + bus) 16) (Z.shiftl slot 11) = Z.shiftl ((2 ^ 15 + bus) * 2 ^ 5 + slot) 11).
  { rewrite L by (rewrite ?Z.shiftl_mul_pow2; lia). rewrite !Z.shiftl_mul_pow2 by lia. lia. }
  assert (E3 : Z.lor (Z.shiftl ((2 ^ 15 + bus) * 2 ^ 5 + slot) 11) (Z.shiftl f 8) = Z.shiftl (((2 ^ 15 + bus) * 2 ^ 5 + slot) * 2 ^ 3 + f) 8).
  { rewrite L by (rewrite ?Z.shiftl_mul_pow2; lia). rewrite !Z.shiftl_mul_pow2 by lia. lia. }
  rewrite E1, E2, E3, L by lia. lia.
Qed.
Lemma config_addr_inj bus slot f off bus' slot' f' off' :
  0 <= bus < 256 -> 0 <= slot < 32 -> 0 <= f < 8 -> 0 <= off < 256 ->
  0 <= bus' < 256 -> 0 <= slot' < 32 -> 0 <= f' < 8 -> 0 <= off' < 256 ->
  config_addr bus slot f off = config_addr bus' slot' f' off' -> bus = bus' /\ slot = slot' /\ f = f' /\ off = off'.
Proof. intros. rewrite !config_addr_sum in * by assumption. lia. Qed.

(** ** Witness: a bridge in slot 1 of bus 0 leads to bus 1 *)

Definition machine : conf := fun a =>
  match list_find (fun p => p.1 = a)
    [(config_addr 0 0 0 0, 0x12378086); (config_addr 0 0 0 8, 0x06000002); (config_addr 0 0 0 12, 0);
     (config_addr 0 1 0 0, 0x24488086); (config_addr 0 1 0 8, 0x06040001); (config_addr 0 1 0 12, 0x00010000);
     (config_addr 0 1 0 0x18, 0x00010100);
     (config_addr 1 0 0 0, 0x100E8086); (config_addr 1 0 0 8, 0x02000003); (config_addr 1 0 0 12, 0)] with
  | Some (_, p) => p.2
  | None => 0xFFFFFFFF
  end.

Lemma machine_ascends : bridges_ascend machine.
Proof.
  intros i k Hi Hk.
  assert (H : forallb (fun n => forallb (fun k => Z.of_nat n <? k) (bridges machine (Z.of_nat n))) (seq 0 256) = true)
    by (vm_compute; reflexivity).
  rewrite forallb_forall in H. specialize (H (Z.to_nat i)). rewrite Z2Nat.id, forallb_forall in H by lia.
  apply Z.ltb_lt, H; [apply in_seq; lia|by apply list_elem_of_In].
Qed.
