(* ===== verification/Ahci.v ===== *)
(** * The AHCI disk driver (kernel/devices/ahci.cpp)

    The controller is a state machine behind its registers: the class [Hba]
    gives the value a register shows when it is read and what a write does, and
    every access of the code to a volatile register is one step of it.  Command
    lists and command tables are in memory that both sides see; they are kept by
    physical address, which is how the controller finds them, so a write to a
    register is given that memory too.  Fields the driver never writes (they
    stay zero) and the byte count the controller reports are left out.  The
    loops that poll a register for ever have the fuel [spin]. *)

From S2P Require Import Prelude Proc Pci.
From stdpp Require Import gmap list.
#[local] Open Scope Z_scope.

Definition CLASSCODE_SATA_AHCI : Z := 0x010601.
Definition NUM_CMD_SLOTS : nat := 32.
Definition NUM_PRDT_ENTRIES : nat := 8.
Definition MAX_SIZE : Z := Z.shiftl 1 22 - 1.
Definition SECTOR_SIZE : Z := 512.
Definition MAX_SECTORS : Z := MAX_SIZE / SECTOR_SIZE.
Definition MAX_CYCLES : nat := Z.to_nat (Z.shiftl 1 20).
Definition FIS_TYPE_REG_H2D : Z := 0x27.
Definition ATA_CMD_READ_DMA_EX : Z := 0x25.
Definition ATA_CMD_WRITE_DMA_EX : Z := 0x35.
Definition ATA_DEV_BUSY : Z := 0x80.
Definition ATA_DEV_BRQ : Z := 0x08.
Definition DET_PRESENT : Z := 3.
Definition IPM_ACTIVE : Z := 1.

(** ** Structures shared with the controller *)

Record command_head : Type := Head
  { cfl : Z; h_write : bool; prefetch : bool; clear_r_ok : bool; prdt_entries : Z; command_table_base : Z }.
Record prdt_entry : Type := Prdt { data_base : Z; p_size : Z; int_on_complete : bool }.
Record fis_reg_h2d : Type := Fis
  { fis_type : Z; f_cmd : bool; f_command : Z; lbal : Z; lbah : Z; f_device : Z; f_count : Z }.
Record command_table : Type := Table { cfis : fis_reg_h2d; prdt : list prdt_entry }.

Definition zero_head : command_head := Head 0 false false false 0 0.
Definition zero_prdt : prdt_entry := Prdt 0 0 false.
Definition zero_table : command_table := Table (Fis 0 false 0 0 0 0 0) (replicate NUM_PRDT_ENTRIES zero_prdt).
Definition sizeof_command_table : Z := 256.

(** The registers of a port and the list of ports that exist. *)
Inductive preg : Type :=
  command_list_base | fis_base | int_status | int_enable | command | task_file_data | sig | port_status
| sata_active | command_issue.
Inductive reg : Type := ports_implemented | PORT (i : Z) (r : preg).

Inductive type_t : Type := NONE | SATA | SATAPI | SEMB | PORT_MULTIPLIER.

Record dma : Type := Dma { lists : gmap Z (list command_head); tabs : gmap Z command_table }.

Class Hba (D : Type) : Type := {
  rd : reg -> D -> Z * D;
  wr : reg -> Z -> dma -> D -> D;
}.

(** The fields of [ahci_driver] that are set once. *)
Record ahci_driver : Type := Ahci
  { portid : Z; cmd_head_phys : Z; cmd_table_phys : Z; fis_phys : Z; valid : bool }.

Section driver.
Context {D : Type} `{Hba D}.
Variable spin : nat.

Record hw : Type := Hw { dev : D; mem_dma : dma }.

Definition rd_reg (r : reg) : M hw Z :=
  fun s => let '(v, d) := rd r (dev s) in Ok (v, Hw d (mem_dma s)).
Definition wr_reg (r : reg) (v : Z) : M hw unit :=
  modify (fun s => Hw (wr r v (mem_dma s) (dev s)) (mem_dma s)).
Definition set_dma (f : dma -> dma) : M hw unit := modify (fun s => Hw (dev s) (f (mem_dma s))).

(** ** Ports *)

Definition port_type (p : Z) : M hw type_t :=
  st <-- rd_reg (PORT p port_status);;
  if negb (Z.land st 0xf =? DET_PRESENT) then ret NONE
  else
    st' <-- rd_reg (PORT p port_status);;
    if negb (Z.land (Z.shiftr st' 8) 0xf =? IPM_ACTIVE) then ret NONE
    else
      g <-- rd_reg (PORT p sig);;
      ret (if g =? 0xEB140101 then SATAPI else if g =? 0xC33C0101 then SEMB
           else if g =? 0x96690101 then PORT_MULTIPLIER else SATA).

Definition ST : Z := 1.
Definition FRE : Z := Z.shiftl 1 4.
Definition FR : Z := Z.shiftl 1 14.
Definition CR : Z := Z.shiftl 1 15.

(** [while (reg & mask) ;] *)
Fixpoint wait_clear (fuel : nat) (r : reg) (mask : Z) : M hw unit :=
  match fuel with
  | O => halt Fuel
  | S k => v <-- rd_reg r;; if Z.land v mask =? 0 then ret tt else wait_clear k r mask
  end.

Definition start_engine (p : Z) : M hw unit :=
  wait_clear spin (PORT p command) CR;;;
  v <-- rd_reg (PORT p command);; wr_reg (PORT p command) (Z.lor v (Z.lor FRE ST)).
Definition stop_engine (p : Z) : M hw unit :=
  v <-- rd_reg (PORT p command);; wr_reg (PORT p command) (u32 (Z.land v (Z.lnot (Z.lor ST FRE))));;;
  wait_clear spin (PORT p command) (Z.lor FR CR).

Fixpoint slot_loop (n : nat) (i slots : Z) : Z :=
  match n with
  | O => -1
  | S k => if Z.land slots (Z.shiftl 1 i) =? 0 then i else slot_loop k (i + 1) slots
  end.
Definition find_slot (p : Z) : M hw Z :=
  a <-- rd_reg (PORT p sata_active);; c <-- rd_reg (PORT p command_issue);;
  ret (slot_loop NUM_CMD_SLOTS 0 (Z.lor a c)).

(** ** Transfers *)

(** The head and the table of a command slot, [cmd_head + slot] and
    [cmd_table + slot]. *)
Definition with_head (a : ahci_driver) (slot : Z) (f : command_head -> command_head) : M hw unit :=
  s <-- get;;
  hs <-- deref (lists (mem_dma s) !! cmd_head_phys a);;
  h <-- deref (hs !! Z.to_nat slot);;
  set_dma (fun m => Dma (<[cmd_head_phys a := <[Z.to_nat slot := f h]> hs]> (lists m)) (tabs m)).
Definition table_addr (a : ahci_driver) (slot : Z) : Z := u32 (cmd_table_phys a + sizeof_command_table * slot).
Definition set_table (a : ahci_driver) (slot : Z) (t : command_table) : M hw unit :=
  s <-- get;;
  _ <-- deref (tabs (mem_dma s) !! table_addr a slot);;
  set_dma (fun m => Dma (lists m) (<[table_addr a slot := t]> (tabs m))).

(** while (nblks > 0 && nprdt < NUM_PRDT_ENTRIES): eight rounds at most.  The
    result is the region table, [buf], [nblks], [nprdt] and [total_sects]. *)
Fixpoint prdt_loop (n : nat) (t : list prdt_entry) (buf nblks nprdt total_sects : Z)
  : list prdt_entry * Z * Z * Z * Z :=
  match n with
  | O => (t, buf, nblks, nprdt, total_sects)
  | S k =>
    if nblks =? 0 then (t, buf, nblks, nprdt, total_sects)
    else
      let nsects := Z.min nblks MAX_SECTORS in
      let sz := u32 (nsects * SECTOR_SIZE) in
      prdt_loop k (<[Z.to_nat nprdt := Prdt buf (wrap 22 sz) true]> t)
        (u32 (buf + sz)) (u32 (nblks - nsects)) (nprdt + 1) (u32 (total_sects + nsects))
  end.

(** The wait for the device before a command: false when it hung. *)
Fixpoint busy_wait (n : nat) (p : Z) : M hw bool :=
  v <-- rd_reg (PORT p task_file_data);;
  match n with
  | O => ret false
  | S k => if Z.land v (Z.lor ATA_DEV_BRQ ATA_DEV_BUSY) =? 0 then ret true else busy_wait k p
  end.

Definition error_bit (v : Z) : bool := negb (Z.land v (Z.shiftl 1 30) =? 0).

(** for (;;): false when the controller reports an error. *)
Fixpoint complete_wait (fuel : nat) (p slot : Z) : M hw bool :=
  match fuel with
  | O => halt Fuel
  | S k =>
    v <-- rd_reg (PORT p command_issue);;
    if Z.land v (Z.lor (Z.shiftl 1 slot) (Z.shiftl 1 5)) =? 0 then ret true
    else e <-- rd_reg (PORT p int_status);; if error_bit e then ret false else complete_wait k p slot
  end.

(** One round of the outer loop from the barrier on: nothing, or the error
    with which [transfer] returns. *)
Definition run_command (p slot : Z) : M hw (option errno) :=
  ok <-- busy_wait MAX_CYCLES p;;
  if negb ok then ret (Some EIO)
  else
    wr_reg (PORT p sata_active) (Z.shiftl 1 slot);;;
    wr_reg (PORT p command_issue) (Z.shiftl 1 slot);;;
    ok <-- complete_wait spin p slot;;
    if negb ok then ret (Some EIO)
    else
      e <-- rd_reg (PORT p int_status);;
      if error_bit e then ret (Some EIO)
      else
        wait_clear spin (PORT p command_issue) 0xffffffff;;;
        v <-- rd_reg (PORT p sata_active);;
        wr_reg (PORT p sata_active) (Z.land v (u32 (Z.lnot (Z.shiftl 1 slot))));;;
        ret None.

Definition make_fis (blk total_sects : Z) (wrt : bool) : fis_reg_h2d :=
  Fis FIS_TYPE_REG_H2D true (if wrt then ATA_CMD_WRITE_DMA_EX else ATA_CMD_READ_DMA_EX)
    (Z.land blk (Z.shiftl 1 24 - 1)) (Z.land (Z.shiftr blk 24) (Z.shiftl 1 24 - 1)) 0xE0 (u16 total_sects).

Fixpoint transfer_loop (fuel : nat) (a : ahci_driver) (slot blk nblks buf : Z) (wrt : bool) : M hw sysret :=
  match fuel with
  | O => halt Fuel
  | S k =>
    if nblks =? 0 then ret (Val 0)
    else
      let '(t, buf', nblks', nprdt, total_sects) := prdt_loop NUM_PRDT_ENTRIES (prdt zero_table) buf nblks 0 0 in
      set_table a slot (Table (make_fis blk total_sects wrt) t);;;
      with_head a slot (fun h => Head (cfl h) (h_write h) (prefetch h) (clear_r_ok h) (u16 nprdt) (command_table_base h));;;
      e <-- run_command (portid a) slot;;
      match e with
      | Some e => ret (Err e)
      | None => transfer_loop k a slot (u64 (blk + total_sects)) nblks' buf' wrt
      end
  end.
(** A round moves [8 * MAX_SECTORS] sectors, or all that are left. *)
Definition transfer_fuel (nblks : Z) : nat := S (S (Z.to_nat (nblks / (8 * MAX_SECTORS)))).

Definition transfer (a : ahci_driver) (blk nblks buf : Z) (wrt : bool) : M hw sysret :=
  wr_reg (PORT (portid a) int_status) 0xffffffff;;;
  slot <-- find_slot (portid a);;
  if slot <? 0 then ret (Err EBUSY)
  else
    with_head a slot (fun h => Head 5 wrt true true (prdt_entries h) (command_table_base h));;;
    transfer_loop (transfer_fuel nblks) a slot blk nblks buf wrt.

Definition ahci_open (a : ahci_driver) : sysret := if valid a then Val 0 else Err ENOSYS.

(** ** Start-up *)

(** [KMALLOC_ZERO] memory for the command list and the tables. *)
Definition alloc_dma (hp tp : Z) (m : dma) : dma :=
  Dma (<[hp := replicate NUM_CMD_SLOTS zero_head]> (lists m))
    (foldr (fun i t => <[u32 (tp + sizeof_command_table * Z.of_nat i) := zero_table]> t) (tabs m) (seq 0 NUM_CMD_SLOTS)).
Definition init_heads (hp tp : Z) (m : dma) : dma :=
  Dma (alter (imap (fun i h => Head (cfl h) (h_write h) (prefetch h) (clear_r_ok h) (Z.of_nat NUM_PRDT_ENTRIES)
                                 (u32 (tp + sizeof_command_table * Z.of_nat i)))) hp (lists m)) (tabs m).

(** The constructor; the physical addresses of its three allocations and of
    the test buffer are arguments. *)
Definition ahci_driver_new (p hp tp fp buf_phys : Z) : M hw ahci_driver :=
  ty <-- port_type p;;
  match ty with
  | SATA =>
    set_dma (alloc_dma hp tp);;;
    stop_engine p;;;
    wr_reg (PORT p command_list_base) hp;;;
    wr_reg (PORT p fis_base) fp;;;
    set_dma (init_heads hp tp);;;
    start_engine p;;;
    wr_reg (PORT p int_enable) 0xffffffff;;;
    let a := Ahci p hp tp fp true in
    r <-- transfer a 0 4 buf_phys false;;
    asserth (match r with Val n => n =? 0 | Err _ => false end);;;
    ret a
  | _ => ret (Ahci p 0 0 0 false)
  end.

(** The search for ports: the drivers made, with the addresses [phys i] of the
    allocations for port [i]. *)
Fixpoint ports_loop (n : nat) (phys : Z -> Z * Z * Z * Z) (i pi : Z) : M hw (list ahci_driver) :=
  match n with
  | O => ret []
  | S k =>
    ds <-- (if Z.land pi 1 =? 0 then ret []
            else
              _ <-- port_type i;;
              ty <-- port_type i;;
              match ty with
              | SATA => let '(hp, tp, fp, bp) := phys i in d <-- ahci_driver_new i hp tp fp bp;; ret [d]
              | _ => ret []
              end);;
    r <-- ports_loop k phys (i + 1) (Z.shiftr pi 1);; ret (ds ++ r)
  end.
Definition probe_ports (phys : Z -> Z * Z * Z * Z) : M hw (list ahci_driver) :=
  pi <-- rd_reg ports_implemented;; ports_loop 32 phys 0 pi.
End driver.
Arguments hw : clear implicits.

(** The bus side of the controller: bus mastering and memory writes are
    switched on in the command register. *)
Definition REG_COMMAND : Z := 4.
Definition REG_BAR5 : Z := 0x24.
Definition BAR_TYPE_MASK : Z := Z.shiftl 3 1.
Definition BAR_TYPE_32BIT : Z := 0.
Definition BAR_ADDR_MASK : Z := u32 (Z.lnot 15).

Definition enable_device {T} (m : conf) (d : device_t (D := T)) : outcome conf :=
  match readw m (d_bus d) (d_slot d) (d_fun d) REG_COMMAND with
  | Stop e => Stop e
  | Ok cmd => writed m (d_bus d) (d_slot d) (d_fun d) REG_COMMAND (Z.lor (Z.lor cmd (Z.shiftl 1 4)) (Z.shiftl 1 2))
  end.
(** [maker]: the address of the registers, when the device is an AHCI
    controller whose sixth base address is a 32-bit one. *)
Definition maker {T} (m : conf) (d : device_t (D := T)) : outcome (option Z) :=
  if negb (d_classcode d =? CLASSCODE_SATA_AHCI) then Ok None
  else
    match readd m (d_bus d) (d_slot d) (d_fun d) REG_BAR5 with
    | Stop e => Stop e
    | Ok b => Ok (if Z.land b BAR_TYPE_MASK =? BAR_TYPE_32BIT then Some (Z.land b BAR_ADDR_MASK) else None)
    end.
