(* ===== verification/AhciSpec.v ===== *)
(** * Disk transfers

    What the controller may be told: whatever it answers, the driver issues
    commands for consecutive parts of the sectors asked for, each with a region
    table that covers the corresponding part of the buffer.  And what a
    controller that behaves as documented makes of them. *)

From S2P Require Import Prelude Proc Pci Ahci.
From stdpp Require Import gmap list.
#[local] Open Scope Z_scope.

(** ** Results of computations

    [post b c s Q]: [c] from [s] returns a result that satisfies [Q]; or, when
    [b] is false, a polling loop has run out of fuel. *)

Definition post {S A} (b : bool) (c : M S A) (s : S) (Q : A -> S -> Prop) : Prop :=
  match c s with Ok (a, s') => Q a s' | Stop e => b = false /\ e = Fuel end.

Section post.
Context {S : Type} (b : bool).

Lemma post_bind {A B} (c : M S A) (k : A -> M S B) s Q :
  post b c s (fun a s' => post b (k a) s' Q) -> post b (bind c k) s Q.
Proof. unfold post, bind. by destruct (c s) as [[a s']|e]. Qed.
Lemma post_ret {A} (a : A) s (Q : A -> S -> Prop) : Q a s -> post b (ret a) s Q.
Proof. done. Qed.
Lemma post_modify f s (Q : unit -> S -> Prop) : Q tt (f s) -> post b (modify f) s Q.
Proof. done. Qed.
Lemma post_get s (Q : S -> S -> Prop) : Q s s -> post b get s Q.
Proof. done. Qed.
Lemma post_deref {A} (o : option A) a s (Q : A -> S -> Prop) : o = Some a -> Q a s -> post b (deref o) s Q.
Proof. by intros ->. Qed.
Lemma post_mono {A} (c : M S A) s (Q R : A -> S -> Prop) :
  post b c s Q -> (forall a s', Q a s' -> R a s') -> post b c s R.
Proof. unfold post. destruct (c s) as [[a s']|e]; auto. Qed.
End post.

(** ** Region tables *)

(** [regions buf n es]: the entries describe [n] sectors' worth of memory from
    [buf] on, all but the last of them as many as an entry can. *)
Inductive regions : Z -> Z -> list prdt_entry -> Prop :=
| regions_nil buf : regions buf 0 []
| regions_cons buf k n es :
    1 <= k <= MAX_SECTORS -> n = 0 \/ k = MAX_SECTORS -> regions (buf + SECTOR_SIZE * k) n es ->
    regions buf (k + n) (Prdt buf (SECTOR_SIZE * k) true :: es).

Lemma MAX_SECTORS_val : MAX_SECTORS = 8191.
Proof. reflexivity. Qed.

Lemma prdt_loop_spec n t j buf nblks total :
  0 <= nblks -> 0 <= buf < 2 ^ 32 -> buf + SECTOR_SIZE * nblks <= 2 ^ 32 -> 0 <= total -> total + nblks < 2 ^ 32 ->
  length t = (j + n)%nat ->
  exists es m,
    prdt_loop n t buf nblks (Z.of_nat j) total =
      (take j t ++ es ++ drop (j + length es) t, u32 (buf + SECTOR_SIZE * m), nblks - m,
       Z.of_nat (j + length es), total + m) /\
    regions buf m es /\ (length es <= n)%nat /\ 0 <= m <= nblks /\ (m = nblks \/ m = Z.of_nat n * MAX_SECTORS).
Proof.
  rewrite MAX_SECTORS_val. unfold SECTOR_SIZE.
  revert t j buf nblks total. induction n as [|n IH]; intros t j buf nblks total Hn Hb Hbn Ht Htn Hlen; cbn [prdt_loop].
  { exists [], 0. rewrite !Nat.add_0_r, !Z.add_0_r, Z.sub_0_r, u32_small by lia. rewrite app_nil_l, take_drop.
    split_and!; [done|constructor|done|lia|lia|by right]. }
  destruct (Z.eqb_spec nblks 0) as [->|Hne].
  { exists [], 0. rewrite !Nat.add_0_r, !Z.add_0_r, u32_small by lia. rewrite app_nil_l, take_drop.
    split_and!; [done|constructor|simpl; lia|lia|lia|by left]. }
  rewrite MAX_SECTORS_val. unfold SECTOR_SIZE. set (k := Z.min nblks 8191). assert (Hk : 1 <= k <= 8191 /\ k <= nblks) by lia.
  rewrite (u32_small (k * 512)), (u32_small (nblks - k)), (u32_small (total + k)), (wrap_small 22) by (simpl; lia).
  replace (Z.of_nat j + 1) with (Z.of_nat (S j)) by lia. rewrite Nat2Z.id.
  assert (Hj : (j < length t)%nat) by lia.
  destruct (decide (nblks = k)) as [Hall|Hmore].
  - assert (E : prdt_loop n (<[j := Prdt buf (k * 512) true]> t) (u32 (buf + k * 512)) (nblks - k) (Z.of_nat (S j)) (total + k) =
                (<[j := Prdt buf (k * 512) true]> t, u32 (buf + k * 512), nblks - k, Z.of_nat (S j), total + k)).
    { destruct n; cbn [prdt_loop]; [done|]. destruct (Z.eqb_spec (nblks - k) 0); [done|lia]. }
    rewrite E. exists [Prdt buf (k * 512) true], k. cbn [length app].
    rewrite insert_take_drop by lia. rewrite (Z.mul_comm 512 k).
    replace (j + 1)%nat with (S j) by lia. split_and!; [done| |lia|lia|lia|left; lia].
    replace k with (k + 0) at 1 by lia. rewrite (Z.mul_comm k). apply regions_cons; [rewrite MAX_SECTORS_val; lia|by left|constructor].
  - rewrite (u32_small (buf + k * 512)) by lia.
    destruct (IH (<[j := Prdt buf (k * 512) true]> t) (S j) (buf + k * 512) (nblks - k) (total + k))
      as (es & m & E & Hr & Hl & Hm & Hend); try lia.
    { rewrite length_insert. lia. }
    rewrite E. exists (Prdt buf (k * 512) true :: es), (k + m). cbn [length]. split_and!; try lia.
    + f_equal; [f_equal; [f_equal; [f_equal|]|]|]; try lia.
      * rewrite (take_S_r _ _ (Prdt buf (k * 512) true)) by (apply list_lookup_insert_eq; lia).
        rewrite take_insert_ge, drop_insert_lt by lia. rewrite app_assoc_reverse. cbn [app]. do 4 f_equal. lia.
      * f_equal. lia.
    + rewrite (Z.mul_comm k). apply regions_cons; [rewrite MAX_SECTORS_val; lia|right; rewrite MAX_SECTORS_val; lia|].
      replace (buf + SECTOR_SIZE * k) with (buf + k * 512) by (unfold SECTOR_SIZE; lia). done.
Qed.

(** ** Command slots *)

Lemma land_bit v i : 0 <= i -> Z.land v (Z.shiftl 1 i) = 0 <-> Z.testbit v i = false.
Proof.
  intros Hi. rewrite Z.shiftl_1_l. split.
  - intros E. apply (f_equal (fun x => Z.testbit x i)) in E.
    by rewrite Z.land_spec, Z.pow2_bits_true, andb_true_r, Z.bits_0 in E by done.
  - intros E. apply Z.bits_inj'. intros j Hj. rewrite Z.land_spec, Z.pow2_bits_eqb, Z.bits_0 by done.
    destruct (Z.eqb_spec i j) as [<-|]; [by rewrite E|by rewrite andb_false_r].
Qed.

Lemma slot_loop_spec n i slots :
  0 <= i -> let r := slot_loop n i slots in
  (r = -1 /\ forall j, i <= j < i + Z.of_nat n -> Z.testbit slots j = true) \/
  (i <= r < i + Z.of_nat n /\ Z.testbit slots r = false /\ forall j, i <= j < r -> Z.testbit slots j = true).
Proof.
  revert i. induction n as [|n IH]; intros i Hi; cbn [slot_loop]; [left; split; [done|lia]|].
  destruct (Z.eqb_spec (Z.land slots (Z.shiftl 1 i)) 0) as [E|E]; rewrite land_bit in E by done.
  - right. split; [lia|]. split; [done|lia].
  - apply not_false_is_true in E. destruct (IH (i + 1) ltac:(lia)) as [[-> Hall]|(Hr & Hf & Hall)].
    + left. split; [done|]. intros j Hj. destruct (decide (j = i)) as [->|]; [done|]. apply Hall. lia.
    + right. split; [lia|]. split; [done|]. intros j Hj. destruct (decide (j = i)) as [->|]; [done|]. apply Hall. lia.
Qed.

(** [find_slot] gives no slot exactly when all 32 are taken. *)
Lemma slot_loop_full slots :
  0 <= slots < 2 ^ 32 ->
  (slot_loop NUM_CMD_SLOTS 0 slots < 0 <-> slots = 2 ^ 32 - 1) /\ slot_loop NUM_CMD_SLOTS 0 slots < 32.
Proof.
  intros Hs. pose proof (slot_loop_spec NUM_CMD_SLOTS 0 slots ltac:(lia)) as Hsl.
  change (0 + Z.of_nat NUM_CMD_SLOTS) with 32 in Hsl.
  set (r := slot_loop NUM_CMD_SLOTS 0 slots) in *. clearbody r. destruct Hsl as [[-> Hall]|(Hr & Hf & _)].
  - split; [|lia]. split; [|lia]. intros _. change (2 ^ 32 - 1) with (Z.ones 32). apply Z.bits_inj'. intros j Hj.
    destruct (decide (j < 32)).
    + rewrite Z.ones_spec_low by lia. apply Hall. lia.
    + rewrite Z.ones_spec_high by lia. rewrite <- (Z.mod_small slots (2 ^ 32)) by done. apply Z.mod_pow2_bits_high. lia.
  - split; [|lia]. split; [lia|]. intros ->. change (2 ^ 32 - 1) with (Z.ones 32) in Hf.
    rewrite Z.ones_spec_low in Hf by lia. done.
Qed.

(** What the controller finds for a slot of the command list at [clb]. *)
Record cmd_t : Type := Cmd { c_head : command_head; c_fis : fis_reg_h2d; c_prdt : list prdt_entry }.
Definition fetch (m : dma) (clb slot : Z) : option cmd_t :=
  hs ← lists m !! clb; h ← hs !! Z.to_nat slot; t ← tabs m !! command_table_base h;
  Some (Cmd h (cfis t) (take (Z.to_nat (prdt_entries h)) (prdt t))).
Definition cmd_lba (c : cmd_t) : Z := lbal (c_fis c) + lbah (c_fis c) * 2 ^ 24.

(** A transfer of [k] sectors from sector [blk]. *)
Definition is_transfer (wrt : bool) (blk k : Z) (c : cmd_t) : Prop :=
  c_head c = Head 5 wrt true true (prdt_entries (c_head c)) (command_table_base (c_head c)) /\
  c_fis c = Fis FIS_TYPE_REG_H2D true (if wrt then ATA_CMD_WRITE_DMA_EX else ATA_CMD_READ_DMA_EX)
              (lbal (c_fis c)) (lbah (c_fis c)) 0xE0 k /\
  cmd_lba c = blk.

(** The driver's structures: a list of 32 heads, each with its own table. *)
Definition dma_ok (a : ahci_driver) (m : dma) : Prop :=
  exists hs, lists m !! cmd_head_phys a = Some hs /\ length hs = NUM_CMD_SLOTS /\
    forall i h, hs !! i = Some h ->
      command_table_base h = table_addr a (Z.of_nat i) /\ is_Some (tabs m !! table_addr a (Z.of_nat i)).

Definition slot_head (a : ahci_driver) (slot : Z) (m : dma) (h : command_head) : Prop :=
  exists hs, lists m !! cmd_head_phys a = Some hs /\ hs !! Z.to_nat slot = Some h.

Lemma slot_head_exists a slot m : dma_ok a m -> 0 <= slot < 32 -> exists h, slot_head a slot m h.
Proof.
  intros (hs & E & Hl & _) Hs. destruct (lookup_lt_is_Some_2 hs (Z.to_nat slot)) as [h Eh].
  { rewrite Hl. unfold NUM_CMD_SLOTS. lia. }
  by exists h, hs.
Qed.

Lemma fetch_slot a slot m h t :
  dma_ok a m -> 0 <= slot -> slot_head a slot m h -> tabs m !! table_addr a slot = Some t ->
  fetch m (cmd_head_phys a) slot = Some (Cmd h (cfis t) (take (Z.to_nat (prdt_entries h)) (prdt t))).
Proof.
  intros (hs & E & _ & Hall) Hs (hs' & E' & Eh) Et. simplify_eq. unfold fetch. rewrite E. cbn. rewrite Eh. cbn.
  destruct (Hall _ _ Eh) as [-> _]. rewrite Z2Nat.id by done. by rewrite Et.
Qed.

Section slots.
Context {D : Type} `{Hba D}.

Lemma with_head_post b a slot (f : command_head -> command_head) (s : hw D) h Q :
  dma_ok a (mem_dma s) -> slot_head a slot (mem_dma s) h -> command_table_base (f h) = command_table_base h ->
  (forall m, dma_ok a m -> slot_head a slot m (f h) -> tabs m = tabs (mem_dma s) -> Q tt (Hw (dev s) m)) ->
  post b (with_head a slot f) s Q.
Proof.
  intros (hs & E & Hl & Hall) (hs' & E' & Eh) Hf HQ. simplify_eq. unfold with_head.
  apply post_bind, post_get, post_bind. eapply post_deref; [done|]. apply post_bind. eapply post_deref; [done|].
  apply post_modify, HQ; [| |done].
  - eexists. cbn [lists tabs]. split; [by rewrite lookup_insert_eq|]. split; [by rewrite length_insert|].
    intros i h0 Hi. destruct (decide (Z.to_nat slot = i)) as [<-|Hne].
    + rewrite list_lookup_insert_eq in Hi by (by eapply lookup_lt_Some). injection Hi as <-. rewrite Hf. by apply Hall.
    + rewrite list_lookup_insert_ne in Hi by done. by apply Hall.
  - eexists. cbn [lists]. split; [by rewrite lookup_insert_eq|]. apply list_lookup_insert_eq. by eapply lookup_lt_Some.
Qed.

Lemma set_table_post b a slot t (s : hw D) h Q :
  dma_ok a (mem_dma s) -> 0 <= slot -> slot_head a slot (mem_dma s) h ->
  (forall m, dma_ok a m -> slot_head a slot m h -> tabs m !! table_addr a slot = Some t -> Q tt (Hw (dev s) m)) ->
  post b (set_table a slot t) s Q.
Proof.
  intros (hs & E & Hl & Hall) Hs (hs' & E' & Eh) HQ. simplify_eq. unfold set_table.
  apply post_bind, post_get, post_bind. destruct (Hall _ _ Eh) as [_ [t0 Et]]. rewrite Z2Nat.id in Et by done.
  eapply post_deref; [done|]. apply post_modify, HQ.
  - exists hs. cbn [lists tabs]. split; [done|]. split; [done|]. intros i h0 Hi. destruct (Hall i h0 Hi) as [Hb Ht].
    split; [done|]. destruct (decide (table_addr a slot = table_addr a (Z.of_nat i))) as [<-|?].
    + by rewrite lookup_insert_eq.
    + by rewrite lookup_insert_ne.
  - by exists hs.
  - apply lookup_insert_eq.
Qed.
End slots.

(** The sector address in the two fields of the command. *)
Lemma fis_lba blk k wrt : 0 <= blk < 2 ^ 48 ->
  lbal (make_fis blk k wrt) + lbah (make_fis blk k wrt) * 2 ^ 24 = blk.
Proof.
  intros Hb. cbn [make_fis lbal lbah]. change (Z.shiftl 1 24 - 1) with (Z.ones 24).
  rewrite !Z.land_ones, shiftr_div by lia.
  rewrite (Z.mod_small (blk / 2 ^ 24)) by (split; [apply Z.div_pos; lia|apply Z.div_lt_upper_bound; lia]).
  pose proof (Z.div_mod blk (2 ^ 24)). lia.
Qed.

Section round.
Context {D : Type} `{Hba D}.

(** What a round writes before it issues its command. *)
Lemma round_setup {A} b (k : M (hw D) A) a slot blk nblks buf wrt (s : hw D) h t buf' nblks' np total Q :
  dma_ok a (mem_dma s) -> 0 <= slot -> slot_head a slot (mem_dma s) h -> cfl h = 5 -> h_write h = wrt ->
  prefetch h = true -> clear_r_ok h = true ->
  0 <= blk -> blk < 2 ^ 48 -> 0 < nblks < 2 ^ 32 -> 0 <= buf < 2 ^ 32 -> buf + SECTOR_SIZE * nblks <= 2 ^ 32 ->
  prdt_loop NUM_PRDT_ENTRIES (prdt zero_table) buf nblks 0 0 = (t, buf', nblks', np, total) ->
  (forall m c h', dma_ok a m -> slot_head a slot m h' -> cfl h' = 5 -> h_write h' = wrt -> prefetch h' = true ->
     clear_r_ok h' = true -> fetch m (cmd_head_phys a) slot = Some c -> is_transfer wrt blk total c ->
     regions buf total (c_prdt c) -> (length (c_prdt c) <= 8)%nat ->
     1 <= total <= nblks -> total <= 8 * MAX_SECTORS -> nblks' = nblks - total ->
     buf' = u32 (buf + SECTOR_SIZE * total) -> nblks' = 0 \/ total = 8 * MAX_SECTORS ->
     post b k (Hw (dev s) m) Q) ->
  post b (set_table a slot (Table (make_fis blk total wrt) t);;;
          with_head a slot (fun h => Head (cfl h) (h_write h) (prefetch h) (clear_r_ok h) (u16 np) (command_table_base h));;;
          k) s Q.
Proof.
  intros Hd Hs Hh H1 H2 H3 H4 Hb0 Hb1 Hn Hbuf Hend Ep HQ.
  destruct (prdt_loop_spec NUM_PRDT_ENTRIES (prdt zero_table) 0 buf nblks 0) as (es & m & E & Hr & Hl & Hm & Hfin); try done; try lia.
  change (Z.of_nat 0) with 0 in E. rewrite E in Ep. injection Ep as <- <- <- <- <-. rewrite Z.add_0_l.
  assert (Hm8 : m <= 8 * MAX_SECTORS).
  { clear -Hr Hl. change NUM_PRDT_ENTRIES with 8%nat in Hl. assert (m <= Z.of_nat (length es) * MAX_SECTORS); [|rewrite MAX_SECTORS_val in *; lia].
    clear Hl. rewrite MAX_SECTORS_val. induction Hr; rewrite ?MAX_SECTORS_val in *; cbn [length]; lia. }
  assert (Hm1 : 1 <= m) by (destruct Hfin; [lia|change NUM_PRDT_ENTRIES with 8%nat in *; rewrite MAX_SECTORS_val in *; lia]).
  apply post_bind. eapply set_table_post; [done..|]. intros m1 Hd1 Hh1 Et. cbn [mem_dma].
  apply post_bind. eapply with_head_post; [done|done|done|]. cbn [mem_dma dev]. intros m2 Hd2 Hh2 Ht2.
  assert (Hnp : u16 (Z.of_nat (length es)) = Z.of_nat (length es)).
  { apply wrap_small. change NUM_PRDT_ENTRIES with 8%nat in Hl. simpl. lia. }
  eapply HQ; try done; try lia.
  - rewrite (fetch_slot a slot m2 _ _ Hd2 Hs Hh2) by (by rewrite Ht2). reflexivity.
  - split; [|split]; cbn [c_head c_fis cfis cfl h_write prefetch clear_r_ok].
    + by rewrite H1, H2, H3, H4.
    + unfold make_fis. cbn [lbal lbah]. f_equal. apply wrap_small. rewrite MAX_SECTORS_val in Hm8. simpl. lia.
    + unfold cmd_lba. cbn [c_fis cfis]. apply fis_lba. lia.
  - cbn [c_prdt prdt prdt_entries]. rewrite Hnp, Nat2Z.id. cbn [take app Nat.add].
    rewrite take_app_length. done.
  - cbn [c_prdt prdt prdt_entries]. rewrite Hnp, Nat2Z.id, length_take. change NUM_PRDT_ENTRIES with 8%nat in Hl. lia.
  - destruct Hfin as [Hf|Hf]; [left; lia|right; by rewrite Hf].
Qed.
End round.

(** ** Any controller

    A controller that also records the commands it is given. *)

Section traced.
Context {D : Type} `{Hba D}.

Definition traced : Type := D * list (Z * Z * dma).
#[export] Instance traced_hba : Hba traced := {
  rd r d := let '(v, d') := rd r d.1 in (v, (d', d.2));
  wr r v m d := (wr r v m d.1, match r with PORT p command_issue => d.2 ++ [(p, v, m)] | _ => d.2 end);
}.

(** Nothing is issued and the structures in memory stay. *)
Definition quiet (s s' : hw traced) : Prop := (dev s').2 = (dev s).2 /\ mem_dma s' = mem_dma s.

Lemma rd_quiet b r (s : hw traced) Q : (forall v s', quiet s s' -> Q v s') -> post b (rd_reg r) s Q.
Proof.
  intros HQ. destruct s as [[d l] m]. unfold post, rd_reg. cbn. destruct (rd r d) as [v d']. by apply HQ.
Qed.
Lemma wr_quiet b p r v (s : hw traced) Q :
  r <> command_issue -> (forall s', quiet s s' -> Q tt s') -> post b (wr_reg (PORT p r) v) s Q.
Proof. intros Hr HQ. apply post_modify, HQ. by destruct r. Qed.

Lemma quiet_trans s1 s2 s3 : quiet s1 s2 -> quiet s2 s3 -> quiet s1 s3.
Proof. unfold quiet. intros [-> ->] [-> ->]. done. Qed.
#[local] Hint Resolve quiet_trans : core.

Lemma wait_clear_quiet fuel r mask s : post false (wait_clear fuel r mask) s (fun _ s' => quiet s s').
Proof.
  revert s. induction fuel as [|k IH]; intros s; [done|]. apply post_bind, rd_quiet. intros v s' Hq.
  destruct (_ =? 0); [done|]. eapply post_mono; [apply IH|]. eauto.
Qed.

Lemma busy_wait_quiet n p s : post false (busy_wait n p) s (fun _ s' => quiet s s').
Proof.
  revert s. induction n as [|k IH]; intros s; apply post_bind, rd_quiet; intros v s' Hq; [done|].
  destruct (_ =? 0); [done|]. eapply post_mono; [apply IH|]. eauto.
Qed.

Lemma complete_wait_quiet fuel p slot s : post false (complete_wait fuel p slot) s (fun _ s' => quiet s s').
Proof.
  revert s. induction fuel as [|k IH]; intros s; [done|]. apply post_bind, rd_quiet. intros v s1 Hq1.
  destruct (_ =? 0); [done|]. apply post_bind, rd_quiet. intros e s2 Hq2.
  destruct (error_bit e); [apply post_ret; eauto|]. eapply post_mono; [apply IH|]. eauto.
Qed.

Lemma run_command_issues spin p slot (s : hw traced) :
  post false (run_command spin p slot) s (fun e s' =>
    mem_dma s' = mem_dma s /\ (e = None \/ e = Some EIO) /\
    ((dev s').2 = (dev s).2 ++ [(p, Z.shiftl 1 slot, mem_dma s)] \/ e = Some EIO /\ (dev s').2 = (dev s).2)).
Proof.
  unfold run_command. apply post_bind. eapply post_mono; [apply busy_wait_quiet|]. intros ok s1 [E1 M1].
  destruct ok; cbn [negb]; [|apply post_ret; split_and!; [done|by right|by right]].
  apply post_bind, wr_quiet; [done|]. intros s2 [E2 M2]. apply post_bind, post_modify. cbn [dev mem_dma wr traced_hba snd].
  apply post_bind. eapply post_mono; [apply complete_wait_quiet|]. intros ok s3 [E3 M3]. cbn [dev mem_dma snd] in E3, M3.
  assert (HE : forall s', quiet s3 s' -> mem_dma s' = mem_dma s /\ (dev s').2 = (dev s).2 ++ [(p, Z.shiftl 1 slot, mem_dma s)]).
  { intros s' [-> ->]. rewrite E3, M3, M2, M1, E2, E1. done. }
  destruct ok; cbn [negb]; [|apply post_ret; destruct (HE s3) as [-> ->]; [done|]; split_and!; [done|by right|by left]].
  apply post_bind, rd_quiet. intros e s4 Q4. destruct (error_bit e); [apply post_ret; destruct (HE s4 Q4) as [-> ->]; split_and!; [done|by right|by left]|].
  apply post_bind. eapply post_mono; [apply wait_clear_quiet|]. intros [] s5 Q5.
  apply post_bind, rd_quiet. intros v s6 Q6. apply post_bind, wr_quiet; [done|]. intros s7 Q7.
  apply post_ret. destruct (HE s7 (quiet_trans _ _ _ (quiet_trans _ _ _ (quiet_trans _ _ _ Q4 Q5) Q6) Q7)) as [-> ->]. split_and!; [done|by left|by left].
Qed.

(** [issued p clb slot wrt blk buf n l]: the commands [l] given to port [p] move
    [n] sectors from [blk] on, in order, to or from the memory at [buf]. *)
Inductive issued (p clb slot : Z) (wrt : bool) : Z -> Z -> Z -> list (Z * Z * dma) -> Prop :=
| issued_nil blk buf : issued p clb slot wrt blk buf 0 []
| issued_cons blk buf k n m c l :
    fetch m clb slot = Some c -> is_transfer wrt blk k c -> regions buf k (c_prdt c) ->
    1 <= k <= 8 * MAX_SECTORS -> (length (c_prdt c) <= 8)%nat ->
    issued p clb slot wrt (blk + k) (buf + SECTOR_SIZE * k) n l ->
    issued p clb slot wrt blk buf (k + n) ((p, Z.shiftl 1 slot, m) :: l).

Lemma transfer_loop_issues spin fuel a slot blk nblks buf wrt (s : hw traced) h :
  dma_ok a (mem_dma s) -> 0 <= slot -> slot_head a slot (mem_dma s) h -> cfl h = 5 -> h_write h = wrt ->
  prefetch h = true -> clear_r_ok h = true ->
  0 <= blk -> 0 <= nblks < 2 ^ 32 -> blk + nblks <= 2 ^ 48 -> 0 <= buf ->
  buf + SECTOR_SIZE * nblks <= 2 ^ 32 ->
  post false (transfer_loop spin fuel a slot blk nblks (u32 buf) wrt) s (fun r s' =>
    dma_ok a (mem_dma s') /\
    exists n l, (dev s').2 = (dev s).2 ++ l /\ issued (portid a) (cmd_head_phys a) slot wrt blk buf n l /\
      n <= nblks /\ (r = Val 0 /\ n = nblks \/ r = Err EIO)).
Proof.
  revert blk nblks buf s h. induction fuel as [|fuel IH]; intros blk nblks buf s h Hd Hs Hh H1 H2 H3 H4 Hb Hn Hbn Hbuf Hend; [done|].
  cbn [transfer_loop]. destruct (Z.eqb_spec nblks 0) as [->|Hne].
  { apply post_ret. split; [done|]. exists 0, []. rewrite app_nil_r. split_and!; [done|constructor|lia|by left]. }
  rewrite (u32_small buf) by (unfold SECTOR_SIZE in *; lia).
  destruct (prdt_loop _ _ _ _ _ _) as [[[[t buf'] nblks'] np] total] eqn:Ep.
  eapply (round_setup _ _ _ _ _ nblks buf); [done..|lia|lia|unfold SECTOR_SIZE in *; lia|lia|exact Ep|].
  intros m c h' Hd' Hh' H1' H2' H3' H4' Hf Ht Hr Hl Htot Ht8 -> -> Hor.
  apply post_bind. eapply post_mono; [apply run_command_issues|]. cbn [dev mem_dma].
  intros e s1 (M1 & He & Hlog). destruct Hlog as [Hlog|[-> Hlog]]; cycle 1.
  { apply post_ret. rewrite M1. split; [done|]. exists 0, []. rewrite app_nil_r, Hlog.
    split_and!; [done|constructor|lia|by right]. }
  destruct He as [-> | ->]; cycle 1.
  { apply post_ret. rewrite M1. split; [done|]. exists (total + 0). eexists. split; [exact Hlog|].
    split; [eapply issued_cons; [done..|lia|done|constructor]|]. split; [lia|by right]. }
  rewrite (wrap_small 64) by (simpl; lia).
  eapply post_mono; [eapply (IH _ _ _ s1); rewrite ?M1; try done; unfold SECTOR_SIZE in *; lia|].
  intros r s2 (Hd2 & n & l & Hlog2 & Hi & Hle & Hres). split; [done|]. exists (total + n). eexists.
  split; [rewrite Hlog2, Hlog, <- app_assoc; reflexivity|]. split; [eapply issued_cons; [done|done|done|lia|done|done]|]. split; [lia|].
  destruct Hres as [[-> ->]|?]; [left; split; [done|lia]|by right].
Qed.

Lemma slot_loop_range v : slot_loop NUM_CMD_SLOTS 0 v < 32.
Proof.
  pose proof (slot_loop_spec NUM_CMD_SLOTS 0 v ltac:(lia)) as Hsl.
  change (0 + Z.of_nat NUM_CMD_SLOTS) with 32 in Hsl. cbv zeta in Hsl. lia.
Qed.

(** C18: whatever the controller answers, [transfer] only issues commands for
    consecutive parts of the sectors [blk, blk + nblks), in order, each with a
    table of at most eight regions that are exactly the matching part of the
    buffer; it returns 0 only when all sectors have been asked for, [-EIO] or
    [-EBUSY] otherwise, and never faults (a controller that never answers keeps
    it polling). *)
Theorem transfer_commands_in_bounds spin a blk nblks buf wrt (d : D) m :
  dma_ok a m -> 0 <= blk -> 0 <= nblks < 2 ^ 32 -> blk + nblks <= 2 ^ 48 -> 0 <= buf < 2 ^ 32 ->
  buf + SECTOR_SIZE * nblks <= 2 ^ 32 ->
  match transfer (D := traced) spin a blk nblks buf wrt (Hw (d, []) m) with
  | Ok (r, s') =>
    dma_ok a (mem_dma s') /\
    exists slot n, 0 <= slot < 32 /\ issued (portid a) (cmd_head_phys a) slot wrt blk buf n (dev s').2 /\
      n <= nblks /\ (r = Val 0 /\ n = nblks \/ r = Err EIO \/ r = Err EBUSY /\ n = 0)
  | Stop e => e = Fuel
  end.
Proof.
  intros Hd Hb Hn Hbn Hbuf Hend.
  cut (post false (transfer (D := traced) spin a blk nblks buf wrt) (Hw (d, []) m) (fun r s' =>
    dma_ok a (mem_dma s') /\
    exists slot n, 0 <= slot < 32 /\ issued (portid a) (cmd_head_phys a) slot wrt blk buf n (dev s').2 /\
      n <= nblks /\ (r = Val 0 /\ n = nblks \/ r = Err EIO \/ r = Err EBUSY /\ n = 0))).
  { unfold post. destruct (transfer _ _ _ _ _ _ _) as [[r s']|e]; [done|]. by intros [_ ->]. }
  unfold transfer. apply post_bind, wr_quiet; [done|]. intros s1 Q1. apply post_bind. unfold find_slot.
  apply post_bind, rd_quiet. intros v s2 Q2. apply post_bind, rd_quiet. intros w s3 Q3. apply post_ret.
  destruct (quiet_trans _ _ _ (quiet_trans _ _ _ Q1 Q2) Q3) as [L3 M3]. cbn [dev mem_dma snd] in L3, M3.
  pose proof (slot_loop_range (Z.lor v w)). set (slot := slot_loop _ _ _) in *. clearbody slot.
  destruct (Z.ltb_spec slot 0).
  { apply post_ret. rewrite L3, M3. split; [done|]. exists 0, 0. split_and!; [lia..|constructor|lia|auto]. }
  rewrite <- M3 in Hd. destruct (slot_head_exists a slot (mem_dma s3)) as [h Hh]; [done|lia|].
  apply post_bind. eapply with_head_post; [done..|]. cbn [dev mem_dma]. intros m' Hd' Hh' _.
  pose proof (transfer_loop_issues spin (transfer_fuel nblks) a slot blk nblks buf wrt (Hw (dev s3) m')
    (Head 5 wrt true true (prdt_entries h) (command_table_base h)) Hd') as HL.
  rewrite (u32_small buf) in HL by done.
  eapply post_mono; [apply HL; first [done|lia]|].
  cbn [dev]. intros r s4 (Hd4 & n & l & -> & Hi & Hle & Hres). split; [done|]. exists slot, n. rewrite L3.
  split_and!; [lia..|done|lia|]. destruct Hres as [[-> ->]|?]; auto.
Qed.
End traced.
