(* ===== verification/AhciDisk.v ===== *)
(** * Disk transfers through a controller that works

    The class [DiskHba] states what the documentation of the controller
    promises for a port with a disk: a command that is issued while the port is
    ready is carried out, after which the port is ready again.  Against it,
    [transfer] moves sectors between the disk and memory. *)

From S2P Require Import Prelude Proc Pci Ahci AhciSpec.
From stdpp Require Import gmap list.
#[local] Open Scope Z_scope.

(** The bytes of the disk and of physical memory. *)
Record contents : Type := Contents { disk : Z -> Z; pmem : Z -> Z }.

Section exec.
(** The number of bytes a region with a given size field describes. *)
Variable dbc : Z -> Z.

(** The address of byte [i] of a region table, and the byte that is at an
    address. *)
Fixpoint addr_of (es : list prdt_entry) (i : Z) : option Z :=
  match es with
  | [] => None
  | e :: r => if i <? dbc (p_size e) then Some (data_base e + i) else addr_of r (i - dbc (p_size e))
  end.
Fixpoint index_of (es : list prdt_entry) (a : Z) : option Z :=
  match es with
  | [] => None
  | e :: r =>
    if (data_base e <=? a) && (a <? data_base e + dbc (p_size e)) then Some (a - data_base e)
    else (fun i => dbc (p_size e) + i) <$> index_of r a
  end.

Definition exec (c : cmd_t) (x : contents) : contents :=
  let first := SECTOR_SIZE * cmd_lba c in
  let len := SECTOR_SIZE * f_count (c_fis c) in
  if h_write (c_head c) then
    Contents (fun b => if (first <=? b) && (b <? first + len)
                       then match addr_of (c_prdt c) (b - first) with Some a => pmem x a | None => disk x b end
                       else disk x b) (pmem x)
  else
    Contents (disk x) (fun a => match index_of (c_prdt c) a with
                                | Some i => if i <? len then disk x (first + i) else pmem x a
                                | None => pmem x a
                                end).

(** The regions describe as many bytes as the command moves. *)
Definition covers (c : cmd_t) : Prop :=
  SECTOR_SIZE * f_count (c_fis c) <= foldr (fun e n => dbc (p_size e) + n) 0 (c_prdt c).
End exec.

Class DiskHba (D : Type) `{Hba D} (p latency : Z) : Type := {
  dbc : Z -> Z;
  dbc_at_least : forall n, n <= dbc n;
  (** [ready clb x d]: nothing runs, the command list is at [clb] and the disk
      and the memory hold [x]; [running n clb x d]: a command runs, after which
      they will hold [x], and it will be done when its register has been read
      [n] times. *)
  ready : Z -> contents -> D -> Prop;
  running : nat -> Z -> contents -> D -> Prop;
  sact : D -> Z;
  sact_range : forall d, 0 <= sact d < 2 ^ 32;
  ready_rd : forall clb x d r v d', ready clb x d -> rd (PORT p r) d = (v, d') ->
    ready clb x d' /\ sact d' = sact d /\
    match r with
    | task_file_data => Z.land v (Z.lor ATA_DEV_BRQ ATA_DEV_BUSY) = 0
    | int_status => error_bit v = false
    | command_issue => v = 0
    | sata_active => v = sact d
    | _ => True
    end;
  ready_wr : forall clb x d r v m, ready clb x d -> r = int_status \/ r = sata_active ->
    ready clb x (wr (PORT p r) v m d) /\ (r = int_status -> sact (wr (PORT p r) v m d) = sact d);
  ready_issue : forall clb x d m slot c k wrt blk, ready clb x d -> 0 <= slot < 32 ->
    fetch m clb slot = Some c -> is_transfer wrt blk k c -> 1 <= k -> covers dbc c ->
    exists n, Z.of_nat n <= latency /\ running n clb (exec dbc c x) (wr (PORT p command_issue) (Z.shiftl 1 slot) m d);
  running_ci : forall n clb x d v d', running n clb x d -> rd (PORT p command_issue) d = (v, d') ->
    0 <= v < 2 ^ 32 /\ (v = 0 /\ ready clb x d' \/ v <> 0 /\ exists k, n = S k /\ running k clb x d');
  running_is : forall n clb x d v d', running n clb x d -> rd (PORT p int_status) d = (v, d') ->
    error_bit v = false /\ running n clb x d';
}.

(** ** What a command does to disk and memory *)

(** [moved wrt blk n buf x y]: [y] is [x] with [n] sectors copied between the
    disk at sector [blk] and the memory at [buf]. *)
Definition moved (wrt : bool) (blk n buf : Z) (x y : contents) : Prop :=
  let first := SECTOR_SIZE * blk in
  let len := SECTOR_SIZE * n in
  if wrt then
    (forall a, pmem y a = pmem x a) /\
    forall b, disk y b = if decide (first <= b < first + len) then pmem x (buf + (b - first)) else disk x b
  else
    (forall b, disk y b = disk x b) /\
    forall a, pmem y a = if decide (buf <= a < buf + len) then disk x (first + (a - buf)) else pmem x a.

Lemma moved_0 wrt blk buf x : moved wrt blk 0 buf x x.
Proof. destruct wrt; (split; [done|]); intros b; case_decide; unfold SECTOR_SIZE in *; first [lia|done]. Qed.

Lemma moved_app wrt blk n k buf x y z :
  0 <= n -> 0 <= k -> moved wrt blk k buf x y -> moved wrt (blk + k) n (buf + SECTOR_SIZE * k) y z ->
  moved wrt blk (k + n) buf x z.
Proof.
  unfold moved, SECTOR_SIZE. intros Hn Hk. destruct wrt.
  - intros [M1 D1] [M2 D2]. split; [intros a; by rewrite M2, M1|]. intros b. rewrite D2, D1, M1.
    repeat case_decide; try lia; try done. f_equal. lia.
  - intros [D1 M1] [D2 M2]. split; [intros b; by rewrite D2, D1|]. intros a. rewrite M2, M1, D1.
    repeat case_decide; try lia; try done. f_equal. lia.
Qed.

Section regions.
Variable dbc : Z -> Z.
Hypothesis dbc_at_least : forall n, n <= dbc n.

(** The size field is exact, or there is only one region. *)
Definition exact (es : list prdt_entry) : Prop := (forall n, dbc n = n) \/ (length es <= 1)%nat.

Lemma exact_tail e es : exact (e :: es) -> exact es /\ (dbc (p_size e) = p_size e \/ es = []).
Proof.
  intros [Hx|Hl]; [split; [by left|left; apply Hx]|]. destruct es; [|simpl in Hl; lia].
  split; [right; simpl; lia|by right].
Qed.

Lemma regions_nonneg buf n es : regions buf n es -> 0 <= n.
Proof. induction 1; lia. Qed.

Lemma regions_covers buf n es : regions buf n es -> SECTOR_SIZE * n <= foldr (fun e n => dbc (p_size e) + n) 0 es.
Proof.
  induction 1 as [|buf k n es Hk Hor Hr IH]; [done|]. cbn [foldr p_size]. pose proof (dbc_at_least (SECTOR_SIZE * k)). lia.
Qed.

Lemma addr_of_regions buf n es i :
  regions buf n es -> exact es -> 0 <= i < SECTOR_SIZE * n -> addr_of dbc es i = Some (buf + i).
Proof.
  intros Hr. revert i. induction Hr as [buf|buf k n es Hk Hor Hr IH]; intros i He Hi; [unfold SECTOR_SIZE in *; lia|].
  cbn [addr_of p_size data_base]. pose proof (dbc_at_least (SECTOR_SIZE * k)). destruct (Z.ltb_spec i (dbc (SECTOR_SIZE * k))); [done|].
  apply exact_tail in He as [He [Hd| ->]]; cbn [p_size] in *.
  - rewrite Hd in *. rewrite IH by (done || lia). f_equal. lia.
  - inversion Hr; subst. unfold SECTOR_SIZE in *. lia.
Qed.

Lemma index_of_regions buf n es a :
  regions buf n es -> exact es ->
  match index_of dbc es a with
  | Some i => if decide (buf <= a < buf + SECTOR_SIZE * n) then i = a - buf else SECTOR_SIZE * n <= i
  | None => ~ (buf <= a < buf + SECTOR_SIZE * n)
  end.
Proof.
  intros Hr. induction Hr as [buf|buf k n es Hk Hor Hr IH]; intros He; [unfold SECTOR_SIZE; cbn; lia|].
  pose proof (regions_nonneg _ _ _ Hr). pose proof (dbc_at_least (SECTOR_SIZE * k)).
  cbn [index_of p_size data_base]. unfold SECTOR_SIZE in *. apply exact_tail in He as [He [Hd| ->]]; cbn [p_size] in *.
  - rewrite Hd. specialize (IH He). destruct (Z.leb_spec buf a), (Z.ltb_spec a (buf + 512 * k)); cbn [andb];
      try (case_decide; lia).
    all: destruct (index_of dbc es a); cbn; repeat case_decide; try lia.
  - clear IH. inversion Hr; subst. cbn. destruct (Z.leb_spec buf a), (Z.ltb_spec a (buf + dbc (512 * k))); cbn [andb];
      try case_decide; lia.
Qed.

Lemma exec_moves wrt blk k buf c x :
  is_transfer wrt blk k c -> regions buf k (c_prdt c) -> exact (c_prdt c) -> moved wrt blk k buf x (exec dbc c x).
Proof.
  intros (Hh & Hf & Hb) Hr He. unfold exec, moved. rewrite Hb, Hf, Hh. cbn [f_count h_write].
  destruct wrt; cbn [disk pmem]; (split; [done|]).
  - intros b. destruct (Z.leb_spec (SECTOR_SIZE * blk) b), (Z.ltb_spec b (SECTOR_SIZE * blk + SECTOR_SIZE * k)); cbn [andb];
      case_decide; try lia; try done.
    rewrite (addr_of_regions buf k) by (done || lia). done.
  - intros a. pose proof (index_of_regions buf k (c_prdt c) a Hr He) as Hi. destruct (index_of _ _ _) as [i|].
    + case_decide; [subst i|]; zcases; try lia; done.
    + case_decide; done.
Qed.
End regions.

Lemma regions_single buf n es : regions buf n es -> n <= MAX_SECTORS -> (length es <= 1)%nat.
Proof.
  destruct 1 as [|buf k n es Hk Hor Hr]; [simpl; lia|]. intros Hn. pose proof (regions_nonneg _ _ _ Hr).
  assert (n = 0) by lia. destruct Hr as [|? k' n' ? Hk' _ Hr']; [simpl; lia|].
  pose proof (regions_nonneg _ _ _ Hr'). lia.
Qed.

(** ** Transfers *)

Section transfers.
Context {D : Type} `{Hba D} {p latency : Z} `{!DiskHba D p latency}.

Lemma rd_ready b clb x r (s : hw D) Q :
  ready clb x (dev s) ->
  (forall v d, ready clb x d -> sact d = sact (dev s) ->
     match r with
     | task_file_data => Z.land v (Z.lor ATA_DEV_BRQ ATA_DEV_BUSY) = 0
     | int_status => error_bit v = false
     | command_issue => v = 0
     | sata_active => v = sact (dev s)
     | _ => True
     end -> Q v (Hw d (mem_dma s))) ->
  post b (rd_reg (PORT p r)) s Q.
Proof.
  intros Hr HQ. unfold post, rd_reg. destruct (rd (PORT p r) (dev s)) as [v d] eqn:E.
  destruct (ready_rd _ _ _ _ _ _ Hr E) as (? & ? & ?). by apply HQ.
Qed.

(** The port after a command was issued: still at work, or done. *)
Definition settled (n : nat) (clb : Z) (x : contents) (d : D) : Prop :=
  ready clb x d \/ exists k, (k <= n)%nat /\ running k clb x d.

Lemma rd_is_settled b n clb x (s : hw D) Q :
  settled n clb x (dev s) ->
  (forall v d, settled n clb x d -> error_bit v = false -> Q v (Hw d (mem_dma s))) ->
  post b (rd_reg (PORT p int_status)) s Q.
Proof.
  intros [Hr|(k & Hk & Hr)] HQ.
  - eapply rd_ready; [done|]. intros v d Hd _ He. apply HQ; [by left|done].
  - unfold post, rd_reg. destruct (rd _ _) as [v d] eqn:E. destruct (running_is _ _ _ _ _ _ Hr E).
    apply HQ; [right; by exists k|done].
Qed.

Lemma rd_ci_settled b n clb x (s : hw D) Q :
  settled n clb x (dev s) ->
  (forall v d, 0 <= v < 2 ^ 32 ->
     (v = 0 /\ ready clb x d \/ v <> 0 /\ exists k, n = S k /\ settled k clb x d) -> Q v (Hw d (mem_dma s))) ->
  post b (rd_reg (PORT p command_issue)) s Q.
Proof.
  intros [Hr|(k & Hk & Hr)] HQ.
  - eapply rd_ready; [done|]. intros v d Hd _ ->. apply HQ; [lia|by left].
  - unfold post, rd_reg. destruct (rd _ _) as [v d] eqn:E.
    destruct (running_ci _ _ _ _ _ _ Hr E) as [Hv [[-> Hd]|(Hne & j & -> & Hd)]]; apply HQ; try done; [by left|].
    right. split; [done|]. destruct n as [|n]; [lia|]. exists n. split; [done|]. right. exists j. split; [lia|done].
Qed.

Lemma complete_wait_ok fuel n slot clb x (s : hw D) :
  settled n clb x (dev s) -> (n < fuel)%nat ->
  post true (complete_wait fuel p slot) s (fun ok s' =>
    ok = true /\ mem_dma s' = mem_dma s /\ settled n clb x (dev s')).
Proof.
  revert n s. induction fuel as [|fuel IH]; intros n s Hs Hn; [lia|].
  apply post_bind. eapply rd_ci_settled; [done|]. intros v d Hv [[-> Hd]|(Hne & k & -> & Hd)].
  { rewrite Z.land_0_l. apply post_ret. split_and!; [done..|by left]. }
  assert (Hw : forall d', settled k clb x d' -> settled (S k) clb x d').
  { intros d' [?|(j & ? & ?)]; [by left|right; exists j; split; [lia|done]]. }
  destruct (_ =? 0); [apply post_ret; by auto|].
  apply post_bind. eapply rd_is_settled; [done|]. cbn [dev mem_dma]. intros e d' Hd' ->.
  eapply post_mono; [apply (IH k); [done|lia]|]. intros ok s' (? & ? & ?). auto.
Qed.

Lemma wait_clear_ok fuel n clb x (s : hw D) :
  settled n clb x (dev s) -> (n < fuel)%nat ->
  post true (wait_clear fuel (PORT p command_issue) 0xffffffff) s (fun _ s' =>
    mem_dma s' = mem_dma s /\ ready clb x (dev s')).
Proof.
  revert n s. induction fuel as [|fuel IH]; intros n s Hs Hn; [lia|].
  apply post_bind. eapply rd_ci_settled; [done|]. intros v d Hv Hd. change 0xffffffff with (Z.ones 32).
  rewrite Z.land_ones, Z.mod_small by lia. destruct Hd as [[-> Hd]|(Hne & k & -> & Hd)]; [by apply post_ret|].
  destruct (Z.eqb_spec v 0); [done|]. change (Z.ones 32) with 0xffffffff. eapply post_mono; [apply (IH k); [done|lia]|]. done.
Qed.

Variable spin : nat.
Hypothesis spin_enough : latency < Z.of_nat spin.

Lemma run_command_ok slot clb x c k wrt blk (s : hw D) :
  ready clb x (dev s) -> 0 <= slot < 32 -> fetch (mem_dma s) clb slot = Some c -> is_transfer wrt blk k c ->
  1 <= k -> covers dbc c ->
  post true (run_command spin p slot) s (fun e s' =>
    e = None /\ mem_dma s' = mem_dma s /\ ready clb (exec dbc c x) (dev s')).
Proof.
  intros Hr Hs Hf Ht Hk Hc. unfold run_command. apply post_bind.
  assert (HM : exists m, MAX_CYCLES = S m) by (exists (Nat.pred MAX_CYCLES); unfold MAX_CYCLES; rewrite Z.shiftl_1_l; lia).
  destruct HM as [m ->]. apply post_bind. eapply rd_ready; [done|]. intros v d Hd _ Hv.
  apply Z.eqb_eq in Hv as ->. apply post_ret. cbn [negb].
  apply post_bind, post_modify. cbn [dev mem_dma]. apply post_bind, post_modify. cbn [dev mem_dma].
  destruct (ready_wr clb x d sata_active (Z.shiftl 1 slot) (mem_dma s) Hd) as [Hd1 _]; [by right|].
  destruct (ready_issue _ _ _ _ _ _ _ _ _ Hd1 Hs Hf Ht Hk Hc) as (n & Hn & Hd2).
  assert (Hnf : (n < spin)%nat) by lia.
  apply post_bind. eapply post_mono; [apply (complete_wait_ok _ n); [right; by exists n|done]|].
  intros ok s3 (-> & M3 & Hd3). cbn [negb mem_dma] in *.
  apply post_bind. eapply rd_is_settled; [done|]. intros e d4 Hd4 ->.
  apply post_bind. eapply post_mono; [by apply (wait_clear_ok _ n)|]. cbn [mem_dma]. intros [] s5 [M5 Hd5].
  apply post_bind. eapply rd_ready; [done|]. intros w d6 Hd6 _ _. apply post_bind, post_modify, post_ret. cbn [dev mem_dma].
  split_and!; [done|congruence|]. apply ready_wr; [done|by right].
Qed.

Lemma transfer_loop_ok fuel a slot clb x blk nblks buf wrt (s : hw D) h :
  portid a = p -> cmd_head_phys a = clb ->
  dma_ok a (mem_dma s) -> 0 <= slot < 32 -> slot_head a slot (mem_dma s) h -> cfl h = 5 -> h_write h = wrt ->
  prefetch h = true -> clear_r_ok h = true -> ready clb x (dev s) ->
  0 <= blk -> 0 <= nblks < 2 ^ 32 -> blk + nblks <= 2 ^ 48 -> 0 <= buf -> buf + SECTOR_SIZE * nblks <= 2 ^ 32 ->
  nblks <= MAX_SECTORS \/ (forall n, dbc n = n) ->
  nblks = 0 /\ (0 < fuel)%nat \/ nblks / (8 * MAX_SECTORS) + 2 <= Z.of_nat fuel ->
  post true (transfer_loop spin fuel a slot blk nblks (u32 buf) wrt) s (fun r s' =>
    r = Val 0 /\ dma_ok a (mem_dma s') /\ exists y, ready clb y (dev s') /\ moved wrt blk nblks buf x y).
Proof.
  intros Hp <-. revert x blk nblks buf s h.
  induction fuel as [|fuel IH]; intros x blk nblks buf s h Hd Hs Hh H1 H2 H3 H4 Hr Hb Hn Hbn Hbuf Hend Hx Hfuel.
  { exfalso. assert (0 <= nblks / (8 * MAX_SECTORS)) by (apply Z.div_pos; rewrite ?MAX_SECTORS_val; lia). lia. }
  cbn [transfer_loop]. destruct (Z.eqb_spec nblks 0) as [->|Hne].
  { apply post_ret. split_and!; [done|done|]. exists x. split; [done|]. apply moved_0. }
  rewrite (u32_small buf) by (unfold SECTOR_SIZE in *; lia).
  destruct (prdt_loop _ _ _ _ _ _) as [[[[t buf'] nblks'] np] total] eqn:Ep.
  eapply (round_setup _ _ _ _ _ nblks buf); [done|lia|done..|lia|lia|unfold SECTOR_SIZE in *; lia|lia|exact Ep|].
  intros m c h' Hd' Hh' H1' H2' H3' H4' Hf Ht Hrg Hl Htot Ht8 -> -> Hor.
  rewrite Hp. apply post_bind. eapply post_mono; [eapply (run_command_ok slot); [done|done|done|done|lia|]|].
  { unfold covers. destruct Ht as (_ & -> & _). cbn [f_count]. by apply (regions_covers _ dbc_at_least buf). }
  cbn [dev mem_dma]. intros e s1 (-> & M1 & Hr1). rewrite (wrap_small 64) by (simpl; lia).
  assert (Hfuel' : nblks - total = 0 /\ (0 < fuel)%nat \/ (nblks - total) / (8 * MAX_SECTORS) + 2 <= Z.of_nat fuel).
  { assert (0 <= nblks / (8 * MAX_SECTORS)) by (apply Z.div_pos; rewrite ?MAX_SECTORS_val; lia).
    destruct Hor as [Hz|Hfull]; [left; split; lia|right].
    replace (nblks - total) with (nblks + (-1) * (8 * MAX_SECTORS)) by lia.
    rewrite Z.div_add by (rewrite MAX_SECTORS_val; lia). lia. }
  eapply post_mono; [apply (IH (exec dbc c x) _ _ _ s1 h'); rewrite ?M1; first [done|unfold SECTOR_SIZE in *; lia|idtac]|].
  { destruct Hx as [Hx|Hx]; [left; lia|by right]. }
  intros r s2 (-> & Hd2 & y & Hr2 & Hm). split_and!; [done|done|]. exists y. split; [done|].
  replace nblks with (total + (nblks - total)) by lia. eapply moved_app; [lia|lia| |exact Hm].
  apply exec_moves; [apply dbc_at_least|done|done|].
  destruct Hx as [Hx|Hx]; [right; eapply regions_single; [done|lia]|by left].
Qed.

End transfers.

(** ** The structures the constructor sets up *)

Lemma tables_present tp m l i :
  i ∈ l -> is_Some (foldr (fun i t => <[u32 (tp + sizeof_command_table * Z.of_nat i) := zero_table]> t) (tabs m) l
                      !! u32 (tp + sizeof_command_table * Z.of_nat i)).
Proof.
  induction l as [|j l IH]; [by intros ?%elem_of_nil|]. rewrite elem_of_cons. intros Hi. cbn [foldr].
  destruct (decide (u32 (tp + sizeof_command_table * Z.of_nat j) = u32 (tp + sizeof_command_table * Z.of_nat i))) as [-> |Hne].
  - by rewrite lookup_insert_eq.
  - rewrite lookup_insert_ne by done. apply IH. destruct Hi as [->|?]; done.
Qed.

Lemma init_dma_ok p hp tp fp v m : dma_ok (Ahci p hp tp fp v) (init_heads hp tp (alloc_dma hp tp m)).
Proof.
  unfold dma_ok, init_heads, alloc_dma, table_addr. cbn [cmd_head_phys cmd_table_phys lists tabs].
  rewrite lookup_alter_eq, lookup_insert_eq. eexists. split; [reflexivity|].
  split; [by rewrite length_imap, length_replicate|]. intros i h.
  rewrite list_lookup_imap. destruct (replicate _ _ !! i) eqn:E; [|done]. intros [= <-].
  apply lookup_replicate in E as [_ Hi]. split; [done|]. apply tables_present, elem_of_seq. lia.
Qed.

(** ** A controller

    One port with a disk; a command is done when its register has been read
    three times, and [sata_active] can only be set, as documented. *)

Record demo : Type := Demo { d_x : contents; d_clb : Z; d_sact : Z; d_left : nat }.

Definition demo_dbc (n : Z) : Z := n + 1.

#[export] Instance demo_hba : Hba demo := {
  rd r d :=
    match r with
    | ports_implemented => (1, d)
    | PORT 0 command_issue =>
      match d_left d with O => (0, d) | S k => (1, Demo (d_x d) (d_clb d) (d_sact d) k) end
    | PORT 0 sata_active => (u32 (d_sact d), d)
    | PORT 0 port_status => (0x103, d)
    | PORT 0 sig => (0x101, d)
    | PORT _ _ => (0, d)
    end;
  wr r v m d :=
    match r with
    | PORT 0 command_list_base => Demo (d_x d) v (d_sact d) (d_left d)
    | PORT 0 sata_active => Demo (d_x d) (d_clb d) (Z.lor (d_sact d) v) (d_left d)
    | PORT 0 command_issue =>
      match fetch m (d_clb d) (Z.log2 v) with
      | Some c => Demo (exec demo_dbc c (d_x d)) (d_clb d) (d_sact d) 3
      | None => d
      end
    | _ => d
    end;
}.

Definition demo_running (n : nat) (clb : Z) (x : contents) (d : demo) : Prop :=
  d_x d = x /\ d_clb d = clb /\ d_left d = n.

#[export] Program Instance demo_disk : DiskHba demo 0 3 := {
  dbc := demo_dbc;
  ready := demo_running 0;
  running := demo_running;
  sact d := u32 (d_sact d);
}.
Next Obligation. unfold demo_dbc. lia. Qed.
Next Obligation. intros d. apply u32_range. Qed.
Next Obligation.
  intros clb x d r v d' (<- & <- & Hl) E. destruct r; cbn in E; rewrite ?Hl in E; injection E as <- <-; done.
Qed.
Next Obligation. intros clb x d r v m Hr [-> | ->]; by split. Qed.
Next Obligation.
  intros clb x d m slot c k wrt blk (<- & <- & Hl) Hs Hf Ht Hk Hc. exists 3%nat. split; [done|].
  cbn [wr demo_hba]. rewrite Z.shiftl_1_l, Z.log2_pow2, Hf by lia. done.
Qed.
Next Obligation.
  intros n clb x d v d' (<- & <- & Hl) E. cbn in E. rewrite Hl in E. destruct n as [|n]; injection E as <- <-.
  - split; [lia|]. left. done.
  - split; [lia|]. right. split; [done|]. by exists n.
Qed.
Next Obligation. intros n clb x d v d' Hr E. cbn in E. by injection E as <- <-. Qed.

(** Byte [b] of the disk is [b mod 251]; memory is zero. *)
Definition demo_x : contents := Contents (fun b => b mod 251) (fun _ => 0).
Definition demo_a : ahci_driver := Ahci 0 0x1000 0x2000 0x4000 true.
Definition demo_s : hw demo := Hw (Demo demo_x 0x1000 0 0) (init_heads 0x1000 0x2000 (alloc_dma 0x1000 0x2000 (Dma ∅ ∅))).


(** 100000 sectors take two commands. *)
Lemma transfer_commands_in_bounds_witness :
  match transfer (D := traced) 4 demo_a 7 100000 0x9000 true (Hw (dev demo_s, []) (mem_dma demo_s)) with
  | Ok (r, s') =>
    dma_ok demo_a (mem_dma s') /\
    exists slot n, 0 <= slot < 32 /\ issued 0 0x1000 slot true 7 0x9000 n (dev s').2 /\
      n <= 100000 /\ (r = Val 0 /\ n = 100000 \/ r = Err EIO \/ r = Err EBUSY /\ n = 0)
  | Stop e => e = Fuel
  end.
Proof.
  apply (transfer_commands_in_bounds 4 demo_a 7 100000 0x9000 true (dev demo_s) (mem_dma demo_s)).
  - apply init_dma_ok.
  - lia.
  - lia.
  - lia.
  - lia.
  - unfold SECTOR_SIZE. lia.
Defined.
Lemma two_commands :
  match transfer (D := traced) 4 demo_a 7 100000 0x9000 true (Hw (dev demo_s, []) (mem_dma demo_s)) with
  | Ok (r, s') => r = Val 0 /\ length (dev s').2 = 2%nat
  | Stop _ => False
  end.
Proof. vm_compute. auto. Qed.

(** The constructor on this controller: the port is found, and the first four
    sectors arrive in the test buffer. *)
Lemma probe_finds_disk :
  match probe_ports 4 (fun _ => (0x1000, 0x2000, 0x4000, 0x9000)) (Hw (Demo demo_x 0 0 0) (Dma ∅ ∅)) with
  | Ok (ds, s) => ds = [demo_a] /\
      forallb (fun i => pmem (d_x (dev s)) (0x9000 + Z.of_nat i) =? Z.of_nat i mod 251) (seq 0 2048) = true /\
      pmem (d_x (dev s)) (0x9000 + 2048) = 0
  | Stop _ => False
  end.
Proof. vm_compute. auto. Qed.

(** A transfer leaves the bit of its slot in [sata_active] set: with one slot
    left, the first of two transfers succeeds and the second finds no slot. *)
Lemma slot_not_returned :
  match transfer 4 demo_a 0 1 0x9000 false (Hw (Demo demo_x 0x1000 (2 ^ 31 - 1) 0) (mem_dma demo_s)) with
  | Ok (r, s) => r = Val 0 /\
      match transfer 4 demo_a 0 1 0x9000 false s with Ok (r', _) => r' = Err EBUSY | Stop _ => False end
  | Stop _ => False
  end.
Proof. vm_compute. auto. Qed.

(** The second region of a transfer starts one byte late on a controller that
    takes the size field as the number of the last byte. *)
Lemma second_region_shifted buf n es j :
  regions buf n es -> MAX_SECTORS < n -> 0 <= j < SECTOR_SIZE ->
  addr_of demo_dbc es (SECTOR_SIZE * MAX_SECTORS + 1 + j) = Some (buf + SECTOR_SIZE * MAX_SECTORS + j).
Proof.
  intros Hr Hn Hj. destruct Hr as [|buf k n es Hk Hor Hr]; [rewrite MAX_SECTORS_val in Hn; lia|].
  destruct Hor as [->| ->]; [lia|]. destruct Hr as [|buf' k' n' es' Hk' _ Hr]; [lia|].
  unfold demo_dbc, SECTOR_SIZE in *. rewrite MAX_SECTORS_val in *. cbn [addr_of p_size data_base].
  zcases; try lia. f_equal. lia.
Qed.
