(* ===== verification/AddrSpace.v ===== *)
(** * Memory as a program sees it

    Bytes at virtual addresses, through the current page directory, and the
    string instructions on them (kernel/lib/string.cpp with the direction flag
    clear).  A page of a table and a 4 MB page of the directory are translated
    as the processor does; the kernel writes to read-only pages too. *)

From S2P Require Import Prelude MemLayout PageDir PageDirSpec.
From stdpp Require Import gmap list.
#[local] Open Scope Z_scope.

Section space.
Context {F K : Type} `{FrameAlloc F} `{TableAlloc K}.
Notation vm := (@vm F K).

(** ** Translation *)

Definition translate_in (s : vm) (d v : Z) : option Z :=
  dir ← vm_dirs s !! d;
  match pd_tables dir !! Z.shiftr (Z.shiftr v 12) 10 with
  | Some t =>
    tb ← vm_tables s !! t;
    let e := pget tb (Z.land (Z.shiftr v 12) 1023) in
    if e_present e then Some (e_addr e * 4096 + v mod 4096) else None
  | None =>
    let e := entry dir (Z.shiftr (Z.shiftr v 12) 10) in
    if e_present e && e_ps e then Some (Z.shiftr (e_addr e) 10 * 2 ^ 22 + v mod 2 ^ 22) else None
  end.
Definition translate (s : vm) (v : Z) : option Z := translate_in s (vm_cur s) v.

(** ** Bytes *)

Definition word_byte (w k : Z) : Z := Z.land (Z.shiftr w (8 * k)) 255.
Definition word_set (w k b : Z) : Z := Z.lor (Z.ldiff w (Z.shiftl 255 (8 * k))) (Z.shiftl (Z.land b 255) (8 * k)).

Definition phys_word (m : gmap Z (gmap Z Z)) (a : Z) : Z := default 0 (frame_words m (a / 4096) !! (a mod 4096 / 4)).
Definition phys_byte (m : gmap Z (gmap Z Z)) (a : Z) : Z := word_byte (phys_word m a) (a mod 4).
Definition phys_store (m : gmap Z (gmap Z Z)) (a b : Z) : gmap Z (gmap Z Z) :=
  <[a / 4096 := <[a mod 4096 / 4 := word_set (phys_word m a) (a mod 4) b]> (frame_words m (a / 4096))]> m.

Definition vbyte (s : vm) (v : Z) : option Z := phys_byte (vm_mem s) <$> translate s v.

Definition vload (v : Z) : M vm Z := s <-- get;; deref (vbyte s v).
Definition vstore (v b : Z) : M vm unit :=
  s <-- get;; a <-- deref (translate s v);; set_mem (phys_store (vm_mem s) a b).

Fixpoint vloads (n : nat) (v : Z) : M vm (list Z) :=
  match n with
  | O => ret []
  | S k => b <-- vload v;; r <-- vloads k (u32 (v + 1));; ret (b :: r)
  end.
Fixpoint vstores (v : Z) (bs : list Z) : M vm unit :=
  match bs with
  | [] => ret tt
  | b :: r => vstore v b;;; vstores (u32 (v + 1)) r
  end.

(** Little-endian values. *)
Definition le_value (bs : list Z) : Z := foldr (fun b n => b + 256 * n) 0 bs.
Definition vload16 (v : Z) : M vm Z := bs <-- vloads 2 v;; ret (le_value bs).
Definition vload32 (v : Z) : M vm Z := bs <-- vloads 4 v;; ret (le_value bs).

(** [rep movs] and [rep stos] of zeros, [w] bytes at a time. *)
Fixpoint vmovs (w n : nat) (dst src : Z) : M vm unit :=
  match n with
  | O => ret tt
  | S k => bs <-- vloads w src;; vstores dst bs;;; vmovs w k (u32 (dst + Z.of_nat w)) (u32 (src + Z.of_nat w))
  end.
Fixpoint vzeros (w n : nat) (dst : Z) : M vm unit :=
  match n with
  | O => ret tt
  | S k => vstores dst (replicate w 0);;; vzeros w k (u32 (dst + Z.of_nat w))
  end.

(** ** Laws of bytes *)

Lemma word_byte_set w k k' b :
  0 <= k -> 0 <= k' -> word_byte (word_set w k b) k' = if decide (k' = k) then Z.land b 255 else word_byte w k'.
Proof.
  intros Hk Hk'. unfold word_byte, word_set. change 255 with (Z.ones 8). apply Z.bits_inj'. intros i Hi.
  destruct (decide (k' = k)) as [->|Hne];
    rewrite ?Z.land_spec, ?Z.shiftr_spec, ?Z.lor_spec, ?Z.ldiff_spec, ?Z.shiftl_spec by lia.
  - replace (i + 8 * k - 8 * k) with i by lia. rewrite Z.land_spec. destruct (Z.lt_ge_cases i 8).
    + rewrite Z.ones_spec_low by lia. cbn. rewrite andb_false_r, !andb_true_r. done.
    + rewrite Z.ones_spec_high by lia. by rewrite !andb_false_r.
  - destruct (Z.lt_ge_cases i 8); [|rewrite (Z.ones_spec_high 8 i), !andb_false_r by lia; done].
    rewrite (Z.ones_spec_low 8 i), !andb_true_r, Z.land_spec by lia.
    assert (Z.testbit (Z.ones 8) (i + 8 * k' - 8 * k) = false) as ->.
    { destruct (Z.lt_ge_cases (i + 8 * k' - 8 * k) 0); [by apply Z.testbit_neg_r|]. apply Z.ones_spec_high. lia. }
    cbn. by rewrite andb_true_r, andb_false_r, orb_false_r.
Qed.

Lemma phys_byte_store m a a' b :
  phys_byte (phys_store m a b) a' = if decide (a' = a) then Z.land b 255 else phys_byte m a'.
Proof.
  unfold phys_byte. assert (Hb : forall x, 0 <= x mod 4) by (intros x; apply Z.mod_pos_bound; lia).
  assert (Hsame : a' / 4096 = a / 4096 -> a' mod 4096 / 4 = a mod 4096 / 4 ->
    phys_word (phys_store m a b) a' = word_set (phys_word m a) (a mod 4) b /\ phys_word m a' = phys_word m a).
  { intros E1 E2. split; [|unfold phys_word; by rewrite E1, E2]. unfold phys_word at 1, phys_store, frame_words at 1.
    rewrite E1, E2, lookup_insert_eq. cbn. by rewrite lookup_insert_eq. }
  destruct (decide (a' / 4096 = a / 4096)) as [E1|E1]; [destruct (decide (a' mod 4096 / 4 = a mod 4096 / 4)) as [E2|E2]|].
  - destruct (Hsame E1 E2) as [-> ->]. rewrite word_byte_set by done.
    destruct (decide (a' = a)) as [->|Hne]; [by rewrite decide_True|]. rewrite decide_False; [done|].
    intros E3. apply Hne.
    rewrite (Z.div_mod a' 4096), (Z.div_mod a 4096), E1 by lia. f_equal.
    assert (Hm : forall x, (x mod 4096) mod 4 = x mod 4).
    { intros x. rewrite (Z.div_mod x 4096) at 2 by lia. replace (4096 * (x / 4096)) with ((1024 * (x / 4096)) * 4) by lia.
      rewrite Z.add_comm, Z.mod_add by lia. done. }
    rewrite (Z.div_mod (a' mod 4096) 4), (Z.div_mod (a mod 4096) 4), E2, !Hm, E3 by lia. done.
  - rewrite decide_False by (intros ->; done). f_equal. unfold phys_word, phys_store, frame_words.
    rewrite E1, lookup_insert_eq. cbn. by rewrite lookup_insert_ne.
  - rewrite decide_False by (intros ->; done). f_equal. unfold phys_word, phys_store, frame_words at 1.
    by rewrite lookup_insert_ne.
Qed.

(** ** Reading *)

(** [sees s buf len img]: the memory from [buf] on shows the bytes [img]. *)
Definition sees (s : vm) (buf len : Z) (img : Z -> Z) : Prop :=
  forall i, 0 <= i < len -> vbyte s (buf + i) = Some (img i).

Lemma vloads_sees s buf len img n o :
  sees s buf len img -> 0 <= buf -> buf + len <= 2 ^ 32 -> 0 <= o -> o + Z.of_nat n <= len ->
  vloads n (u32 (buf + o)) s = Ok (img <$> seqZ o (Z.of_nat n), s).
Proof.
  intros Hs Hb Hl. revert o. induction n as [|n IH]; intros o Ho Hn; [done|]. cbn [vloads].
  unfold vload. mgo. rewrite (u32_small (buf + o)) by lia. mrun (deref_some _ _ s (Hs o ltac:(lia))).
  rewrite <- Z.add_assoc. mrun (IH (o + 1) ltac:(lia) ltac:(lia)). unfold ret.
  rewrite (seqZ_cons o) by lia. cbn [fmap list_fmap]. do 4 f_equal. f_equal; lia.
Qed.

(** ** Writing

    [U] are the addresses written, [G] all addresses of interest: no address of
    [G] shares its memory with another one of [U]. *)

Section writing.
Variables U G : Z -> Prop.

Definition owns (s : vm) : Prop :=
  (forall v, U v -> is_Some (translate s v)) /\
  (forall v v' a, U v -> G v' -> translate s v = Some a -> translate s v' = Some a -> v' = v).

Definition only_mem (s s' : vm) : Prop :=
  vm_frames s' = vm_frames s /\ vm_kmem s' = vm_kmem s /\ vm_tables s' = vm_tables s /\
  vm_dirs s' = vm_dirs s /\ vm_cur s' = vm_cur s.

Lemma only_mem_translate s s' v : only_mem s s' -> translate s' v = translate s v.
Proof. intros (_ & _ & Et & Ed & Ec). unfold translate, translate_in. by rewrite Ec, Ed, Et. Qed.
Lemma only_mem_trans s1 s2 s3 : only_mem s1 s2 -> only_mem s2 s3 -> only_mem s1 s3.
Proof. intros (? & ? & ? & ? & ?) (? & ? & ? & ? & ?). split_and!; congruence. Qed.
Lemma only_mem_owns s s' : only_mem s s' -> owns s -> owns s'.
Proof.
  intros Hm [H1 H2]. split.
  - intros v Hv. rewrite (only_mem_translate s) by done. by apply H1.
  - intros v v' a. rewrite !(only_mem_translate s s') by done. apply H2.
Qed.

(** [upd s s' v n g]: the [n] bytes from [v] on are those of [g] now. *)
Definition upd (s s' : vm) (v n : Z) (g : Z -> Z) : Prop :=
  only_mem s s' /\ forall x, G x -> vbyte s' x = if decide (v <= x < v + n) then Some (g x) else vbyte s x.

Lemma upd_0 s v g : upd s s v 0 g.
Proof. split; [done|]. intros x _. rewrite decide_False by lia. done. Qed.

Lemma upd_app s1 s2 s3 v n m g :
  0 <= n -> 0 <= m -> upd s1 s2 v n g -> upd s2 s3 (v + n) m g -> upd s1 s3 v (n + m) g.
Proof.
  intros Hn Hm [O1 H1] [O2 H2]. split; [by eapply only_mem_trans|]. intros x Hx. rewrite H2, H1 by done.
  repeat case_decide; try lia; done.
Qed.

Lemma vstore_upd s v b :
  owns s -> U v -> 0 <= b < 256 -> exists s', vstore v b s = Ok (tt, s') /\ upd s s' v 1 (fun _ => b).
Proof.
  intros [H1 H2] Hv Hb. destruct (H1 v Hv) as [a Ea]. unfold vstore, set_mem. mgo. mrun (deref_some _ _ s Ea).
  eexists. split; [reflexivity|]. split; [done|]. intros x Hx. unfold vbyte.
  rewrite (only_mem_translate s) by done. cbn [vm_mem].
  destruct (translate s x) as [a'|] eqn:Ex; cbn [fmap option_fmap option_map].
  - rewrite phys_byte_store. destruct (decide (a' = a)) as [->|Hne].
    + rewrite decide_True by (rewrite (H2 v x a Hv Hx Ea Ex); lia). f_equal.
      change 255 with (Z.ones 8). rewrite Z.land_ones, Z.mod_small by lia. done.
    + rewrite decide_False; [done|]. intros Hr. assert (x = v) as -> by lia. congruence.
  - rewrite decide_False; [done|]. intros Hr. assert (x = v) as -> by lia. congruence.
Qed.

Lemma vstores_upd s v n g :
  owns s -> (forall x, v <= x < v + Z.of_nat n -> U x /\ 0 <= g x < 256) -> 0 <= v -> v + Z.of_nat n <= 2 ^ 32 ->
  exists s', vstores (u32 v) (g <$> seqZ v (Z.of_nat n)) s = Ok (tt, s') /\ upd s s' v (Z.of_nat n) g.
Proof.
  revert s v. induction n as [|n IH]; intros s v Ho HU Hv Hn; [exists s; split; [done|apply upd_0]|].
  rewrite (seqZ_cons v) by lia. cbn [fmap list_fmap vstores]. rewrite (u32_small v) by lia.
  destruct (HU v ltac:(lia)) as [Uv Gv]. destruct (vstore_upd s v (g v) Ho Uv Gv) as (s1 & E1 & U1). mrun E1.
  destruct (IH s1 (v + 1)) as (s2 & E2 & U2).
  { eapply only_mem_owns; [apply U1|done]. }
  { intros x Hx. apply HU. lia. }
  { lia. }
  { lia. }
  replace (Z.pred (Z.of_nat (S n))) with (Z.of_nat n) by lia. replace (Z.succ v) with (v + 1) by lia.
  exists s2. split; [done|]. replace (Z.of_nat (S n)) with (1 + Z.of_nat n) by lia.
  apply (upd_app s s1 s2); [lia|lia| |done].
  destruct U1 as [O1 U1]. split; [done|]. intros x Hx. rewrite U1 by done. repeat case_decide; try lia; try done.
  by replace x with v by lia.
Qed.

Lemma seqZ_shift {A} (f : Z -> A) v o n : f <$> seqZ o n = (fun x => f (o + (x - v))) <$> seqZ v n.
Proof.
  unfold seqZ. rewrite <- !list_fmap_compose. apply list_fmap_ext. intros i x _. cbn. f_equal. lia.
Qed.

Lemma upd_sees s s' v n g buf len img :
  upd s s' v n g -> sees s buf len img -> (forall i, 0 <= i < len -> G (buf + i) /\ ~ U (buf + i)) ->
  (forall x, v <= x < v + n -> U x) -> sees s' buf len img.
Proof.
  intros [_ Hu] Hs HG HU i Hi. destruct (HG i Hi) as [Gi Ni]. rewrite Hu by done.
  rewrite decide_False by (intros Hr; by apply Ni, HU). by apply Hs.
Qed.

Lemma phys_byte_range m a : 0 <= phys_byte m a < 256.
Proof.
  unfold phys_byte, word_byte. change 255 with (Z.ones 8). rewrite Z.land_ones by lia. apply Z.mod_pos_bound. lia.
Qed.
Lemma sees_range s buf len img i : sees s buf len img -> 0 <= i < len -> 0 <= img i < 256.
Proof.
  intros Hs Hi. specialize (Hs i Hi). unfold vbyte in Hs. destruct (translate s (buf + i)); [|done].
  injection Hs as <-. apply phys_byte_range.
Qed.

(** Copying and clearing *)
Lemma vmovs_upd w n s dst buf o len img :
  owns s -> sees s buf len img -> (forall i, 0 <= i < len -> G (buf + i) /\ ~ U (buf + i)) ->
  (forall x, dst <= x < dst + Z.of_nat (w * n) -> U x) -> 0 <= dst -> dst + Z.of_nat (w * n) <= 2 ^ 32 ->
  0 <= buf -> buf + len <= 2 ^ 32 -> 0 <= o -> o + Z.of_nat (w * n) <= len ->
  exists s', vmovs w n (u32 dst) (u32 (buf + o)) s = Ok (tt, s') /\
    upd s s' dst (Z.of_nat (w * n)) (fun x => img (o + (x - dst))).
Proof.
  revert s dst o. induction n as [|n IH]; intros s dst o Ho Hs HG HU Hd Hdn Hb Hl Ho0 Hon.
  { exists s. rewrite Nat.mul_0_r. split; [done|apply upd_0]. }
  cbn [vmovs]. mrun (vloads_sees s buf len img w o Hs Hb Hl Ho0 ltac:(lia)).
  rewrite (seqZ_shift img dst).
  destruct (vstores_upd s dst w (fun x => img (o + (x - dst)))) as (s1 & E1 & U1); [done| |lia|lia|].
  { intros x Hx. split; [apply HU; lia|]. apply (sees_range s buf len); [done|lia]. }
  mrun E1. rewrite !u32_add_l, <- Z.add_assoc.
  destruct (IH s1 (dst + Z.of_nat w) (o + Z.of_nat w)) as (s2 & E2 & U2); try lia.
  { eapply only_mem_owns; [apply U1|done]. }
  { eapply upd_sees; [done..|]. intros x Hx. apply HU. lia. }
  { done. }
  { intros x Hx. apply HU. lia. }
  exists s2. split; [done|]. replace (Z.of_nat (w * S n)) with (Z.of_nat w + Z.of_nat (w * n)) by lia.
  apply (upd_app s s1 s2); [lia|lia|done|]. destruct U2 as [O2 U2]. split; [done|]. intros x Hx. rewrite U2 by done.
  case_decide; [|done]. do 2 f_equal. lia.
Qed.

Lemma vzeros_upd w n s dst :
  owns s -> (forall x, dst <= x < dst + Z.of_nat (w * n) -> U x) -> 0 <= dst -> dst + Z.of_nat (w * n) <= 2 ^ 32 ->
  exists s', vzeros w n (u32 dst) s = Ok (tt, s') /\ upd s s' dst (Z.of_nat (w * n)) (fun _ => 0).
Proof.
  revert s dst. induction n as [|n IH]; intros s dst Ho HU Hd Hdn.
  { exists s. rewrite Nat.mul_0_r. split; [done|apply upd_0]. }
  cbn [vzeros]. destruct (vstores_upd s dst w (fun _ => 0)) as (s1 & E1 & U1); [done| |lia|lia|].
  { intros x Hx. split; [apply HU; lia|lia]. }
  assert (Er : (fun _ : Z => 0) <$> seqZ dst (Z.of_nat w) = replicate w 0).
  { rewrite (const_fmap _ _ 0) by done. by rewrite length_seqZ, Nat2Z.id. }
  rewrite Er in E1. mrun E1. rewrite u32_add_l.
  destruct (IH s1 (dst + Z.of_nat w)) as (s2 & E2 & U2); try lia.
  { eapply only_mem_owns; [apply U1|done]. }
  { intros x Hx. apply HU. lia. }
  exists s2. split; [done|]. replace (Z.of_nat (w * S n)) with (Z.of_nat w + Z.of_nat (w * n)) by lia.
  apply (upd_app s s1 s2); [lia|lia|done|done].
Qed.
End writing.
End space.
