(* ===== verification/Startup.v ===== *)
(** * Start-up of the memory system (kernel/kmain.cpp, kernel/mem/memory.cpp, paging.cpp)

    [kmain] computes the size of memory from the boot loader's information and
    calls [memory::init], which starts paging, with the frame allocator and the
    kernel's directory, and then the heap. *)

From S2P Require Import Prelude Dll LinkedList MemLayout Heap HeapSpec HeapOps HeapFree.
From S2P Require Import Buddy BuddySpec PageDir PageDirSpec PageClone PageEnv HeapPages DirClone AddrSpace.
From stdpp Require Import gmap list.
#[local] Open Scope Z_scope.

Section startup.
Context {K : Type} `{TableAlloc K}.
Notation vm := (@vm frames K).
Notation kheap := (kheap (F := frames) (K := K)).
Variable kernel_page_dir : Z.
Notation kd := kernel_page_dir.
(** Where the allocator used before the heap stands
    ([memory::get_placement_addr()]). *)
Variable placement : K -> Z.
(** What the memory of new list entries and heap headers holds. *)
Variable entry_junk : Z -> link pptr.
Variable junk : link nptr.

Definition paging_init (memory_size : Z) : M vm unit :=
  let mem_sz := Z.shiftr memory_size PAGE_SHIFT in
  modify (with_frames (init_lists entry_junk memory_size));;;
  kernel_tables kd;;;
  s <-- get;;
  let end_addr := align_addr_4m (placement (vm_kmem s)) in
  lift_frames (make_blocks (Z.to_nat mem_sz) (Z.shiftr (u32 (end_addr - KERNEL_VIRTUAL_BASE)) PAGE_SHIFT)
                 BUDDY_MAX_ORDER mem_sz);;;
  d <-- dir_clone kd kd 0 (-1) (-1);;
  switch_page_dir d.

Definition on_vm {A} (c : M vm A) : M kheap A :=
  fun s => match c (kh_vm s) with Ok (a, v) => Ok (a, Kheap (kh_heap s) v) | Stop e => Stop e end.

Definition memory_init (mem_size : Z) : M kheap unit :=
  if mem_size <? Z.shiftl 1 25 then halt Panic
  else on_vm (paging_init mem_size);;; kheap_init kd junk.

(** [memory::init((mbd->mem_upper + 1024) * 1024)]; [mem_upper] counts the
    kilobytes above the first megabyte. *)
Definition kmain_mem_size (mem_upper : Z) : Z := u32 (u32 (mem_upper + 1024) * 1024).
Definition kmain_memory (mem_upper : Z) : M kheap unit := memory_init (kmain_mem_size mem_upper).

(** ** The kernel's 4 MiB pages *)

Definition with_kdir (D : pdir) (v : vm) : vm :=
  Vm (vm_frames v) (vm_kmem v) (vm_tables v) (<[kd := D]> (vm_dirs v)) (vm_cur v) (vm_mem v).

(** Present, writable, 4 MiB, for the kernel only, and the identity shifted by
    the kernel's base. *)
Definition big_page (e i : Z) : Prop :=
  e_present e = true /\ Z.testbit e 1 = true /\ e_ps e = true /\ Z.testbit e 2 = false /\ e_addr e = (i - 768) * 1024.

Lemma with_addr_bit v a n : 0 <= n < 12 -> Z.testbit (with_addr v a) n = Z.testbit v n.
Proof.
  intros Hn. unfold with_addr. rewrite Z.lor_spec, Z.land_spec, Z.shiftl_spec_low by lia.
  change 0xFFF with (Z.ones 12). rewrite Z.ones_spec_low by lia. by rewrite andb_true_r, orb_false_r.
Qed.

Lemma map_4m_run v D i :
  vm_dirs v !! kd = Some D -> 768 <= i < 832 ->
  exists e, map_4m kd i v = Ok (tt, with_kdir (PDir (<[i := e]> (pd_entries D)) (pd_tables D) (pd_phys D)) v) /\ big_page e i.
Proof.
  intros Ed Hi. unfold map_4m, get_dir, put_dir, set_dirs. mgo. mrun (deref_some _ _ v Ed). mgo.
  eexists. split; [reflexivity|]. set (e := Z.clearbit _ 2).
  assert (Hb : forall n, 0 <= n < 12 -> Z.testbit (with_addr e (Z.shiftr (Z.shiftl i 22 - KERNEL_VIRTUAL_BASE) 12)) n = Z.testbit e n)
    by (intros n Hn; by apply with_addr_bit).
  unfold big_page, e_present, e_ps. rewrite !Hb by lia. split_and!.
  - subst e. rewrite Z.clearbit_neq, Z.setbit_neq, Z.setbit_neq, Z.setbit_eq by lia. done.
  - subst e. rewrite Z.clearbit_neq, Z.setbit_neq, Z.setbit_eq by lia. done.
  - subst e. rewrite Z.clearbit_neq, Z.setbit_eq by lia. done.
  - subst e. by rewrite Z.clearbit_eq.
  - assert (Ea : Z.shiftr (Z.shiftl i 22 - KERNEL_VIRTUAL_BASE) 12 = (i - 768) * 1024).
    { rewrite shiftl_mul, shiftr_div by lia. change KERNEL_VIRTUAL_BASE with (768 * 2 ^ 22).
      replace (i * 2 ^ 22 - 768 * 2 ^ 22) with ((i - 768) * 1024 * 2 ^ 12) by lia. by rewrite Z.div_mul by lia. }
    rewrite Ea. apply with_addr_addr. lia.
Qed.

Lemma map_4m_loop ids : forall v D,
  vm_dirs v !! kd = Some D -> NoDup ids -> (forall i, i ∈ ids -> 768 <= i < 832) ->
  exists E, for_each (map_4m kd) ids v = Ok (tt, with_kdir (PDir E (pd_tables D) (pd_phys D)) v) /\
    (forall i, i ∉ ids -> E !! i = pd_entries D !! i) /\ (forall i, i ∈ ids -> big_page (default 0 (E !! i)) i).
Proof.
  induction ids as [|i ids IH]; intros v D Ed Hnd Hr; cbn [for_each].
  { exists (pd_entries D). split_and!; [|done|by intros i ?%elem_of_nil]. unfold ret, with_kdir. do 2 f_equal.
    destruct D as [e t p], v as [f k tb dd c m]. simpl in *. by rewrite insert_id. }
  apply NoDup_cons in Hnd as [Hi Hnd].
  destruct (map_4m_run v D i Ed (Hr i ltac:(apply list_elem_of_here))) as (e & E1 & Hb). mrun E1.
  destruct (IH (with_kdir (PDir (<[i := e]> (pd_entries D)) (pd_tables D) (pd_phys D)) v)
               (PDir (<[i := e]> (pd_entries D)) (pd_tables D) (pd_phys D))) as (E & Er & Ho & Hin).
  - apply lookup_insert_eq.
  - done.
  - intros j Hj. by apply Hr, list_elem_of_further.
  - exists E. split_and!.
    + rewrite Er. unfold with_kdir. simpl. by rewrite insert_insert_eq.
    + intros j Hj. rewrite Ho by (intros ?; by apply Hj, list_elem_of_further). simpl.
      rewrite lookup_insert_ne; [done|]. intros ->. apply Hj, list_elem_of_here.
    + intros j [->|Hj]%elem_of_cons; [|by apply Hin]. rewrite Ho by done. simpl. by rewrite lookup_insert_eq.
Qed.

(** ** The tables of the heap and of remapped memory *)

(** Nothing but slot [shiftr i 10] of the directory changes. *)
Lemma get_page_dirs d i mk fl (v v' : vm) r :
  get_page d i mk fl v = Ok (r, v') ->
  (forall d', d' <> d -> vm_dirs v' !! d' = vm_dirs v !! d') /\
  (forall D, vm_dirs v !! d = Some D -> exists D', vm_dirs v' !! d = Some D' /\
     forall k, k <> Z.shiftr i 10 -> entry D' k = entry D k /\ pd_tables D' !! k = pd_tables D !! k) /\
  (forall t tb, vm_tables v' !! t = Some tb -> tb = ∅ \/ vm_tables v !! t = Some tb).
Proof.
  assert (Hid : (forall d', d' <> d -> vm_dirs v !! d' = vm_dirs v !! d') /\
    (forall D, vm_dirs v !! d = Some D -> exists D', vm_dirs v !! d = Some D' /\
       forall k, k <> Z.shiftr i 10 -> entry D' k = entry D k /\ pd_tables D' !! k = pd_tables D !! k) /\
    (forall t tb, vm_tables v !! t = Some tb -> tb = ∅ \/ vm_tables v !! t = Some tb)).
  { split; [done|]. split; [|by right]. intros D Ed. by exists D. }
  unfold get_page. cbv zeta. destruct (1024 <=? Z.shiftr i 10); [done|]. unfold get_dir. mgo.
  destruct (vm_dirs v !! d) as [D|] eqn:Ed; [|done]. mrun (deref_some (Some D) D v eq_refl).
  destruct (pd_tables D !! Z.shiftr i 10) as [t|] eqn:Et; [intros [= _ <-]; by rewrite Ed|].
  destruct mk; [|intros [= _ <-]; by rewrite Ed]. unfold lift_kmem at 1, bind at 1.
  destruct (ta_alloc (vm_kmem v)) as [[[u ph] k']|]; [|done]. unfold put_table, put_dir, set_tables, set_dirs. mgo.
  intros [= _ <-]. simpl. split; [intros d' Hd; by rewrite lookup_insert_ne|]. split.
  - intros D' [= <-]. eexists. split; [apply lookup_insert_eq|]. intros k Hk. unfold entry. simpl.
    by rewrite !lookup_insert_ne by done.
  - intros t tb [[_ <-]|[_ ?]]%lookup_insert_Some; [by left|by right].
Qed.

Definition made (ids : list Z) (X T T' : gset Z) (v v' : vm) : Prop :=
  dir_ok v' kd /\ vm_ok v' X T' /\ T ⊆ T' /\ same_rest v v' /\ (forall j, pte v' kd j = pte v kd j) /\
  (forall j, is_Some (page_of v kd j) -> is_Some (page_of v' kd j)) /\
  (forall j, Z.shiftr j 10 ∈ ids -> is_Some (page_of v' kd j)) /\
  (forall d, d <> kd -> vm_dirs v' !! d = vm_dirs v !! d) /\
  (forall D, vm_dirs v !! kd = Some D -> exists D', vm_dirs v' !! kd = Some D' /\
     forall k, k ∉ ids -> entry D' k = entry D k /\ pd_tables D' !! k = pd_tables D !! k) /\
  (forall t tb, vm_tables v' !! t = Some tb -> tb = ∅ \/ vm_tables v !! t = Some tb).

Lemma tables_loop ids : forall v X T,
  (forall i, i ∈ ids -> 0 <= i < 1024) -> dir_ok v kd -> vm_ok v X T ->
  runs (for_each (fun i => _ <-- get_page kd (Z.shiftl i 10) true default_flags;; ret tt) ids v)
    (fun _ v' => exists T', made ids X T T' v v').
Proof.
  induction ids as [|i ids IH]; intros v X T Hr Hd Hv; cbn [for_each].
  { exists T. split_and!; try done; try apply Hv; [by intros j ?%elem_of_nil| |by right]. intros D Ed. by exists D. }
  pose proof (Hr i ltac:(apply list_elem_of_here)) as Hi.
  assert (Hsh : Z.shiftr (Z.shiftl i 10) 10 = i) by (by rewrite Z.shiftr_shiftl_l, Z.shiftl_0_r by lia).
  assert (Hpg : 0 <= Z.shiftl i 10 < 2 ^ 20) by (rewrite shiftl_mul by lia; lia).
  rewrite bind_assoc.
  pose proof (get_page_make v kd (Z.shiftl i 10) default_flags X T Hpg Hd Hv) as Hg.
  pose proof (get_page_dirs kd (Z.shiftl i 10) true default_flags v) as Hdir.
  unfold runs in Hg. unfold bind at 1. destruct (get_page kd (Z.shiftl i 10) true default_flags v) as [[r v1]|[]]; try done.
  destruct Hg as (p & T1 & _ & Hs1 & Hd1 & Hv1 & Hp1 & (R1 & R2 & R3) & Hq1 & HT1).
  destruct (Hdir v1 r eq_refl) as (Hdd & Hdk & Hdt). mgo.
  eapply runs_mono; [apply (IH v1 X T1); [intros j Hj; by apply Hr, list_elem_of_further|done|done]|].
  intros _ v' (T' & Hd' & Hv' & HT' & (S1 & S2 & S3) & Hp' & Hq' & Hids & Hdd' & Hdk' & Hdt').
  exists T'. split; [done|]. split; [done|]. split; [by etrans|]. split; [split_and!; congruence|].
  split; [intros j; by rewrite Hp'|]. split; [auto|]. split; [|split; [|split]].
  - intros j [Ej|Hj]%elem_of_cons; [|by apply Hids]. apply Hq'. destruct Hs1 as (D1 & Ed1 & Et1 & _ & [tb Etb]).
    unfold page_of. rewrite Ed1. cbn [mbind option_bind]. rewrite Ej, <- Hsh, Et1. cbn [mbind option_bind]. rewrite Etb. eauto.
  - intros d Hne. by rewrite Hdd', Hdd.
  - intros D Ed. destruct (Hdk D Ed) as (D1 & Ed1 & Ho1), (Hdk' D1 Ed1) as (D' & Ed' & Ho').
    exists D'. split; [done|]. intros k Hk. rewrite Hsh in Ho1. destruct (Ho' k) as [-> ->]; [set_solver|]. apply Ho1. set_solver.
  - intros t tb Et. destruct (Hdt' t tb Et) as [?|Et1]; [by left|]. by apply Hdt.
Qed.

(** ** [paging::init] *)

(** The kernel sees its memory at [KERNEL_VIRTUAL_BASE], up to the heap. *)
Definition id_mapped (v : vm) (d : Z) : Prop :=
  forall a, KERNEL_VIRTUAL_BASE <= a < HEAP_BASE -> translate_in v d a = Some (a - KERNEL_VIRTUAL_BASE).

Definition big_dir (v : vm) (d : Z) : Prop :=
  exists D, vm_dirs v !! d = Some D /\ forall i, 768 <= i < 832 -> pd_tables D !! i = None /\ big_page (entry D i) i.

Lemma big_translate (v : vm) d : big_dir v d -> id_mapped v d.
Proof.
  intros (D & Ed & Hb) a Ha. change KERNEL_VIRTUAL_BASE with (768 * 2 ^ 22) in *. change HEAP_BASE with (832 * 2 ^ 22) in Ha.
  assert (Ei : Z.shiftr (Z.shiftr a 12) 10 = a / 2 ^ 22) by (rewrite Z.shiftr_shiftr, shiftr_div by lia; done).
  assert (Hi : 768 <= a / 2 ^ 22 < 832) by (split; [apply Z.div_le_lower_bound; lia|apply Z.div_lt_upper_bound; lia]).
  destruct (Hb _ Hi) as (Et & Hp & _ & Hs & _ & Ea). unfold translate_in. rewrite Ed. cbn [mbind option_bind].
  rewrite Ei, Et. cbv zeta. rewrite Hp, Hs. cbn [andb]. f_equal. rewrite Ea, shiftr_div by lia. change (2 ^ 10) with 1024.
  rewrite Z.div_mul by lia. pose proof (Z.div_mod a (2 ^ 22)). lia.
Qed.

(** [kernel_tables] from the empty directory. *)
Lemma kernel_tables_spec v ents ph X T :
  vm_dirs v = {[ kd := PDir ents ∅ ph ]} -> vm_tables v = ∅ -> vm_ok v X T ->
  runs (kernel_tables kd v) (fun _ v' => exists D T', dir_ok v' kd /\ vm_ok v' X T' /\ T ⊆ T' /\
    vm_frames v' = vm_frames v /\ vm_cur v' = kd /\ vm_dirs v' !! kd = Some D /\
    (forall d, d <> kd -> vm_dirs v' !! d = None) /\
    (forall t tb, vm_tables v' !! t = Some tb -> tb = ∅) /\
    (forall j, 832 <= Z.shiftr j 10 < 1024 -> is_Some (page_of v' kd j)) /\
    (forall i, 768 <= i < 832 -> pd_tables D !! i = None /\ big_page (entry D i) i)).
Proof.
  intros Ed Et Hv. unfold kernel_tables.
  change (seqZ (Z.shiftr KERNEL_VIRTUAL_BASE 22) _) with (seqZ 768 64).
  change (seqZ (Z.shiftr HEAP_BASE 22) _) with (seqZ 832 192).
  destruct (map_4m_loop (seqZ 768 64) v (PDir ents ∅ ph)) as (E & Er & _ & Hbig).
  { rewrite Ed. apply lookup_singleton_eq. }
  { apply NoDup_seqZ. }
  { intros i Hi%elem_of_seqZ. lia. }
  mrun Er. set (v1 := with_kdir _ v). cbn [pd_tables pd_phys] in v1.
  set (v2 := Vm (vm_frames v1) (vm_kmem v1) (vm_tables v1) (vm_dirs v1) kd (vm_mem v1)).
  assert (Ed2 : vm_dirs v2 !! kd = Some (PDir E ∅ ph)) by apply lookup_insert_eq.
  assert (Esw : switch_page_dir kd v1 = Ok (tt, v2)).
  { unfold switch_page_dir, set_page_dir, get_dir. mgo. fold v2. by mrun (deref_some _ _ v2 Ed2). }
  mrun Esw. assert (Ht2 : vm_tables v2 = ∅) by exact Et.
  eapply runs_mono; [apply (tables_loop (seqZ 832 192) v2 X T)|].
  - intros i Hi%elem_of_seqZ. lia.
  - exists (PDir E ∅ ph). split; [done|]. cbn [pd_tables]. split; [intros i t Hbad|intros i j t Hbad]; by apply lookup_empty_Some in Hbad.
  - destruct Hv as (? & ? & ?). split; [done|]. split; [done|]. intros t. rewrite Ht2. by intros [? ?%lookup_empty_Some].
  - intros _ v' (T' & Hd' & Hv' & HT' & (S1 & S2 & S3) & _ & _ & Hids & Hdd & Hdk & Hdt).
    destruct (Hdk _ Ed2) as (D & EdD & Ho). exists D, T'.
    do 6 (split; [done|]). split; [|split; [|split]].
    + intros d Hne. rewrite Hdd by done. simpl. rewrite lookup_insert_ne, Ed by done. by rewrite lookup_singleton_ne.
    + intros t tb Htb. destruct (Hdt t tb Htb) as [?|Hbad]; [done|]. rewrite Ht2 in Hbad. by apply lookup_empty_Some in Hbad.
    + intros j Hj. apply Hids, elem_of_seqZ. lia.
    + intros i Hi. destruct (Ho i) as [E1 E2]; [rewrite elem_of_seqZ; lia|]. rewrite E1, E2. split; [done|].
      apply Hbig, elem_of_seqZ. lia.
Qed.

Lemma empty_tget (v : vm) t k : (forall u tb, vm_tables v !! u = Some tb -> tb = ∅) -> tget v t k = 0.
Proof.
  intros He. unfold tget. destruct (vm_tables v !! t) as [tb|] eqn:Et; simpl; [rewrite (He t tb Et)|]; unfold pget; by rewrite lookup_empty.
Qed.

Lemma empty_pte (v : vm) d j : (forall u tb, vm_tables v !! u = Some tb -> tb = ∅) -> pte v d j = 0.
Proof.
  intros He. unfold pte, page_of. destruct (vm_dirs v !! d) as [D|]; [|done]. cbn [mbind option_bind].
  destruct (pd_tables D !! Z.shiftr j 10) as [t|]; [|done]. cbn [mbind option_bind].
  destruct (vm_tables v !! t) as [tb|] eqn:Et; [|done]. rewrite (He t tb Et). done.
Qed.

Lemma held_empty s fl : buddy_inv s fl ∅ -> buddy_held s ∅.
Proof. intros Hi. exists fl, ∅. split; [done|]. intros f. rewrite lookup_empty. set_solver. Qed.

Lemma heap_page_table j : heap_page j -> 832 <= Z.shiftr j 10 < 1024.
Proof.
  unfold heap_page. change (HEAP_BASE / 4096) with (832 * 1024). change (HEAP_END / 4096) with (960 * 1024). intros Hj.
  rewrite shiftr_div by lia. change (2 ^ 10) with 1024.
  split; [apply Z.div_le_lower_bound; lia|]. assert (j / 1024 < 960) by (apply Z.div_lt_upper_bound; lia). lia.
Qed.

(** A directory without pages cloned: nothing is taken, the kernel's directory
    stays as it is. *)
Lemma clone_empty v D T :
  vm_ok v ∅ T -> dir_ok v kd -> vm_cur v = kd -> vm_dirs v !! kd = Some D -> (forall d, d <> kd -> vm_dirs v !! d = None) ->
  kd ∈ T -> (forall t tb, vm_tables v !! t = Some tb -> tb = ∅) -> (forall j, 832 <= Z.shiftr j 10 < 1024 -> is_Some (page_of v kd j)) ->
  runs (dir_clone kd kd 0 (-1) (-1) v) (fun nd v' => exists D', nd <> kd /\
    vm_dirs v' !! kd = Some D /\ vm_dirs v' !! nd = Some D' /\ backed kd ∅ (fun _ => False) v' /\
    forall i, 0 <= i < 1024 -> shared_kernel i = true -> entry D' i = entry D i /\ pd_tables D' !! i = pd_tables D !! i).
Proof.
  intros Hv Hd Hc Ed Hdd HkT Hemp Hpg.
  assert (Hex : forall i t, pd_tables D !! i = Some t -> table_in v t).
  { intros i t Et. destruct Hd as (D0 & Ed0 & Hex & _). rewrite Ed in Ed0. injection Ed0 as <-. by eapply Hex. }
  assert (Hw : exists w, windows v w).
  { destruct (Hpg (1023 * 1024)) as [x Hx]; [done|]. unfold page_of in Hx. rewrite Ed in Hx. cbn [mbind option_bind] in Hx.
    change (Z.shiftr (1023 * 1024) 10) with 1023 in Hx. destruct (pd_tables D !! 1023) as [w|] eqn:Ew; [|done].
    exists w, D. rewrite Hc. split_and!; [done|done|by eapply Hex]. }
  destruct Hw as [w Hw].
  eapply runs_mono; [apply (dir_clone_spec kd v kd 0 (-1) (-1) w D D ∅ T Hv Hw Ed Ed)|].
  - intros d [x Hx]. destruct (decide (d = kd)) as [->|Hne]; [done|]. by rewrite Hdd in Hx.
  - intros i t Et. split; [by eapply Hex|]. intros k. rewrite empty_tget by done. split; [lia|done].
  - done.
  - intros nd v' (HndT & Hc' & D' & X' & T' & Ed' & Hv' & _ & _ & (U1 & U2 & _) & Hsl & Hout & _ & Hac).
    assert (Hne : nd <> kd) by (by intros ->). exists D'. split; [done|].
    assert (Edk : vm_dirs v' !! kd = Some D) by (rewrite Ed', lookup_insert_ne by done; done).
    assert (Hpage : forall j, page_of v' kd j = page_of v kd j).
    { intros j. unfold page_of. rewrite Edk, Ed. cbn [mbind option_bind]. destruct (pd_tables D !! Z.shiftr j 10) as [t|] eqn:Et; [|done].
      cbn [mbind option_bind]. destruct (Hex _ _ Et) as [tb Etb], (U1 t (Hex _ _ Et)) as [tb' Etb']. rewrite Etb, Etb'.
      cbn [mbind option_bind]. f_equal. specialize (U2 t (Z.land j 1023)). unfold tget in U2. rewrite Etb, Etb' in U2. apply U2.
      apply Hv. by rewrite Etb. }
    assert (HX : X' = ∅).
    { apply set_eq. intros f. split; [|set_solver]. intros Hf. exfalso.
      destruct (proj1 Hac f Hf) as [?|(i & u & k & [t Et] & [Ps Pl] & Eu & Hk & Hp & _)]; [set_solver|].
      assert (Hi : 0 <= i < 1024 \/ ~ 0 <= i < 1024) by lia. destruct Hi as [Hi|Hi]; [|by rewrite Hout in Eu].
      specialize (Hsl i Hi). unfold slot_cloned in Hsl. rewrite Ps, Et, Pl in Hsl. destruct Hsl as (u' & ph & Eu' & _ & _ & _ & Hcp).
      rewrite Eu in Eu'. injection Eu' as <-. specialize (Hcp k Hk). rewrite empty_tget in Hcp by done.
      change (e_present 0) with false in Hcp. cbv iota in Hcp. by rewrite Hcp in Hp. }
    split; [done|]. split; [rewrite Ed'; apply lookup_insert_eq|]. split; cycle 1.
    { intros i Hi Hs. specialize (Hsl i Hi). unfold slot_cloned in Hsl. by rewrite Hs in Hsl. }
    split_and!; try done.
    + destruct Hd as (D0 & Ed0 & _ & Hinj). rewrite Ed in Ed0. injection Ed0 as <-. exists D. split; [done|]. split; [|done].
      intros i t Et. apply U1. by eapply Hex.
    + intros j Hj. rewrite Hpage. by apply Hpg, heap_page_table.
    + exists X', T'. split; [done|]. subst X'. intros f. split; [by left|naive_solver].
    + intros j Hj _. unfold pte. rewrite Hpage. fold (pte v kd j). by rewrite empty_pte.
Qed.

(** ** Start-up *)

Section boot.
(** The state at boot: the kernel's directory, without tables, and an allocator
    that places everything before the heap within the first 28 MiB. *)
Variables (v0 : vm) (ents : gmap Z Z) (ph : Z) (T : gset Z).
Hypothesis boot_dirs : vm_dirs v0 = {[ kd := PDir ents ∅ ph ]}.
Hypothesis boot_tables : vm_tables v0 = ∅.
Hypothesis boot_kmem : ta_inv (vm_kmem v0) T.
Hypothesis boot_kd : kd ∈ T.
Hypothesis placed : forall k T, ta_inv k T ->
  KERNEL_VIRTUAL_BASE < placement k <= KERNEL_VIRTUAL_BASE + 2 ^ 25 - 2 ^ 22.

Lemma first_frame k T' ms :
  ta_inv k T' -> 2 ^ 25 <= ms ->
  let start := Z.shiftr (u32 (align_addr_4m (placement k) - KERNEL_VIRTUAL_BASE)) PAGE_SHIFT in
  aligned BUDDY_MAX_ORDER start /\ 0 < start <= ms / PAGE_SIZE.
Proof.
  intros Hk Hms. pose proof (placed k T' Hk) as Hp. cbv zeta. change KERNEL_VIRTUAL_BASE with (768 * 2 ^ 22) in *.
  destruct (align_addr_4m_spec (placement k)) as [A1 A2]; [lia|]. set (e := align_addr_4m (placement k)) in *.
  pose proof (Z.div_mod e (2 ^ 22)) as Hdm. rewrite A2 in Hdm. set (q := e / 2 ^ 22) in *.
  rewrite u32_small by lia. unfold PAGE_SHIFT, PAGE_SIZE. rewrite shiftr_div by lia.
  replace (e - 768 * 2 ^ 22) with ((q - 768) * 1024 * 2 ^ 12) by lia. rewrite Z.div_mul by lia. split.
  - exists (q - 768). unfold BUDDY_MAX_ORDER. lia.
  - split; [lia|]. apply Z.div_le_lower_bound; lia.
Qed.

Lemma paging_init_spec ms :
  2 ^ 25 <= ms < 2 ^ 32 ->
  runs (paging_init ms v0) (fun _ v =>
    backed kd ∅ (fun _ => False) v /\ vm_cur v <> kd /\ big_dir v kd /\ big_dir v (vm_cur v)).
Proof.
  intros Hms. unfold paging_init. cbv zeta. mgo. set (v1 := with_frames _ v0).
  assert (Hv1 : vm_ok v1 ∅ T).
  { split; [|split; [done|]].
    - eapply held_empty, init_lists_inv. lia.
    - cbn [v1 with_frames vm_tables]. rewrite boot_tables. by intros t [? ?%lookup_empty_Some]. }
  eapply runs_bind; [apply (kernel_tables_spec v1 ents ph ∅ T boot_dirs boot_tables Hv1)|].
  intros _ v2 (D & T2 & Hd2 & Hv2 & HT2 & Ef & Ec & Ed & Hdd & Hemp & Hpg & Hbig). mgo.
  destruct (first_frame (vm_kmem v2) T2 ms) as [Hal Hst]; [apply Hv2|lia|]. cbv zeta in Hal, Hst.
  destruct (buddy_init_inv entry_junk ms _ ltac:(lia) Hal Hst) as (fr & fl & Efr & Hfr & _).
  set (v3 := with_frames fr v2).
  match goal with |- runs (bind (lift_frames ?c) _ _) _ => assert (El : lift_frames c v2 = Ok (tt, v3)) end.
  { unfold lift_frames. rewrite Ef. cbn [v1 with_frames vm_frames]. unfold buddy_init in Efr. cbv zeta in Efr. by rewrite Efr. }
  mrun El.
  eapply runs_bind; [apply (clone_empty v3 D T2); try done|].
  - split; [by eapply held_empty|]. split; apply Hv2.
  - set_solver.
  - intros nd v4 (D' & Hne & Edk & Ednd & Hb & Hsh). unfold switch_page_dir, set_page_dir, get_dir. mgo.
    set (v5 := Vm _ _ _ _ nd _). mrun (deref_some (vm_dirs v5 !! nd) D' v5 Ednd). cbn [runs ret].
    split; [exact Hb|]. split; [exact Hne|]. split; [by exists D|].
    exists D'. split; [exact Ednd|]. intros i Hi. destruct (Hsh i) as [-> ->]; [lia| |by apply Hbig].
    unfold shared_kernel, is_kstack. change KERNEL_HIGHMEM_START with 768.
    change (Z.shiftr KERNEL_STACK_BOT 22) with 1023. zcases; try done; lia.
Qed.

End boot.
End startup.

(** ** A machine with 32 MiB *)

(** 200 blocks for directories and tables; the kernel ends in its second 4 MiB. *)
Definition boot_supply : supply := (fun i => (0x100000 + i * 0x4000, 0x400000 + i * 0x4000)) <$> seqZ 0 200.
Definition boot_vm : @vm frames supply :=
  Vm (Frames ∅ ∅ ∅ ∅ 0) boot_supply ∅ {[ 16 := PDir ∅ ∅ 0 ]} 0 ∅.
Definition boot_run : outcome (unit * HeapPages.kheap (F := frames) (K := supply)) :=
  kmain_memory 16 (fun _ => 0xC0500000) BuddySpec.junk0 HeapFree.junk0 31744 (Kheap heap_boot boot_vm).

Lemma boot_supply_inv : supply_inv boot_supply {[ 16 ]}.
Proof.
  unfold boot_supply. split.
  - rewrite <- list_fmap_compose. apply NoDup_fmap_2; [|apply NoDup_seqZ]. intros a b E. simpl in E. lia.
  - rewrite Forall_fmap, Forall_forall. intros i Hi%elem_of_seqZ. simpl. split_and!; [lia|set_solver by lia|lia|lia|].
    replace (4194304 + i * 16384) with ((1024 + 4 * i) * 4096) by lia. apply Z.mod_mul. lia.
Qed.

(** It starts: the heap's first page is mapped, with frames to spare. *)
Lemma boot_runs :
  match boot_run with
  | Ok (_, s) => 0 <? e_addr (pte (kh_vm s) 16 (HEAP_BASE / 4096)) = true /\ forallb (fun j => negb (pte (kh_vm s) 16 j =? 3)) (seqZ (HEAP_BASE / 4096) 256) = true
  | Stop _ => False
  end.
Proof. vm_compute. split; reflexivity. Qed.


(** The size of a machine with 4 GiB wraps to nothing, and start-up halts. *)
Lemma kmain_size_wraps : kmain_mem_size (2 ^ 22 - 1024) = 0.
Proof. reflexivity. Qed.
