(* ===== verification/Kmain.v ===== *)
(** * The self-test of [kmain] (kernel/kmain.cpp)

    After start-up [kmain] exercises the heap, the frame allocator and the
    red-black tree.  The test is a client of those components: its theorems
    rest on what they promise and not on how they work. *)

From S2P Require Import Prelude Dll LinkedList MemLayout Heap HeapSpec HeapOps HeapFree Memory.
From S2P Require Import Buddy BuddySpec RbTree.
From stdpp Require Import gmap list.
#[local] Open Scope Z_scope.

(** for (j = 0; j < n; j++) if (f(j)) c(ps[j]); *)
Fixpoint for_selected {S} (c : Z -> M S unit) (f : Z -> bool) (j : Z) (ps : list Z) : M S unit :=
  match ps with
  | [] => ret tt
  | p :: r => (if f j then c p else ret tt);;; for_selected c f (j + 1) r
  end.

(** ** The heap *)

Section heap_test.
Variable junk : link nptr.
Variable kernel_page : Z -> option Z.

Fixpoint mallocs (n : nat) (sz : Z) : M kmem (list Z) :=
  match n with
  | O => ret []
  | S k => p <-- malloc junk kernel_page sz;; r <-- mallocs k sz;; ret (p :: r)
  end.

Definition third (j : Z) : bool := j mod 3 =? 0.

Definition heap_round (i : Z) : M kmem unit :=
  ps <-- mallocs 1000 8;;
  for_selected c_free third 0 ps;;;
  _ <-- kmalloc junk kernel_page (i * 10 + 3) KMALLOC_ALIGN false;;
  for_selected c_free (fun j => negb (third j)) 0 ps.

Fixpoint heap_rounds (n : nat) (i : Z) : M kmem unit :=
  match n with O => ret tt | S k => heap_round i;;; heap_rounds k (i + 1) end.

(** The result is what is printed of the first block: the two magic numbers and
    the size. *)
Definition heap_test : M kmem (Z * Z * Z) :=
  heap_rounds 10 0;;;
  p <-- malloc junk kernel_page 5;;
  let h := u32 (p - sizeof_header) in
  hh <-- lift_heap (get_hdr h);;
  ff <-- lift_heap (get_ftr (u32 (h + h_size hh - sizeof_footer)));;
  p2 <-- malloc junk kernel_page 16;;
  p3 <-- malloc junk kernel_page 0x400000;;
  c_free p3;;;
  c_free p;;;
  c_free p2;;;
  _ <-- malloc junk kernel_page 16;;
  ret (h_magic hh, u32 (h_size hh - sizeof_header - sizeof_footer), f_magic ff).
End heap_test.

(** ** The frames *)

Fixpoint alloc_each (os : list Z) : M frames (list Z) :=
  match os with
  | [] => ret []
  | o :: r => p <-- alloc_frames o;; ps <-- alloc_each r;; ret (p :: ps)
  end.
Definition test_orders : list Z := (fun i => Z.land i 5) <$> seqZ 0 100.
Definition free_frame_at (p : Z) : M frames unit := free_frames p;;; ret tt.
Definition low_bits (i : Z) : bool := negb (Z.land i 3 =? 0).

Definition frames_test : M frames unit :=
  frame5 <-- alloc_frames 5;;
  frame9 <-- alloc_frames 9;;
  fs <-- alloc_each test_orders;;
  for_selected free_frame_at low_bits 0 fs;;;
  for_selected free_frame_at (fun i => negb (low_bits i)) 0 fs;;;
  free_frame_at frame9;;;
  free_frame_at frame5.

(** ** Releasing part of a pool

    What the test needs of an allocator: it keeps track of a collection of
    objects, in which order does not matter, and each can be released. *)

Class Pool (S : Type) (I : S -> list (Z * Z) -> Prop) (c : Z -> M S unit) : Prop := {
  pool_perm : forall s l l', l ≡ₚ l' -> I s l -> I s l';
  pool_free : forall s p n l, I s ((p, n) :: l) -> exists s', c p s = Ok (tt, s') /\ I s' l
}.

Fixpoint select {A} (f : Z -> bool) (j : Z) (l : list A) : list A :=
  match l with [] => [] | x :: r => if f j then x :: select f (j + 1) r else select f (j + 1) r end.

Lemma select_split {A} (f : Z -> bool) (l : list A) : forall j,
  l ≡ₚ select f j l ++ select (fun i => negb (f i)) j l.
Proof.
  induction l as [|x r IH]; intros j; [done|]. simpl. destruct (f j); simpl; rewrite (IH (j + 1)) at 1; [done|].
  apply Permutation_middle.
Qed.

Lemma for_selected_ok {S I c} `{!Pool S I c} (f : Z -> bool) (l : list (Z * Z)) : forall j s out,
  I s (select f j l ++ out) -> exists s', for_selected c f j l.*1 s = Ok (tt, s') /\ I s' out.
Proof.
  induction l as [|[p n] r IH]; intros j s out Hi; cbn [for_selected fmap list_fmap select fst] in *.
  { by exists s. }
  destruct (f j); [|rewrite (bind_ok (ret tt) _ _ _ _ eq_refl); by apply IH].
  destruct (pool_free s p n _ Hi) as (s1 & E1 & Hi1). mrun E1. by apply IH.
Qed.

(** The two passes of the test: those selected, then the others. *)
Lemma two_passes {S I c} `{!Pool S I c} (f : Z -> bool) (l : list (Z * Z)) s out :
  I s (l ++ out) ->
  exists s', for_selected c f 0 l.*1 s = Ok (tt, s') /\ I s' (select (fun i => negb (f i)) 0 l ++ out).
Proof.
  intros Hi. apply (for_selected_ok f l 0 s (select (fun i => negb (f i)) 0 l ++ out)). eapply pool_perm; [|exact Hi].
  by rewrite (select_split f l 0) at 1; rewrite (assoc_L (++)).
Qed.

(** ** The heap as a pool *)

Section heap_client.
Variable junk : link nptr.
Variable kernel_page : Z -> option Z.

(** The heap is in order, online, ends below [e], and [out] is outstanding. *)
Definition heap_at (e : Z) (s : kmem) (out : list (Z * Z)) : Prop :=
  heap_inv (km_heap s) out /\ hp_online (km_heap s) = true /\ hp_end (km_heap s) <= e.

#[export] Instance heap_pool e : Pool kmem (heap_at e) c_free.
Proof.
  split.
  - intros s l l' Hp (Hi & Hon & He). split; [by eapply heap_inv_perm|done].
  - intros s p n l (Hi & Hon & He). destruct (heap_inv_free _ _ p n Hi) as (h & E & Hi' & Hon' & k & Hk & _).
    exists (Kmem (km_placement s) h (km_zeroed s)). split.
    + unfold c_free, kfree. mgo. rewrite Hon. unfold lift_heap. by rewrite E.
    + split_and!; simpl; [done|congruence|lia].
Qed.

Lemma kmalloc_ok e s out n flags :
  heap_at e s out -> 0 <= n < 2 ^ 31 -> e + n + 8192 + 64 <= 2 ^ 32 - 4096 -> Z.land flags KMALLOC_ZERO = 0 ->
  (exists p s', kmalloc junk kernel_page n flags false s = Ok ((p, None), s') /\ heap_at (e + n + 8192 + 64) s' ((p, n) :: out)) \/
  negb (Z.land flags KMALLOC_ALIGN =? 0) = true /\ kmalloc junk kernel_page n flags false s = Stop Panic.
Proof.
  intros (Hi & Hon & He) Hn Hb Hz. assert (Hb' : hp_end (km_heap s) + n + 8192 + 64 <= 2 ^ 32 - 4096) by lia.
  assert (Hi' := Hi). destruct Hi' as (bs & fl & ub & Hok & _). unfold kmalloc. cbv zeta. mgo. rewrite Hon, Hz.
  set (align := negb (Z.land flags KMALLOC_ALIGN =? 0)).
  destruct (alloc_spec junk _ bs fl n align Hok Hn Hb') as [(p & h & E & _)|[E [Ha _]]]; cycle 1.
  { right. split; [done|]. mgo. apply bind_stop. unfold lift_heap. by rewrite E. }
  left. assert (El : lift_heap (alloc junk n align) s = Ok (p, Kmem (km_placement s) h (km_zeroed s)))
    by (unfold lift_heap; by rewrite E).
  mgo. mrun El. mgo. change (negb (0 =? 0)) with false. cbv iota. mgo. eexists p, _. split; [reflexivity|].
  destruct (alloc_grown junk _ bs fl n align p h (proj1 Hok) Hn Hb' E) as [(Hon' & _) Hle].
  split; [|split]; simpl; [by eapply heap_inv_alloc|congruence|lia].
Qed.

Lemma malloc_ok e s out n :
  heap_at e s out -> 0 <= n < 2 ^ 31 -> e + n + 8192 + 64 <= 2 ^ 32 - 4096 ->
  exists p s', malloc junk kernel_page n s = Ok (p, s') /\ heap_at (e + n + 8192 + 64) s' ((p, n) :: out).
Proof.
  intros Hs Hn Hb. destruct (kmalloc_ok e s out n 0 Hs Hn Hb eq_refl) as [(p & s' & E & Hs')|[? _]]; [|done].
  exists p, s'. split; [|done]. unfold malloc. by mrun E.
Qed.

Lemma mallocs_ok n sz : forall e s out,
  heap_at e s out -> 0 <= sz < 2 ^ 31 -> e + Z.of_nat n * (sz + 8256) <= 2 ^ 32 - 4096 ->
  exists ps s', mallocs junk kernel_page n sz s = Ok (ps, s') /\ length ps = n /\
    heap_at (e + Z.of_nat n * (sz + 8256)) s' (((fun p => (p, sz)) <$> ps) ++ out).
Proof.
  induction n as [|n IH]; intros e s out Hs Hsz Hb; cbn [mallocs].
  { exists [], s. split; [done|]. split; [done|]. by replace (e + Z.of_nat 0 * (sz + 8256)) with e by lia. }
  destruct (malloc_ok e s out sz Hs Hsz ltac:(lia)) as (p & s1 & E1 & Hs1). mrun E1.
  destruct (IH _ s1 _ Hs1 Hsz ltac:(lia)) as (ps & s2 & E2 & Hl & Hs2). mrun E2. exists (p :: ps), s2.
  split; [done|]. split; [simpl; by rewrite Hl|]. cbn [fmap list_fmap app].
  eapply pool_perm; [symmetry; apply Permutation_middle|]. replace (e + Z.of_nat (S n) * (sz + 8256)) with (e + sz + 8192 + 64 + Z.of_nat n * (sz + 8256)) by lia. done.
Qed.

Lemma heap_at_le e e' s out : e <= e' -> heap_at e s out -> heap_at e' s out.
Proof. intros He (? & ? & ?). split; [done|]. split; [done|lia]. Qed.

(** The command returns with [Q], or halts the kernel. *)
Definition returns {A} (o : outcome (A * kmem)) (Q : A -> kmem -> Prop) : Prop :=
  match o with Ok (a, s) => Q a s | Stop Panic => True | Stop _ => False end.

Lemma returns_bind {A B} (c : M kmem A) (k : A -> M kmem B) s Q R :
  returns (c s) Q -> (forall a s', Q a s' -> returns (k a s') R) -> returns (bind c k s) R.
Proof. unfold bind. destruct (c s) as [[a s']|[]]; simpl; auto; done. Qed.

Lemma heap_round_ok i e s out :
  heap_at e s out -> 0 <= i < 10 -> e + 8300000 <= 2 ^ 32 - 4096 ->
  returns (heap_round junk kernel_page i s) (fun _ s' => exists a, heap_at (e + 8300000) s' ((a, i * 10 + 3) :: out)).
Proof.
  intros Hs Hi Hb. unfold heap_round.
  destruct (mallocs_ok 1000 8 e s out Hs ltac:(lia) ltac:(lia)) as (ps & s1 & E1 & _ & Hs1). mrun E1.
  assert (Eps : ps = ((fun p => (p, 8)) <$> ps).*1) by (rewrite <- list_fmap_compose; symmetry; apply list_fmap_id).
  destruct (two_passes third _ s1 out Hs1) as (s2 & E2 & Hs2). rewrite <- Eps in E2. mrun E2.
  destruct (kmalloc_ok _ s2 _ (i * 10 + 3) KMALLOC_ALIGN Hs2 ltac:(lia) ltac:(lia) eq_refl) as [(a & s3 & E3 & Hs3)|[_ E3]];
    [|by rewrite (bind_stop _ _ _ _ E3)].
  mrun E3.
  pose proof (pool_perm s3 _ _ (Permutation_middle _ _ _) Hs3) as Hs3'.
  destruct (for_selected_ok (fun j => negb (third j)) _ 0 s3 _ Hs3') as (s4 & E4 & Hs4).
  rewrite <- Eps in E4. rewrite E4. exists a. eapply heap_at_le; [|exact Hs4]. lia.
Qed.

(** The aligned blocks are never released. *)
Fixpoint aligned_left (n : nat) (i : Z) (as_ : list Z) : list (Z * Z) :=
  match n, as_ with S k, a :: r => aligned_left k (i + 1) r ++ [(a, i * 10 + 3)] | _, _ => [] end.

Lemma heap_rounds_ok n : forall i e s out,
  heap_at e s out -> 0 <= i -> i + Z.of_nat n <= 10 -> e + Z.of_nat n * 8300000 <= 2 ^ 32 - 4096 ->
  returns (heap_rounds junk kernel_page n i s) (fun _ s' => exists as_, length as_ = n /\
    heap_at (e + Z.of_nat n * 8300000) s' (aligned_left n i as_ ++ out)).
Proof.
  induction n as [|n IH]; intros i e s out Hs Hi Hn Hb; cbn [heap_rounds].
  { exists []. split; [done|]. by replace (e + Z.of_nat 0 * 8300000) with e by lia. }
  eapply returns_bind; [apply (heap_round_ok i e s out Hs); lia|]. intros _ s1 (a & Hs1).
  pose proof (IH (i + 1) _ s1 _ Hs1 ltac:(lia) ltac:(lia) ltac:(lia)) as Hr. unfold returns in *.
  destruct (heap_rounds junk kernel_page n (i + 1) s1) as [[[] s2]|[]]; try done. destruct Hr as (as_ & Hl & Hs2).
  exists (a :: as_). split; [simpl; by rewrite Hl|]. cbn [aligned_left]. rewrite <- (assoc_L (++)).
  by replace (e + Z.of_nat (S n) * 8300000) with (e + 8300000 + Z.of_nat n * 8300000) by lia.
Qed.

(** The tags of an outstanding block. *)
Lemma outstanding_tags h p n out :
  heap_inv h ((p, n) :: out) ->
  exists sz, hp_hdr h !! (p - 20) = Some (Hdr HEAP_HEADER_MAGIC sz true) /\
    hp_ftr h !! (p - 20 + sz - 8) = Some (Ftr HEAP_FOOTER_MAGIC (p - 20)) /\
    n + 28 <= sz /\ HEAP_BASE <= p - 20 /\ p - 20 + sz <= 2 ^ 32 - 4096.
Proof.
  intros (bs & fl & ub & Hok & Hp & Hf). apply Forall2_cons_inv_r in Hf as (b & u2 & [Hpb Hfit] & Hf2 & ->). simpl in Hpb, Hfit.
  assert (Hb : b ∈ used_of bs) by (rewrite Hp; apply list_elem_of_here). apply used_in in Hb as [Hin Hb].
  destruct Hok as (Hst & _). destruct (blk_range _ _ _ _ Hst Hin) as (R1 & R2 & _).
  destruct (blk_tags _ _ _ _ Hst Hin ltac:(by rewrite Hb)) as [Th Tf]. assert (He : end_ok (hp_end h)) by apply Hst. destruct He as [He _].
  exists (b_size b). unfold b_flag in Th. rewrite Hb in Th. unfold b_foot, sizeof_footer in *.
  replace (p - 20) with (b_addr b) by lia. split_and!; [done|done|lia|lia|lia].
Qed.

(** The test of the heap returns, unless a page-aligned allocation halts the
    kernel; it prints the right magic numbers and a sufficient size, and of all
    it allocated the ten aligned blocks and the last one stay allocated. *)
Lemma heap_test_ok e s out :
  heap_at e s out -> e + 2 ^ 27 <= 2 ^ 32 - 4096 ->
  returns (heap_test junk kernel_page s) (fun r s' => exists sz as_ p,
    r = (HEAP_HEADER_MAGIC, sz, HEAP_FOOTER_MAGIC) /\ 5 <= sz /\ length as_ = 10%nat /\
    heap_at (e + 2 ^ 27) s' ((p, 16) :: aligned_left 10 0 as_ ++ out)).
Proof.
  intros Hs Hb. unfold heap_test.
  eapply returns_bind; [apply (heap_rounds_ok 10 0 e s out Hs); lia|]. intros _ s1 (as_ & Hl & Hs1).
  destruct (malloc_ok _ s1 _ 5 Hs1 ltac:(lia) ltac:(lia)) as (p & s2 & E2 & Hs2). mrun E2. cbv zeta.
  destruct (outstanding_tags _ _ _ _ (proj1 Hs2)) as (sz & Th & Tf & Hsz & Hlo & Hhi).
  assert (HB : 0 < HEAP_BASE) by done. unfold sizeof_header, sizeof_footer.
  rewrite (u32_small (p - 20)) by lia.
  assert (Eh : lift_heap (get_hdr (p - 20)) s2 = Ok (Hdr HEAP_HEADER_MAGIC sz true, s2)).
  { unfold lift_heap. rewrite (get_hdr_run _ _ _ Th). by destruct s2. }
  mrun Eh. cbn [h_size h_magic]. rewrite (u32_small (p - 20 + sz - 8)), (u32_small (sz - 20 - 8)) by lia.
  assert (Ef : lift_heap (get_ftr (p - 20 + sz - 8)) s2 = Ok (Ftr HEAP_FOOTER_MAGIC (p - 20), s2)).
  { unfold lift_heap. rewrite (get_ftr_run _ _ _ Tf). by destruct s2. }
  mrun Ef. cbn [f_magic].
  destruct (malloc_ok _ s2 _ 16 Hs2 ltac:(lia) ltac:(lia)) as (p2 & s3 & E3 & Hs3). mrun E3.
  destruct (malloc_ok _ s3 _ 0x400000 Hs3 ltac:(lia) ltac:(lia)) as (p3 & s4 & E4 & Hs4). mrun E4.
  destruct (pool_free s4 p3 _ _ Hs4) as (s5 & E5 & Hs5). mrun E5.
  pose proof (pool_perm s5 _ _ (perm_swap _ _ _) Hs5) as Hs5'.
  destruct (pool_free s5 p _ _ Hs5') as (s6 & E6 & Hs6). mrun E6.
  destruct (pool_free s6 p2 _ _ Hs6) as (s7 & E7 & Hs7). mrun E7.
  destruct (malloc_ok _ s7 _ 16 Hs7 ltac:(lia) ltac:(lia)) as (q & s8 & E8 & Hs8). mrun E8.
  exists (sz - 20 - 8), as_, q. split; [done|]. split; [lia|]. split; [done|]. eapply heap_at_le; [|exact Hs8]. lia.
Qed.
End heap_client.

(** ** The frames as a pool *)

(** [l] is held on top of [al]: block addresses and orders. *)
Definition frames_at (al : gmap Z Z) (s : frames) (l : list (Z * Z)) : Prop :=
  exists fl bs, l = (fun b => (b.1 * PAGE_SIZE, b.2)) <$> bs /\ NoDup bs.*1 /\ (forall i, i ∈ bs.*1 -> al !! i = None) /\
    buddy_inv s fl (list_to_map bs ∪ al).

#[export] Instance frames_pool al : Pool frames (frames_at al) free_frame_at.
Proof.
  split.
  - intros s l l' Hp (fl & bs & -> & Hnd & Hal & Hi). symmetry in Hp. apply Permutation_map_inv in Hp as (bs' & -> & Hp').
    exists fl, bs'. assert (Hnd' : NoDup bs'.*1) by (by rewrite <- Hp'). split_and!; [done|done| |].
    + intros i Hin. apply Hal. by rewrite Hp'.
    + by rewrite <- (list_to_map_proper bs bs').
  - intros s p n l (fl & bs & El & Hnd & Hal & Hi). destruct bs as [|[i o] bs]; [done|]. cbn in El. injection El as -> -> ->.
    cbn [fmap list_fmap fst] in Hnd. apply NoDup_cons in Hnd as [Hni Hnd].
    assert (Hl : (list_to_map ((i, o) :: bs) ∪ al : gmap Z Z) !! i = Some o).
    { apply lookup_union_Some_l. apply lookup_insert_eq. }
    destruct (free_frames_spec s fl _ i o Hi Hl) as (r & s' & fl' & E & Hi' & _). exists s'.
    split; [unfold free_frame_at; by mrun E|]. exists fl', bs. split_and!; [done|done| |].
    + intros j Hj. apply Hal. cbn [fmap list_fmap]. by apply list_elem_of_further.
    + replace (list_to_map bs ∪ al) with (delete i (list_to_map ((i, o) :: bs) ∪ al) : gmap Z Z); [done|].
      rewrite delete_union. cbn [list_to_map foldr fst snd]. rewrite delete_insert_id.
      * rewrite (delete_id al) by (apply Hal; cbn; apply list_elem_of_here). done.
      * by apply not_elem_of_list_to_map_1.
Qed.

Lemma alloc_each_ok al os : forall s l,
  frames_at al s l -> Forall order_ok os ->
  exists ps s', alloc_each os s = Ok (ps, s') /\ length ps = length os /\
    frames_at al s' (filter (fun b => b.1 <> 0) (zip ps os) ++ l).
Proof.
  induction os as [|o os IH]; intros s l Hs Ho; cbn [alloc_each].
  { by exists [], s. }
  apply Forall_cons in Ho as [Ho Hos]. destruct Hs as (fl & bs & -> & Hnd & Hal & Hi).
  destruct (alloc_frames_spec s fl _ o Hi Ho) as [(idx & s1 & fl1 & E & (Hpos & _) & Hn & Hi1 & _)|[E _]]; mrun E.
  - apply lookup_union_None in Hn as [Hn1 Hn2].
    destruct (IH s1 ((idx * PAGE_SIZE, o) :: ((fun b => (b.1 * PAGE_SIZE, b.2)) <$> bs))) as (ps & s2 & E2 & Hl & Hs2).
    + exists fl1, ((idx, o) :: bs). cbn [fmap list_fmap fst]. split_and!; [done| | |].
      * constructor; [|done]. intros Hin. by apply not_elem_of_list_to_map_2 in Hn1.
      * intros i [->|?]%elem_of_cons; [done|by apply Hal].
      * cbn [list_to_map foldr fst snd]. by rewrite <- insert_union_l.
    + done.
    + mrun E2. eexists _, s2. split; [reflexivity|]. split; [simpl; by rewrite Hl|]. cbn [zip zip_with].
      rewrite filter_cons_True by (simpl; unfold PAGE_SIZE; lia). eapply pool_perm; [symmetry; apply Permutation_middle|]. done.
  - destruct (IH s _ (ex_intro _ fl (ex_intro _ bs (conj eq_refl (conj Hnd (conj Hal Hi))))) Hos) as (ps & s2 & E2 & Hl & Hs2).
    mrun E2. eexists _, s2. split; [reflexivity|]. split; [simpl; by rewrite Hl|]. cbn [zip zip_with].
    by rewrite filter_cons_False by (simpl; lia).
Qed.

Lemma filter_all {A} (P : A -> Prop) `{forall x, Decision (P x)} (l : list A) : (forall x, x ∈ l -> P x) -> filter P l = l.
Proof.
  induction l as [|x l IH]; intros Ha; [done|]. rewrite filter_cons_True by (apply Ha, list_elem_of_here).
  f_equal. apply IH. intros y Hy. by apply Ha, list_elem_of_further.
Qed.

Lemma test_orders_ok : Forall order_ok (5 :: 9 :: test_orders).
Proof.
  repeat constructor; done.
Qed.

(** The test of the frames allocates 102 blocks; when none of the allocations
    fails it returns and holds exactly what was held before. *)
Lemma frames_test_ok s fl al :
  buddy_inv s fl al ->
  exists ps s1, alloc_each (5 :: 9 :: test_orders) s = Ok (ps, s1) /\
    (0 ∉ ps -> exists s2 fl2, frames_test s = Ok (tt, s2) /\ buddy_inv s2 fl2 al).
Proof.
  intros Hi. assert (Hs : frames_at al s []).
  { exists fl, []. split_and!; [done|constructor|by intros i ?%elem_of_nil|]. cbn [list_to_map foldr]. by rewrite (left_id_L ∅ (∪)). }
  destruct (alloc_each_ok al (5 :: 9 :: test_orders) s [] Hs test_orders_ok) as (ps & s1 & E & Hl & Hs1).
  exists ps, s1. split; [done|]. intros H0. unfold frames_test. cbn [alloc_each] in E.
  apply bind_inv in E as (f5 & sa & E5 & (r & sb & (f9 & sc & E9 & (fs & sd & Ef & E1)%bind_inv)%bind_inv & E2)%bind_inv).
  injection E1 as <- <-. injection E2 as <- <-. mrun E5. mrun E9. mrun Ef.
  assert (Hlen : length fs = length test_orders) by (cbn [length] in Hl; lia). assert (Ez : filter (fun b : Z * Z => b.1 <> 0) (zip (f5 :: f9 :: fs) (5 :: 9 :: test_orders)) = (f5, 5) :: (f9, 9) :: zip fs test_orders).
  { apply filter_all. intros [p o] Hb. simpl. intros ->. apply H0. by apply (elem_of_zip_l 0 o (f5 :: f9 :: fs) (5 :: 9 :: test_orders)). }
  rewrite Ez, app_nil_r in Hs1.
  assert (Hs1' : frames_at al sd (zip fs test_orders ++ [(f9, 9); (f5, 5)])).
  { eapply pool_perm; [|exact Hs1]. rewrite (Permutation_app_comm (zip fs test_orders)). simpl. apply perm_swap. }
  assert (Efs : fs = (zip fs test_orders).*1) by (rewrite fst_zip; [done|by rewrite Hlen]).
  destruct (two_passes low_bits _ sd _ Hs1') as (s3 & E3 & Hs3). rewrite <- Efs in E3. mrun E3.
  destruct (for_selected_ok _ _ 0 s3 _ Hs3) as (s4 & E4 & Hs4). rewrite <- Efs in E4. mrun E4.
  destruct (pool_free s4 f9 _ _ Hs4) as (s5 & E6 & Hs5). mrun E6.
  destruct (pool_free s5 f5 _ _ Hs5) as (s6 & E7 & Hs6). rewrite E7. destruct Hs6 as (fl2 & bs & Eb & _ & _ & Hi6).
  destruct bs; [|done]. cbn [list_to_map foldr] in Hi6. rewrite (left_id_L ∅ (∪)) in Hi6. by exists s6, fl2.
Qed.

(** On 16 MiB with 8 MiB taken, every allocation of the test succeeds and all
    is released, but a block of 1024 frames is gone: the last release merges
    two blocks of the largest order, of which one is dropped. *)
Definition frames_before_after (s : frames) : Z * option bool * option Z :=
  (free_count s,
   match alloc_each (5 :: 9 :: test_orders) s with Ok (ps, _) => Some (existsb (Z.eqb 0) ps) | Stop _ => None end,
   match frames_test s with Ok (_, s') => Some (free_count s') | Stop _ => None end).
Lemma frames_test_loses_block : frames_before_after boot_state = (2048, Some false, Some 1024).
Proof. vm_compute. reflexivity. Qed.

(** ** The tree

    Keys below [n] are inserted and the multiples of [i] erased, for [i] below
    [hi]; then the keys below [m] go, and 1 and 2 come back.  [kmain] uses 30,
    1000 and 991.  [a] is where the next node is placed. *)

Notation itree := (rb (T := Z)).

Fixpoint tree_inserts (a : Z) (ks : list Z) : M itree Z :=
  match ks with [] => ret a | k :: r => rb_insert Z.ltb Z.eqb a k;;; tree_inserts (a + 1) r end.
Fixpoint tree_erases (ks : list Z) : M itree unit :=
  match ks with [] => ret tt | k :: r => x <-- rb_find Z.ltb Z.eqb k;; rb_erase x;;; tree_erases r end.

Fixpoint tree_rounds (ms : list Z) (n a : Z) : M itree Z :=
  match ms with
  | [] => ret a
  | i :: r =>
    a <-- tree_inserts a (seqZ 0 n);;
    tree_erases (filter (fun j => j mod i = 0) (seqZ 0 n));;;
    tree_rounds r n a
  end.

Definition tree_test (hi n m a : Z) : M itree unit :=
  a <-- tree_rounds (seqZ 2 (hi - 2)) n a;;
  tree_erases (seqZ 0 m);;;
  tree_inserts a [1; 1; 2];;;
  ret tt.
Definition kmain_tree_test (a : Z) : M itree unit := tree_test 30 1000 991 a.

(** In small, it leaves the keys it should. *)
Lemma tree_test_small :
  match tree_test 8 40 37 1000 (rb_new 1 0 0) with
  | Ok (_, s) =>
    rb_sz s = 5 /\
    forallb (fun k => match rb_contains Z.ltb Z.eqb k s with
                      | Ok (b, _) => Bool.eqb b ((k =? 1) || (k =? 2) || (37 <=? k))
                      | Stop _ => false
                      end) (seqZ 0 40) = true
  | Stop _ => False
  end.
Proof. vm_compute. split; reflexivity. Qed.
