(* ===== verification/Elf.v ===== *)
(** * The ELF loader (kernel/proc/elf.cpp, elf.h)

    The image is in kernel memory; every field of its headers is read through
    the page directory that is current at that point, the caller's before
    [switch_page_dir] and the new one after it.  The offsets are those of the
    structures of elf.h. *)

From S2P Require Import Prelude MemLayout PageDir AddrSpace Proc.
From stdpp Require Import gmap list.
#[local] Open Scope Z_scope.

Definition ELFMAG : list Z := [0x7f; 69; 76; 70].
Definition EI_CLASS : Z := 4.
Definition EI_DATA : Z := 5.
Definition EI_VERSION : Z := 6.
Definition EI_OSABI : Z := 7.
Definition ELFCLASS32 : Z := 1.
Definition ELFDATA2LSB : Z := 1.
Definition EV_CURRENT : Z := 1.
Definition ELFOSABI_NONE : Z := 0.
Definition EM_386 : Z := 3.
Definition ET_REL : Z := 1.
Definition ET_EXEC : Z := 2.
Definition SHN_UNDEF : Z := 0.
Definition PT_LOAD : Z := 1.
Definition PT_PHDR : Z := 6.
Definition PF_W : Z := 2.

(** Offsets in [Elf32_Ehdr], [Elf32_Phdr] and [Elf32_Shdr]. *)
Definition E_TYPE : Z := 16.
Definition E_MACHINE : Z := 18.
Definition E_ENTRY : Z := 24.
Definition E_PHOFF : Z := 28.
Definition E_SHOFF : Z := 32.
Definition E_PHNUM : Z := 44.
Definition E_SHSTRNDX : Z := 50.
Definition P_TYPE : Z := 0.
Definition P_OFFSET : Z := 4.
Definition P_VADDR : Z := 8.
Definition P_FILESZ : Z := 16.
Definition P_MEMSZ : Z := 20.
Definition P_FLAGS : Z := 24.
Definition P_ALIGN : Z := 28.
Definition SIZEOF_PHDR : Z := 32.
Definition SIZEOF_SHDR : Z := 40.
Definition SH_OFFSET : Z := 16.

Section elf.
Context {F K : Type} `{FrameAlloc F} `{TableAlloc K}.
Notation vm := (@vm F K).

Definition field8 (p off : Z) : M vm Z := vload (u32 (p + off)).
Definition field16 (p off : Z) : M vm Z := vload16 (u32 (p + off)).
Definition field32 (p off : Z) : M vm Z := vload32 (u32 (p + off)).

(** ** The header *)

(** [memcmp] with a string of the kernel: true when equal. *)
Fixpoint bytes_are (p : Z) (l : list Z) : M vm bool :=
  match l with
  | [] => ret true
  | b :: r => v <-- vload p;; if v =? b then bytes_are (u32 (p + 1)) r else ret false
  end.
Fixpoint all_of (l : list (M vm bool)) : M vm bool :=
  match l with
  | [] => ret true
  | c :: r => b <-- c;; if b then all_of r else ret false
  end.
Definition field_is (c : M vm Z) (x : Z) : M vm bool := v <-- c;; ret (v =? x).

Definition Ehdr_valid (hdr : Z) : M vm bool :=
  all_of [
    bytes_are hdr ELFMAG;
    field_is (field8 hdr EI_CLASS) ELFCLASS32;
    field_is (field8 hdr EI_DATA) ELFDATA2LSB;
    field_is (field16 hdr E_MACHINE) EM_386;
    field_is (field8 hdr EI_VERSION) EV_CURRENT;
    field_is (field8 hdr EI_OSABI) ELFOSABI_NONE;
    v <-- field16 hdr E_TYPE;; ret ((v =? ET_REL) || (v =? ET_EXEC))].

(** The tables of the file; 0 is the null pointer. *)
Definition get_phdr (hdr : Z) : M vm Z := o <-- field32 hdr E_PHOFF;; ret (if o =? 0 then 0 else u32 (hdr + o)).
Definition get_shdr (hdr : Z) : M vm Z := o <-- field32 hdr E_SHOFF;; ret (if o =? 0 then 0 else u32 (hdr + o)).
Definition strtab (hdr : Z) : M vm Z :=
  n <-- field16 hdr E_SHSTRNDX;;
  if n =? SHN_UNDEF then ret 0
  else
    sh <-- get_shdr hdr;;
    o <-- field32 (u32 (sh + SIZEOF_SHDR * n)) SH_OFFSET;;
    ret (u32 (hdr + o)).
Definition get_str (hdr offset : Z) : M vm Z :=
  t <-- strtab hdr;; ret (if t =? 0 then 0 else u32 (t + offset)).

(** ** Loading *)

Definition page_floor (a : Z) : Z := Z.land a 0xFFFFF000.
Definition seg_flags : Z := Z.lor (Z.lor PAGE_PRESENT PAGE_US) PAGE_RW.

(** The number of headers is a 16-bit field, which bounds both loops. *)
Definition ph_fuel : nat := Z.to_nat (2 ^ 16).

(** The loop that allocates memory for the segments: the result and
    [brk_start]. *)
Fixpoint alloc_segments (fuel : nat) (hdr phdr d i brk_start : Z) : M vm (sysret * Z) :=
  n <-- field16 hdr E_PHNUM;;
  if n <=? i then ret (Val 0, brk_start)
  else
    match fuel with
    | O => halt Fuel
    | S k =>
      ty <-- field32 phdr P_TYPE;;
      if ty =? PT_PHDR then alloc_segments k hdr (u32 (phdr + SIZEOF_PHDR)) d (i + 1) brk_start
      else if ty =? PT_LOAD then
        va <-- field32 phdr P_VADDR;;
        msz <-- field32 phdr P_MEMSZ;;
        let vaddr_start := page_floor va in
        let vaddr_end := align_addr (u32 (va + msz)) in
        b <-- alloc_block d vaddr_start (u32 (vaddr_end - vaddr_start)) seg_flags;;
        if negb b then ret (Err ENOMEM, brk_start)
        else alloc_segments k hdr (u32 (phdr + SIZEOF_PHDR)) d (i + 1) (Z.max brk_start vaddr_end)
      else ret (Err EINVAL, brk_start)
    end.

(** for (addr = vaddr_start; addr < vaddr_end; addr += PAGE_SIZE) *)
Fixpoint readonly_pages (n : nat) (d page : Z) : M vm unit :=
  match n with
  | O => ret tt
  | S k =>
    p <-- get_page d page false default_flags;;
    q <-- deref p;;
    v <-- page_read q;; page_write q (Z.ldiff v PAGE_RW);;;
    readonly_pages k d (page + 1)
  end.

Definition copy_contents (buf phdr : Z) : M vm unit :=
  fsz <-- field32 phdr P_FILESZ;; va <-- field32 phdr P_VADDR;; off <-- field32 phdr P_OFFSET;;
  if negb (Z.land fsz 3 =? 0) then vmovs 1 (Z.to_nat fsz) va (u32 (buf + off))
  else vmovs 4 (Z.to_nat (fsz / 4)) va (u32 (buf + off)).
Definition clear_rest (phdr : Z) : M vm unit :=
  msz <-- field32 phdr P_MEMSZ;; fsz <-- field32 phdr P_FILESZ;;
  if fsz <? msz then
    va <-- field32 phdr P_VADDR;;
    let sz := msz - fsz in
    if negb (Z.land sz 3 =? 0) then vzeros 1 (Z.to_nat sz) (u32 (va + fsz))
    else vzeros 4 (Z.to_nat (sz / 4)) (u32 (va + fsz))
  else ret tt.
Definition protect (d phdr : Z) : M vm unit :=
  al <-- field32 phdr P_ALIGN;; fl <-- field32 phdr P_FLAGS;;
  if (4096 <=? al) && (Z.land fl PF_W =? 0) then
    va <-- field32 phdr P_VADDR;; msz <-- field32 phdr P_MEMSZ;;
    let vaddr_start := page_floor va in
    let vaddr_end := align_addr (u32 (va + msz)) in
    readonly_pages (Z.to_nat ((vaddr_end - vaddr_start) / 4096)) d (Z.shiftr vaddr_start 12)
  else ret tt.

(** The loop that fills them. *)
Fixpoint copy_segments (fuel : nat) (buf phdr d i : Z) : M vm unit :=
  n <-- field16 buf E_PHNUM;;
  if n <=? i then ret tt
  else
    match fuel with
    | O => halt Fuel
    | S k =>
      ty <-- field32 phdr P_TYPE;;
      (if ty =? PT_PHDR then ret tt
       else copy_contents buf phdr;;; clear_rest phdr;;; protect d phdr);;;
      copy_segments k buf (u32 (phdr + SIZEOF_PHDR)) d (i + 1)
    end.

(** The result, and what has been stored in [entry] and [brk_start]. *)
Definition load (buf d : Z) : M vm (sysret * option Z * option Z) :=
  if (buf =? 0) || (d =? 0) then ret (Err EFAULT, None, None)
  else
    ok <-- Ehdr_valid buf;;
    if negb ok then ret (Err ENOEXEC, None, None)
    else
      phdr <-- get_phdr buf;;
      if phdr =? 0 then ret (Err ENOEXEC, None, None)
      else
        r <-- alloc_segments ph_fuel buf phdr d 0 0;;
        match r.1 with
        | Err e => ret (Err e, None, Some r.2)
        | Val _ =>
          phdr <-- get_phdr buf;;
          switch_page_dir d;;;
          copy_segments ph_fuel buf phdr d 0;;;
          e <-- field32 buf E_ENTRY;;
          ret (Val 0, Some e, Some r.2)
        end.
End elf.
