(* ===== verification/ElfSpec.v ===== *)
(** * What the ELF loader does

    Allocation of user pages leaves the kernel's half of every directory alone,
    so the image stays visible; the segments get frames of their own, and after
    the copy the new address space shows the program the image describes. *)

From S2P Require Import Prelude MemLayout PageDir PageDirSpec AddrSpace Proc Elf.
From stdpp Require Import gmap list.
#[local] Open Scope Z_scope.

(** ** Allocation and the kernel's half *)

Section high.
Context {F K : Type} `{FrameAlloc F} `{TableAlloc K}.
Notation vm := (@vm F K).
Variable d : Z.

(** Directory slots from [KHALF] on are the kernel's. *)
Definition KHALF : Z := 768.

Definition low (s : vm) (t : Z) : Prop :=
  exists dir idx, vm_dirs s !! d = Some dir /\ idx < KHALF /\ pd_tables dir !! idx = Some t.
Definition own (s : vm) : Prop :=
  exists T, ta_inv (vm_kmem s) T /\ forall t, is_Some (vm_tables s !! t) -> t ∈ T.

Definition same_high (s s' : vm) : Prop :=
  (forall c, c <> d -> vm_dirs s' !! c = vm_dirs s !! c) /\
  (forall dir, vm_dirs s !! d = Some dir -> exists dir', vm_dirs s' !! d = Some dir' /\
     forall idx, KHALF <= idx -> pd_tables dir' !! idx = pd_tables dir !! idx /\ entry dir' idx = entry dir idx) /\
  (forall t tb, vm_tables s !! t = Some tb -> ~ low s t -> vm_tables s' !! t = Some tb /\ ~ low s' t).

Lemma same_high_refl s : same_high s s.
Proof. split; [done|]. split; [|done]. intros dir E. exists dir. done. Qed.
Lemma same_high_trans s1 s2 s3 : same_high s1 s2 -> same_high s2 s3 -> same_high s1 s3.
Proof.
  intros (A1 & A2 & A3) (B1 & B2 & B3). split; [|split].
  - intros c Hc. by rewrite B1, A1.
  - intros dir E. destruct (A2 dir E) as (dir' & E' & Hd'). destruct (B2 dir' E') as (dir2 & E2 & Hd2).
    exists dir2. split; [done|]. intros idx Hi. destruct (Hd' idx Hi) as [<- <-]. by apply Hd2.
  - intros t tb E Hl. destruct (A3 t tb E Hl) as [E' Hl']. by apply B3.
Qed.

(** [keeps s c Q]: if [c] returns from [s], the kernel's half is unchanged and
    [Q] holds. *)
Definition keeps {A} (s : vm) (c : M vm A) (Q : A -> vm -> Prop) : Prop :=
  own s -> match c s with Ok (a, s') => own s' /\ same_high s s' /\ Q a s' | Stop _ => True end.

Lemma low_keeps_bind {A B} (c : M vm A) (k : A -> M vm B) s Q R :
  keeps s c Q -> (forall a s', Q a s' -> keeps s' (k a) R) -> keeps s (bind c k) R.
Proof.
  unfold keeps, bind. intros Hc Hk Ho. specialize (Hc Ho). destruct (c s) as [[a s']|]; [|done].
  destruct Hc as (Ho' & Hs & HQ). specialize (Hk a s' HQ Ho'). destruct (k a s') as [[b s2]|]; [|done].
  destruct Hk as (Ho2 & Hs2 & HR). split; [done|]. split; [by eapply same_high_trans|done].
Qed.
Lemma low_keeps_ret {A} (a : A) s (Q : A -> vm -> Prop) : Q a s -> keeps s (ret a) Q.
Proof. intros HQ Ho. cbn. split; [done|]. split; [apply same_high_refl|done]. Qed.
Lemma keeps_mono {A} (c : M vm A) s (Q R : A -> vm -> Prop) :
  keeps s c Q -> (forall a s', Q a s' -> R a s') -> keeps s c R.
Proof. unfold keeps. intros Hc HQ Ho. specialize (Hc Ho). destruct (c s) as [[a s']|]; [|done]. naive_solver. Qed.

Lemma keeps_frames {A} (c : M F A) s (Q : vm -> Prop) :
  (forall f, Q (Vm f (vm_kmem s) (vm_tables s) (vm_dirs s) (vm_cur s) (vm_mem s))) -> keeps s (lift_frames c) (fun _ => Q).
Proof.
  intros HQ Ho. unfold lift_frames. destruct (c (vm_frames s)) as [[a f]|]; [|done].
  split; [done|]. split; [|apply HQ]. split; [done|]. split; [|done]. intros dir E. by exists dir.
Qed.

Lemma keeps_read p s : keeps s (page_read p) (fun _ s' => s' = s).
Proof.
  unfold page_read, get_table. intros Ho. unfold bind at 1, get. unfold bind, deref. cbn.
  destruct (vm_tables s !! p.1); cbn; [|done]. split; [done|]. split; [apply same_high_refl|done].
Qed.

Lemma keeps_write p v s : low s p.1 -> keeps s (page_write p v) (fun _ s' => low s' p.1).
Proof.
  intros Hl (T & HT & Ht). unfold page_write, get_table, put_table, set_tables. unfold bind, get, deref. cbn.
  destruct (vm_tables s !! p.1) as [tb|] eqn:E; cbn; [|done]. split; [|split; [|done]].
  - exists T. split; [done|]. cbn. intros t. destruct (decide (t = p.1)) as [->|]; [|rewrite lookup_insert_ne by done; apply Ht].
    intros _. apply Ht. by rewrite E.
  - split; [done|]. split; [intros dir Ed; by exists dir|]. intros t tb' Et Hnl. cbn.
    split; [|done]. rewrite lookup_insert_ne; [done|]. intros <-. done.
Qed.

Lemma keeps_write_addr p a s : low s p.1 -> keeps s (page_write_addr p a) (fun _ s' => low s' p.1).
Proof. intros Hl. eapply low_keeps_bind; [apply keeps_read|]. intros v s' ->. by apply keeps_write. Qed.

Lemma keeps_get_page i mk flags s :
  0 <= i < KHALF * 1024 -> keeps s (get_page d i mk flags) (fun r s' => forall p, r = Some p -> low s' p.1).
Proof.
  intros Hi (T & HT & Ht). unfold get_page. cbv zeta.
  assert (Hidx : 0 <= Z.shiftr i 10 < KHALF).
  { rewrite shiftr_div by lia. split; [apply Z.div_pos; lia|]. apply Z.div_lt_upper_bound; [lia|]. unfold KHALF in *. lia. }
  destruct (Z.leb_spec 1024 (Z.shiftr i 10)); [done|]. unfold get_dir. unfold bind at 1 2, get, deref at 1.
  destruct (vm_dirs s !! d) as [dir|] eqn:Ed; [|done]. cbn [ret].
  destruct (pd_tables dir !! Z.shiftr i 10) as [t|] eqn:Et.
  { cbn. split; [by exists T|]. split; [apply same_high_refl|]. intros p [= <-]. exists dir, (Z.shiftr i 10). split; [done|]. split; [lia|done]. }
  destruct mk; cycle 1.
  { cbn. split; [by exists T|]. split; [apply same_high_refl|]. done. }
  unfold lift_kmem. unfold bind at 1.
  destruct (ta_alloc_ok (vm_kmem s) T HT) as [->|(v & ph & k' & -> & _ & HvT & _ & _ & HT')]; [done|].
  unfold put_table, put_dir, set_tables, set_dirs, bind, get, modify, ret. cbn.
  assert (Hv : vm_tables s !! v = None).
  { destruct (vm_tables s !! v) eqn:E; [|done]. exfalso. apply HvT, Ht. by rewrite E. }
  split; [|split; [split; [|split]|]].
  - exists ({[v]} ∪ T). split; [done|]. cbn. intros t. destruct (decide (t = v)) as [->|]; [set_solver|].
    rewrite lookup_insert_ne by done. intros ?%Ht. set_solver.
  - intros c Hc. cbn. by rewrite lookup_insert_ne.
  - intros dir0 E0. rewrite E0 in Ed. injection Ed as ->. eexists. split; [by apply lookup_insert_eq|].
    intros idx Hx. cbn. unfold entry. cbn. rewrite !lookup_insert_ne by lia. done.
  - intros t tb Htb Hnl. cbn. assert (t <> v) by congruence. split; [by rewrite lookup_insert_ne|].
    intros (dir' & idx & Ed' & Hx & Ex). cbn in Ed'. rewrite lookup_insert_eq in Ed'. injection Ed' as <-. cbn in Ex.
    destruct (decide (idx = Z.shiftr i 10)) as [->|]; [rewrite lookup_insert_eq in Ex; congruence|].
    rewrite lookup_insert_ne in Ex by done. apply Hnl. by exists dir, idx.
  - intros p [= <-]. eexists _, (Z.shiftr i 10). cbn. split; [by apply lookup_insert_eq|]. split; [lia|].
    cbn. by rewrite lookup_insert_eq.
Qed.

Lemma keeps_alloc_one i flags s : 0 <= i < KHALF * 1024 -> keeps s (alloc_one d i flags) (fun _ _ => True).
Proof.
  intros Hi. unfold alloc_one. eapply low_keeps_bind; [by apply keeps_get_page|]. intros p s1 Hp.
  apply low_keeps_bind with (Q := fun o s' => forall q v, o = Some (q, v) -> low s' q.1).
  { destruct p as [q|]; [|by apply low_keeps_ret]. eapply low_keeps_bind; [apply keeps_read|]. intros v s' ->. apply low_keeps_ret.
    intros q' v'. destruct (e_present v); [|done]. intros [= <- <-]. by apply Hp. }
  intros [[q v]|] s2 Ho.
  - eapply low_keeps_bind; [apply keeps_write; by eapply Ho|]. intros _ s3 _. by apply low_keeps_ret.
  - eapply low_keeps_bind; [by apply keeps_get_page|]. intros [q|] s3 Hq; [|by apply low_keeps_ret].
    specialize (Hq q eq_refl). eapply low_keeps_bind; [by apply keeps_write|]. intros [] s4 H4.
    eapply low_keeps_bind; [apply (keeps_frames _ _ (fun s' => low s' q.1)); intros f; exact H4|]. intros a s5 H5.
    eapply low_keeps_bind; [by apply keeps_write_addr|]. intros [] s6 H6.
    eapply low_keeps_bind; [apply keeps_read|]. intros v s7 _. by apply low_keeps_ret.
Qed.

Lemma keeps_alloc_loop n i flags s :
  0 <= i -> i + Z.of_nat n <= KHALF * 1024 -> keeps s (alloc_loop n d i flags) (fun _ _ => True).
Proof.
  revert i s. induction n as [|n IH]; intros i s Hi Hn; [by apply low_keeps_ret|]. cbn [alloc_loop].
  eapply low_keeps_bind; [apply keeps_alloc_one; lia|]. intros b s' _. destruct b; [apply IH; lia|by apply low_keeps_ret].
Qed.

(** The kernel's half of the directories [c] and [d] is the same. *)
Definition shares (s : vm) (c : Z) : Prop :=
  exists dc dd, vm_dirs s !! c = Some dc /\ vm_dirs s !! d = Some dd /\
    forall idx, KHALF <= idx -> pd_tables dc !! idx = pd_tables dd !! idx /\ entry dc idx = entry dd idx.

Lemma kernel_index v : KERNEL_VIRTUAL_BASE <= v -> KHALF <= Z.shiftr (Z.shiftr v 12) 10.
Proof.
  unfold KERNEL_VIRTUAL_BASE, KHALF. intros Hv. rewrite Z.shiftr_shiftr, shiftr_div by lia. apply Z.div_le_lower_bound; lia.
Qed.

Lemma shares_translate s c v : shares s c -> KERNEL_VIRTUAL_BASE <= v -> translate_in s c v = translate_in s d v.
Proof.
  intros (dc & dd & Ec & Ed & Hs) Hv%kernel_index. unfold translate_in. rewrite Ec, Ed. cbn.
  destruct (Hs _ Hv) as [-> ->]. done.
Qed.

Lemma shares_keep s s' c : same_high s s' -> shares s c -> shares s' c.
Proof.
  intros (H1 & H2 & _) (dc & dd & Ec & Ed & Hs). destruct (H2 dd Ed) as (dd' & Ed' & Hd').
  destruct (decide (c = d)) as [->|Hne].
  { exists dd', dd'. done. }
  exists dc, dd'. rewrite H1 by done. split; [done|]. split; [done|]. intros idx Hi.
  destruct (Hd' idx Hi) as [-> ->]. by apply Hs.
Qed.

Lemma kernel_translate s s' v :
  dir_ok s d -> same_high s s' -> KERNEL_VIRTUAL_BASE <= v -> translate_in s' d v = translate_in s d v.
Proof.
  intros (dir & Ed & Hex & Hinj) (_ & H2 & H3) Hv%kernel_index. destruct (H2 dir Ed) as (dir' & Ed' & Hd').
  unfold translate_in. rewrite Ed, Ed'. cbn. destruct (Hd' _ Hv) as [-> ->].
  destruct (pd_tables dir !! _) as [t|] eqn:Et; [|done]. destruct (Hex _ _ Et) as [tb Etb].
  assert (Hnl : ~ low s t).
  { intros (dir0 & idx & E0 & Hi & Ex). rewrite Ed in E0. injection E0 as <-. pose proof (Hinj _ _ _ Et Ex). lia. }
  destruct (H3 t tb Etb Hnl) as [-> _]. by rewrite Etb.
Qed.
End high.

(** ** The image *)

Record segment : Type := Segment
  { sg_type : Z; sg_offset : Z; sg_vaddr : Z; sg_filesz : Z; sg_memsz : Z; sg_flags : Z; sg_align : Z }.
Definition is_load (g : segment) : bool := sg_type g =? PT_LOAD.

(** The pages of a segment, and its last address rounded up. *)
Definition seg_end (g : segment) : Z := align_addr (sg_vaddr g + sg_memsz g).
Definition in_pages (g : segment) (j : Z) : Prop := sg_vaddr g / 4096 <= j < seg_end g / 4096.

Section image.
Variable img : Z -> Z.

Definition f16 (o : Z) : Z := le_value (img <$> seqZ o 2).
Definition f32 (o : Z) : Z := le_value (img <$> seqZ o 4).

Definition valid_image : bool :=
  (img 0 =? 0x7f) && (img 1 =? 69) && (img 2 =? 76) && (img 3 =? 70) &&
  (img EI_CLASS =? ELFCLASS32) && (img EI_DATA =? ELFDATA2LSB) && (f16 E_MACHINE =? EM_386) &&
  (img EI_VERSION =? EV_CURRENT) && (img EI_OSABI =? ELFOSABI_NONE) &&
  ((f16 E_TYPE =? ET_REL) || (f16 E_TYPE =? ET_EXEC)).

Definition phnum : Z := f16 E_PHNUM.
Definition phoff : Z := f32 E_PHOFF.
Definition segment_at (o : Z) : segment :=
  Segment (f32 (o + P_TYPE)) (f32 (o + P_OFFSET)) (f32 (o + P_VADDR)) (f32 (o + P_FILESZ)) (f32 (o + P_MEMSZ))
    (f32 (o + P_FLAGS)) (f32 (o + P_ALIGN)).
Definition segments_from (i : Z) (n : nat) : list segment :=
  (fun k => segment_at (phoff + SIZEOF_PHDR * k)) <$> seqZ i (Z.of_nat n).
Definition segments : list segment := segments_from 0 (Z.to_nat phnum).

(** The byte a segment puts at an address, and the byte the program has there:
    that of the last segment that puts one. *)
Definition seg_byte (g : segment) (x : Z) : option Z :=
  if negb (is_load g) then None
  else if decide (sg_vaddr g <= x < sg_vaddr g + sg_filesz g) then Some (img (sg_offset g + (x - sg_vaddr g)))
  else if decide (sg_vaddr g <= x < sg_vaddr g + sg_memsz g) then Some 0
  else None.
Definition put_segment (x : Z) (acc : option Z) (g : segment) : option Z :=
  match seg_byte g x with Some b => Some b | None => acc end.
Definition program_byte (x : Z) : option Z := foldl (put_segment x) None segments.
Definition program_end : Z := foldl (fun b g => if is_load g then Z.max b (seg_end g) else b) 0 segments.

(** What the loader does not check. *)
Definition seg_ok (len : Z) (g : segment) : Prop :=
  sg_type g = PT_PHDR \/
  is_load g = true /\ sg_filesz g <= sg_memsz g /\ sg_vaddr g + sg_memsz g <= KERNEL_VIRTUAL_BASE /\
  sg_offset g + sg_filesz g <= len.
Definition image_ok (len : Z) : Prop :=
  52 <= len /\ valid_image = true /\ 0 < phoff < len /\ phoff + SIZEOF_PHDR * phnum <= len /\
  Forall (seg_ok len) segments.

Lemma le_value_range l : Forall (fun b => 0 <= b < 256) l -> 0 <= le_value l < 256 ^ Z.of_nat (length l).
Proof.
  induction 1 as [|b l Hb Hl IH]; [cbn; lia|]. cbn [le_value foldr length]. fold (le_value l).
  rewrite Nat2Z.inj_succ, Z.pow_succ_r by lia. lia.
Qed.

Context (len : Z) (Hrange : forall i, 0 <= i < len -> 0 <= img i < 256).

Lemma slice_range o n : 0 <= o -> o + n <= len -> Forall (fun b => 0 <= b < 256) (img <$> seqZ o n).
Proof. intros Ho Hn. rewrite Forall_fmap, Forall_forall. intros i Hi%elem_of_seqZ. apply Hrange. lia. Qed.
Lemma f16_range o : 0 <= o -> o + 2 <= len -> 0 <= f16 o < 2 ^ 16.
Proof. intros Ho Hn. apply (le_value_range _ (slice_range o 2 Ho Hn)). Qed.
Lemma f32_range o : 0 <= o -> o + 4 <= len -> 0 <= f32 o < 2 ^ 32.
Proof. intros Ho Hn. apply (le_value_range _ (slice_range o 4 Ho Hn)). Qed.
End image.

(** ** Reading headers *)

Section reading.
Context {F K : Type} `{FrameAlloc F} `{TableAlloc K}.
Notation vm := (@vm F K).
Context (buf len : Z) (img : Z -> Z) (Hbuf : 0 <= buf) (Hlen : buf + len <= 2 ^ 32).

Lemma field16_sees (s : vm) p off o :
  sees s buf len img -> u32 (p + off) = u32 (buf + o) -> 0 <= o -> o + 2 <= len -> field16 p off s = Ok (f16 img o, s).
Proof.
  intros Hs E Ho Hl. unfold field16, vload16. rewrite E.
  mrun (vloads_sees s buf len img 2 o Hs Hbuf Hlen Ho Hl). done.
Qed.
Lemma field32_sees (s : vm) p off o :
  sees s buf len img -> u32 (p + off) = u32 (buf + o) -> 0 <= o -> o + 4 <= len -> field32 p off s = Ok (f32 img o, s).
Proof.
  intros Hs E Ho Hl. unfold field32, vload32. rewrite E.
  mrun (vloads_sees s buf len img 4 o Hs Hbuf Hlen Ho Hl). done.
Qed.
Lemma vload_sees (s : vm) o : sees s buf len img -> 0 <= o < len -> vload (u32 (buf + o)) s = Ok (img o, s).
Proof.
  intros Hs Ho. unfold vload. mgo. rewrite u32_small by lia. by apply deref_some, Hs.
Qed.

Lemma all_of_cons (c : M vm bool) r s b b' :
  c s = Ok (b, s) -> (b = true -> all_of r s = Ok (b', s)) -> all_of (c :: r) s = Ok (b && b', s).
Proof. intros E Er. cbn [all_of]. mrun E. destruct b; [by apply Er|done]. Qed.

Lemma bytes_are_sees (s : vm) l o :
  sees s buf len img -> 0 <= o -> o + Z.of_nat (length l) <= len ->
  bytes_are (u32 (buf + o)) l s = Ok (forallb (fun ob => img ob.1 =? ob.2) (zip (seqZ o (Z.of_nat (length l))) l), s).
Proof.
  intros Hs. revert o. induction l as [|b l IH]; intros o Ho Hl; [done|]. cbn [length] in *.
  rewrite (seqZ_cons o) by lia. cbn [bytes_are zip zip_with forallb fst snd]. mrun (vload_sees s o Hs ltac:(lia)).
  rewrite u32_add_l, <- Z.add_assoc. destruct (img o =? b); [|done]. cbn [andb].
  rewrite IH by lia. do 4 f_equal. f_equal; lia.
Qed.

Lemma Ehdr_valid_sees (s : vm) : sees s buf len img -> 52 <= len -> Ehdr_valid buf s = Ok (valid_image img, s).
Proof.
  intros Hs Hl. unfold Ehdr_valid, valid_image. rewrite <- !andb_assoc.
  assert (Hb : forall off x, 0 <= off < 52 -> field_is (field8 buf off) x s = Ok (img off =? x, s)).
  { intros off x Ho. unfold field_is, field8. mrun (vload_sees s off Hs ltac:(lia)). done. }
  assert (Hh : forall off x, 0 <= off < 51 -> field_is (field16 buf off) x s = Ok (f16 img off =? x, s)).
  { intros off x Ho. unfold field_is. mrun (field16_sees s buf off off Hs eq_refl ltac:(lia) ltac:(lia)). done. }
  rewrite !(andb_assoc (img 0 =? 127)), !(andb_assoc (_ && (img 1 =? 69))), !(andb_assoc (_ && (img 2 =? 76))).
  apply all_of_cons.
  { replace buf with (u32 (buf + 0)) at 1 by (rewrite u32_small; lia).
    rewrite bytes_are_sees by (done || (cbn; lia)). change (seqZ 0 (Z.of_nat (length ELFMAG))) with [0; 1; 2; 3]. cbn. by rewrite andb_true_r, !andb_assoc. }
  intros _. do 5 (apply all_of_cons; [first [apply Hb|apply Hh]; unfold EI_CLASS, EI_DATA, E_MACHINE, EI_VERSION, EI_OSABI; lia|intros _]).
  cbn [all_of]. rewrite bind_assoc. mrun (field16_sees s buf E_TYPE E_TYPE Hs eq_refl ltac:(unfold E_TYPE; lia) ltac:(unfold E_TYPE; lia)).
  mgo. by destruct (_ || _).
Qed.
End reading.

(** ** Allocation of the segments *)

Lemma seg_flags_val : seg_flags = 7.
Proof. reflexivity. Qed.

Lemma entry_flags f : 0 <= f -> e_addr (f * 4096 + 7) = f /\ e_present (f * 4096 + 7) = true.
Proof.
  intros Hf. split.
  - rewrite e_addr_val, Z.add_comm, Z.div_add by lia. done.
  - rewrite (e_present_low _ 7); [done|]. by rewrite Z.add_comm, Z.mod_add.
Qed.

Lemma reflag_val v : 0 <= e_addr v < 2 ^ 20 -> reflag v 7 = e_addr v * 4096 + 7.
Proof.
  intros Hv. unfold reflag. rewrite u32_small by (rewrite shiftl_mul by lia; lia).
  rewrite Z.lor_comm, lor_disjoint_add, shiftl_mul by (lia || apply (land_shift_low 7 _ 12); lia). lia.
Qed.

Lemma page_floor_val a : 0 <= a < 2 ^ 32 -> page_floor a = a / 4096 * 4096.
Proof.
  intros Ha. unfold page_floor. change 0xFFFFF000 with (2 ^ 32 - 2 ^ 12). rewrite land_high by lia.
  change (2 ^ 12) with 4096. pose proof (Z.div_mod a 4096). lia.
Qed.

Lemma page_index_mul k : Z.shiftr (k * 4096) 12 = k.
Proof. rewrite shiftr_div by lia. change (2 ^ 12) with 4096. apply Z.div_mul. lia. Qed.

Lemma align_multiple a : 0 <= a <= 2 ^ 32 - 4096 -> align_addr a = align_addr a / 4096 * 4096.
Proof. intros Ha. destruct (align_addr_spec a Ha) as (_ & Hm & _). pose proof (Z.div_mod (align_addr a) 4096). lia. Qed.

(** A segment of user memory has its pages below the kernel. *)
Lemma seg_pages g :
  0 <= sg_vaddr g -> 0 <= sg_memsz g -> sg_vaddr g + sg_memsz g <= KERNEL_VIRTUAL_BASE ->
  sg_vaddr g / 4096 <= seg_end g / 4096 <= KHALF * 1024 /\ 0 <= sg_vaddr g / 4096 /\ seg_end g = seg_end g / 4096 * 4096.
Proof.
  unfold KERNEL_VIRTUAL_BASE, KHALF, seg_end. intros Hv Hm Hk.
  destruct (align_addr_spec (sg_vaddr g + sg_memsz g)) as (H1 & H2 & H3); [lia|].
  split; [split|split].
  - apply Z.div_le_mono; lia.
  - assert (align_addr (sg_vaddr g + sg_memsz g) / 4096 < 768 * 1024 + 1); [|lia]. apply Z.div_lt_upper_bound; lia.
  - apply Z.div_pos; lia.
  - apply align_multiple. lia.
Qed.

Section allocation.
Context {F K : Type} `{FrameAlloc F} `{TableAlloc K}.
Notation vm := (@vm F K).
Variable d : Z.

Lemma runs_keeps {A} (c : M vm A) s Q R :
  runs (c s) Q -> keeps d s c R -> own s -> runs (c s) (fun a s' => Q a s' /\ own s' /\ same_high d s s').
Proof.
  unfold runs, keeps. intros Hr Hk Ho. specialize (Hk Ho). destruct (c s) as [[a s']|[]]; naive_solver.
Qed.

Lemma vm_ok_own (s : vm) X T : vm_ok s X T -> own s.
Proof. intros (_ & Hk & Ht). by exists T. Qed.

(** [placed s X0 X U]: the pages [U] of [d] are present, in frames of their own
    that were handed out after [X0]. *)
Definition placed (s : vm) (X0 X : gset Z) (U : Z -> Prop) : Prop :=
  (forall j, U j -> 0 <= j /\ exists f, pte s d j = f * 4096 + 7 /\ 0 < f < 2 ^ 20 /\ f ∈ X /\ f ∉ X0) /\
  (forall j k, U j -> U k -> pte s d j = pte s d k -> j = k).

(** Pages that are to be allocated are not present before. *)
Definition fresh (s : vm) (U N : Z -> Prop) : Prop :=
  forall j, N j -> 0 <= j -> U j \/ e_present (pte s d j) = false.

Lemma alloc_block_places s X0 X T U N lo hi :
  0 <= lo <= hi -> hi <= KHALF * 1024 -> dir_ok s d -> vm_ok s X T -> X0 ⊆ X -> placed s X0 X U -> fresh s U N ->
  (forall j, lo <= j < hi -> N j) ->
  runs (alloc_block d (lo * 4096) ((hi - lo) * 4096) seg_flags s) (fun b s' =>
    dir_ok s' d /\ same_mem s s' /\ same_high d s s' /\ exists X' T', vm_ok s' X' T' /\
      (b = false -> oom (F := F) (K := K)) /\
      (b = true -> X ⊆ X' /\ placed s' X0 X' (fun j => U j \/ lo <= j < hi) /\ fresh s' (fun j => U j \/ lo <= j < hi) N)).
Proof.
  intros Hlo Hhi Hd Hv HX HU HN Hr. unfold alloc_block. rewrite !page_index_mul, seg_flags_val.
  unfold KHALF in *. eapply runs_mono.
  { eapply runs_keeps; [apply (alloc_pages_spec s d lo (hi - lo) 7 X T); try done; lia| |by eapply vm_ok_own].
    unfold alloc_pages. rewrite rounds_ok by lia. apply keeps_alloc_loop; unfold KHALF; lia. }
  intros b s' ((Hd' & Hm & X' & T' & Hv' & Hbt & Hbf) & _ & Hsh). split; [done|]. split; [done|]. split; [done|].
  exists X', T'. split; [done|]. split; [intros Hb; by apply Hbf|]. intros Hb.
  destruct (Hbt Hb) as (HXX & A1 & A2 & A3 & A4). rewrite Z2Nat.id in * by lia.
  replace (lo + (hi - lo)) with hi in * by lia. destruct HU as [HU1 HU2].
  assert (Hold : forall j, U j -> pte s' d j = pte s d j).
  { intros j Hj. destruct (HU1 j Hj) as (Hj0 & f & Ef & Hf & _).
    destruct (decide (lo <= j < hi)); [|by apply A4]. destruct (entry_flags f ltac:(lia)) as [Ea Ep].
    rewrite A1 by (done || (rewrite Ef; done)). rewrite Ef, reflag_val by (rewrite Ea; lia). by rewrite Ea. }
  assert (Hnew : forall j, lo <= j < hi -> ~ U j -> exists f, pte s' d j = f * 4096 + 7 /\ 0 < f < 2 ^ 20 /\ f ∈ X' /\ f ∉ X /\
                   e_present (pte s d j) = false).
  { intros j Hj Hn. destruct (HN j (Hr j Hj) ltac:(lia)) as [?|Hp]; [done|].
    destruct (A2 j ltac:(lia) Hj Hp) as (f & ? & ? & ? & ?). by exists f. }
  assert (Hcase : forall j, U j \/ lo <= j < hi -> U j \/ lo <= j < hi /\ ~ U j).
  { intros j [?|?]; [by left|]. destruct (HN j (Hr j ltac:(done)) ltac:(lia)) as [?|Hp]; [by left|].
    right. split; [done|]. intros Hu. destruct (HU1 j Hu) as (_ & f & Ef & Hf & _).
    destruct (entry_flags f ltac:(lia)) as [_ Ep]. rewrite Ef in Hp. congruence. }
  split; [done|]. split; [split|].
  - intros j Hj. destruct (Hcase j Hj) as [Hu|[Hl Hn]].
    + destruct (HU1 j Hu) as (Hj0 & f & Ef & Hf & HfX & HfX0). split; [done|]. exists f. rewrite Hold by done. set_solver.
    + destruct (Hnew j Hl Hn) as (f & Ef & Hf & HfX & HfX0 & _). split; [lia|]. exists f. set_solver.
  - assert (Hmix : forall j k, U j -> lo <= k < hi -> ~ U k -> pte s' d j <> pte s' d k).
    { intros j k Hu Hl Hn. destruct (HU1 j Hu) as (_ & f & Ef & _ & HfX & _). destruct (Hnew k Hl Hn) as (g & Eg & _ & _ & HgX & _).
      rewrite Hold, Ef, Eg by done. intros E. assert (f = g) as -> by lia. done. }
    intros j k Hj Hk E. destruct (Hcase j Hj) as [Uj|[Lj Nj]], (Hcase k Hk) as [Uk|[Lk Nk]].
    + rewrite !Hold in E by done. by apply HU2.
    + exfalso. by eapply (Hmix j k).
    + exfalso. symmetry in E. by eapply (Hmix k j).
    + destruct (decide (j = k)) as [|Hne]; [done|]. exfalso. destruct (Hnew j Lj Nj) as (? & _ & _ & _ & _ & Pj).
      destruct (Hnew k Lk Nk) as (? & _ & _ & _ & _ & Pk). by apply (A3 j k ltac:(lia) ltac:(lia) Lj Lk Hne Pj Pk).
  - intros j Hj Hj0. destruct (decide (lo <= j < hi)); [by left; right|]. destruct (HN j Hj Hj0) as [?|Hp]; [by left; left|].
    right. by rewrite A4.
Qed.
End allocation.

(** ** The first loop *)

Section loading.
Context {F K : Type} `{FrameAlloc F} `{TableAlloc K}.
Notation vm := (@vm F K).
Context (d buf len : Z) (img : Z -> Z).
Context (Hbuf : KERNEL_VIRTUAL_BASE <= buf) (Hlen : buf + len <= 2 ^ 32).
Context (Hhdr : 52 <= len) (Hph0 : 0 <= phoff img) (Hphdrs : phoff img + SIZEOF_PHDR * phnum img <= len).

Lemma buf_pos : 0 <= buf.
Proof. unfold KERNEL_VIRTUAL_BASE in Hbuf. lia. Qed.
#[local] Hint Resolve buf_pos : core.

Lemma sees_keep (s s' : vm) :
  dir_ok s d -> shares d s (vm_cur s) -> same_high d s s' -> same_mem s s' -> sees s buf len img -> sees s' buf len img.
Proof.
  intros Hd Hsh Hhi [Hc Hm] Hs i Hi. rewrite <- (Hs i Hi). unfold vbyte, translate. rewrite Hc, Hm.
  assert (Hv : KERNEL_VIRTUAL_BASE <= buf + i) by lia.
  rewrite (shares_translate d s' (vm_cur s)) by (done || by eapply shares_keep).
  rewrite (kernel_translate d s s') by done. by rewrite (shares_translate d s (vm_cur s)).
Qed.

Definition ph_addr (i : Z) : Z := u32 (buf + (phoff img + SIZEOF_PHDR * i)).

Lemma ph_addr_next i : u32 (ph_addr i + SIZEOF_PHDR) = ph_addr (i + 1).
Proof. unfold ph_addr. rewrite u32_add_l. f_equal. lia. Qed.

Lemma ph_field (s : vm) i off :
  sees s buf len img -> 0 <= i < phnum img -> 0 <= off <= 28 ->
  field32 (ph_addr i) off s = Ok (f32 img (phoff img + SIZEOF_PHDR * i + off), s).
Proof.
  intros Hs Hi Ho. unfold SIZEOF_PHDR in *. apply (field32_sees buf len); try done; unfold ph_addr, SIZEOF_PHDR; try lia.
  rewrite u32_add_l. f_equal. lia.
Qed.
Lemma ph_count (s : vm) : sees s buf len img -> field16 buf E_PHNUM s = Ok (phnum img, s).
Proof. intros Hs. by apply (field16_sees buf len); try done; unfold E_PHNUM; lia. Qed.

Definition seg (i : Z) : segment := segment_at img (phoff img + SIZEOF_PHDR * i).
Lemma segments_from_S i n : segments_from img i (S n) = seg i :: segments_from img (i + 1) n.
Proof.
  unfold segments_from. rewrite seqZ_cons by lia. cbn [fmap list_fmap]. f_equal.
  replace (Z.pred (Z.of_nat (S n))) with (Z.of_nat n) by lia. by replace (Z.succ i) with (i + 1) by lia.
Qed.

Lemma seg_range (s : vm) i off :
  sees s buf len img -> 0 <= i < phnum img -> 0 <= off <= 28 -> 0 <= f32 img (phoff img + SIZEOF_PHDR * i + off) < 2 ^ 32.
Proof.
  intros Hs Hi Ho. unfold SIZEOF_PHDR in *. apply (f32_range img len); [|lia|lia]. intros k Hk.
  by apply (sees_range s buf len).
Qed.

Definition load_pages (l : list segment) (j : Z) : Prop := exists g, g ∈ l /\ is_load g = true /\ in_pages g j.
Definition end_of (b : Z) (g : segment) : Z := if is_load g then Z.max b (seg_end g) else b.

Lemma placed_ext (s : vm) X0 X U V : (forall j, V j <-> U j) -> placed d s X0 X U -> placed d s X0 X V.
Proof. intros E [H1 H2]. split; [intros j Hj; by apply H1, E|]. intros j k Hj%E Hk%E. by apply H2. Qed.

Lemma alloc_segments_ok n : forall fuel i brk (s : vm) X0 X T U N,
  (n <= fuel)%nat -> 0 <= i -> i + Z.of_nat n = phnum img ->
  dir_ok s d -> vm_ok s X T -> X0 ⊆ X -> shares d s (vm_cur s) -> sees s buf len img ->
  placed d s X0 X U -> fresh d s U N -> (forall j, load_pages (segments_from img i n) j -> N j) ->
  Forall (seg_ok len) (segments_from img i n) ->
  runs (alloc_segments fuel buf (ph_addr i) d i brk s) (fun r s' =>
    dir_ok s' d /\ same_mem s s' /\ same_high d s s' /\ exists X' T', vm_ok s' X' T' /\
      (r.1 = Err ENOMEM /\ oom (F := F) (K := K) \/
       r.1 = Val 0 /\ X ⊆ X' /\ r.2 = foldl end_of brk (segments_from img i n) /\
       placed d s' X0 X' (fun j => U j \/ load_pages (segments_from img i n) j))).
Proof.
  induction n as [|n IH]; intros fuel i brk s X0 X T U N Hfuel Hi Hin Hd Hv HX Hsh Hs HU HN Hpg Hok.
  { assert (E : alloc_segments fuel buf (ph_addr i) d i brk s = Ok ((Val 0, brk), s)).
    { destruct fuel; cbn [alloc_segments]; mrun (ph_count s Hs); destruct (Z.leb_spec (phnum img) i); (done || lia). }
    rewrite E. cbn. split; [done|]. split; [done|]. split; [apply same_high_refl|]. exists X, T. split; [done|]. right.
    split; [done|]. split; [done|]. split; [done|]. eapply placed_ext; [|done]. intros j. split; [|by left].
    intros [?|(g & Hg & _)]; [done|]. by apply elem_of_nil in Hg. }
  destruct fuel as [|fuel]; [lia|]. rewrite segments_from_S in *. apply Forall_cons in Hok as [Hg Hok].
  cbn [alloc_segments]. mrun (ph_count s Hs). destruct (Z.leb_spec (phnum img) i); [lia|].
  mrun (ph_field s i P_TYPE Hs ltac:(lia) ltac:(unfold P_TYPE; lia)). change (f32 img _) with (sg_type (seg i)).
  rewrite ph_addr_next. destruct Hg as [Ht|(Hld & Hfs & Hva & Hof)].
  - rewrite Ht. change (PT_PHDR =? PT_PHDR) with true. cbn iota.
    assert (Hnl : is_load (seg i) = false) by (unfold is_load; by rewrite Ht).
    eapply runs_mono; [eapply (IH fuel (i + 1) brk s X0 X T U N); try done; try lia|].
    { intros j (g & Hg & Hr). apply Hpg. exists g. split; [by right|done]. }
    intros r s' (Hd' & Hm & Hhi & X' & T' & Hv' & Hres). split_and!; try done. exists X', T'. split; [done|].
    destruct Hres as [?|(? & ? & ? & Hp)]; [by left|right]. split_and!; try done.
    + cbn [foldl]. unfold end_of at 2. by rewrite Hnl.
    + eapply placed_ext; [|done]. intros j. split; (intros [?|(g & Hg & Hl & Hr)]; [by left|right; exists g]).
      * apply elem_of_cons in Hg as [->|?]; [congruence|done].
      * split; [by right|done].
  - assert (E1 : (sg_type (seg i) =? PT_PHDR) = false) by (unfold is_load in Hld; apply Z.eqb_eq in Hld; by rewrite Hld).
    rewrite E1. assert (E2 : (sg_type (seg i) =? PT_LOAD) = true) by exact Hld. rewrite E2.
    mrun (ph_field s i P_VADDR Hs ltac:(lia) ltac:(unfold P_VADDR; lia)).
    mrun (ph_field s i P_MEMSZ Hs ltac:(lia) ltac:(unfold P_MEMSZ; lia)).
    pose proof (seg_range s i P_VADDR Hs ltac:(lia) ltac:(unfold P_VADDR; lia)) as R1.
    pose proof (seg_range s i P_MEMSZ Hs ltac:(lia) ltac:(unfold P_MEMSZ; lia)) as R2.
    change (f32 img (phoff img + SIZEOF_PHDR * i + P_VADDR)) with (sg_vaddr (seg i)) in *.
    change (f32 img (phoff img + SIZEOF_PHDR * i + P_MEMSZ)) with (sg_memsz (seg i)) in *.
    destruct (seg_pages (seg i) ltac:(lia) ltac:(lia) Hva) as (Hp1 & Hp2 & Hp3). unfold KERNEL_VIRTUAL_BASE in Hva.
    rewrite (u32_small (sg_vaddr (seg i) + sg_memsz (seg i))) by lia. cbv zeta. fold (seg_end (seg i)).
    rewrite page_floor_val by lia. unfold KHALF in Hp1.
    rewrite (u32_small (seg_end (seg i) - _)) by lia. rewrite Hp3 at 1. rewrite <- Z.mul_sub_distr_r.
    eapply runs_bind.
    { eapply (alloc_block_places d s X0 X T U N); try done; unfold KHALF; try lia.
      intros j Hj. apply Hpg. exists (seg i). split; [by left|done]. }
    intros b s1 (Hd1 & Hm1 & Hhi1 & X1 & T1 & Hv1 & Hbf & Hbt). destruct b; cbn [negb]; cycle 1.
    { cbn. split_and!; try done. exists X1, T1. split; [done|]. left. split; [done|]. by apply Hbf. }
    destruct (Hbt eq_refl) as (HX1 & Hpl1 & Hfr1). destruct Hm1 as [Hc1 Hm1].
    eapply runs_mono; [eapply (IH fuel (i + 1) _ s1 X0 X1 T1 _ N);
      [lia|lia|lia|exact Hd1|exact Hv1|by etrans| | |exact Hpl1|exact Hfr1| |exact Hok]|].
    { rewrite Hc1. by eapply shares_keep. }
    { by apply (sees_keep s). }
    { intros j (g & Hg & Hr). apply Hpg. exists g. split; [by right|done]. }
    intros r s' (Hd' & [Hc' Hm'] & Hhi & X' & T' & Hv' & Hres). split; [done|]. split; [split; congruence|].
    split; [by eapply same_high_trans|]. exists X', T'. split; [done|].
    destruct Hres as [?|(? & ? & ? & Hp)]; [by left|right]. split; [done|]. split; [set_solver|]. split.
    + cbn [foldl]. unfold end_of at 2. by rewrite Hld.
    + eapply placed_ext; [|done]. intros j. split.
      * intros [?|(g & Hg & Hl & Hr)]; [by left; left|]. apply elem_of_cons in Hg as [->|?]; [by left; right|].
        right. by exists g.
      * intros [[?|?]|(g & Hg & Hr)]; [by left|right; exists (seg i)|right; exists g]; (split; [set_solver|done]).
Qed.

(** ** The second loop *)

(** The addresses of the program's pages, and those and the image. *)
Definition user (x : Z) : Prop := load_pages (segments img) (x / 4096).
Definition visible (x : Z) : Prop := user x \/ buf <= x < buf + len.

Record filling (s : vm) : Prop := {
  fi_cur : vm_cur s = d;
  fi_dir : dir_ok s d;
  fi_pages : forall j, load_pages (segments img) j -> 0 <= j < KHALF * 1024 /\ e_present (pte s d j) = true;
  fi_owns : owns user visible s;
  fi_sees : sees s buf len img
}.

Lemma image_not_user (s : vm) i : filling s -> 0 <= i < len -> visible (buf + i) /\ ~ user (buf + i).
Proof.
  intros Hf Hi. split; [right; lia|]. intros Hu. destruct (fi_pages s Hf _ Hu) as [Hr _].
  unfold KERNEL_VIRTUAL_BASE, KHALF in *. assert (786432 <= (buf + i) / 4096) by (apply Z.div_le_lower_bound; lia). lia.
Qed.

Lemma filling_upd s s' v n g : filling s -> upd visible s s' v n g -> (forall x, v <= x < v + n -> user x) -> filling s'.
Proof.
  intros Hf Hu HU. pose proof Hu as [Hm _]. pose proof Hm as (_ & _ & Et & Ed & Ec).
  assert (Hp : forall j, pte s' d j = pte s d j) by (intros j; unfold pte, page_of; by rewrite Ed, Et).
  split.
  - rewrite Ec. by apply fi_cur.
  - apply (dir_ok_mono s); [done|by rewrite Et|by apply fi_dir].
  - intros j Hj. rewrite Hp. by apply fi_pages.
  - eapply only_mem_owns; [done|by apply fi_owns].
  - eapply upd_sees; [done|by apply fi_sees| |done]. intros i Hi. by apply (image_not_user s).
Qed.

(** Only the flags of the pages change. *)
Definition same_map (s s' : vm) : Prop := vm_mem s' = vm_mem s /\ forall x, translate s' x = translate s x.

Lemma same_map_vbyte s s' x : same_map s s' -> vbyte s' x = vbyte s x.
Proof. intros [Hm Ht]. unfold vbyte. by rewrite Hm, Ht. Qed.

Lemma page_write_same_map s i p v tb :
  slot s d i p -> e_present v = e_present (pte s d i) -> e_addr v = e_addr (pte s d i) ->
  vm_tables s !! p.1 = Some tb -> same_map s (with_tables (<[p.1 := <[p.2 := v]> tb]> (vm_tables s)) s).
Proof.
  intros (dir & Ed & Et & Ep & _) Hpr Ha Etb. split; [done|]. intros x.
  assert (Hold : pte s d i = pget tb p.2).
  { unfold pte, page_of. rewrite Ed. cbn. rewrite Et. cbn. rewrite Etb. cbn. by rewrite Ep. }
  unfold translate, translate_in. cbn [vm_dirs vm_cur vm_tables with_tables].
  destruct (vm_dirs s !! vm_cur s) as [dc|]; [|done]. cbn [mbind option_bind]. destruct (pd_tables dc !! _) as [t|]; [|done].
  destruct (decide (t = p.1)) as [->|Hne]; [|by rewrite lookup_insert_ne].
  assert (Hg : forall k, pget (<[p.2 := v]> tb) k = if decide (p.2 = k) then v else pget tb k).
  { intros k. unfold pget. destruct (decide (p.2 = k)) as [<-|]; [by rewrite lookup_insert_eq|by rewrite lookup_insert_ne]. }
  rewrite lookup_insert_eq, Etb. cbn [mbind option_bind]. rewrite Hg.
  destruct (decide _) as [<-|Hk]; [by rewrite Hpr, Ha, Hold|done].
Qed.

Lemma clear_rw v : e_present (Z.ldiff v PAGE_RW) = e_present v /\ e_addr (Z.ldiff v PAGE_RW) = e_addr v.
Proof.
  unfold e_present, e_addr, PAGE_RW. split; [rewrite Z.ldiff_spec; cbn; apply andb_true_r|].
  apply Z.bits_inj'. intros k Hk. rewrite !Z.shiftr_spec, Z.ldiff_spec by lia.
  change 2 with (2 ^ 1). rewrite Z.pow2_bits_false by lia. apply andb_true_r.
Qed.

Lemma readonly_step s i p tb :
  filling s -> 0 <= i -> slot s d i p -> vm_tables s !! p.1 = Some tb ->
  let s' := with_tables (<[p.1 := <[p.2 := Z.ldiff (pte s d i) PAGE_RW]> tb]> (vm_tables s)) s in
  page_write p (Z.ldiff (pte s d i) PAGE_RW) s = Ok (tt, s') /\ filling s' /\ same_map s s'.
Proof.
  intros Hf Hi Hs Etb s'. destruct (clear_rw (pte s d i)) as [Hpr Had].
  pose proof (page_write_same_map s i p _ tb Hs Hpr Had Etb) as Hsm. fold s' in Hsm.
  assert (E : page_write p (Z.ldiff (pte s d i) PAGE_RW) s = Ok (tt, s')).
  { unfold page_write, get_table, put_table, set_tables. mgo. mrun (deref_some _ _ s Etb). mgo. done. }
  split; [done|]. split; [|done].
  destruct (page_write_ok s d i p (Z.ldiff (pte s d i) PAGE_RW) Hi Hs (fi_dir s Hf)) as (tb' & E' & _ & Hd' & Hp' & _).
  assert (Es : s' = with_tables (<[p.1 := tb']> (vm_tables s)) s) by congruence. clearbody s'. subst s'. split.
  - exact (fi_cur s Hf).
  - done.
  - intros j Hj. destruct (fi_pages s Hf j Hj) as [Hr Hpj]. split; [done|]. rewrite Hp' by lia.
    destruct (decide (j = i)) as [->|]; [by rewrite Hpr|done].
  - destruct (fi_owns s Hf) as [H1 H2]. destruct Hsm as [_ Ht]. split.
    + intros v Hv. rewrite Ht. by apply H1.
    + intros v v' a. rewrite !Ht. apply H2.
  - intros k Hk. rewrite (same_map_vbyte s) by done. by apply fi_sees.
Qed.

Lemma page_slot s j : filling s -> load_pages (segments img) j -> exists p tb, slot s d j p /\ vm_tables s !! p.1 = Some tb.
Proof.
  intros Hf Hj. destruct (fi_pages s Hf j Hj) as [_ Hp].
  destruct (page_of_slot s d j (fi_dir s Hf)) as [Hn|[p Hs]]; [unfold pte in Hp; by rewrite Hn in Hp|].
  destruct (slot_table s d j p Hs) as [tb E]. by exists p, tb.
Qed.

Lemma readonly_pages_ok n i s :
  filling s -> (forall j, i <= j < i + Z.of_nat n -> load_pages (segments img) j) ->
  exists s', readonly_pages n d i s = Ok (tt, s') /\ filling s' /\ same_map s s'.
Proof.
  revert i s. induction n as [|n IH]; intros i s Hf Hj; [by exists s|]. cbn [readonly_pages].
  assert (Hi : load_pages (segments img) i) by (apply Hj; lia). destruct (fi_pages s Hf i Hi) as [Hr _].
  destruct (page_slot s i Hf Hi) as (p & tb & Hs & Etb). unfold KHALF in Hr.
  mrun (get_page_found s d i false default_flags p ltac:(lia) Hs). mrun (deref_some (Some p) p s eq_refl).
  mrun (page_read_ok s d i p Hs).
  destruct (readonly_step s i p tb Hf ltac:(lia) Hs Etb) as (E & Hf' & [Hm Ht]). mrun E.
  destruct (IH (i + 1) _ Hf') as (s2 & E2 & Hf2 & [Hm2 Ht2]); [intros j Hr2; apply Hj; lia|].
  exists s2. split; [done|]. split; [done|]. split; [congruence|]. intros x. by rewrite Ht2, Ht.
Qed.

Lemma land3 n : 0 <= n -> Z.land n 3 = n mod 4.
Proof. intros. change 3 with (Z.ones 2). by apply Z.land_ones. Qed.

(** The addresses of a segment are on its pages. *)
Lemma seg_user i x :
  0 <= i < phnum img -> is_load (seg i) = true -> 0 <= sg_vaddr (seg i) -> 0 <= sg_memsz (seg i) ->
  sg_vaddr (seg i) + sg_memsz (seg i) <= KERNEL_VIRTUAL_BASE ->
  sg_vaddr (seg i) <= x < sg_vaddr (seg i) + sg_memsz (seg i) -> user x.
Proof.
  intros Hi Hl Hv Hm Hk Hx. exists (seg i). split; [|split; [done|]].
  - unfold segments, segments_from. apply list_elem_of_fmap. exists i. split; [done|]. apply elem_of_seqZ. lia.
  - destruct (seg_pages (seg i) Hv Hm Hk) as (_ & _ & He). unfold in_pages. unfold KERNEL_VIRTUAL_BASE in Hk.
    destruct (align_addr_spec (sg_vaddr (seg i) + sg_memsz (seg i))) as (A1 & _ & _); [lia|]. fold (seg_end (seg i)) in A1.
    split; [apply Z.div_le_mono; lia|]. apply Z.div_lt_upper_bound; lia.
Qed.

Section one_segment.
Context (i : Z) (Hi : 0 <= i < phnum img) (Hld : is_load (seg i) = true).
Context (Hfs : sg_filesz (seg i) <= sg_memsz (seg i)).
Context (Hva : sg_vaddr (seg i) + sg_memsz (seg i) <= KERNEL_VIRTUAL_BASE).
Context (Hof : sg_offset (seg i) + sg_filesz (seg i) <= len).

Lemma seg_nonneg (s : vm) : sees s buf len img ->
  0 <= sg_offset (seg i) < 2 ^ 32 /\ 0 <= sg_vaddr (seg i) < 2 ^ 32 /\ 0 <= sg_filesz (seg i) /\ 0 <= sg_memsz (seg i).
Proof.
  intros Hs. pose proof (seg_range s i P_OFFSET Hs Hi ltac:(unfold P_OFFSET; lia)).
  pose proof (seg_range s i P_VADDR Hs Hi ltac:(unfold P_VADDR; lia)).
  pose proof (seg_range s i P_FILESZ Hs Hi ltac:(unfold P_FILESZ; lia)).
  pose proof (seg_range s i P_MEMSZ Hs Hi ltac:(unfold P_MEMSZ; lia)).
  split_and!; apply H1 || apply H2 || apply H3 || apply H4.
Qed.

Lemma seg_field (s : vm) : sees s buf len img ->
  field32 (ph_addr i) P_OFFSET s = Ok (sg_offset (seg i), s) /\ field32 (ph_addr i) P_VADDR s = Ok (sg_vaddr (seg i), s) /\
  field32 (ph_addr i) P_FILESZ s = Ok (sg_filesz (seg i), s) /\ field32 (ph_addr i) P_MEMSZ s = Ok (sg_memsz (seg i), s) /\
  field32 (ph_addr i) P_FLAGS s = Ok (sg_flags (seg i), s) /\ field32 (ph_addr i) P_ALIGN s = Ok (sg_align (seg i), s).
Proof.
  intros Hs. split_and!; apply ph_field; try done;
    unfold P_OFFSET, P_VADDR, P_FILESZ, P_MEMSZ, P_FLAGS, P_ALIGN; lia.
Qed.

Lemma copy_contents_ok s :
  filling s -> exists s', copy_contents buf (ph_addr i) s = Ok (tt, s') /\ filling s' /\
    upd visible s s' (sg_vaddr (seg i)) (sg_filesz (seg i)) (fun x => img (sg_offset (seg i) + (x - sg_vaddr (seg i)))).
Proof.
  intros Hf. pose proof (fi_sees s Hf) as Hs. destruct (seg_nonneg s Hs) as (N1 & N2 & N3 & N4).
  destruct (seg_field s Hs) as (E1 & E2 & E3 & _). unfold copy_contents. mrun E3. mrun E2. mrun E1.
  assert (HU : forall x, sg_vaddr (seg i) <= x < sg_vaddr (seg i) + sg_filesz (seg i) -> user x).
  { intros x Hx. apply (seg_user i); try done; try lia. }
  assert (Hgo : forall w n, Z.of_nat (w * n) = sg_filesz (seg i) ->
    exists s', vmovs w n (sg_vaddr (seg i)) (u32 (buf + sg_offset (seg i))) s = Ok (tt, s') /\ filling s' /\
      upd visible s s' (sg_vaddr (seg i)) (sg_filesz (seg i)) (fun x => img (sg_offset (seg i) + (x - sg_vaddr (seg i))))).
  { intros w n Hn. unfold KERNEL_VIRTUAL_BASE in Hva.
    destruct (vmovs_upd user visible w n s (sg_vaddr (seg i)) buf (sg_offset (seg i)) len img) as (s' & E & Hu);
      rewrite ?Hn; try done; try lia; try auto.
    - by apply fi_owns.
    - intros k Hk. by apply (image_not_user s).
    - rewrite u32_small in E by lia. rewrite Hn in Hu. exists s'. split; [done|]. split; [|done].
      by eapply filling_upd. }
  rewrite land3 by lia. destruct (Z.eqb_spec (sg_filesz (seg i) mod 4) 0) as [Hm|Hm]; cbn [negb]; apply Hgo.
  - pose proof (Z.div_mod (sg_filesz (seg i)) 4). pose proof (Z.div_pos (sg_filesz (seg i)) 4). lia.
  - lia.
Qed.

Lemma clear_rest_ok s :
  filling s -> exists s', clear_rest (ph_addr i) s = Ok (tt, s') /\ filling s' /\
    upd visible s s' (sg_vaddr (seg i) + sg_filesz (seg i)) (sg_memsz (seg i) - sg_filesz (seg i)) (fun _ => 0).
Proof.
  intros Hf. pose proof (fi_sees s Hf) as Hs. destruct (seg_nonneg s Hs) as (N1 & N2 & N3 & N4).
  destruct (seg_field s Hs) as (_ & E2 & E3 & E4 & _). unfold clear_rest. mrun E4. mrun E3.
  destruct (Z.ltb_spec (sg_filesz (seg i)) (sg_memsz (seg i))); cycle 1.
  { exists s. split; [done|]. split; [done|]. replace (sg_memsz (seg i) - sg_filesz (seg i)) with 0 by lia. apply upd_0. }
  mrun E2. cbv zeta.
  assert (Hgo : forall w n, Z.of_nat (w * n) = sg_memsz (seg i) - sg_filesz (seg i) ->
    exists s', vzeros w n (u32 (sg_vaddr (seg i) + sg_filesz (seg i))) s = Ok (tt, s') /\ filling s' /\
      upd visible s s' (sg_vaddr (seg i) + sg_filesz (seg i)) (sg_memsz (seg i) - sg_filesz (seg i)) (fun _ => 0)).
  { intros w n Hn. unfold KERNEL_VIRTUAL_BASE in Hva.
    assert (HU : forall x, sg_vaddr (seg i) + sg_filesz (seg i) <= x <
      sg_vaddr (seg i) + sg_filesz (seg i) + (sg_memsz (seg i) - sg_filesz (seg i)) -> user x).
    { intros x Hx. apply (seg_user i); try done; try lia. }
    destruct (vzeros_upd user visible w n s (sg_vaddr (seg i) + sg_filesz (seg i))) as (s' & E & Hu);
      rewrite ?Hn; try done; try lia.
    - by apply fi_owns.
    - rewrite Hn in Hu. exists s'. split; [done|]. split; [|done]. by eapply filling_upd. }
  rewrite land3 by lia. destruct (Z.eqb_spec ((sg_memsz (seg i) - sg_filesz (seg i)) mod 4) 0) as [Hm|Hm]; cbn [negb]; apply Hgo.
  - pose proof (Z.div_mod (sg_memsz (seg i) - sg_filesz (seg i)) 4).
    pose proof (Z.div_pos (sg_memsz (seg i) - sg_filesz (seg i)) 4). lia.
  - lia.
Qed.

Lemma protect_ok s :
  filling s -> exists s', protect d (ph_addr i) s = Ok (tt, s') /\ filling s' /\ same_map s s'.
Proof.
  intros Hf. pose proof (fi_sees s Hf) as Hs. destruct (seg_nonneg s Hs) as (N1 & N2 & N3 & N4).
  destruct (seg_field s Hs) as (_ & E2 & _ & E4 & E5 & E6). unfold protect. mrun E6. mrun E5.
  destruct ((4096 <=? sg_align (seg i)) && (Z.land (sg_flags (seg i)) PF_W =? 0)); [|by exists s].
  mrun E2. mrun E4. cbv zeta. destruct (seg_pages (seg i) ltac:(lia) ltac:(lia) Hva) as (P1 & P2 & P3).
  unfold KERNEL_VIRTUAL_BASE in Hva. rewrite (u32_small (sg_vaddr (seg i) + sg_memsz (seg i))) by lia. fold (seg_end (seg i)).
  rewrite page_floor_val, page_index_mul by lia. 
  replace (seg_end (seg i) - sg_vaddr (seg i) / 4096 * 4096)
    with ((seg_end (seg i) / 4096 - sg_vaddr (seg i) / 4096) * 4096) by lia. rewrite Z.div_mul by lia.
  apply readonly_pages_ok; [done|]. intros j Hj. exists (seg i). split; [|split; [done|unfold in_pages; lia]].
  unfold segments, segments_from. apply list_elem_of_fmap. exists i. split; [done|]. apply elem_of_seqZ. lia.
Qed.

Lemma fill_segment_ok s :
  filling s -> exists s', (copy_contents buf (ph_addr i);;; clear_rest (ph_addr i);;; protect d (ph_addr i)) s = Ok (tt, s') /\
    filling s' /\ forall x, visible x -> vbyte s' x = put_segment img x (vbyte s x) (seg i).
Proof.
  intros Hf. destruct (seg_nonneg s (fi_sees s Hf)) as (_ & _ & N3 & N4). destruct (copy_contents_ok s Hf) as (s1 & E1 & Hf1 & [_ U1]). mrun E1.
  destruct (clear_rest_ok s1 Hf1) as (s2 & E2 & Hf2 & [_ U2]). mrun E2.
  destruct (protect_ok s2 Hf2) as (s3 & E3 & Hf3 & Hsm). exists s3. split; [done|]. split; [done|].
  intros x Hx. rewrite (same_map_vbyte s2), U2, U1 by done. unfold put_segment, seg_byte. rewrite Hld. cbn [negb].
  repeat case_decide; try lia; done.
Qed.
End one_segment.

Lemma copy_segments_ok n : forall fuel i s,
  (n <= fuel)%nat -> 0 <= i -> i + Z.of_nat n = phnum img -> filling s -> Forall (seg_ok len) (segments_from img i n) ->
  exists s', copy_segments fuel buf (ph_addr i) d i s = Ok (tt, s') /\ filling s' /\
    forall x, visible x -> vbyte s' x = foldl (put_segment img x) (vbyte s x) (segments_from img i n).
Proof.
  induction n as [|n IH]; intros fuel i s Hfuel Hi Hin Hf Hok.
  { exists s. split; [|done]. destruct fuel; cbn [copy_segments]; mrun (ph_count s (fi_sees s Hf));
      destruct (Z.leb_spec (phnum img) i); (done || lia). }
  destruct fuel as [|fuel]; [lia|]. rewrite segments_from_S in *. apply Forall_cons in Hok as [Hg Hok].
  cbn [copy_segments]. mrun (ph_count s (fi_sees s Hf)). destruct (Z.leb_spec (phnum img) i); [lia|].
  mrun (ph_field s i P_TYPE (fi_sees s Hf) ltac:(lia) ltac:(unfold P_TYPE; lia)). change (f32 img _) with (sg_type (seg i)).
  assert (Hone : exists s1, (if sg_type (seg i) =? PT_PHDR then ret tt
      else copy_contents buf (ph_addr i);;; clear_rest (ph_addr i);;; protect d (ph_addr i)) s = Ok (tt, s1) /\
      filling s1 /\ forall x, visible x -> vbyte s1 x = put_segment img x (vbyte s x) (seg i)).
  { destruct Hg as [Ht|(Hld & Hfs & Hva & Hof)].
    - rewrite Ht. exists s. split; [done|]. split; [done|]. intros x _. unfold put_segment, seg_byte, is_load. by rewrite Ht.
    - assert (Ht : (sg_type (seg i) =? PT_PHDR) = false) by (unfold is_load in Hld; apply Z.eqb_eq in Hld; by rewrite Hld).
      rewrite Ht. apply fill_segment_ok; try done; lia. }
  destruct Hone as (s1 & E1 & Hf1 & U1). mrun E1. rewrite ph_addr_next.
  destruct (IH fuel (i + 1) s1) as (s2 & E2 & Hf2 & U2); [lia..|done|done|].
  exists s2. split; [done|]. split; [done|]. intros x Hx. rewrite U2, U1 by done. done.
Qed.

(** ** The whole *)

Lemma translate_present (s : vm) c x :
  e_present (pte s c (x / 4096)) = true -> translate_in s c x = Some (e_addr (pte s c (x / 4096)) * 4096 + x mod 4096).
Proof.
  unfold pte, page_of, translate_in. rewrite (shiftr_div x 12) by lia. change (2 ^ 12) with 4096.
  destruct (vm_dirs s !! c) as [dir|]; [|done]. cbn [mbind option_bind].
  destruct (pd_tables dir !! _) as [t|]; [|done]. cbn [mbind option_bind]. destruct (vm_tables s !! t) as [tb|]; [|done].
  cbn [mbind option_bind default from_option]. unfold id. by intros ->.
Qed.

Lemma put_segment_acc x l b : foldl (put_segment img x) None l = Some b -> forall acc, foldl (put_segment img x) acc l = Some b.
Proof.
  revert b. induction l as [|g l IH] using rev_ind; intros b; [done|]. rewrite foldl_app. cbn [foldl]. intros E acc.
  rewrite foldl_app. cbn [foldl]. unfold put_segment in *. destruct (seg_byte img g x); [done|]. by apply IH.
Qed.

Lemma put_segment_some x l b : foldl (put_segment img x) None l = Some b -> exists g, g ∈ l /\ is_Some (seg_byte img g x).
Proof.
  induction l as [|g l IH] using rev_ind; [done|]. rewrite foldl_app. cbn [foldl]. unfold put_segment at 1.
  destruct (seg_byte img g x) eqn:E; intros Hb.
  - exists g. split; [set_solver|by rewrite E].
  - destruct (IH Hb) as (g' & Hg & Hs). exists g'. split; [set_solver|done].
Qed.

Lemma in_segments g : g ∈ segments img -> exists i, 0 <= i < phnum img /\ g = seg i.
Proof.
  unfold segments, segments_from. intros (i & -> & Hi%elem_of_seqZ)%list_elem_of_fmap. exists i. split; [lia|done].
Qed.

Lemma load_seg_ok g : Forall (seg_ok len) (segments img) -> g ∈ segments img -> is_load g = true ->
  sg_filesz g <= sg_memsz g /\ sg_vaddr g + sg_memsz g <= KERNEL_VIRTUAL_BASE /\ sg_offset g + sg_filesz g <= len.
Proof.
  rewrite Forall_forall. intros Hok Hg Hl. destruct (Hok g Hg) as [Ht|(_ & ? & ? & ?)]; [|done].
  unfold is_load in Hl. by rewrite Ht in Hl.
Qed.

Lemma load_pages_low (s : vm) j :
  sees s buf len img -> Forall (seg_ok len) (segments img) -> load_pages (segments img) j -> 0 <= j < KHALF * 1024.
Proof.
  intros Hs Hok (g & Hg & Hl & Hj). destruct (load_seg_ok g Hok Hg Hl) as (_ & Hva & _).
  destruct (in_segments g Hg) as (i & Hi & ->). destruct (seg_nonneg i Hi s Hs) as (_ & N2 & _ & N4).
  destruct (seg_pages (seg i) ltac:(lia) N4 Hva) as (P1 & P2 & _). unfold in_pages in Hj. lia.
Qed.

Lemma program_byte_user (s : vm) x b :
  sees s buf len img -> Forall (seg_ok len) (segments img) -> program_byte img x = Some b -> user x.
Proof.
  intros Hs Hok Hb. destruct (put_segment_some x _ b Hb) as (g & Hg & [b' Hsb]). unfold seg_byte in Hsb.
  destruct (is_load g) eqn:Hl; [cbn [negb] in Hsb|done]. destruct (load_seg_ok g Hok Hg Hl) as (Hf & Hva & _).
  destruct (in_segments g Hg) as (i & Hi & ->). destruct (seg_nonneg i Hi s Hs) as (_ & N2 & _ & N4).
  apply (seg_user i); try done; try lia. repeat case_decide; try lia. done.
Qed.

(** After the first loop and the switch, the pages can be filled. *)
Lemma filling_start (s s1 : vm) X X' :
  Forall (seg_ok len) (segments img) -> dir_ok s d -> shares d s (vm_cur s) -> sees s buf len img ->
  (forall i, 0 <= i < len -> exists a, translate_in s d (buf + i) = Some a /\ a / 4096 ∈ X) ->
  dir_ok s1 d -> same_mem s s1 -> same_high d s s1 -> placed d s1 X X' (load_pages (segments img)) ->
  filling (Vm (vm_frames s1) (vm_kmem s1) (vm_tables s1) (vm_dirs s1) d (vm_mem s1)).
Proof.
  intros Hok Hd Hsh Hs Hfr Hd1 [Hc1 Hm1] Hhi [P1 P2]. set (s2 := Vm _ _ _ _ _ _).
  assert (Hpte : forall j, pte s2 d j = pte s1 d j) by done.
  assert (Hk : forall i, 0 <= i < len -> translate s2 (buf + i) = translate_in s d (buf + i)).
  { intros i Hi. change (translate s2 (buf + i)) with (translate_in s1 d (buf + i)). apply kernel_translate; try done. lia. }
  assert (Hu : forall x, user x -> exists f, pte s1 d (x / 4096) = f * 4096 + 7 /\ f ∉ X /\
                 translate s2 x = Some (f * 4096 + x mod 4096)).
  { intros x Hx. destruct (P1 _ Hx) as (_ & f & Ef & Hf & _ & HfX). exists f. split; [done|]. split; [done|].
    destruct (entry_flags f ltac:(lia)) as [Ea Ep]. change (translate s2 x) with (translate_in s1 d x).
    rewrite translate_present by (by rewrite Ef). by rewrite Ef, Ea. }
  split.
  - done.
  - destruct Hd1 as (dir & E & Hr). by exists dir.
  - intros j Hj. split; [by apply (load_pages_low s)|]. destruct (P1 j Hj) as (_ & f & Ef & Hf & _). rewrite Hpte, Ef.
    apply entry_flags. lia.
  - split.
    + intros v Hv. destruct (Hu v Hv) as (f & _ & _ & ->). eauto.
    + intros v v' a Hv Hv' E E'. destruct (Hu v Hv) as (f & Ef & HfX & Et). rewrite Et in E. injection E as <-.
      assert (Hdiv : forall q r, (q * 4096 + r mod 4096) / 4096 = q).
      { intros q r. rewrite Z.add_comm, Z.div_add by lia. rewrite Z.div_small by (apply Z.mod_pos_bound; lia). lia. }
      destruct Hv' as [Hv'|Hv'].
      * destruct (Hu v' Hv') as (f' & Ef' & _ & Et'). rewrite Et' in E'. injection E' as E'.
        assert (f' = f) as -> by (rewrite <- (Hdiv f' v'), E'; apply Hdiv).
        assert (Hpg : v' / 4096 = v / 4096) by (apply P2; [done|done|congruence]).
        rewrite (Z.div_mod v' 4096), (Z.div_mod v 4096), Hpg by lia. lia.
      * replace v' with (buf + (v' - buf)) in E' by lia. rewrite Hk in E' by lia.
        destruct (Hfr (v' - buf) ltac:(lia)) as (a & Ea & HaX). rewrite Ea in E'. injection E' as ->.
        rewrite Hdiv in HaX. done.
  - intros i Hi. rewrite <- (Hs i Hi). unfold vbyte. rewrite Hk by done. cbn [s2 vm_mem]. rewrite Hm1. unfold translate.
    by rewrite (shares_translate d s (vm_cur s)) by (done || lia).
Qed.
End loading.

Section load.
Context {F K : Type} `{FrameAlloc F} `{TableAlloc K}.
Notation vm := (@vm F K).


(** what the loader refuses: a null pointer is a fault, and an image whose
    header is not that of a 32-bit little-endian executable or object file for
    this processor, or that has no program headers, is not executable; nothing
    changes then. *)
Theorem elf_load_rejects d buf len img (s : vm) :
  0 <= buf -> buf + len <= 2 ^ 32 -> 52 <= len -> sees s buf len img ->
  load 0 d s = Ok ((Err EFAULT, None, None), s) /\
  load buf 0 s = Ok ((Err EFAULT, None, None), s) /\
  (buf <> 0 -> d <> 0 -> valid_image img = false \/ phoff img = 0 ->
   load buf d s = Ok ((Err ENOEXEC, None, None), s)).
Proof.
  intros Hb Hlen Hl Hs. split; [done|]. split; [unfold load; by rewrite orb_true_r|]. intros Hb0 Hd0 Hbad.
  unfold load. destruct (Z.eqb_spec buf 0); [done|]. destruct (Z.eqb_spec d 0); [done|]. cbn [orb].
  mrun (Ehdr_valid_sees buf len img Hb Hlen s Hs Hl). destruct (valid_image img); [|done]. cbn [negb].
  destruct Hbad as [?|Hz]; [done|]. unfold get_phdr. rewrite bind_assoc.
  mrun (field32_sees buf len img Hb Hlen s buf E_PHOFF E_PHOFF Hs eq_refl ltac:(unfold E_PHOFF; lia) ltac:(unfold E_PHOFF; lia)).
  change (f32 img E_PHOFF) with (phoff img). rewrite Hz. mgo. done.
Qed.
End load.
