(* ===== verification/ElfEnv.v ===== *)
(** * Loading a small program

    An image of one segment, in a frame the allocator has handed out and that
    the kernel sees at the start of its half. *)

From S2P Require Import Prelude MemLayout Buddy BuddySpec PageDir PageDirSpec PageEnv AddrSpace RbTree Proc Sched ProcCalls ProcEnv Elf ElfSpec.
From stdpp Require Import gmap list.
#[local] Open Scope Z_scope.

Definition le16 (v : Z) : list Z := [v mod 256; v / 256 mod 256].
Definition le32 (v : Z) : list Z := le16 (v mod 65536) ++ le16 (v / 65536).

(** Header, program header, and four bytes to be loaded at 4 MB. *)
Definition prog : list Z :=
  [0x7f; 69; 76; 70; 1; 1; 1; 0; 0; 0; 0; 0; 0; 0; 0; 0] ++
  le16 2 ++ le16 3 ++ le32 1 ++ le32 0x400000 ++ le32 52 ++ le32 0 ++ le32 0 ++
  le16 52 ++ le16 32 ++ le16 1 ++ le16 0 ++ le16 0 ++ le16 0 ++
  le32 PT_LOAD ++ le32 84 ++ le32 0x400000 ++ le32 0 ++ le32 4 ++ le32 16 ++ le32 5 ++ le32 4096 ++
  [0xde; 0xad; 0xbe; 0xef].
Definition prog_img (i : Z) : Z := default 0 (prog !! Z.to_nat i).
Definition prog_len : Z := Z.of_nat (length prog).
Definition prog_words : gmap Z Z :=
  list_to_map ((fun k => (Z.of_nat k, le_value (prog_img <$> seqZ (4 * Z.of_nat k) 4))) <$> seq 0 22).

Definition elf_vm (f : Z) (e : frames) : @vm frames PageEnv.supply :=
  Vm e supply0 {[ 60 := {[ 0 := f * 4096 + 3 ]} ]} {[ 16 := PDir ∅ {[ 768 := 60 ]} 0 ]} 16 {[ f := prog_words ]}.

Lemma prog_segments : segments prog_img = [Segment PT_LOAD 84 0x400000 4 16 5 4096].
Proof. vm_compute. reflexivity. Qed.

Lemma prog_ok : image_ok prog_img prog_len.
Proof.
  split; [vm_compute; done|]. split; [vm_compute; done|]. split; [vm_compute; done|]. split; [vm_compute; done|].
  rewrite prog_segments. apply Forall_singleton. right. vm_compute. done.
Qed.

Lemma prog_pages j : load_pages (segments prog_img) j -> j = 1024.
Proof.
  rewrite prog_segments. intros (g & Hg & _ & Hj). apply list_elem_of_singleton in Hg as ->. unfold in_pages, seg_end in Hj.
  cbn [sg_vaddr sg_memsz] in Hj. change (0x400000 / 4096) with 1024 in Hj.
  change (align_addr (0x400000 + 16) / 4096) with 1025 in Hj. lia.
Qed.

Section state.
Context (f : Z) (e : frames) (Hf : 0 < f < 2 ^ 20) (He : buddy_held e {[ f ]}).

Lemma elf_translate i : 0 <= i < prog_len -> translate_in (elf_vm f e) 16 (KERNEL_VIRTUAL_BASE + i) = Some (f * 4096 + i).
Proof.
  intros Hi. assert (Hi' : i < 4096) by (change prog_len with 88 in Hi; lia).
  assert (Ep : pte (elf_vm f e) 16 (0xC0000 + 0) = f * 4096 + 3) by reflexivity.
  assert (Hpg : (KERNEL_VIRTUAL_BASE + i) / 4096 = 0xC0000 + 0 /\ (KERNEL_VIRTUAL_BASE + i) mod 4096 = i).
  { split; symmetry; [apply (Z.div_unique _ _ _ i)|apply (Z.mod_unique _ _ 0xC0000)]; unfold KERNEL_VIRTUAL_BASE; lia. }
  destruct Hpg as [Hq Hr]. rewrite translate_present; rewrite Hq, Ep.
  - rewrite Hr. do 2 f_equal. rewrite e_addr_val. f_equal. symmetry. apply (Z.div_unique _ _ _ 3); lia.
  - rewrite (e_present_low _ 3); [done|]. by rewrite Z.add_comm, Z.mod_add.
Qed.

Lemma prog_bytes :
  forallb (fun k => let i := Z.of_nat k in word_byte (default 0 (prog_words !! (i / 4))) (i mod 4) =? prog_img i) (seq 0 88) = true.
Proof. vm_compute. reflexivity. Qed.

Lemma elf_sees : sees (elf_vm f e) KERNEL_VIRTUAL_BASE prog_len prog_img.
Proof.
  intros i Hi. unfold vbyte. change (translate (elf_vm f e)) with (translate_in (elf_vm f e) 16).
  rewrite elf_translate by done. cbn [fmap option_fmap option_map]. f_equal. change prog_len with 88 in Hi.
  pose proof prog_bytes as Hb. rewrite forallb_forall in Hb.
  specialize (Hb (Z.to_nat i) ltac:(apply in_seq; lia)). cbv zeta in Hb. rewrite Z2Nat.id in Hb by lia.
  apply Z.eqb_eq in Hb. rewrite <- Hb. unfold phys_byte, phys_word, frame_words, elf_vm. cbn [vm_mem].
  rewrite (Z.add_comm _ i), Z.div_add, Z.mod_add, (Z.div_small i), (Z.mod_small i 4096) by lia.
  rewrite Z.add_0_l, lookup_singleton_eq. cbn [default from_option]. unfold id. f_equal.
  replace (i + f * 4096) with (i + f * 1024 * 4) by lia. by rewrite Z.mod_add.
Qed.

Lemma elf_vm_ok : vm_ok (elf_vm f e) {[ f ]} {[ 50; 60 ]}.
Proof.
  split; [done|]. split; [apply supply0_inv|]. intros t [x Hx]. cbn in Hx. apply lookup_singleton_Some in Hx. set_solver.
Qed.

Lemma elf_dir_ok : dir_ok (elf_vm f e) 16.
Proof.
  eexists. split; [reflexivity|]. cbn. split.
  - intros i t E. apply lookup_singleton_Some in E as [_ <-]. by exists {[ 0 := f * 4096 + 3 ]}.
  - intros i j t E1 E2. apply lookup_singleton_Some in E1 as [<- _]. by apply lookup_singleton_Some in E2 as [<- _].
Qed.
End state.


Lemma elf_load_rejects_witness :
  exists f e, load KERNEL_VIRTUAL_BASE 0 (elf_vm f e) = Ok ((Err EFAULT, None, None), elf_vm f e).
Proof.
  destruct boot_frame as (f & e & Hf & He). exists f, e.
  destruct (elf_load_rejects 16 KERNEL_VIRTUAL_BASE prog_len prog_img (elf_vm f e)) as (_ & E & _).
  - done.
  - vm_compute. done.
  - vm_compute. done.
  - by apply elf_sees.
  - exact E.
Defined.

(** The same on the boot state, evaluated: the bytes, the end of the segment,
    and its page, which is read-only. *)
Lemma prog_loads :
  match (_ <-- alloc_frames 0;; get) boot_state with
  | Ok (e, _) =>
    match load KERNEL_VIRTUAL_BASE 16 (elf_vm 3072 e) with
    | Ok (r, s') => r = (Val 0, Some 0x400000, Some 0x401000) /\
        vbyte s' 0x400000 = Some 0xde /\ vbyte s' 0x40000f = Some 0 /\ vbyte s' 0x401000 = None /\
        Z.testbit (pte s' 16 1024) 1 = false
    | Stop _ => False
    end
  | Stop _ => False
  end.
Proof. vm_compute. auto. Qed.

(** ** From the image to a running process

    [init]'s loop over two copies of the program, then the first scheduling
    decision. *)

Definition load_program {F K : Type} `{FrameAlloc F} `{TableAlloc K} (buf d : Z) : M (@vm F K) (option (Z * Z)) :=
  r <-- load buf d;;
  match r with (Val 0, Some entry, Some brk) => ret (Some (entry, brk)) | _ => ret None end.

Definition tables40 : PageEnv.supply := (fun k => (0x10000 + 0x1000 * Z.of_nat k, 0x20000 + 0x1000 * Z.of_nat k)) <$> seq 0 40.

Definition boot_vm (e : frames) : @vm frames PageEnv.supply :=
  Vm e tables40 (vm_tables (elf_vm 3072 e)) (vm_dirs (elf_vm 3072 e)) 16 (vm_mem (elf_vm 3072 e)).

Lemma first_process_runs :
  match (_ <-- alloc_frames 0;; get) boot_state with
  | Ok (e, _) =>
    match (init_loop 16 [load_program KERNEL_VIRTUAL_BASE; load_program KERNEL_VIRTUAL_BASE];;;
           schedule sigs 16 None) (ps_boot (boot_vm e) 5 7 6 0x100000) with
    | Ok (SRun p _, s') =>
      match procs s' !! p with
      | Some x => r_eip (state (pr_cpu x)) = 0x400000 /\ vbyte (pvm s') 0x400003 = Some 0xef /\
          vbyte (pvm s') (PROC_STACK_TOP - 4) <> None /\ rb_sz (run_queue s') = 2
      | None => False
      end
    | _ => False
    end
  | Stop _ => False
  end.
Proof. vm_compute. repeat split; discriminate. Qed.
