(* ===== verification/Syscall.v ===== *)
(** * System calls (include/sys/syscall.h, kernel/syscall/syscall.cpp, entry.s)

    The user side puts the number of the call and up to four words in
    registers; the entry code checks the number, pushes the words as arguments
    and jumps through the table.  A call is the function that runs with the
    arguments it takes off the stack; what the functions do is in the files on
    processes, files and memory. *)

From S2P Require Import Prelude Proc.
From stdpp Require Import list.
#[local] Open Scope Z_scope.

Inductive call : Type :=
| Exit (status : Z) | Clone (flags : Z) | Getpid | Waitpid (pid status options : Z) | Nanosleep (ns : Z)
| Open (path flags mode : Z) | Close (fd : Z) | Read (fd buf count : Z) | Write (fd buf count : Z)
| Lseek (fd poffset whence : Z) | Brk (addr : Z).

(** ** The user side *)

Record uregs : Type := URegs { eax : Z; edi : Z; esi : Z; edx : Z; ecx : Z }.

(** [_SYSCALL0] to [_SYSCALL3]; the registers a call does not set are whatever
    they were. *)
Definition SYSCALL0 (id : Z) (r : uregs) : uregs := URegs id (edi r) (esi r) (edx r) (ecx r).
Definition SYSCALL1 (id a1 : Z) (r : uregs) : uregs := URegs id (u32 a1) (esi r) (edx r) (ecx r).
Definition SYSCALL2 (id a1 a2 : Z) (r : uregs) : uregs := URegs id (u32 a1) (u32 a2) (edx r) (ecx r).
Definition SYSCALL3 (id a1 a2 a3 : Z) (r : uregs) : uregs := URegs id (u32 a1) (u32 a2) (u32 a3) (ecx r).

Definition sys_exit (status : Z) : uregs -> uregs := SYSCALL1 0 status.
Definition sys_clone (flags : Z) : uregs -> uregs := SYSCALL1 1 flags.
Definition sys_getpid : uregs -> uregs := SYSCALL0 2.
Definition sys_waitpid (pid status options : Z) : uregs -> uregs := SYSCALL3 3 pid status options.
Definition sys_nanosleep (ns_low ns_high : Z) : uregs -> uregs := SYSCALL2 4 ns_low ns_high.
Definition sys_open (path flags mode : Z) : uregs -> uregs := SYSCALL3 5 path flags mode.
Definition sys_close (fd : Z) : uregs -> uregs := SYSCALL1 6 fd.
Definition sys_read (fd buf count : Z) : uregs -> uregs := SYSCALL3 7 fd buf count.
Definition sys_write (fd buf count : Z) : uregs -> uregs := SYSCALL3 8 fd buf count.
Definition sys_lseek (fd poffset whence : Z) : uregs -> uregs := SYSCALL3 9 fd poffset whence.
Definition sys_brk (addr : Z) : uregs -> uregs := SYSCALL1 10 addr.

(** ** The kernel side *)

(** [_nanosleep] *)
Definition nanosleep_arg (ns_low ns_high : Z) : Z := u64 (ns_low + u64 (Z.shiftl ns_high 32)).

(** The functions of the table, on the four words on the stack. *)
Definition syscall_table : list (Z -> Z -> Z -> Z -> call) := [
  (fun a _ _ _ => Exit a);
  (fun a _ _ _ => Clone a);
  (fun _ _ _ _ => Getpid);
  (fun a b c _ => Waitpid a b c);
  (fun a b _ _ => Nanosleep (nanosleep_arg a b));
  (fun a b c _ => Open a b c);
  (fun a _ _ _ => Close a);
  (fun a b c _ => Read a b c);
  (fun a b c _ => Write a b c);
  (fun a b c _ => Lseek a b c);
  (fun a _ _ _ => Brk a)].

Definition SYSCALL_COUNT : Z := 11.

(** [syscall_entry]: the comparison is the signed one of [jge]; an index outside
    the table is a jump to whatever is there. *)
Definition syscall_entry (r : uregs) : outcome (errno + call) :=
  if SYSCALL_COUNT <=? i32 (eax r) then Ok (inl ENOSYS)
  else
    match (if i32 (eax r) <? 0 then None else syscall_table !! Z.to_nat (eax r)) with
    | Some f => Ok (inr (f (edi r) (esi r) (edx r) (ecx r)))
    | None => Stop Fault
    end.

Lemma nanosleep_arg_val lo hi : nanosleep_arg (u32 lo) (u32 hi) = u32 lo + u32 hi * 2 ^ 32.
Proof.
  pose proof (u32_range lo). pose proof (u32_range hi). unfold nanosleep_arg, u64.
  rewrite shiftl_mul, (wrap_small 64 (u32 hi * _)), wrap_small by lia. done.
Qed.

